(* ===== verification/_CoqProject ===== *)
-Q . S2P
Prelude.v
CTypes.v
RingBuffer.v
SmallMem.v
RtList.v
Timer.v
KService.v
Kernel.v
KernelSpec.v
KernelThms.v
Ipc.v
IpcSpec.v
IpcThms.v
MqThms.v
MemPool.v
DevIpc.v
CString.v
Printf.v
Device.v
I2cBit.v
Nca9555.v
App.v
Rfid.v
Serial.v
