(* ===== verification/Prelude.v ===== *)
(** * Verification of the WL164001 firmware: root of the development

    WL164001 is the firmware of a key cabinet on an STM32F103: the RT-Thread
    kernel (rt-thread/), its drivers (rt-thread/components/drivers/ and
    drivers/), and the application (applications/).  Paths below are relative
    to src/WL164001/.  The configuration is the one of rtconfig.h: one core,
    32 priorities, a 1000 Hz tick, soft timers, the small-memory heap, all
    five IPC objects, the software I2C bus, one board without a slave.

    ** How the parts fit together

    The kernel's lists are intrusive ([RtList]).  The scheduler and the
    threads ([Kernel]) keep them for the ready threads, find the highest
    priority with the search of [KService], and use the timers ([Timer]) to
    sleep; the tick interrupt runs the timers and the time slices.  The IPC
    objects ([Ipc]) suspend threads in lists of their own and hand over to
    them through the scheduler.  The heap ([SmallMem]) is a component of its
    own, and so are the ring buffer ([RingBuffer]), the routines on memory and
    strings ([CString]) and the formatted output ([Printf]).  Drivers are
    reached through the device layer ([Device]).  The application ([App],
    [Rfid]) opens three port expanders as devices; their driver ([Nca9555])
    writes registers by I2C messages; the software master ([I2cBit]) puts
    these on two open-drain wires.  The application's theorems are about the
    registers of the expanders, those of the driver about messages, and
    [nca9555_write_on_the_wire] about the wires.  The card reader's bytes come
    through the serial framework ([Serial]), which is fed by the DMA channel of
    its driver and uses the completions and data queues of [DevIpc].

    ** The files, in dependency order

    - [Prelude]: outcomes of C code ([result]: a value, a failed RT_ASSERT, a
      wild access, or a loop out of fuel), buffers, tactics, hint databases.
    - [CTypes]: machine integers, alignment and error codes (include/rtdef.h).
    - [RingBuffer]: components/drivers/src/ringbuffer.c.
    - [SmallMem]: src/mem.c.
    - [RtList]: the lists of include/rtservice.h.
    - [Timer]: src/timer.c and the tick of src/clock.c, over any kernel state
      that has a timer state (class [HasTimers], implemented in [Kernel]).
    - [KService]: the bit search of src/kservice.c and cpuport.c.
    - [Kernel]: src/scheduler.c, thread.c, irq.c; [KernelSpec] is its
      invariant, [KernelThms] the properties.
    - [Ipc]: src/ipc.c and the life of its objects (object.c); [IpcSpec],
      [IpcThms] and [MqThms] hold the invariants and the properties.
    - [CString]: the memory and string routines of src/kservice.c.
    - [Printf]: rt_vsnprintf and its family, of src/kservice.c.
    - [MemPool]: src/mempool.c, on the kernel state.
    - [DevIpc]: completion.c and dataqueue.c of components/drivers/src, on the
      kernel state.
    - [Device]: src/device.c.
    - [I2cBit]: components/drivers/i2c/i2c-bit-ops.c and the pins of
      drivers/drv_soft_i2c.c.
    - [Nca9555]: drivers/drv_i2c_nca9555.c.
    - [App]: applications/hw_module, the thread turns of app/app_work.c and
      rfid_printf of M606_module/M606_tool.c.
    - [Rfid]: the rest of applications/M606_module/M606_tool.c.
    - [Serial]: components/drivers/serial/serial.c over any driver, and the
      part of drivers/drv_usart.c that reports what the DMA channel received.

    ** How state and operations correspond to the code

    A C struct is a [Record] with the struct's field names; a function is the
    [Definition] of its name, which takes the state and returns the new one.
    Objects that the code reaches through pointers are kept in maps by their
    address ([kernel], [registry], the stores of [RtList] and [SmallMem]); a
    null pointer is [None] or 0.  A loop is a [Fixpoint] on the number of its
    turns, or runs with fuel where that is not structural.  A function that
    gives up the processor in the middle is two definitions: the part up to
    its rt_schedule, and [..._wake] for the part after it.  What runs with
    interrupts disabled is one step; the functions that enable them in the
    middle (message queues, transmission by DMA) are split at these points and
    interleaved.  Unsigned integers are reduced at their width where the code
    may overflow, and so are the pointers of [Printf]; signed overflow wraps.

    Interfaces: [HasTimers] (timers to the kernel, whose critical sections the
    loop of the soft timers leaves and enters), [rt_device_ops] (drivers to
    the device layer; they read and write members of the struct), [I2cBus]
    (bus to the chip driver), [rt_uart_ops] (UART to the serial framework),
    [Sink] (what formatted output writes to), and two classes that state data
    sheets of hardware: [Slave] (anything on the wires) and [Chip] (the
    registers of the expander).  [Decode] reads the symbols of the bus off the
    levels of the lines, where both sides can pull; [polite] says that a slave
    keeps to the protocol.

    ** What the theorems show

    - Invariants and safety: every sequence of thread operations keeps the
      kernel consistent ([kernel_ops_safe]); clients of the heap that free what
      they own are safe ([heap_clients_are_safe]); no interleaving breaks a
      message queue ([mq_interleavings]); [scan_rfid] keeps its types and
      leaves its arrays in one place only ([scan_rfid_typed]); a lock coil is
      powered for one pulse only ([elec_action_pulses]); the lamps follow the
      keys, from the first time a key is in ([key_status_led_shows]).
    - Refinement of abstract objects: ring buffer and mailbox are bounded
      queues, lists are lists, timers are a sorted list, a device is a counter
      of users with what its driver sees, an I2C transfer is the transcript of
      its messages, reception by DMA is a stream.
    - Function of each operation on each branch: scheduling, sleeping,
      priorities and their inheritance, semaphores, events, allocation,
      debouncing, port expander, decoding of codes, formatted output.
    - Round trips: free after malloc, stop after start, find after register,
      reading a number that was printed.
    - Termination and liveness: I2C transfers return; where a loop of the code
      can run for ever ([rt_soft_timer_check_can_hang]) the theorem says so.

    A theorem whose property holds under conditions only names them in its
    comment: the periods of [rt_timer_check_fires_due], the one writer of
    [serial_dma_tx_in_order], the slave of [i2c_bit_xfer_transcript], the
    address space of [rt_vsnprintf_truncates]; a lemma beside it shows what
    happens without them.  Several theorems state behaviour that the code does not intend; these
    are listed as findings of the manifest.

    ** Fuel

    [iterate] and the fuelled loops return [Err F_fuel] when the fuel is used
    up; a theorem that says a function returns excludes it.  The heap searches
    get one turn for each byte of the heap, and every block is larger; the
    timer loops one for each due timer, and the theorem on rt_timer_check is
    stated for any fuel above their number; the copy loops one for each byte;
    the wait for a clock line, [scl_wait], as many turns as its time-out can
    hold, as [i2c_bit_xfer_returns] proves; the string search one for each
    character of the text.  The loops of hanging functions are shown to use up
    every fuel.

    ** Not modelled

    Vendor code (STM32 HAL, CMSIS, cubemx), code of third parties and code
    that this configuration does not compile (file systems, network stacks,
    USB, slab and memheap allocators, SMP); the context switch and the
    interrupt entry (assembly); the register-level drivers of drivers/; the
    shell, work queues, pipes and the other device frameworks; stacks, hooks
    and the names of objects.  The manifest lists each with its reason. *)
From stdpp Require Import base list gmap.
From Stdlib Require Import ZArith Lia.
Open Scope Z_scope.

(** ** Outcomes of C code

    C code that the models execute either returns a value or meets one of
    three faults.  [F_assert] is a failing [RT_ASSERT]; [F_wild] is an access
    outside the object a pointer designates; [F_fuel] is a loop that used up
    the iterations the model grants it. *)
Inductive fault : Type :=
  | F_assert
  | F_wild
  | F_fuel.

Inductive result (A : Type) : Type :=
  | Ok (a : A)
  | Err (f : fault).
Arguments Ok {A} a.
Arguments Err {A} f.

#[export] Instance fault_eq_dec : EqDecision fault.
Proof. solve_decision. Defined.

#[export] Instance result_eq_dec {A} `{EqDecision A} : EqDecision (result A).
Proof. solve_decision. Defined.

#[export] Instance result_ret : MRet result := fun A a => Ok a.

#[export] Instance result_bind : MBind result := fun A B k m =>
  match m with Ok a => k a | Err f => Err f end.

#[export] Instance result_fmap : FMap result := fun A B g m =>
  match m with Ok a => Ok (g a) | Err f => Err f end.

(** [RT_ASSERT (b)]. *)
Definition rt_assert (b : bool) : result unit :=
  if b then Ok tt else Err F_assert.

(** A pointer dereference that may miss. *)
Definition deref {A} (o : option A) : result A :=
  match o with Some a => Ok a | None => Err F_wild end.

(** ** Byte buffers

    [zslice l off n] reads [n] cells at [off]; [zblit l off src] is
    [memcpy (&l[off], src, length src)]; both fault outside the buffer. *)
Definition in_range (off n len : Z) : bool :=
  (0 <=? off) && (0 <=? n) && (off + n <=? len).

Definition zlen {A} (l : list A) : Z := Z.of_nat (length l).

Definition zslice {A} (l : list A) (off n : Z) : result (list A) :=
  if in_range off n (zlen l)
  then Ok (take (Z.to_nat n) (drop (Z.to_nat off) l))
  else Err F_wild.

Definition zblit {A} (l : list A) (off : Z) (src : list A) : result (list A) :=
  if in_range off (zlen src) (zlen l)
  then Ok (take (Z.to_nat off) l ++ src ++ drop (Z.to_nat off + length src) l)
  else Err F_wild.

Definition zget {A} (l : list A) (i : Z) : result A :=
  if 0 <=? i then deref (l !! Z.to_nat i) else Err F_wild.

Definition zset {A} (l : list A) (i : Z) (x : A) : result (list A) :=
  if in_range i 1 (zlen l) then Ok (<[Z.to_nat i := x]> l) else Err F_wild.

(** Bounded iteration of a loop body: [inl s] continues, [inr b] leaves. *)
Fixpoint iterate {S B} (fuel : nat) (body : S -> result (S + B)) (s : S)
  : result B :=
  match fuel with
  | O => Err F_fuel
  | S n =>
      x ← body s;
      match x with
      | inl s' => iterate n body s'
      | inr b => Ok b
      end
  end.

(** ** Tactics *)

(** Turn every boolean comparison into its proposition. *)
Ltac bool_prop :=
  repeat match goal with
  | H : (_ && _)%bool = true |- _ => apply andb_true_iff in H; destruct H
  | H : (_ || _)%bool = false |- _ => apply orb_false_iff in H; destruct H
  | H : (_ <=? _) = true |- _ => apply Z.leb_le in H
  | H : (_ <=? _) = false |- _ => apply Z.leb_gt in H
  | H : (_ <? _) = true |- _ => apply Z.ltb_lt in H
  | H : (_ <? _) = false |- _ => apply Z.ltb_ge in H
  | H : (_ =? _) = true |- _ => apply Z.eqb_eq in H
  | H : (_ =? _) = false |- _ => apply Z.eqb_neq in H
  | H : negb _ = true |- _ => apply negb_true_iff in H
  | H : negb _ = false |- _ => apply negb_false_iff in H
  end.

(** Case analysis on the comparison a branch of the code tests. *)
Ltac case_bool :=
  match goal with
  | |- context [ ?a <=? ?b ] => destruct (Z.leb_spec a b)
  | |- context [ ?a <? ?b ] => destruct (Z.ltb_spec a b)
  | |- context [ ?a =? ?b ] => destruct (Z.eqb_spec a b)
  end.

(** Closed comparisons of integers, decided by evaluation. *)
Ltac zdec :=
  repeat split;
  first [ apply Z.leb_le; reflexivity | apply Z.ltb_lt; reflexivity
        | apply Z.eqb_eq; reflexivity | reflexivity | lia ].

(** Expose the next step of a monadic computation. *)
Ltac red_bind := cbn [mbind result_bind mret result_ret fmap result_fmap].

Ltac inv_clear H := inversion H; subst; clear H.

(** Linear arithmetic with division and modulo by constants. *)
Ltac dlia := Z.to_euclidean_division_equations; lia.

(** [x ∉ l] for a closed list. *)
Ltac not_in :=
  repeat (apply not_elem_of_cons; split; [done|]); apply not_elem_of_nil.

(** [x ∈ l] for a closed list. *)
Ltac in_list := solve [repeat first [left | right]].

Create HintDb rtt discriminated.
Create Rewrite HintDb rtt.

(** ** Lemmas on outcomes and buffers *)

Lemma bind_Ok_inv {A B} (m : result A) (k : A -> result B) b :
  mbind k m = Ok b -> exists a, m = Ok a /\ k a = Ok b.
Proof. destruct m as [a|f]; [by exists a|done]. Qed.

(** The computation returns. *)
Definition is_Ok {A} (m : result A) : Prop := exists a, m = Ok a.

Lemma is_Ok_Ok {A} (a : A) : is_Ok (Ok a).
Proof. by exists a. Qed.

Lemma is_Ok_bind {A B} (m : result A) (k : A -> result B) :
  is_Ok m -> (forall a, m = Ok a -> is_Ok (k a)) -> is_Ok (mbind k m).
Proof. intros [a ->] Hk. by apply Hk. Qed.

Lemma rt_assert_true (b : bool) : b = true -> rt_assert b = Ok tt.
Proof. by intros ->. Qed.

Lemma rt_assert_inv (b : bool) u : rt_assert b = Ok u -> b = true.
Proof. by destruct b. Qed.

Lemma in_range_spec off n len :
  in_range off n len = true <-> 0 <= off /\ 0 <= n /\ off + n <= len.
Proof. unfold in_range. rewrite !andb_true_iff, !Z.leb_le. tauto. Qed.

Lemma zlen_nonneg {A} (l : list A) : 0 <= zlen l.
Proof. unfold zlen. lia. Qed.

Lemma zlen_app {A} (l k : list A) : zlen (l ++ k) = zlen l + zlen k.
Proof. unfold zlen. rewrite length_app. lia. Qed.

Lemma zlen_take {A} (l : list A) n :
  0 <= n <= zlen l -> zlen (take (Z.to_nat n) l) = n.
Proof. unfold zlen. intros. rewrite length_take. lia. Qed.

Lemma zlen_drop {A} (l : list A) n :
  0 <= n <= zlen l -> zlen (drop (Z.to_nat n) l) = zlen l - n.
Proof. unfold zlen. intros. rewrite length_drop. lia. Qed.

Lemma zslice_Ok {A} (l : list A) off n :
  0 <= off -> 0 <= n -> off + n <= zlen l ->
  zslice l off n = Ok (take (Z.to_nat n) (drop (Z.to_nat off) l)).
Proof.
  intros. unfold zslice.
  by rewrite (proj2 (in_range_spec _ _ _)) by lia.
Qed.

Lemma zblit_Ok {A} (l : list A) off src :
  0 <= off -> off + zlen src <= zlen l ->
  zblit l off src =
    Ok (take (Z.to_nat off) l ++ src ++ drop (Z.to_nat off + length src) l).
Proof.
  intros. unfold zblit. pose proof (zlen_nonneg src).
  by rewrite (proj2 (in_range_spec _ _ _)) by lia.
Qed.

Lemma zblit_length {A} (l l' : list A) off src :
  zblit l off src = Ok l' -> length l' = length l.
Proof.
  unfold zblit. destruct (in_range _ _ _) eqn:E; [|done].
  apply in_range_spec in E as (?&?&?). unfold zlen in *.
  intros [= <-]. rewrite !length_app, length_take, length_drop. lia.
Qed.

Lemma zget_Ok {A} (l : list A) i x :
  0 <= i -> l !! Z.to_nat i = Some x -> zget l i = Ok x.
Proof. intros Hi Hx. unfold zget. rewrite (proj2 (Z.leb_le _ _) Hi). by rewrite Hx. Qed.

Lemma zset_Ok {A} (l : list A) i x :
  0 <= i < zlen l -> zset l i x = Ok (<[Z.to_nat i := x]> l).
Proof. intros. unfold zset. by rewrite (proj2 (in_range_spec _ _ _)) by lia. Qed.

Lemma Forall2_app_iff {A B} (P : A -> B -> Prop) l1 l2 k1 k2 :
  length l1 = length k1 ->
  Forall2 P (l1 ++ l2) (k1 ++ k2) <-> Forall2 P l1 k1 /\ Forall2 P l2 k2.
Proof.
  intros Hl. split; [|by intros [??]; apply Forall2_app].
  revert k1 Hl; induction l1 as [|a l1 IH]; intros [|b k1] Hl; try discriminate; cbn.
  - by split.
  - intros H. inversion H as [|???? Hab H']; subst. apply IH in H' as [? ?]; [|by injection Hl].
    by split; [constructor|].
Qed.

Lemma iterate_step {S B} n (body : S -> result (S + B)) s :
  iterate (Datatypes.S n) body s =
    x ← body s; match x with inl s' => iterate n body s' | inr b => Ok b end.
Proof. done. Qed.

#[export] Hint Resolve zlen_nonneg is_Ok_Ok : rtt.
#[export] Hint Rewrite @zlen_app : rtt.
