(* ===== verification/CTypes.v ===== *)
(** * Machine integers and the constants of rtdef.h

    The firmware runs on a 32-bit Cortex-M3: [rt_base_t] and [rt_ubase_t] are
    32 bits wide (include/rtdef.h).  An unsigned C expression is the integer it
    denotes reduced by [u8], [u16] or [u32]; a signed one is kept as an
    integer, with the places that convert between the two written out. *)
From S2P Require Import Prelude.
From stdpp Require Import base list.
From Stdlib Require Import ZArith Lia.
Open Scope Z_scope.

Definition u8 (x : Z) : Z := x mod 256.
Definition u15 (x : Z) : Z := x mod 32768.
Definition u16 (x : Z) : Z := x mod 65536.
Definition u32 (x : Z) : Z := x mod 4294967296.

(** Conversion of a 32-bit pattern to [int] and of a 16-bit one to [short]. *)
Definition s32 (x : Z) : Z :=
  let y := u32 x in if y <? 2147483648 then y else y - 4294967296.
Definition s16 (x : Z) : Z :=
  let y := u16 x in if y <? 32768 then y else y - 65536.

(** Error codes; the functions return their negation. *)
Definition RT_EOK : Z := 0.
Definition RT_ERROR : Z := 1.
Definition RT_ETIMEOUT : Z := 2.
Definition RT_EFULL : Z := 3.
Definition RT_EEMPTY : Z := 4.
Definition RT_ENOMEM : Z := 5.
Definition RT_ENOSYS : Z := 6.
Definition RT_EBUSY : Z := 7.
Definition RT_EIO : Z := 8.
Definition RT_EINTR : Z := 9.
Definition RT_EINVAL : Z := 10.

Definition RT_UINT32_MAX : Z := 4294967295.
Definition RT_TICK_MAX : Z := RT_UINT32_MAX.
Definition RT_ALIGN_SIZE : Z := 4.

(** [RT_ALIGN (size, align)] on an unsigned 32-bit [size]. *)
Definition RT_ALIGN (size align : Z) : Z :=
  Z.land (u32 (size + align - 1)) (Z.lnot (align - 1)).

Definition RT_ALIGN_DOWN (size align : Z) : Z :=
  Z.land size (Z.lnot (align - 1)).

(** ** Lemmas *)

Lemma u8_range x : 0 <= u8 x < 256.
Proof. unfold u8. dlia. Qed.
Lemma u15_range x : 0 <= u15 x < 32768.
Proof. unfold u15. dlia. Qed.
Lemma u16_range x : 0 <= u16 x < 65536.
Proof. unfold u16. dlia. Qed.
Lemma u32_range x : 0 <= u32 x < 4294967296.
Proof. unfold u32. dlia. Qed.

Lemma u8_small x : 0 <= x < 256 -> u8 x = x.
Proof. unfold u8. intros. dlia. Qed.
Lemma u15_small x : 0 <= x < 32768 -> u15 x = x.
Proof. unfold u15. intros. dlia. Qed.
Lemma u16_small x : 0 <= x < 65536 -> u16 x = x.
Proof. unfold u16. intros. dlia. Qed.
Lemma u32_small x : 0 <= x < 4294967296 -> u32 x = x.
Proof. unfold u32. intros. dlia. Qed.

Lemma land_lnot_low x k : 0 <= k ->
  Z.land x (Z.lnot (2 ^ k - 1)) = 2 ^ k * (x / 2 ^ k).
Proof.
  intros Hk. rewrite <- Z.ldiff_land.
  replace (2 ^ k - 1) with (Z.ones k) by (rewrite Z.ones_equiv; lia).
  rewrite Z.ldiff_ones_r by done.
  rewrite Z.shiftl_mul_pow2, Z.shiftr_div_pow2 by done. lia.
Qed.

Lemma RT_ALIGN_DOWN_4 x : RT_ALIGN_DOWN x 4 = 4 * (x / 4).
Proof. exact (land_lnot_low x 2 ltac:(lia)). Qed.

Lemma RT_ALIGN_4_u32 x : RT_ALIGN x 4 = 4 * (u32 (x + 3) / 4).
Proof.
  unfold RT_ALIGN. replace (x + 4 - 1) with (x + 3) by lia.
  exact (land_lnot_low (u32 (x + 3)) 2 ltac:(lia)).
Qed.

Lemma RT_ALIGN_4 x : 0 <= x -> x + 3 < 4294967296 ->
  RT_ALIGN x 4 = 4 * ((x + 3) / 4).
Proof.
  intros. unfold RT_ALIGN.
  replace (x + 4 - 1) with (x + 3) by lia.
  rewrite u32_small by lia.
  exact (land_lnot_low (x + 3) 2 ltac:(lia)).
Qed.

#[export] Hint Resolve u8_range u15_range u16_range u32_range : rtt.
