(* ===== verification/RingBuffer.v ===== *)
(** * The byte ring buffer (components/drivers/src/ringbuffer.c)

    [Circ] proves what circular reads and writes of an array do; [Fifo] is the
    abstract bounded queue; [Ring] is the C code on its struct, with the
    mirror bits and 15-bit indices; the theorems say that the code refines
    the queue, and where [rt_ringbuffer_put_force] does not. *)
From S2P Require Import Prelude CTypes.
From stdpp Require Import base list.
From Stdlib Require Import ZArith Lia.
Open Scope Z_scope.

(** ** The struct and its operations, as written in the C file *)
Module Ring.

(** [struct rt_ringbuffer]; the 1-bit mirror fields are booleans. *)
Record rt_ringbuffer : Type := mk_ringbuffer {
  buffer_ptr : list Z;
  read_mirror : bool;
  read_index : Z;
  write_mirror : bool;
  write_index : Z;
  buffer_size : Z
}.

Inductive rt_ringbuffer_state : Type :=
  | RT_RINGBUFFER_EMPTY
  | RT_RINGBUFFER_FULL
  | RT_RINGBUFFER_HALFFULL.

(** Assignments to the fields; an index is truncated to its 15 bits. *)
Definition set_write (rb : rt_ringbuffer) (b : list Z) (m : bool) (i : Z)
  : rt_ringbuffer :=
  mk_ringbuffer b (read_mirror rb) (read_index rb) m (u15 i) (buffer_size rb).

Definition set_read (rb : rt_ringbuffer) (m : bool) (i : Z) : rt_ringbuffer :=
  mk_ringbuffer (buffer_ptr rb) m (u15 i) (write_mirror rb) (write_index rb)
    (buffer_size rb).

Definition rt_ringbuffer_status (rb : rt_ringbuffer) : rt_ringbuffer_state :=
  if read_index rb =? write_index rb then
    if eqb (read_mirror rb) (write_mirror rb)
    then RT_RINGBUFFER_EMPTY
    else RT_RINGBUFFER_FULL
  else RT_RINGBUFFER_HALFFULL.

Definition rt_ringbuffer_init (pool : list Z) (size : Z) : result rt_ringbuffer :=
  _ ← rt_assert (0 <? size);
  Ok (mk_ringbuffer pool false 0 false 0
        (s16 (RT_ALIGN_DOWN size RT_ALIGN_SIZE))).

Definition rt_ringbuffer_data_len (rb : rt_ringbuffer) : Z :=
  match rt_ringbuffer_status rb with
  | RT_RINGBUFFER_EMPTY => 0
  | RT_RINGBUFFER_FULL => u32 (buffer_size rb)
  | RT_RINGBUFFER_HALFFULL =>
      if read_index rb <? write_index rb
      then u32 (write_index rb - read_index rb)
      else u32 (buffer_size rb - (read_index rb - write_index rb))
  end.

(** The macro [rt_ringbuffer_space_len] of include/ipc/ringbuffer.h. *)
Definition rt_ringbuffer_space_len (rb : rt_ringbuffer) : Z :=
  u32 (buffer_size rb - rt_ringbuffer_data_len rb).

Definition rt_ringbuffer_get_size (rb : rt_ringbuffer) : Z :=
  u16 (buffer_size rb).

(** The two [memcpy] calls of the wrapping case of [put] and [put_force]. *)
Definition copy_in_wrapped (rb : rt_ringbuffer) (ptr : list Z) (length : Z)
  : result (list Z) :=
  let room := buffer_size rb - write_index rb in
  s1 ← zslice ptr 0 room;
  b1 ← zblit (buffer_ptr rb) (write_index rb) s1;
  s2 ← zslice ptr room (length - room);
  zblit b1 0 s2.

Definition rt_ringbuffer_put (rb : rt_ringbuffer) (ptr : list Z) (length : Z)
  : result (rt_ringbuffer * Z) :=
  let size := u16 (rt_ringbuffer_space_len rb) in
  if size =? 0 then Ok (rb, 0)
  else
    let length := if size <? length then size else length in
    if length <? buffer_size rb - write_index rb then
      s ← zslice ptr 0 length;
      b ← zblit (buffer_ptr rb) (write_index rb) s;
      Ok (set_write rb b (write_mirror rb) (write_index rb + length), length)
    else
      b ← copy_in_wrapped rb ptr length;
      Ok (set_write rb b (negb (write_mirror rb))
            (length - (buffer_size rb - write_index rb)), length).

Definition rt_ringbuffer_put_force (rb : rt_ringbuffer) (ptr : list Z) (length : Z)
  : result (rt_ringbuffer * Z) :=
  let space_length := u16 (rt_ringbuffer_space_len rb) in
  src ← (if buffer_size rb <? length
         then zslice ptr (length - buffer_size rb) (zlen ptr - (length - buffer_size rb))
         else Ok ptr);
  let length := if buffer_size rb <? length then u16 (buffer_size rb) else length in
  if length <? buffer_size rb - write_index rb then
    s ← zslice src 0 length;
    b ← zblit (buffer_ptr rb) (write_index rb) s;
    let rb1 := set_write rb b (write_mirror rb) (write_index rb + length) in
    Ok (if space_length <? length
        then set_read rb1 (read_mirror rb1) (write_index rb1)
        else rb1, length)
  else
    b ← copy_in_wrapped rb src length;
    let rb1 := set_write rb b (negb (write_mirror rb))
                 (length - (buffer_size rb - write_index rb)) in
    Ok (if space_length <? length
        then set_read rb1 (negb (read_mirror rb1)) (write_index rb1)
        else rb1, length).

Definition rt_ringbuffer_get (rb : rt_ringbuffer) (ptr : list Z) (length : Z)
  : result (rt_ringbuffer * list Z * Z) :=
  let size := rt_ringbuffer_data_len rb in
  if size =? 0 then Ok (rb, ptr, 0)
  else
    let length := if size <? length then u16 size else length in
    if length <? buffer_size rb - read_index rb then
      s ← zslice (buffer_ptr rb) (read_index rb) length;
      p ← zblit ptr 0 s;
      Ok (set_read rb (read_mirror rb) (read_index rb + length), p, length)
    else
      let room := buffer_size rb - read_index rb in
      s1 ← zslice (buffer_ptr rb) (read_index rb) room;
      p1 ← zblit ptr 0 s1;
      s2 ← zslice (buffer_ptr rb) 0 (length - room);
      p2 ← zblit p1 room s2;
      Ok (set_read rb (negb (read_mirror rb)) (length - room), p2, length).

Definition rt_ringbuffer_putchar (rb : rt_ringbuffer) (ch : Z)
  : result (rt_ringbuffer * Z) :=
  if rt_ringbuffer_space_len rb =? 0 then Ok (rb, 0)
  else
    b ← zset (buffer_ptr rb) (write_index rb) ch;
    if write_index rb =? buffer_size rb - 1
    then Ok (set_write rb b (negb (write_mirror rb)) 0, 1)
    else Ok (set_write rb b (write_mirror rb) (write_index rb + 1), 1).

Definition rt_ringbuffer_putchar_force (rb : rt_ringbuffer) (ch : Z)
  : result (rt_ringbuffer * Z) :=
  let old_state := rt_ringbuffer_status rb in
  b ← zset (buffer_ptr rb) (write_index rb) ch;
  if write_index rb =? buffer_size rb - 1 then
    let rb1 := set_write rb b (negb (write_mirror rb)) 0 in
    Ok (match old_state with
        | RT_RINGBUFFER_FULL =>
            set_read rb1 (negb (read_mirror rb1)) (write_index rb1)
        | _ => rb1
        end, 1)
  else
    let rb1 := set_write rb b (write_mirror rb) (write_index rb + 1) in
    Ok (match old_state with
        | RT_RINGBUFFER_FULL => set_read rb1 (read_mirror rb1) (write_index rb1)
        | _ => rb1
        end, 1).

(** [None] in the second component: [*ch] is left unassigned. *)
Definition rt_ringbuffer_getchar (rb : rt_ringbuffer)
  : result (rt_ringbuffer * option Z * Z) :=
  if rt_ringbuffer_data_len rb =? 0 then Ok (rb, None, 0)
  else
    ch ← zget (buffer_ptr rb) (read_index rb);
    if read_index rb =? buffer_size rb - 1
    then Ok (set_read rb (negb (read_mirror rb)) 0, Some ch, 1)
    else Ok (set_read rb (read_mirror rb) (read_index rb + 1), Some ch, 1).

Definition rt_ringbuffer_reset (rb : rt_ringbuffer) : rt_ringbuffer :=
  mk_ringbuffer (buffer_ptr rb) false 0 false 0 (buffer_size rb).

End Ring.

(** ** The abstract bounded queue *)
Module Fifo.

(** [put] keeps what fits, [put_force] drops the oldest bytes to make room. *)
Definition put (cap : nat) (q d : list Z) : list Z :=
  q ++ take (cap - length q) d.

Definition put_force (cap : nat) (q d : list Z) : list Z :=
  drop (length (q ++ d) - cap) (q ++ d).

Definition get (q : list Z) (n : nat) : list Z * list Z := (take n q, drop n q).

End Fifo.

(** ** Circular reads and writes of an array *)
Module Circ.

(** [cidx n i] is [i mod n] for [i < 2 * n]. *)
Definition cidx (n i : nat) : nat := if (i <? n)%nat then i else (i - n)%nat.

Definition cread {A} (buf : list A) (r n : nat) : list A :=
  take n (drop r (buf ++ buf)).

Lemma cidx_lt n i : (i < 2 * n -> cidx n i < n)%nat.
Proof. unfold cidx. destruct (Nat.ltb_spec i n); lia. Qed.

Lemma cread_length {A} (buf : list A) r n :
  (r < length buf -> n <= length buf -> length (cread buf r n) = n)%nat.
Proof.
  intros. unfold cread. rewrite length_take, length_drop, length_app. lia.
Qed.

Lemma cread_lookup {A} (buf : list A) r n i :
  (r < length buf)%nat -> (n <= length buf)%nat -> (i < n)%nat ->
  cread buf r n !! i = buf !! cidx (length buf) (r + i).
Proof.
  intros. unfold cread, cidx. rewrite lookup_take_lt by lia.
  rewrite lookup_drop.
  destruct (Nat.ltb_spec (r + i) (length buf)).
  - by rewrite lookup_app_l by lia.
  - by rewrite lookup_app_r by lia.
Qed.

(** Two circular windows agree when their cells do. *)
Lemma cread_ext {A} (b1 b2 : list A) r1 r2 n :
  length b1 = length b2 -> (r1 < length b1)%nat -> (r2 < length b1)%nat ->
  (n <= length b1)%nat ->
  (forall i, (i < n)%nat ->
     b1 !! cidx (length b1) (r1 + i) = b2 !! cidx (length b1) (r2 + i)) ->
  cread b1 r1 n = cread b2 r2 n.
Proof.
  intros Hl Hr1 Hr2 Hn H. apply list_eq_same_length with n.
  - by rewrite cread_length by lia.
  - by rewrite cread_length by lia.
  - intros i x y Hi. rewrite !cread_lookup by lia.
    rewrite (H i Hi), Hl. intros Hx Hy. congruence.
Qed.

Lemma cread_split {A} (buf : list A) r a b :
  (r < length buf)%nat -> (a + b <= length buf)%nat ->
  cread buf r (a + b) = cread buf r a ++ cread buf (cidx (length buf) (r + a)) b.
Proof.
  intros Hr Hab. apply list_eq_same_length with (a + b)%nat.
  - rewrite length_app.
    destruct b; [unfold cread at 2; cbn; rewrite Nat.add_0_r, cread_length; lia|].
    rewrite !cread_length; try lia. apply cidx_lt. lia.
  - by rewrite cread_length by lia.
  - intros i x y Hi. rewrite cread_lookup by lia.
    destruct (decide (i < a)%nat).
    + rewrite lookup_app_l by (rewrite cread_length; lia).
      rewrite cread_lookup by lia. congruence.
    + rewrite lookup_app_r by (rewrite cread_length; lia).
      rewrite cread_length by lia.
      assert (cidx (length buf) (r + a) < length buf)%nat by (apply cidx_lt; lia).
      rewrite cread_lookup by lia.
      replace (cidx (length buf) (cidx (length buf) (r + a) + (i - a)))
        with (cidx (length buf) (r + i)); [congruence|].
      unfold cidx. repeat case_match; bool_prop; rewrite ?Nat.ltb_lt, ?Nat.ltb_ge in *; lia.
Qed.

(** [b'] is [b] after the cells [w], [w + 1], ... (circularly) received [d]. *)
Definition cwritten {A} (b b' : list A) (w : nat) (d : list A) : Prop :=
  length b' = length b /\
  forall j, (j < length b)%nat ->
    b' !! j =
      if decide (w <= j < w + length d)%nat then d !! (j - w)%nat
      else if decide (j + length b < w + length d)%nat
           then d !! (j + length b - w)%nat
           else b !! j.

Ltac cidx_cases :=
  unfold cidx in *;
  repeat match goal with
  | |- context [ (?a <? ?b)%nat ] => destruct (Nat.ltb_spec a b)
  | H : context [ (?a <? ?b)%nat ] |- _ => destruct (Nat.ltb_spec a b)
  end.

Section written.
Context {A : Type} (b b' : list A) (w : nat) (d : list A).
Context (Hw : (w < length b)%nat) (Hd : (length d <= length b)%nat).
Context (Hwr : cwritten b b' w d).

(** What was written is read back. *)
Lemma cread_written : cread b' w (length d) = d.
Proof using Hw Hd Hwr.
  destruct Hwr as [Hl H].
  apply list_eq_same_length with (length d); [done|by rewrite cread_length by lia|].
  intros i x y Hi. rewrite cread_lookup, Hl, H by (try apply cidx_lt; lia).
  cidx_cases; repeat case_decide; try lia.
  - replace (w + i - w)%nat with i by lia. congruence.
  - replace (w + i - length b + length b - w)%nat with i by lia. congruence.
Qed.

(** A window beyond the written cells is unchanged. *)
Lemma cread_unwritten off n :
  (length d <= off)%nat -> (off + n <= length b)%nat -> (0 < n)%nat ->
  cread b' (cidx (length b) (w + off)) n = cread b (cidx (length b) (w + off)) n.
Proof using Hw Hd Hwr.
  intros. destruct Hwr as [Hl Hj].
  apply cread_ext; rewrite ?Hl; try lia; try (apply cidx_lt; lia).
  intros i Hi.
  assert (cidx (length b) (cidx (length b) (w + off) + i) < length b)%nat
    by (do 2 (apply cidx_lt; cidx_cases; lia)).
  rewrite Hj by done. cidx_cases; repeat case_decide; try lia; done.
Qed.

(** Appending to a window of [n] cells that ends at [w]. *)
Lemma cread_append r n :
  (r < length b)%nat -> (n + length d <= length b)%nat ->
  w = cidx (length b) (r + n) ->
  cread b' r (n + length d) = cread b r n ++ d.
Proof using Hw Hd Hwr.
  intros Hr Hn Ew. pose proof (proj1 Hwr) as Hl.
  rewrite cread_split, Hl, <- Ew, cread_written by lia. f_equal.
  destruct n as [|n]; [done|].
  replace r with (cidx (length b) (w + (length b - S n))) by (subst w; cidx_cases; lia).
  apply cread_unwritten; lia.
Qed.

(** Overwriting the oldest cells of a window of [n] cells that ends at [w]:
    the whole array, read from just after the written cells, holds the
    newest [length b] values. *)
Lemma cread_overwrite r n :
  (r < length b)%nat -> (n <= length b)%nat -> (length b < n + length d)%nat ->
  w = cidx (length b) (r + n) ->
  cread b' (cidx (length b) (w + length d)) (length b) =
    drop (n + length d - length b) (cread b r n ++ d).
Proof using Hw Hd Hwr.
  intros Hr Hn Hnd Ew. pose proof (proj1 Hwr) as Hl.
  set (k := (n + length d - length b)%nat).
  assert (E : cidx (length b) (w + length d) = cidx (length b) (r + k))
    by (subst w k; cidx_cases; lia).
  assert (Er : cread b r n = cread b r k ++ cread b (cidx (length b) (r + k)) (n - k)).
  { rewrite <- cread_split by lia. f_equal. lia. }
  replace (length b) with ((length b - length d) + length d)%nat at 2 by lia.
  rewrite cread_split by (rewrite Hl; try apply cidx_lt; lia).
  replace (cidx (length b') (cidx (length b) (w + length d) + (length b - length d)))
    with w by (rewrite Hl; cidx_cases; lia).
  rewrite cread_written, Er.
  rewrite <- app_assoc, drop_app_le, drop_ge, app_nil_l
    by (rewrite cread_length; lia).
  f_equal. destruct (decide (n = k)).
  - replace (n - k)%nat with 0%nat by lia.
    replace (length b - length d)%nat with 0%nat by lia. done.
  - rewrite cread_unwritten by lia. rewrite E. f_equal. lia.
Qed.
End written.

End Circ.

(** ** What the code promises *)
Module RingSpec.
Import Ring.

(** The index range, the size and the order of the two positions on the
    virtual array of twice [buffer_size] cells. *)
Definition wf (rb : rt_ringbuffer) : Prop :=
  0 < buffer_size rb <= 32767 /\
  buffer_size rb <= zlen (buffer_ptr rb) /\
  0 <= read_index rb < buffer_size rb /\
  0 <= write_index rb < buffer_size rb /\
  (if eqb (read_mirror rb) (write_mirror rb)
   then read_index rb <= write_index rb
   else write_index rb <= read_index rb).

Definition cap (rb : rt_ringbuffer) : nat := Z.to_nat (buffer_size rb).

(** The cells the ring uses: the pool may be up to 3 bytes longer. *)
Definition ring (rb : rt_ringbuffer) : list Z := take (cap rb) (buffer_ptr rb).

Definition count (rb : rt_ringbuffer) : Z :=
  if eqb (read_mirror rb) (write_mirror rb)
  then write_index rb - read_index rb
  else buffer_size rb - (read_index rb - write_index rb).

(** The queue of bytes a ring buffer stands for, oldest first. *)
Definition view (rb : rt_ringbuffer) : list Z :=
  Circ.cread (ring rb) (Z.to_nat (read_index rb)) (Z.to_nat (count rb)).

Ltac open_wf H :=
  let Hn := fresh "Hn" in let Hp := fresh "Hp" in let Hr := fresh "Hr" in
  let Hw := fresh "Hw" in let Hm := fresh "Hm" in
  pose proof H as (Hn & Hp & Hr & Hw & Hm).

Lemma wf_count rb : wf rb -> 0 <= count rb <= buffer_size rb.
Proof. intros H. open_wf H. unfold count. destruct (eqb _ _); lia. Qed.

Lemma ring_length rb : wf rb -> length (ring rb) = cap rb.
Proof. intros H. open_wf H. unfold ring, cap, zlen in *. rewrite length_take. lia. Qed.

Lemma view_length rb : wf rb -> zlen (view rb) = count rb.
Proof.
  intros H. pose proof (wf_count rb H). pose proof (ring_length rb H) as E.
  open_wf H. unfold view, zlen. unfold cap in E.
  rewrite Circ.cread_length; lia.
Qed.

(** The write position is [count] cells after the read position. *)
Lemma write_pos rb : wf rb ->
  Z.to_nat (write_index rb) =
    Circ.cidx (cap rb) (Z.to_nat (read_index rb) + Z.to_nat (count rb)).
Proof.
  intros H. open_wf H. unfold count, cap, Circ.cidx.
  destruct (eqb _ _); destruct (Nat.ltb_spec
    (Z.to_nat (read_index rb) + Z.to_nat (write_index rb - read_index rb))
    (Z.to_nat (buffer_size rb))); try lia;
  destruct (Nat.ltb_spec (Z.to_nat (read_index rb) +
    Z.to_nat (buffer_size rb - (read_index rb - write_index rb)))
    (Z.to_nat (buffer_size rb))); lia.
Qed.

Lemma data_len_count rb : wf rb -> rt_ringbuffer_data_len rb = count rb.
Proof.
  intros H. open_wf H. unfold rt_ringbuffer_data_len, rt_ringbuffer_status, count.
  destruct (Z.eqb_spec (read_index rb) (write_index rb)) as [E|E];
    destruct (eqb _ _); rewrite ?E; try rewrite u32_small by lia; try lia;
    destruct (Z.ltb_spec (read_index rb) (write_index rb)); try lia;
    rewrite u32_small; lia.
Qed.

Lemma space_len_count rb : wf rb ->
  rt_ringbuffer_space_len rb = buffer_size rb - count rb.
Proof.
  intros H. pose proof (wf_count rb H). open_wf H.
  unfold rt_ringbuffer_space_len. rewrite data_len_count by done.
  apply u32_small. lia.
Qed.

Lemma status_full {A} rb (x y : A) : wf rb ->
  match rt_ringbuffer_status rb with RT_RINGBUFFER_FULL => x | _ => y end =
  if buffer_size rb - count rb <? 1 then x else y.
Proof.
  intros H. open_wf H. unfold rt_ringbuffer_status, count.
  destruct (Z.eqb_spec (read_index rb) (write_index rb));
    destruct (eqb _ _); case_bool; done || lia.
Qed.

(** *** The two ways of copying in *)

Lemma zset_blit {A} (l : list A) i x :
  0 <= i < zlen l -> zset l i x = zblit l i [x].
Proof.
  intros. rewrite zset_Ok, zblit_Ok by (unfold zlen in *; cbn in *; lia).
  f_equal. rewrite insert_take_drop by (unfold zlen in *; lia).
  cbn. by rewrite Nat.add_1_r.
Qed.

Lemma zblit_nil {A} (l : list A) : zblit l 0 [] = Ok l.
Proof. rewrite zblit_Ok by (unfold zlen; cbn; lia). done. Qed.

Lemma zblit_lookup {A} (l l' : list A) off s j :
  zblit l off s = Ok l' ->
  l' !! j =
    if decide (Z.to_nat off <= j < Z.to_nat off + length s)%nat
    then s !! (j - Z.to_nat off)%nat else l !! j.
Proof.
  unfold zblit. destruct (in_range _ _ _) eqn:E; [|done].
  apply in_range_spec in E as (?&?&?). unfold zlen in *. intros [= <-].
  destruct (decide (j < Z.to_nat off)%nat).
  { rewrite lookup_app_l by (rewrite length_take; lia).
    rewrite lookup_take_lt by lia. by rewrite decide_False by lia. }
  rewrite lookup_app_r by (rewrite length_take; lia). rewrite length_take.
  replace (j - (Z.to_nat off `min` length l))%nat with (j - Z.to_nat off)%nat by lia.
  case_decide.
  - by rewrite lookup_app_l by lia.
  - rewrite lookup_app_r by lia. rewrite lookup_drop. f_equal. lia.
Qed.

Lemma direct_written (buf b : list Z) (n w : nat) (s : list Z) :
  zblit buf (Z.of_nat w) s = Ok b -> (w + length s <= n <= length buf)%nat ->
  Circ.cwritten (take n buf) (take n b) w s.
Proof.
  intros Hb Hn. pose proof (zblit_length _ _ _ _ Hb) as Hl.
  split; [rewrite !length_take; lia|].
  intros j Hj. rewrite length_take in Hj. rewrite !lookup_take_lt by lia.
  rewrite (zblit_lookup _ _ _ _ j Hb), Nat2Z.id, length_take.
  repeat case_decide; try lia; done.
Qed.

Lemma wrapped_written (buf b1 b : list Z) (n w : nat) (s1 s2 : list Z) :
  zblit buf (Z.of_nat w) s1 = Ok b1 -> zblit b1 0 s2 = Ok b ->
  (w + length s1 = n)%nat -> (length s2 <= w)%nat -> (n <= length buf)%nat ->
  (0 < n)%nat -> Circ.cwritten (take n buf) (take n b) w (s1 ++ s2).
Proof.
  intros H1 H2 Hn Hs Hb Hpos. pose proof (zblit_length _ _ _ _ H1).
  pose proof (zblit_length _ _ _ _ H2).
  split; [rewrite !length_take; lia|].
  intros j Hj. rewrite length_take in Hj. rewrite !lookup_take_lt by lia.
  rewrite (zblit_lookup _ _ _ _ j H2), (zblit_lookup _ _ _ _ j H1).
  rewrite Nat2Z.id, length_take, length_app. cbn [Z.to_nat].
  repeat case_decide; try lia.
  - rewrite lookup_app_r by lia. f_equal. lia.
  - rewrite lookup_app_l by lia. done.
  - done.
Qed.

(** What every copy into the ring guarantees: cells beyond [buffer_size] are
    untouched and the ring holds the data from the write position on. *)
Definition copied (rb : rt_ringbuffer) (b : list Z) (d : list Z) : Prop :=
  length b = length (buffer_ptr rb) /\
  drop (cap rb) b = drop (cap rb) (buffer_ptr rb) /\
  Circ.cwritten (ring rb) (take (cap rb) b) (Z.to_nat (write_index rb)) d.

Lemma zblit_drop {A} (l l' : list A) off s n :
  zblit l off s = Ok l' -> (Z.to_nat off + length s <= n)%nat ->
  drop n l' = drop n l.
Proof.
  intros H Hn. apply list_eq. intros i. rewrite !lookup_drop.
  rewrite (zblit_lookup _ _ _ _ _ H). by rewrite decide_False by lia.
Qed.

Lemma copy_in_direct rb ptr n : wf rb ->
  0 <= n < buffer_size rb - write_index rb -> n <= zlen ptr ->
  exists b,
    (s ← zslice ptr 0 n; zblit (buffer_ptr rb) (write_index rb) s) = Ok b /\
    copied rb b (take (Z.to_nat n) ptr).
Proof.
  intros H Hn Hp0. open_wf H. rewrite zslice_Ok by lia. red_bind.
  rewrite drop_0. set (s := take (Z.to_nat n) ptr).
  assert (Hs : zlen s = n) by (apply zlen_take; lia).
  destruct (zblit (buffer_ptr rb) (write_index rb) s) as [b|f] eqn:E.
  2:{ exfalso. rewrite zblit_Ok in E by lia. done. }
  exists b. split; [done|]. unfold copied, ring, cap. unfold zlen in *.
  split; [by eapply zblit_length|]. split; [eapply zblit_drop; [done|lia]|].
  apply direct_written; [|lia]. by rewrite Z2Nat.id by lia.
Qed.

Lemma take_split {A} (l : list A) a n : (a <= n)%nat ->
  take a l ++ take (n - a) (drop a l) = take n l.
Proof. intros. rewrite take_take_drop. f_equal. lia. Qed.

Lemma copy_in_wrapped_ok rb ptr n : wf rb ->
  buffer_size rb - write_index rb <= n <= buffer_size rb -> n <= zlen ptr ->
  exists b, copy_in_wrapped rb ptr n = Ok b /\ copied rb b (take (Z.to_nat n) ptr).
Proof.
  intros H Hn Hp0. open_wf H. unfold copy_in_wrapped.
  set (room := buffer_size rb - write_index rb) in *.
  rewrite (zslice_Ok ptr 0 room) by lia. red_bind. rewrite drop_0.
  set (s1 := take (Z.to_nat room) ptr).
  assert (Hs1 : zlen s1 = room) by (apply zlen_take; lia).
  destruct (zblit (buffer_ptr rb) (write_index rb) s1) as [b1|f] eqn:E1.
  2:{ exfalso. rewrite zblit_Ok in E1 by lia. done. }
  red_bind. rewrite (zslice_Ok ptr room (n - room)) by lia. red_bind.
  set (s2 := take (Z.to_nat (n - room)) (drop (Z.to_nat room) ptr)).
  assert (Hs2 : zlen s2 = n - room).
  { apply zlen_take. rewrite zlen_drop; lia. }
  pose proof (zblit_length _ _ _ _ E1) as L1.
  destruct (zblit b1 0 s2) as [b|f] eqn:E2.
  2:{ exfalso. rewrite zblit_Ok in E2; unfold zlen in *; try lia. done. }
  exists b. split; [done|].
  replace (take (Z.to_nat n) ptr) with (s1 ++ s2).
  2:{ unfold s1, s2. rewrite Z2Nat.inj_sub by lia. apply take_split. lia. }
  unfold copied, ring, cap. unfold zlen in *.
  split; [rewrite (zblit_length _ _ _ _ E2); lia|].
  split.
  { rewrite (zblit_drop _ _ _ _ _ E2), (zblit_drop _ _ _ _ _ E1); [done|lia|lia]. }
  eapply wrapped_written; [|exact E2|lia..].
  rewrite Z2Nat.id by lia. exact E1.
Qed.

Lemma copied_char rb ch : wf rb ->
  exists b, zset (buffer_ptr rb) (write_index rb) ch = Ok b /\ copied rb b [ch].
Proof.
  intros H. open_wf H. rewrite zset_Ok by lia.
  eexists. split; [done|]. unfold copied, ring, cap, zlen in *.
  split; [apply length_insert|]. split.
  { apply list_eq. intros i. rewrite !lookup_drop.
    by rewrite list_lookup_insert_ne by lia. }
  split; [rewrite !length_take, length_insert; lia|].
  intros j Hj. rewrite length_take in *. rewrite !lookup_take_lt by lia.
  cbn [length]. repeat case_decide; try lia.
  - replace j with (Z.to_nat (write_index rb)) by lia.
    rewrite Nat.sub_diag. by rewrite list_lookup_insert_eq by lia.
  - by rewrite list_lookup_insert_ne by lia.
Qed.

(** *** Moving the write position *)

(** The assignments to the write fields that follow a copy of [n] bytes. *)
Definition advance (rb : rt_ringbuffer) (b : list Z) (n : Z) : rt_ringbuffer :=
  if n <? buffer_size rb - write_index rb
  then set_write rb b (write_mirror rb) (write_index rb + n)
  else set_write rb b (negb (write_mirror rb)) (n - (buffer_size rb - write_index rb)).

Lemma eqb_negb_r a b : eqb a (negb b) = negb (eqb a b).
Proof. by destruct a, b. Qed.

Lemma eqb_negb_both a b : eqb (negb a) (negb b) = eqb a b.
Proof. by destruct a, b. Qed.

(** What [advance] does to the indices, in range of both. *)
Lemma advance_wf rb b d : wf rb -> copied rb b d ->
  zlen d <= buffer_size rb - count rb ->
  wf (advance rb b (zlen d)) /\ count (advance rb b (zlen d)) = count rb + zlen d.
Proof.
  intros H (Hl & _) Hd. open_wf H. pose proof (zlen_nonneg d).
  unfold count in *. unfold advance, wf, zlen in *.
  destruct (Z.ltb_spec (Z.of_nat (length d)) (buffer_size rb - write_index rb));
    cbn; rewrite Hl, ?eqb_negb_r;
    destruct (eqb (read_mirror rb) (write_mirror rb)); cbn;
    rewrite u15_small by lia; lia.
Qed.

Lemma advance_fields rb b n :
  buffer_size (advance rb b n) = buffer_size rb /\
  buffer_ptr (advance rb b n) = b /\
  read_index (advance rb b n) = read_index rb /\
  read_mirror (advance rb b n) = read_mirror rb.
Proof. unfold advance. by case_bool. Qed.

Lemma advance_view rb b d : wf rb -> copied rb b d ->
  zlen d <= buffer_size rb - count rb ->
  view (advance rb b (zlen d)) = view rb ++ d.
Proof.
  intros H Hc Hd. destruct (advance_wf rb b d H Hc Hd) as [_ Hcnt].
  pose proof (wf_count rb H). pose proof (ring_length rb H) as Hrl.
  destruct (advance_fields rb b (zlen d)) as (Es & Ep & Er & _).
  destruct Hc as (_ & _ & Hwr). open_wf H.
  unfold view. rewrite Hcnt, Er. unfold ring at 1, cap at 1. rewrite Es, Ep.
  rewrite Z2Nat.inj_add by (unfold zlen in *; lia).
  unfold zlen at 1. rewrite Nat2Z.id.
  unfold cap in *. unfold zlen in *.
  apply Circ.cread_append with (w := Z.to_nat (write_index rb));
    rewrite ?Hrl; try lia; try done.
  by apply write_pos.
Qed.

(** Appending that fits, in one statement for [put] and [putchar]. *)
Lemma advance_append rb b d : wf rb -> copied rb b d ->
  zlen d <= buffer_size rb - count rb ->
  let rb' := advance rb b (zlen d) in
  wf rb' /\ buffer_size rb' = buffer_size rb /\
  drop (cap rb) (buffer_ptr rb') = drop (cap rb) (buffer_ptr rb) /\
  view rb' = view rb ++ d.
Proof.
  intros H Hc Hd rb'. destruct (advance_fields rb b (zlen d)) as (Es & Ep & _).
  split; [by apply advance_wf|]. split; [done|].
  split; [subst rb'; rewrite Ep; by apply Hc|by apply advance_view].
Qed.

(** *** Reading out *)

Lemma slice_direct rb n : wf rb -> 0 <= n ->
  read_index rb + n <= buffer_size rb ->
  zslice (buffer_ptr rb) (read_index rb) n =
    Ok (Circ.cread (ring rb) (Z.to_nat (read_index rb)) (Z.to_nat n)).
Proof.
  intros H Hn Hr0. pose proof (ring_length rb H) as Hrl. open_wf H.
  rewrite zslice_Ok by lia. f_equal. unfold zlen, cap in *.
  apply list_eq_same_length with (Z.to_nat n).
  - by rewrite Circ.cread_length by lia.
  - rewrite length_take, length_drop. lia.
  - intros i x y Hi. rewrite Circ.cread_lookup by lia.
    rewrite lookup_take_lt, lookup_drop by lia. unfold Circ.cidx.
    rewrite (proj2 (Nat.ltb_lt _ _)) by lia.
    unfold ring, cap. rewrite lookup_take_lt by lia. congruence.
Qed.

Lemma slice_head rb n : wf rb -> 0 <= n <= buffer_size rb ->
  zslice (buffer_ptr rb) 0 n = Ok (Circ.cread (ring rb) 0 (Z.to_nat n)).
Proof.
  intros H Hn. pose proof (ring_length rb H) as Hrl. open_wf H.
  rewrite zslice_Ok by lia. f_equal. unfold Circ.cread, ring, cap, zlen in *.
  change (Z.to_nat 0) with 0%nat. rewrite !drop_0.
  rewrite take_app_le by (rewrite length_take; lia).
  rewrite take_take. f_equal. lia.
Qed.

(** The assignments to the read fields after [n] bytes were copied out. *)
Definition retreat (rb : rt_ringbuffer) (n : Z) : rt_ringbuffer :=
  if n <? buffer_size rb - read_index rb
  then set_read rb (read_mirror rb) (read_index rb + n)
  else set_read rb (negb (read_mirror rb)) (n - (buffer_size rb - read_index rb)).

Lemma eqb_negb_l a b : eqb (negb a) b = negb (eqb a b).
Proof. by destruct a, b. Qed.

Lemma retreat_wf rb n : wf rb -> 0 <= n <= count rb ->
  wf (retreat rb n) /\ count (retreat rb n) = count rb - n.
Proof.
  intros H Hn. open_wf H. unfold count in *. unfold retreat, wf.
  destruct (Z.ltb_spec n (buffer_size rb - read_index rb));
    cbn; rewrite ?eqb_negb_l;
    destruct (eqb (read_mirror rb) (write_mirror rb)); cbn;
    rewrite u15_small by lia; lia.
Qed.

Lemma retreat_view rb n : wf rb -> 0 <= n <= count rb ->
  view (retreat rb n) = drop (Z.to_nat n) (view rb).
Proof.
  intros H Hn. destruct (retreat_wf rb n H Hn) as [_ Hcnt].
  pose proof (wf_count rb H). pose proof (ring_length rb H) as Hrl. open_wf H.
  unfold view. rewrite Hcnt.
  replace (ring (retreat rb n)) with (ring rb) by (unfold retreat; by case_bool).
  replace (Z.to_nat (count rb)) with (Z.to_nat n + Z.to_nat (count rb - n))%nat by lia.
  unfold cap in Hrl. rewrite Circ.cread_split by lia.
  rewrite drop_app_length' by (rewrite Circ.cread_length; lia).
  f_equal. unfold retreat. rewrite Hrl.
  case_bool; cbn [set_read read_index]; rewrite u15_small by lia; unfold Circ.cidx;
    destruct (Nat.ltb_spec (Z.to_nat (read_index rb) + Z.to_nat n)
                (Z.to_nat (buffer_size rb))); lia.
Qed.

Lemma view_take rb n : wf rb -> 0 <= n <= count rb ->
  take (Z.to_nat n) (view rb) =
    Circ.cread (ring rb) (Z.to_nat (read_index rb)) (Z.to_nat n).
Proof.
  intros H Hn. pose proof (wf_count rb H). pose proof (ring_length rb H) as Hrl.
  open_wf H. unfold view, cap in *.
  replace (Z.to_nat (count rb)) with (Z.to_nat n + Z.to_nat (count rb - n))%nat by lia.
  rewrite Circ.cread_split by lia.
  apply take_app_length'. rewrite Circ.cread_length; lia.
Qed.

(** *** Forcing data into a ring that has no room for it *)

(** The write and then the read assignments of a forced overflow. *)
Definition overrun (rb : rt_ringbuffer) (b : list Z) (n : Z) : rt_ringbuffer :=
  let rb1 := advance rb b n in
  if n <? buffer_size rb - write_index rb
  then set_read rb1 (read_mirror rb1) (write_index rb1)
  else set_read rb1 (negb (read_mirror rb1)) (write_index rb1).

Lemma overrun_fields rb b n :
  buffer_size (overrun rb b n) = buffer_size rb /\
  buffer_ptr (overrun rb b n) = b /\
  read_index (overrun rb b n) = u15 (write_index (advance rb b n)) /\
  write_index (overrun rb b n) = write_index (advance rb b n) /\
  eqb (read_mirror (overrun rb b n)) (write_mirror (overrun rb b n)) =
    eqb (read_mirror rb) (write_mirror rb).
Proof.
  unfold overrun, advance. case_bool; cbn; rewrite ?eqb_negb_both; done.
Qed.

Lemma advance_write_pos rb b n : wf rb -> 0 <= n <= buffer_size rb ->
  write_index (advance rb b n) =
    (if n <? buffer_size rb - write_index rb
     then write_index rb + n else n - (buffer_size rb - write_index rb)).
Proof.
  intros H Hn. open_wf H. unfold advance. case_bool; cbn; apply u15_small; lia.
Qed.

Lemma overrun_wf rb b d : wf rb -> copied rb b d -> zlen d <= buffer_size rb ->
  let rb' := overrun rb b (zlen d) in
  wf rb' /\
  count rb' = (if eqb (read_mirror rb) (write_mirror rb) then 0 else buffer_size rb).
Proof.
  intros H (Hl & _) Hd rb'. pose proof (zlen_nonneg d) as Hd0. open_wf H.
  destruct (overrun_fields rb b (zlen d)) as (Es & Ep & Er & Ew & Em).
  pose proof (advance_write_pos rb b (zlen d) H ltac:(lia)) as Ea.
  assert (Hrange : 0 <= write_index (advance rb b (zlen d)) < buffer_size rb)
    by (rewrite Ea; case_bool; lia).
  fold rb' in Es, Ep, Er, Ew, Em. rewrite u15_small in Er by lia.
  unfold wf, count. rewrite Es, Ep, Er, Ew, Em. unfold zlen in *. rewrite Hl.
  destruct (eqb _ _); lia.
Qed.

Lemma overrun_view rb b d : wf rb -> copied rb b d -> zlen d <= buffer_size rb ->
  buffer_size rb - count rb < zlen d ->
  view (overrun rb b (zlen d)) =
    (if eqb (read_mirror rb) (write_mirror rb) then []
     else Fifo.put_force (cap rb) (view rb) d).
Proof.
  intros H Hc Hd Ho. pose proof (wf_count rb H) as Hcr. open_wf H.
  pose proof (ring_length rb H) as Hrl. pose proof (zlen_nonneg d) as Hd0.
  pose proof (view_length rb H) as Hv.
  destruct (overrun_wf rb b d H Hc Hd) as [_ Hcnt].
  destruct (overrun_fields rb b (zlen d)) as (Es & Ep & Er & _).
  pose proof (advance_write_pos rb b (zlen d) H ltac:(lia)) as Ea.
  assert (Er' : read_index (overrun rb b (zlen d)) =
    if zlen d <? buffer_size rb - write_index rb
    then write_index rb + zlen d else zlen d - (buffer_size rb - write_index rb)).
  { rewrite Er, Ea. apply u15_small. case_bool; lia. }
  unfold view at 1. rewrite Hcnt, Er'. destruct (eqb _ _); [done|].
  destruct Hc as (_ & _ & Hwr). unfold ring at 1, cap at 1. rewrite Es, Ep.
  replace (Z.to_nat (if zlen d <? buffer_size rb - write_index rb
      then write_index rb + zlen d else zlen d - (buffer_size rb - write_index rb)))
    with (Circ.cidx (length (ring rb)) (Z.to_nat (write_index rb) + length d)).
  2:{ rewrite Hrl. unfold Circ.cidx, cap, zlen in *. case_bool;
      match goal with |- context [ (?x <? ?y)%nat ] =>
        destruct (Nat.ltb_spec x y) end; lia. }
  unfold Fifo.put_force. fold (cap rb). rewrite <- Hrl at 2.
  rewrite (Circ.cread_overwrite _ _ _ _) with
    (r := Z.to_nat (read_index rb)) (n := Z.to_nat (count rb));
    try (unfold cap, zlen in *; rewrite ?Hrl; lia).
  - f_equal. rewrite Hrl, length_app. unfold cap, zlen in *. lia.
  - exact Hwr.
  - rewrite Hrl. by apply write_pos.
Qed.

(** The bytes [put_force] copies when more than the capacity is offered. *)
Lemma put_force_clip cap q (ptr : list Z) n :
  (n <= length ptr)%nat -> (cap <= n)%nat ->
  Fifo.put_force cap q (take n ptr) =
  Fifo.put_force cap q (take cap (drop (n - cap) ptr)).
Proof.
  intros Hp Hn. unfold Fifo.put_force.
  rewrite take_drop_commute. replace (n - cap + cap)%nat with n by lia.
  rewrite !length_app, length_drop, !length_take.
  rewrite !drop_app_ge by (rewrite ?length_drop, ?length_take; lia).
  rewrite drop_drop. f_equal. lia.
Qed.

(** What a forced copy of [d] leaves, whether or not it fitted. *)
Lemma forced rb b d : wf rb -> copied rb b d -> zlen d <= buffer_size rb ->
  let rb' := if buffer_size rb - count rb <? zlen d
             then overrun rb b (zlen d) else advance rb b (zlen d) in
  wf rb' /\ buffer_size rb' = buffer_size rb /\ view rb' =
    (if (count rb + zlen d <=? buffer_size rb)
        || negb (eqb (read_mirror rb) (write_mirror rb))
     then Fifo.put_force (cap rb) (view rb) d else []).
Proof.
  intros H Hb Hd rb'. subst rb'. pose proof (view_length rb H) as Hv.
  destruct (Z.leb_spec (count rb + zlen d) (buffer_size rb)).
  - rewrite (proj2 (Z.ltb_ge _ _)) by lia. rewrite orb_true_l.
    destruct (advance_append rb b d H Hb ltac:(lia)) as (?&?&?&->).
    split_and!; try done. unfold Fifo.put_force.
    rewrite length_app. replace (_ - cap rb)%nat with 0%nat
      by (unfold cap, zlen in *; lia). done.
  - rewrite (proj2 (Z.ltb_lt _ _)) by lia. rewrite orb_false_l.
    pose proof (overrun_wf rb b d H Hb ltac:(lia)) as [Hw' _].
    rewrite (overrun_view rb b d H Hb) by lia.
    split_and!; [done|apply overrun_fields|]. by destruct (eqb _ _).
Qed.

End RingSpec.

(** ** The theorems *)
Module RingThms.
Import Ring RingSpec.

(** C11: [rt_ringbuffer_put] never leaves the buffer, keeps the invariant and
    the bytes beyond [buffer_size], returns the number of bytes that fitted
    and appends exactly these to the queue. *)
Theorem rt_ringbuffer_put_refines (rb : rt_ringbuffer) (ptr : list Z) (n : Z) :
  wf rb -> 0 <= n <= 65535 -> n <= zlen ptr ->
  exists rb',
    rt_ringbuffer_put rb ptr n = Ok (rb', Z.min n (buffer_size rb - zlen (view rb))) /\
    wf rb' /\ buffer_size rb' = buffer_size rb /\
    drop (cap rb) (buffer_ptr rb') = drop (cap rb) (buffer_ptr rb) /\
    view rb' = Fifo.put (cap rb) (view rb) (take (Z.to_nat n) ptr).
Proof.
  intros H Hn Hp. pose proof (wf_count rb H) as Hc. open_wf H.
  pose proof (view_length rb H) as Hv.
  unfold rt_ringbuffer_put. rewrite space_len_count, u16_small by (done || lia).
  rewrite Hv. destruct (Z.eqb_spec (buffer_size rb - count rb) 0) as [E|E].
  { exists rb. rewrite E, Z.min_r by lia. split_and!; try done.
    unfold Fifo.put. replace (cap rb - length (view rb))%nat with 0%nat
      by (unfold cap, zlen in *; lia). by rewrite take_0, app_nil_r. }
  set (m := if buffer_size rb - count rb <? n then _ else n).
  assert (Hm' : m = Z.min n (buffer_size rb - count rb)) by (subst m; case_bool; lia).
  set (d := take (Z.to_nat m) ptr).
  assert (Hd : zlen d = m) by (apply zlen_take; lia).
  assert (Hgoal : forall b, copied rb b d ->
    wf (advance rb b m) /\ buffer_size (advance rb b m) = buffer_size rb /\
    drop (cap rb) (buffer_ptr (advance rb b m)) = drop (cap rb) (buffer_ptr rb) /\
    view (advance rb b m) = Fifo.put (cap rb) (view rb) (take (Z.to_nat n) ptr)).
  { intros b Hb. destruct (advance_append rb b d H Hb ltac:(lia)) as (?&?&?&Hw').
    rewrite Hd in *. split_and!; try done. rewrite Hw'. unfold Fifo.put, d.
    f_equal. rewrite take_take. f_equal. unfold cap, zlen in *. lia. }
  destruct (Z.ltb_spec m (buffer_size rb - write_index rb)) as [L|L].
  - destruct (copy_in_direct rb ptr m H ltac:(lia) ltac:(lia)) as (b & Eb & Hb).
    exists (advance rb b m). split; [|by apply Hgoal].
    destruct (zslice ptr 0 m); [|done]. cbn [mbind result_bind] in *. rewrite Eb.
    red_bind. unfold advance. rewrite (proj2 (Z.ltb_lt _ _)) by lia.
    by rewrite <- Hm'.
  - destruct (copy_in_wrapped_ok rb ptr m H ltac:(lia) ltac:(lia)) as (b & Eb & Hb).
    exists (advance rb b m). split; [|by apply Hgoal].
    rewrite Eb. red_bind. unfold advance. rewrite (proj2 (Z.ltb_ge _ _)) by lia.
    by rewrite <- Hm'.
Qed.

(** C30: [rt_ringbuffer_get] copies the oldest bytes, in order, to the front of
    the destination and removes them from the queue; what it does not return
    stays queued. *)
Theorem rt_ringbuffer_get_refines (rb : rt_ringbuffer) (ptr : list Z) (n : Z) :
  wf rb -> 0 <= n <= 65535 -> n <= zlen ptr ->
  let m := Z.min n (zlen (view rb)) in
  let (out, rest) := Fifo.get (view rb) (Z.to_nat n) in
  exists rb',
    rt_ringbuffer_get rb ptr n = Ok (rb', out ++ drop (length out) ptr, m) /\
    wf rb' /\ buffer_size rb' = buffer_size rb /\ buffer_ptr rb' = buffer_ptr rb /\
    view rb' = rest.
Proof.
  intros H Hn Hp m. pose proof (wf_count rb H) as Hc. open_wf H.
  pose proof (view_length rb H) as Hv. unfold Fifo.get.
  unfold rt_ringbuffer_get. rewrite data_len_count by done.
  destruct (Z.eqb_spec (count rb) 0) as [E|E].
  { assert (Ev : view rb = []) by (apply nil_length_inv; unfold zlen in *; lia).
    exists rb. subst m. rewrite Hv, E, Z.min_r, Ev by lia.
    by rewrite take_nil, drop_nil. }
  set (k := if count rb <? n then _ else n).
  assert (Hk : k = m).
  { subst k m. rewrite Hv. case_bool; [rewrite u16_small by lia|]; lia. }
  clearbody k. subst k.
  assert (Hm' : 0 <= m <= count rb) by (subst m; lia).
  assert (Et : take (Z.to_nat n) (view rb) = take (Z.to_nat m) (view rb)).
  { subst m. destruct (decide (n <= zlen (view rb))); [by rewrite Z.min_l|].
    rewrite Z.min_r by lia. rewrite !take_ge by (unfold zlen in *; lia). done. }
  assert (Ed : drop (Z.to_nat n) (view rb) = drop (Z.to_nat m) (view rb)).
  { subst m. destruct (decide (n <= zlen (view rb))); [by rewrite Z.min_l|].
    rewrite Z.min_r by lia. rewrite !drop_ge by (unfold zlen in *; lia). done. }
  rewrite Et, Ed. exists (retreat rb m).
  assert (Hlen : zlen (take (Z.to_nat m) (view rb)) = m) by (apply zlen_take; lia).
  pose proof (ring_length rb H) as Hrl.
  split; [|split; [by apply retreat_wf|]; split; [unfold retreat; by case_bool|];
           split; [unfold retreat; by case_bool|]; by apply retreat_view].
  unfold retreat. destruct (Z.ltb_spec m (buffer_size rb - read_index rb)).
  - rewrite slice_direct by (done || lia). red_bind.
    rewrite <- view_take by done. rewrite zblit_Ok by lia. by red_bind.
  - rewrite slice_direct by (done || lia). red_bind.
    set (room := buffer_size rb - read_index rb) in *.
    set (s1 := Circ.cread _ _ (Z.to_nat room)).
    assert (H1 : zlen s1 = room)
      by (subst s1; unfold cap, zlen in *; rewrite Circ.cread_length; lia).
    rewrite zblit_Ok by lia. red_bind.
    rewrite slice_head by (done || lia). red_bind.
    set (s2 := Circ.cread _ 0 _).
    assert (H2 : zlen s2 = m - room)
      by (subst s2; unfold cap, zlen in *; rewrite Circ.cread_length; lia).
    rewrite zblit_Ok.
    2: lia. 2:{ unfold zlen in *. cbn [Z.to_nat]. rewrite !length_app, length_drop. cbn. lia. }
    red_bind. change (Z.to_nat 0) with 0%nat. rewrite take_0, app_nil_l, Nat.add_0_l.
    assert (Es : take (Z.to_nat m) (view rb) = s1 ++ s2).
    { rewrite view_take by done. subst s1 s2. unfold cap in *.
      replace (Z.to_nat m) with (Z.to_nat room + Z.to_nat (m - room))%nat by lia.
      rewrite Circ.cread_split by lia. do 2 f_equal. unfold Circ.cidx.
      rewrite (proj2 (Nat.ltb_ge _ _)) by lia. lia. }
    rewrite Es. do 3 f_equal. unfold zlen in *.
    rewrite take_app_length' by lia. rewrite <- app_assoc. f_equal.
    rewrite drop_app_ge by lia. rewrite drop_drop. f_equal. f_equal.
    rewrite length_app. lia.
Qed.

(** [rt_ringbuffer_put_force].  When the data fits it is appended.  When
    it does not, the result depends on the mirror bits: with the write
    position on the other side than the read position the oldest bytes give
    way, as the comment of the function says; with both on the same side the
    ring is left empty and every byte, old or new, is lost. *)
Theorem rt_ringbuffer_put_force_exact (rb : rt_ringbuffer) (ptr : list Z) (n : Z) :
  wf rb -> 0 <= n <= 65535 -> n <= zlen ptr ->
  exists rb',
    rt_ringbuffer_put_force rb ptr n = Ok (rb', Z.min n (buffer_size rb)) /\
    wf rb' /\ buffer_size rb' = buffer_size rb /\
    view rb' =
      (if (zlen (view rb) + Z.min n (buffer_size rb) <=? buffer_size rb)
          || negb (eqb (read_mirror rb) (write_mirror rb))
       then Fifo.put_force (cap rb) (view rb) (take (Z.to_nat n) ptr)
       else []).
Proof.
  intros H Hn Hp. pose proof (wf_count rb H) as Hc. open_wf H.
  unfold rt_ringbuffer_put_force. rewrite view_length, space_len_count by done.
  rewrite (u16_small (buffer_size rb - count rb)) by lia.
  set (L := if buffer_size rb <? n then u16 (buffer_size rb) else n).
  assert (HL : L = Z.min n (buffer_size rb)).
  { subst L. case_bool; [rewrite u16_small by lia|]; lia. }
  rewrite <- HL. set (src := drop (Z.to_nat (n - L)) ptr).
  replace (if buffer_size rb <? n then _ else Ok ptr) with (Ok src).
  2:{ subst src. case_bool.
      - rewrite zslice_Ok by lia. f_equal. symmetry.
        replace (n - L) with (n - buffer_size rb) by lia.
        apply take_ge. unfold zlen in *. rewrite length_drop. lia.
      - by replace (n - L) with 0 by lia. }
  red_bind. set (d := take (Z.to_nat L) src).
  assert (Hsrc : L <= zlen src) by (subst src; rewrite zlen_drop; lia).
  assert (Hd : zlen d = L) by (apply zlen_take; lia).
  replace (Fifo.put_force (cap rb) (view rb) (take (Z.to_nat n) ptr))
    with (Fifo.put_force (cap rb) (view rb) d).
  2:{ subst d src. destruct (Z.leb_spec n (buffer_size rb)).
      - replace L with n by lia. by rewrite Z.sub_diag.
      - rewrite (put_force_clip (cap rb) (view rb) ptr (Z.to_nat n))
          by (unfold cap, zlen in *; lia). unfold cap.
        replace L with (buffer_size rb) by lia. by rewrite Z2Nat.inj_sub by lia. }
  clearbody L.
  destruct (Z.ltb_spec L (buffer_size rb - write_index rb)) as [Hlt|Hge].
  - destruct (copy_in_direct rb src L H ltac:(lia) ltac:(lia)) as (b & Eb & Hb).
    pose proof (forced rb b d H Hb ltac:(lia)) as F. rewrite Hd in F.
    eexists. split; [|exact F].
    destruct (zslice src 0 L); [|done]. cbn [mbind result_bind] in *. rewrite Eb.
    red_bind. unfold overrun, advance. by rewrite (proj2 (Z.ltb_lt _ _) Hlt).
  - destruct (copy_in_wrapped_ok rb src L H ltac:(lia) ltac:(lia)) as (b & Eb & Hb).
    pose proof (forced rb b d H Hb ltac:(lia)) as F. rewrite Hd in F.
    eexists. split; [|exact F].
    rewrite Eb. red_bind. unfold overrun, advance.
    by rewrite (proj2 (Z.ltb_ge _ _) Hge).
Qed.

(** one byte at a time is the same as a block of one: [putchar] is [put]
    of a one-byte block, on a full ring too. *)
Theorem rt_ringbuffer_putchar_is_put (rb : rt_ringbuffer) (ch : Z) :
  wf rb -> rt_ringbuffer_putchar rb ch = rt_ringbuffer_put rb [ch] 1.
Proof.
  intros H. pose proof (wf_count rb H) as Hc. open_wf H.
  unfold rt_ringbuffer_putchar, rt_ringbuffer_put, copy_in_wrapped.
  rewrite space_len_count by done. rewrite u16_small by lia.
  destruct (Z.eqb_spec (buffer_size rb - count rb) 0); [done|].
  rewrite (proj2 (Z.ltb_ge (buffer_size rb - count rb) 1)) by lia.
  rewrite zset_blit by lia. change (zslice [ch] 0 1) with (@Ok (list Z) [ch]).
  destruct (Z.eqb_spec (write_index rb) (buffer_size rb - 1)) as [E|E].
  - replace (buffer_size rb - write_index rb) with 1 by lia.
    change (zslice [ch] 0 1) with (@Ok (list Z) [ch]).
    change (zslice [ch] 1 (1 - 1)) with (@Ok (list Z) []). red_bind.
    destruct (zblit _ _ [ch]) as [b|f] eqn:Eb; [|done]. red_bind.
    rewrite zblit_nil. by red_bind.
  - rewrite (proj2 (Z.ltb_lt 1 _)) by lia. red_bind.
    by destruct (zblit _ _ [ch]).
Qed.

(** [rt_ringbuffer_putchar_force] always does what its comment says: on
    a full ring the oldest byte gives way to the new one. *)
Theorem rt_ringbuffer_putchar_force_refines (rb : rt_ringbuffer) (ch : Z) :
  wf rb ->
  exists rb', rt_ringbuffer_putchar_force rb ch = Ok (rb', 1) /\ wf rb' /\
    view rb' = Fifo.put_force (cap rb) (view rb) [ch].
Proof.
  intros H. pose proof (wf_count rb H) as Hc. open_wf H.
  destruct (copied_char rb ch H) as (b & Eb & Hb).
  assert (H1 : zlen [ch] <= buffer_size rb) by (change (zlen [ch]) with 1; lia).
  destruct (forced rb b [ch] H Hb H1) as (Hw' & _ & Hv').
  change (zlen [ch]) with 1 in *.
  assert (Hs : (count rb + 1 <=? buffer_size rb)
               || negb (eqb (read_mirror rb) (write_mirror rb)) = true).
  { unfold count in *. destruct (eqb _ _); [|by rewrite orb_true_r].
    rewrite orb_false_r. apply Z.leb_le. lia. }
  rewrite Hs in Hv'. eexists. split; [|split; [exact Hw'|exact Hv']].
  unfold rt_ringbuffer_putchar_force. rewrite Eb. red_bind.
  rewrite !(status_full rb) by done. unfold overrun, advance.
  destruct (Z.eqb_spec (write_index rb) (buffer_size rb - 1)) as [E|E].
  - rewrite (proj2 (Z.ltb_ge 1 _)) by lia.
    by replace (1 - (buffer_size rb - write_index rb)) with 0 by lia.
  - by rewrite (proj2 (Z.ltb_lt 1 _)) by lia.
Qed.

(** *** Concrete runs *)

(** Eight cells, bytes 10, 11, 12 queued, both positions on the same side. *)
Definition ring8 : rt_ringbuffer :=
  mk_ringbuffer [0; 0; 0; 0; 10; 11; 12; 0] false 4 false 7 8.

(** The same queue with the write position wrapped to the other side. *)
Definition ring8w : rt_ringbuffer :=
  mk_ringbuffer [12; 0; 0; 0; 0; 0; 10; 11] false 6 true 1 8.

Lemma ring8_wf : wf ring8.
Proof. unfold wf, ring8, zlen. cbn. lia. Qed.

Lemma ring8w_wf : wf ring8w.
Proof. unfold wf, ring8w, zlen. cbn. lia. Qed.

Lemma rt_ringbuffer_put_refines_witness :
  exists rb', rt_ringbuffer_put ring8 [1; 2; 3; 4; 5; 6] 6 = Ok (rb', 5) /\
    view rb' = [10; 11; 12; 1; 2; 3; 4; 5].
Proof.
  destruct (rt_ringbuffer_put_refines ring8 [1; 2; 3; 4; 5; 6] 6 ring8_wf)
    as (rb' & E & _ & _ & _ & V); [zdec|zdec|].
  exists rb'. split; [exact E|rewrite V; reflexivity].
Defined.

Lemma rt_ringbuffer_get_refines_witness :
  exists rb', rt_ringbuffer_get ring8w [0; 0; 0; 0; 0] 5 =
      Ok (rb', [10; 11; 12; 0; 0], 3) /\ view rb' = [].
Proof.
  destruct (rt_ringbuffer_get_refines ring8w [0; 0; 0; 0; 0] 5 ring8w_wf)
    as (rb' & E & _ & _ & _ & V); [zdec|zdec|].
  exists rb'. split; [exact E|exact V].
Defined.

(** Both cases of the forced write: six bytes into five free cells. *)
Lemma rt_ringbuffer_put_force_exact_witness :
  (exists rb', rt_ringbuffer_put_force ring8w [1; 2; 3; 4; 5; 6] 6 = Ok (rb', 6) /\
     view rb' = [11; 12; 1; 2; 3; 4; 5; 6]) /\
  (exists rb', rt_ringbuffer_put_force ring8 [1; 2; 3; 4; 5; 6] 6 = Ok (rb', 6) /\
     view rb' = []).
Proof.
  split.
  - destruct (rt_ringbuffer_put_force_exact ring8w [1; 2; 3; 4; 5; 6] 6 ring8w_wf)
      as (rb' & E & _ & _ & V); [zdec|zdec|].
    exists rb'. split; [exact E|rewrite V; reflexivity].
  - destruct (rt_ringbuffer_put_force_exact ring8 [1; 2; 3; 4; 5; 6] 6 ring8_wf)
      as (rb' & E & _ & _ & V); [zdec|zdec|].
    exists rb'. split; [exact E|rewrite V; reflexivity].
Defined.

Lemma rt_ringbuffer_putchar_is_put_witness :
  rt_ringbuffer_putchar ring8 7 = rt_ringbuffer_put ring8 [7] 1.
Proof. exact (rt_ringbuffer_putchar_is_put ring8 7 ring8_wf). Defined.

Lemma rt_ringbuffer_putchar_force_refines_witness :
  exists rb', rt_ringbuffer_putchar_force ring8w 7 = Ok (rb', 1) /\
    view rb' = [10; 11; 12; 7].
Proof.
  destruct (rt_ringbuffer_putchar_force_refines ring8w 7 ring8w_wf)
    as (rb' & E & _ & V).
  exists rb'. split; [exact E|rewrite V; reflexivity].
Defined.

End RingThms.
