(* ===== verification/SmallMem.v ===== *)
(** * The small-memory heap allocator (rt-thread/src/mem.c)

    [Heap] is the C code on an explicit heap state; [Seg] describes the chain
    of blocks; [HeapSpec] states the invariant and proves it for every
    operation; [HeapThms] holds the properties. *)
From S2P Require Import Prelude CTypes.
From stdpp Require Import base list gmap.
From Stdlib Require Import ZArith Lia.
Open Scope Z_scope.

Module Heap.

Definition HEAP_MAGIC : Z := 7840. (* 0x1ea0 *)

(** [struct heap_mem]: 12 bytes on the 32-bit target. *)
Record heap_mem : Type := mk_mem {
  magic : Z;
  used : Z;
  next : Z;
  prev : Z
}.

Definition MIN_SIZE : Z := 12.
Definition MIN_SIZE_ALIGNED : Z := RT_ALIGN MIN_SIZE RT_ALIGN_SIZE.
Definition SIZEOF_STRUCT_MEM : Z := RT_ALIGN 12 RT_ALIGN_SIZE.

(** The static variables of mem.c.  A block pointer is kept as its byte offset
    from [heap_ptr]; [blocks] gives the [struct heap_mem] stored at an offset
    and [data] the bytes of the heap that clients wrote. *)
Record heap : Type := mk_heap {
  blocks : gmap Z heap_mem;
  data : gmap Z Z;
  heap_ptr : Z;
  lfree : Z;
  mem_size_aligned : Z;
  used_mem : Z;
  max_mem : Z
}.

(** [heap_end], as an offset. *)
Definition heap_end (h : heap) : Z := mem_size_aligned h + SIZEOF_STRUCT_MEM.

Definition with_blocks (h : heap) (b : gmap Z heap_mem) : heap :=
  mk_heap b (data h) (heap_ptr h) (lfree h) (mem_size_aligned h) (used_mem h) (max_mem h).
Definition with_data (h : heap) (d : gmap Z Z) : heap :=
  mk_heap (blocks h) d (heap_ptr h) (lfree h) (mem_size_aligned h) (used_mem h) (max_mem h).
Definition with_lfree (h : heap) (x : Z) : heap :=
  mk_heap (blocks h) (data h) (heap_ptr h) x (mem_size_aligned h) (used_mem h) (max_mem h).
Definition with_used (h : heap) (u m : Z) : heap :=
  mk_heap (blocks h) (data h) (heap_ptr h) (lfree h) (mem_size_aligned h) u m.

Definition hdr (h : heap) (off : Z) : result heap_mem := deref (blocks h !! off).
Definition set_hdr (h : heap) (off : Z) (m : heap_mem) : heap :=
  with_blocks h (<[off := m]> (blocks h)).

Definition set_next (h : heap) (off v : Z) : result heap :=
  m ← hdr h off; Ok (set_hdr h off (mk_mem (magic m) (used m) v (prev m))).
Definition set_prev (h : heap) (off v : Z) : result heap :=
  m ← hdr h off; Ok (set_hdr h off (mk_mem (magic m) (used m) (next m) v)).
Definition set_used (h : heap) (off v : Z) : result heap :=
  m ← hdr h off; Ok (set_hdr h off (mk_mem (magic m) v (next m) (prev m))).
Definition set_magic (h : heap) (off : Z) : result heap :=
  m ← hdr h off; Ok (set_hdr h off (mk_mem HEAP_MAGIC (used m) (next m) (prev m))).

(** [used_mem += n], keeping the maximum. *)
Definition stat_add (h : heap) (n : Z) : heap :=
  let u := u32 (used_mem h + n) in
  with_used h u (if max_mem h <? u then u else max_mem h).
Definition stat_sub (h : heap) (n : Z) : heap :=
  with_used h (u32 (used_mem h - n)) (max_mem h).

Definition plug_forward (h : heap) (mem : Z) : result heap :=
  m ← hdr h mem;
  let nmem := next m in
  if mem =? nmem then Ok h else
  n ← hdr h nmem;
  if (used n =? 0) && negb (nmem =? heap_end h) then
    let h := if lfree h =? nmem then with_lfree h mem else h in
    h ← set_next h mem (next n);
    set_prev h (next n) mem
  else Ok h.

Definition plug_backward (h : heap) (mem : Z) : result heap :=
  m ← hdr h mem;
  let pmem := prev m in
  if pmem =? mem then Ok h else
  p ← hdr h pmem;
  if used p =? 0 then
    let h := if lfree h =? mem then with_lfree h pmem else h in
    h ← set_next h pmem (next m);
    set_prev h (next m) pmem
  else Ok h.

Definition plug_holes (h : heap) (mem : Z) : result heap :=
  _ ← rt_assert (0 <=? mem);
  _ ← rt_assert (mem <? heap_end h);
  m ← hdr h mem;
  _ ← rt_assert (used m =? 0);
  h ← plug_forward h mem;
  plug_backward h mem.

(** [None]: the addresses leave no room and the heap is not set up. *)
Definition rt_system_heap_init (begin_addr end_addr : Z) : option heap :=
  let begin_align := RT_ALIGN begin_addr RT_ALIGN_SIZE in
  let end_align := RT_ALIGN_DOWN end_addr RT_ALIGN_SIZE in
  if (2 * SIZEOF_STRUCT_MEM <? end_align)
     && (begin_align <=? end_align - 2 * SIZEOF_STRUCT_MEM) then
    let msa := end_align - begin_align - 2 * SIZEOF_STRUCT_MEM in
    let e := msa + SIZEOF_STRUCT_MEM in
    Some (mk_heap
      (<[e := mk_mem HEAP_MAGIC 1 e e]> (<[0 := mk_mem HEAP_MAGIC 0 e 0]> ∅))
      ∅ begin_align 0 msa 0 0)
  else None.

(** [while (lfree->used && lfree != heap_end) lfree = lfree->next]. *)
Fixpoint advance_lfree (fuel : nat) (h : heap) : result heap :=
  match fuel with
  | O => Err F_fuel
  | S n =>
      m ← hdr h (lfree h);
      if negb (used m =? 0) && negb (lfree h =? heap_end h)
      then advance_lfree n (with_lfree h (next m))
      else Ok h
  end.

(** The size of the chain walk: a block list is never longer than this. *)
Definition fuel_of (h : heap) : nat := S (size (blocks h)).

(** The body of the search loop once [mem], at offset [ptr], fits: split the
    block or take it whole, ... *)
Definition malloc_carve (h : heap) (ptr size : Z) : result heap :=
  mem ← hdr h ptr;
  h ← (if u32 (size + SIZEOF_STRUCT_MEM + MIN_SIZE_ALIGNED) <=?
          u32 (next mem - (ptr + SIZEOF_STRUCT_MEM))
       then
         let ptr2 := u32 (ptr + SIZEOF_STRUCT_MEM + size) in
         let h := set_hdr h ptr2 (mk_mem HEAP_MAGIC 0 (next mem) ptr) in
         h ← set_next h ptr ptr2;
         h ← set_used h ptr 1;
         h ← (if negb (next mem =? mem_size_aligned h + SIZEOF_STRUCT_MEM)
              then set_prev h (next mem) ptr2 else Ok h);
         Ok (stat_add h (size + SIZEOF_STRUCT_MEM))
       else
         h ← set_used h ptr 1;
         Ok (stat_add h (next mem - ptr)));
  set_magic h ptr.

(** ... then move [lfree] on, check the result and return the payload. *)
Definition malloc_finish (h : heap) (ptr size : Z) : result (heap * Z) :=
  h ← (if ptr =? lfree h then
         h ← advance_lfree (fuel_of h) h;
         l ← hdr h (lfree h);
         _ ← rt_assert ((lfree h =? heap_end h) || (used l =? 0));
         Ok h
       else Ok h);
  _ ← rt_assert (heap_ptr h + ptr + SIZEOF_STRUCT_MEM + size <=? heap_ptr h + heap_end h);
  _ ← rt_assert ((heap_ptr h + ptr + SIZEOF_STRUCT_MEM) mod RT_ALIGN_SIZE =? 0);
  _ ← rt_assert (Z.land (heap_ptr h + ptr) (RT_ALIGN_SIZE - 1) =? 0);
  Ok (h, heap_ptr h + ptr + SIZEOF_STRUCT_MEM).

(** The search loop; [0] is [RT_NULL]. *)
Fixpoint malloc_loop (fuel : nat) (h : heap) (size ptr : Z) : result (heap * Z) :=
  match fuel with
  | O => Err F_fuel
  | S n =>
      if ptr <? u32 (mem_size_aligned h - size) then
        mem ← hdr h ptr;
        if (used mem =? 0)
           && (size <=? u32 (next mem - (ptr + SIZEOF_STRUCT_MEM)))
        then h ← malloc_carve h ptr size; malloc_finish h ptr size
        else malloc_loop n h size (next mem)
      else Ok (h, 0)
  end.

Definition rt_malloc (h : heap) (size : Z) : result (heap * Z) :=
  if size =? 0 then Ok (h, 0) else
  let size := RT_ALIGN size RT_ALIGN_SIZE in
  if mem_size_aligned h <? size then Ok (h, 0) else
  let size := if size <? MIN_SIZE_ALIGNED then MIN_SIZE_ALIGNED else size in
  malloc_loop (fuel_of h) h size (lfree h).

Definition rt_free (h : heap) (rmem : Z) : result heap :=
  if rmem =? 0 then Ok h else
  _ ← rt_assert (Z.land rmem (RT_ALIGN_SIZE - 1) =? 0);
  _ ← rt_assert ((heap_ptr h <=? rmem) && (rmem <? heap_ptr h + heap_end h));
  let mem := rmem - SIZEOF_STRUCT_MEM - heap_ptr h in
  m ← hdr h mem;
  _ ← rt_assert (negb (used m =? 0));
  _ ← rt_assert (magic m =? HEAP_MAGIC);
  let h := set_hdr h mem (mk_mem HEAP_MAGIC 0 (next m) (prev m)) in
  let h := if mem <? lfree h then with_lfree h mem else h in
  let h := stat_sub h (next m - mem) in
  plug_holes h mem.

(** [rt_memcpy (dst, src, n)] between heap addresses, as offsets. *)
Fixpoint copy_bytes (d : gmap Z Z) (dst src : Z) (n : nat) : gmap Z Z :=
  match n with
  | O => d
  | S k =>
      let d' := match d !! src with Some b => <[dst := b]> d | None => delete dst d end in
      copy_bytes d' (dst + 1) (src + 1) k
  end.

Definition rt_realloc (h : heap) (rmem newsize : Z) : result (heap * Z) :=
  let newsize := RT_ALIGN newsize RT_ALIGN_SIZE in
  if mem_size_aligned h <? newsize then Ok (h, 0)
  else if newsize =? 0 then h ← rt_free h rmem; Ok (h, 0)
  else if rmem =? 0 then rt_malloc h newsize
  else if (rmem <? heap_ptr h) || (heap_ptr h + heap_end h <=? rmem) then Ok (h, rmem)
  else
    let ptr := rmem - SIZEOF_STRUCT_MEM - heap_ptr h in
    m ← hdr h ptr;
    let size := u32 (next m - ptr - SIZEOF_STRUCT_MEM) in
    if size =? newsize then Ok (h, rmem)
    else if u32 (newsize + SIZEOF_STRUCT_MEM + MIN_SIZE) <? size then
      let h := stat_sub h (size - newsize) in
      let ptr2 := u32 (ptr + SIZEOF_STRUCT_MEM + newsize) in
      let h := set_hdr h ptr2 (mk_mem HEAP_MAGIC 0 (next m) ptr) in
      h ← set_next h ptr ptr2;
      h ← (if negb (next m =? mem_size_aligned h + SIZEOF_STRUCT_MEM)
           then set_prev h (next m) ptr2 else Ok h);
      h ← plug_holes h ptr2;
      Ok (h, rmem)
    else
      '(h, nmem) ← rt_malloc h newsize;
      if nmem =? 0 then Ok (h, 0)
      else
        let n := if size <? newsize then size else newsize in
        let h := with_data h (copy_bytes (data h) (nmem - heap_ptr h)
                                (rmem - heap_ptr h) (Z.to_nat n)) in
        h ← rt_free h rmem;
        Ok (h, nmem).

(** [rt_memset (p, 0, n)] on the heap. *)
Fixpoint zero_bytes (d : gmap Z Z) (dst : Z) (n : nat) : gmap Z Z :=
  match n with
  | O => d
  | S k => zero_bytes (<[dst := 0]> d) (dst + 1) k
  end.

Definition rt_calloc (h : heap) (count size : Z) : result (heap * Z) :=
  '(h, p) ← rt_malloc h (u32 (count * size));
  if p =? 0 then Ok (h, 0)
  else Ok (with_data h (zero_bytes (data h) (p - heap_ptr h)
                          (Z.to_nat (u32 (count * size)))), p).

Definition rt_memory_info (h : heap) : Z * Z * Z :=
  (mem_size_aligned h, used_mem h, max_mem h).

End Heap.

(** ** Chains of blocks *)
Module Seg.
Import Heap.

(** A block: its size, header included, and whether it is allocated. *)
Abbreviation blk := (Z * bool)%type.

Definition b2z (u : bool) : Z := if u then 1 else 0.

(** The header of a block at [o]. *)
Definition hd_of (p o n : Z) (u : bool) : heap_mem := mk_mem HEAP_MAGIC (b2z u) (o + n) p.

(** [seg bs p o l p' o']: from offset [o], entered from the block at [p], the
    [next] links run through the blocks [l] and reach [o'], entered from [p']. *)
Fixpoint seg (bs : gmap Z heap_mem) (p o : Z) (l : list blk) (p' o' : Z) : Prop :=
  match l with
  | [] => p = p' /\ o = o'
  | (n, u) :: l' =>
      bs !! o = Some (hd_of p o n u) /\ 16 <= n /\ n mod 4 = 0 /\
      seg bs o (o + n) l' p' o'
  end.

Fixpoint total (l : list blk) : Z :=
  match l with [] => 0 | (n, _) :: l' => n + total l' end.

(** Offset of the first free block, or the end. *)
Fixpoint ffree (l : list blk) : Z :=
  match l with
  | [] => 0
  | (n, u) :: l' => if u then n + ffree l' else 0
  end.

(** Bytes taken by allocated blocks, headers included. *)
Fixpoint used_total (l : list blk) : Z :=
  match l with
  | [] => 0
  | (n, u) :: l' => (if u then n else 0) + used_total l'
  end.

(** Offsets and sizes of the allocated blocks of a chain that starts at [o]. *)
Fixpoint live (o : Z) (l : list blk) : list (Z * Z) :=
  match l with
  | [] => []
  | (n, u) :: l' => (if u then [(o, n)] else []) ++ live (o + n) l'
  end.

(** No two neighbours are free. *)
Fixpoint coalesced (l : list blk) : Prop :=
  match l with
  | (_, u) :: ((_, v) :: _) as l' => (u || v = true) /\ coalesced l'
  | _ => True
  end.

Fixpoint offs (o : Z) (l : list blk) : list Z :=
  match l with [] => [] | (n, _) :: l' => o :: offs (o + n) l' end.

(** *** Lemmas on block lists *)

Lemma total_app l1 l2 : total (l1 ++ l2) = total l1 + total l2.
Proof. induction l1 as [|[n u] l1 IH]; cbn; lia. Qed.

Lemma used_total_app l1 l2 : used_total (l1 ++ l2) = used_total l1 + used_total l2.
Proof. induction l1 as [|[n u] l1 IH]; cbn; lia. Qed.

Lemma live_app o l1 l2 : live o (l1 ++ l2) = live o l1 ++ live (o + total l1) l2.
Proof.
  revert o; induction l1 as [|[n u] l1 IH]; intros o; cbn.
  - by rewrite Z.add_0_r.
  - rewrite IH. rewrite <- app_assoc. do 3 f_equal. lia.
Qed.

Lemma coalesced_app_inv l1 l2 : coalesced (l1 ++ l2) -> coalesced l1 /\ coalesced l2.
Proof.
  induction l1 as [|[n u] l1 IH]; [done|].
  destruct l1 as [|[m v] l1]; cbn in *.
  - destruct l2 as [|[m v] l2]; [done|]. tauto.
  - intros [? H]. apply IH in H. tauto.
Qed.

(** Two chains join when one of the blocks at the seam is allocated. *)
Definition seam (l1 l2 : list blk) : Prop :=
  match last l1, l2 with
  | Some (_, u), (_, v) :: _ => u || v = true
  | _, _ => True
  end.

Lemma coalesced_app l1 l2 :
  coalesced (l1 ++ l2) <-> coalesced l1 /\ coalesced l2 /\ seam l1 l2.
Proof.
  induction l1 as [|[n u] l1 IH]; [cbn; tauto|].
  destruct l1 as [|[m v] l1].
  - cbn. destruct l2 as [|[m v] l2]; cbn; tauto.
  - split.
    + intros [Hu H]. apply IH in H as (H1 & H2 & H3). by split_and!.
    + intros ([Hu H1] & H2 & H3). split; [done|]. apply IH. by split_and!.
Qed.

(** *** Lemmas on segments *)

Lemma seg_end bs p o l p' o' : seg bs p o l p' o' -> o' = o + total l.
Proof.
  revert p o; induction l as [|[n u] l IH]; intros p o; cbn.
  - intros [_ ->]. lia.
  - intros (_ & _ & _ & H). apply IH in H. lia.
Qed.

Lemma seg_total_nonneg bs p o l p' o' : seg bs p o l p' o' -> 0 <= total l.
Proof.
  revert p o; induction l as [|[n u] l IH]; intros p o; cbn; [lia|].
  intros (_ & ? & _ & H). apply IH in H. lia.
Qed.

Lemma seg_app bs p o l1 l2 p' o' :
  seg bs p o (l1 ++ l2) p' o' <->
  exists q, seg bs p o l1 q (o + total l1) /\ seg bs q (o + total l1) l2 p' o'.
Proof.
  revert p o; induction l1 as [|[n u] l1 IH]; intros p o; cbn.
  - rewrite Z.add_0_r. split; [eauto|]. by intros (q & [-> _] & ?).
  - rewrite IH. replace (o + (n + total l1)) with (o + n + total l1) by lia.
    split; [intros (?&?&?&q&?&?)|intros (q&(?&?&?&?)&?)]; eauto 10.
Qed.

Lemma seg_agree bs bs' p o l p' o' :
  (forall x, o <= x < o' -> bs' !! x = bs !! x) ->
  seg bs p o l p' o' -> seg bs' p o l p' o'.
Proof.
  revert p o; induction l as [|[n u] l IH]; intros p o Ha; cbn; [done|].
  intros (Ho & ? & ? & H). pose proof (seg_end _ _ _ _ _ _ H).
  pose proof (seg_total_nonneg _ _ _ _ _ _ H).
  rewrite Ha by lia. split_and!; try done. apply IH; [|done].
  intros x Hx. apply Ha. lia.
Qed.

(** Enter the same blocks from elsewhere. *)
Lemma seg_reprev bs bs' p q o l p' o' :
  seg bs p o l p' o' ->
  (forall x, o < x < o' -> bs' !! x = bs !! x) ->
  (forall n u, bs !! o = Some (hd_of p o n u) -> l <> [] ->
     bs' !! o = Some (hd_of q o n u)) ->
  exists q', seg bs' q o l q' o'.
Proof.
  destruct l as [|[n u] l]; cbn.
  - intros [-> ->] _ _. by exists q.
  - intros (Ho & Hn & ? & H) Ha Hh. exists p'.
    pose proof (seg_end _ _ _ _ _ _ H). pose proof (seg_total_nonneg _ _ _ _ _ _ H).
    split_and!; try done; [by apply Hh|].
    eapply seg_agree; [|exact H]. intros x Hx. apply Ha. lia.
Qed.

Lemma seg_offs_range bs p o l p' o' x :
  seg bs p o l p' o' -> x ∈ offs o l -> o <= x < o' /\ is_Some (bs !! x).
Proof.
  revert p o; induction l as [|[n u] l IH]; intros p o; cbn.
  - intros _ Hx. inversion Hx.
  - intros (Ho & ? & ? & H) Hx. pose proof (seg_end _ _ _ _ _ _ H).
    pose proof (seg_total_nonneg _ _ _ _ _ _ H).
    apply elem_of_cons in Hx as [->|Hx]; [split; [lia|by eexists]|].
    apply (IH _ _ H) in Hx as [??]. split; [lia|done].
Qed.

Lemma seg_offs_NoDup bs p o l p' o' : seg bs p o l p' o' -> NoDup (offs o l).
Proof.
  revert p o; induction l as [|[n u] l IH]; intros p o; cbn; [constructor|].
  intros (Ho & ? & ? & H). constructor; [|by eapply IH].
  intros Hx. apply (seg_offs_range _ _ _ _ _ _ _ H) in Hx as [??]. lia.
Qed.

(** Headers outnumber the blocks of a chain: the fuel of the loops. *)
Lemma seg_length bs p o l p' o' :
  seg bs p o l p' o' -> is_Some (bs !! o') -> (S (length l) <= size bs)%nat.
Proof.
  intros H He.
  assert (Hl : length l = length (offs o l)).
  { clear H. revert o; induction l as [|[n u] l IH]; intros o; cbn; [done|].
    by rewrite <- IH. }
  rewrite <- (size_dom (D := gset Z) bs).
  transitivity (size (list_to_set (C := gset Z) (o' :: offs o l))).
  - rewrite size_list_to_set; [cbn; lia|].
    constructor; [|by eapply seg_offs_NoDup].
    intros Hx. apply (seg_offs_range _ _ _ _ _ _ _ H) in Hx as [??]. lia.
  - apply subseteq_size. intros x Hx. apply elem_of_list_to_set in Hx.
    apply elem_of_dom. apply elem_of_cons in Hx as [->|Hx]; [done|].
    by apply (seg_offs_range _ _ _ _ _ _ _ H) in Hx as [??].
Qed.

End Seg.

(** ** The invariant *)
Module HeapSpec.
Import Heap Seg.

(** [h] holds the block list [l] and the end marker. *)
Definition rep (h : heap) (l : list blk) : Prop :=
  (exists pl, seg (blocks h) 0 0 l pl (heap_end h)) /\
  (exists ep, blocks h !! heap_end h = Some (mk_mem HEAP_MAGIC 1 (heap_end h) ep)) /\
  12 <= mem_size_aligned h /\ mem_size_aligned h mod 4 = 0 /\
  0 <= heap_ptr h /\ heap_ptr h mod 4 = 0 /\
  heap_ptr h + heap_end h + 12 <= 4294967295.

(** [lfree] is the end of the heap or a free block; in the strong form
    ([s = true]) every block before it is allocated, so that it is the lowest
    free block, as the comment on the variable says. *)
Definition lfree_at (s : bool) (x : Z) (l : list blk) : Prop :=
  exists a b, l = a ++ b /\ x = total a /\
    (s = true -> forallb snd a = true) /\
    match b with [] => True | (_, u) :: _ => u = false end.

Definition lfree_ok (s : bool) (h : heap) (l : list blk) : Prop :=
  lfree_at s (lfree h) l.

Definition stats_ok (h : heap) (l : list blk) : Prop :=
  used_mem h = used_total l /\ used_mem h <= max_mem h < 4294967296.

Definition inv (s : bool) (h : heap) (l : list blk) : Prop :=
  rep h l /\ lfree_ok s h l /\ coalesced l /\ stats_ok h l.

(** *** Access to headers *)

Lemma hdr_Ok h x m : blocks h !! x = Some m -> hdr h x = Ok m.
Proof. unfold hdr. by intros ->. Qed.

Lemma set_next_Ok h x m v : blocks h !! x = Some m ->
  set_next h x v = Ok (set_hdr h x (mk_mem (magic m) (used m) v (prev m))).
Proof. intros E. unfold set_next. by rewrite (hdr_Ok _ _ _ E). Qed.

Lemma set_prev_Ok h x m v : blocks h !! x = Some m ->
  set_prev h x v = Ok (set_hdr h x (mk_mem (magic m) (used m) (next m) v)).
Proof. intros E. unfold set_prev. by rewrite (hdr_Ok _ _ _ E). Qed.

Lemma set_used_Ok h x m v : blocks h !! x = Some m ->
  set_used h x v = Ok (set_hdr h x (mk_mem (magic m) v (next m) (prev m))).
Proof. intros E. unfold set_used. by rewrite (hdr_Ok _ _ _ E). Qed.

Lemma set_magic_Ok h x m : blocks h !! x = Some m ->
  set_magic h x = Ok (set_hdr h x (mk_mem HEAP_MAGIC (used m) (next m) (prev m))).
Proof. intros E. unfold set_magic. by rewrite (hdr_Ok _ _ _ E). Qed.

(** Lookups in an updated store, by cases on the offsets. *)
Ltac map_cases :=
  repeat (rewrite lookup_insert; case_decide; try lia; try done).

(** *** Consequences of [rep] *)

Lemma rep_total h l : rep h l -> total l = heap_end h /\ 0 <= total l.
Proof.
  intros ((pl & H) & _). split.
  - apply seg_end in H. lia.
  - by eapply seg_total_nonneg.
Qed.

(** Where a block sits, and its header. *)
Lemma rep_block h l1 n u l2 : rep h (l1 ++ (n, u) :: l2) ->
  exists q, seg (blocks h) 0 0 l1 q (total l1) /\
    blocks h !! total l1 = Some (hd_of q (total l1) n u) /\
    16 <= n /\ n mod 4 = 0 /\ 0 <= total l1 /\ 0 <= total l2 /\
    total l1 + n + total l2 = heap_end h.
Proof.
  intros ((pl & H) & _). apply seg_app in H as (q & H1 & H2). cbn in H2.
  destruct H2 as (E & ? & ? & H2). rewrite Z.add_0_l in *.
  exists q. pose proof (seg_total_nonneg _ _ _ _ _ _ H1).
  pose proof (seg_total_nonneg _ _ _ _ _ _ H2). pose proof (seg_end _ _ _ _ _ _ H2).
  split_and!; try done; lia.
Qed.

(** The header of whatever follows [l1]. *)
Lemma rep_at h l1 l2 : rep h (l1 ++ l2) ->
  exists m, blocks h !! total l1 = Some m /\
    match l2 with
    | [] => used m = 1 /\ next m = heap_end h /\ total l1 = heap_end h
    | (n, u) :: _ => used m = b2z u /\ next m = total l1 + n /\
                     total l1 + 12 <= total l1 + n <= heap_end h
    end.
Proof.
  intros H. destruct l2 as [|[n u] l2].
  - rewrite app_nil_r in H. pose proof (rep_total _ _ H) as [-> _].
    destruct H as (_ & (ep & E) & _). eexists. by rewrite E.
  - apply rep_block in H as (q & _ & E & ? & ? & ? & ? & ?).
    eexists. split; [exact E|]. cbn. split_and!; lia || done.
Qed.

(** The back link of the block that follows. *)
Lemma rep_prev h l1 n u l2 m : rep h (l1 ++ (n, u) :: l2) -> l2 <> [] ->
  blocks h !! (total l1 + n) = Some m -> prev m = total l1.
Proof.
  intros ((pl & H) & _) Hl E. destruct l2 as [|[n2 u2] l2]; [done|].
  apply seg_app in H as (q & _ & _ & _ & _ & E2 & _). rewrite Z.add_0_l in E2.
  rewrite E2 in E. by injection E as <-.
Qed.

(** Offsets of a chain of 4-aligned blocks are 4-aligned. *)
Lemma seg_aligned bs p o l p' o' : seg bs p o l p' o' -> total l mod 4 = 0.
Proof.
  revert p o; induction l as [|[n u] l IH]; intros p o; cbn; [done|].
  intros (_ & _ & ? & H). apply IH in H. dlia.
Qed.

Lemma rep_aligned h l1 l2 : rep h (l1 ++ l2) -> total l1 mod 4 = 0.
Proof.
  intros ((pl & H) & _). apply seg_app in H as (q & H & _). by eapply seg_aligned.
Qed.

(** *** Replacing consecutive blocks

    Every operation rebuilds the blocks [mid] between [l1] and [l2] and fixes
    the back link of what follows. *)
Lemma rep_replace h h' l1 mid mid' l2 pm :
  rep h (l1 ++ mid ++ l2) ->
  heap_ptr h' = heap_ptr h -> mem_size_aligned h' = mem_size_aligned h ->
  total mid' = total mid ->
  (forall q pm0, seg (blocks h) 0 0 l1 q (total l1) ->
     seg (blocks h) q (total l1) mid pm0 (total l1 + total mid) ->
     seg (blocks h') q (total l1) mid' pm (total l1 + total mid)) ->
  (forall x, x < total l1 \/ total l1 + total mid < x ->
     blocks h' !! x = blocks h !! x) ->
  (forall m, blocks h !! (total l1 + total mid) = Some m ->
     exists pv, (l2 <> [] -> pv = pm) /\
       blocks h' !! (total l1 + total mid) =
         Some (mk_mem (magic m) (used m) (next m) pv)) ->
  rep h' (l1 ++ mid' ++ l2).
Proof.
  intros ((pl & H) & (ep & Ee) & Hrest) Hp Hm Ht Hmid Hout Hnext.
  apply seg_app in H as (q & H1 & H). apply seg_app in H as (r & H2 & H3).
  rewrite Z.add_0_l in *.
  pose proof (seg_end _ _ _ _ _ _ H3) as E3.
  pose proof (seg_total_nonneg _ _ _ _ _ _ H3) as T3.
  pose proof (seg_total_nonneg _ _ _ _ _ _ H2) as T2.
  assert (He : heap_end h' = heap_end h) by (unfold heap_end; by rewrite Hm).
  specialize (Hmid _ _ H1 H2).
  unfold rep. rewrite He, Hp, Hm. split; [|split; [|done]].
  - destruct (seg_reprev (blocks h) (blocks h') r pm _ l2 pl (heap_end h) H3)
      as [q' Hq'].
    + intros x Hx. apply Hout. lia.
    + intros n u E Hl2. destruct (Hnext _ E) as (pv & Hpv & ->). by rewrite Hpv.
    + exists q'. apply seg_app. exists q. rewrite Z.add_0_l. split.
      * eapply seg_agree; [|exact H1]. intros x Hx. apply Hout. lia.
      * apply seg_app. exists pm. by rewrite Ht.
  - destruct (decide (total l2 = 0)) as [Z0|Z0].
    + replace (heap_end h) with (total l1 + total mid) in * by lia.
      destruct (Hnext _ Ee) as (pv & _ & ->). by exists pv.
    + rewrite Hout by lia. by exists ep.
Qed.

(** *** Allocation *)

(** The blocks an allocation of [size] payload bytes makes of a free block. *)
Definition take_block (size n : Z) : list blk :=
  if size + 24 <=? n - 12 then [(size + 12, true); (n - size - 12, false)]
  else [(n, true)].

(** The size of the allocated one among them. *)
Definition taken (size n : Z) : Z := if size + 24 <=? n - 12 then size + 12 else n.

Lemma sizeof_12 : SIZEOF_STRUCT_MEM = 12.
Proof. reflexivity. Qed.
Lemma minsize_12 : MIN_SIZE_ALIGNED = 12.
Proof. reflexivity. Qed.

Ltac map_solve :=
  cbn; repeat (rewrite lookup_insert; case_decide; try (exfalso; lia));
  first [eassumption | reflexivity].

Ltac run_hdr :=
  repeat first
    [ progress cbn [mbind result_bind]
    | progress cbn [magic used next prev]
    | erewrite hdr_Ok by map_solve
    | erewrite set_next_Ok by map_solve
    | erewrite set_used_Ok by map_solve
    | erewrite set_prev_Ok by map_solve
    | erewrite set_magic_Ok by map_solve ].

Lemma carve_spec h l1 n l2 size :
  rep h (l1 ++ (n, false) :: l2) -> 12 <= size -> size mod 4 = 0 -> size <= n - 12 ->
  exists h', malloc_carve h (total l1) size = Ok h' /\
    rep h' (l1 ++ take_block size n ++ l2) /\
    lfree h' = lfree h /\ heap_ptr h' = heap_ptr h /\ data h' = data h /\
    mem_size_aligned h' = mem_size_aligned h /\
    used_mem h' = u32 (used_mem h + taken size n) /\
    max_mem h' = Z.max (max_mem h) (u32 (used_mem h + taken size n)).
Proof.
  intros H Hs Ha Hn. pose proof H as (_ & _ & ? & ? & ? & ? & Hb).
  destruct (rep_block _ _ _ _ _ H) as (q & Hsg & E & ? & ? & ? & ? & Ht).
  destruct (rep_at h (l1 ++ [(n, false)]) l2) as (m & Em & Hm).
  { by rewrite <- app_assoc. }
  rewrite total_app in Em, Hm. cbn in Em, Hm.
  replace (total l1 + (n + 0)) with (total l1 + n) in Em, Hm by lia.
  assert (He : heap_end h = mem_size_aligned h + 12) by reflexivity.
  unfold malloc_carve, take_block, taken. rewrite sizeof_12, minsize_12 in *.
  unfold hd_of in E. erewrite hdr_Ok by exact E. run_hdr.
  replace (total l1 + n - (total l1 + 12)) with (n - 12) by lia.
  rewrite (u32_small (n - 12)), (u32_small (size + 12 + 12)) by lia.
  replace (size + 12 + 12) with (size + 24) by lia.
  destruct (Z.leb_spec (size + 24) (n - 12)).
  - rewrite (u32_small (total l1 + 12 + size)) by lia. run_hdr.
    cbn [mem_size_aligned set_hdr with_blocks].
    destruct (Z.eqb_spec (total l1 + n) (mem_size_aligned h + 12)) as [El|El];
      cbn [negb]; run_hdr;
      (eexists; split; [reflexivity|]; split;
       [|cbn; split_and!; try done; case_bool; lia]).
    all: apply (rep_replace h _ l1 [(n, false)] _ l2 (total l1 + 12 + size));
      [done|done|done|cbn; lia|..]; cbn [total]; rewrite ?Z.add_0_r.
    all: try (intros x Hx; map_solve).
    1,3: intros q0 pm0 _ (E0 & _); rewrite E in E0; injection E0 as <-;
      cbn [seg]; split_and!; try lia; try dlia; unfold hd_of, b2z;
      try (cbn; map_cases; do 2 f_equal; lia).
    all: intros m' Em'; rewrite Em in Em'; injection Em' as <-.
    + exists (prev m). split; [|cbn; map_cases; rewrite Em; by destruct m].
      intros Hl2. destruct l2 as [|[n2 u2] l2]; [done|]. lia.
    + eexists. split; [|map_solve]. done.
  - run_hdr. eexists. split; [reflexivity|]. split.
    2:{ cbn. replace (total l1 + n - total l1) with n by lia.
        split_and!; try done. case_bool; lia. }
    apply (rep_replace h _ l1 [(n, false)] _ l2 (total l1));
      [done|done|done|cbn; lia|..]; cbn [total]; rewrite ?Z.add_0_r.
    + intros q0 pm0 _ (E0 & _). rewrite E in E0; injection E0 as <-.
      cbn [seg]. split_and!; try done; try lia. cbn. map_cases.
    + intros x Hx. map_solve.
    + intros m' Em'. rewrite Em in Em'; injection Em' as <-.
      exists (prev m). split; [|cbn; map_cases; rewrite Em; by destruct m].
      intros Hl2. by eapply rep_prev.
Qed.

Lemma advance_lfree_spec fuel h a b :
  rep h (a ++ b) -> lfree h = total a -> (length b < fuel)%nat ->
  advance_lfree fuel h = Ok (with_lfree h (total a + ffree b)).
Proof.
  revert h a b; induction fuel as [|fuel IH]; intros h a b H Hl Hf; [lia|].
  cbn [advance_lfree]. rewrite Hl.
  destruct (rep_at _ _ _ H) as (m & Em & Hm). rewrite (hdr_Ok _ _ _ Em). red_bind.
  destruct b as [|[n u] b]; cbn [ffree].
  - destruct Hm as (-> & _ & Ha). rewrite Ha, Z.eqb_refl, Z.add_0_r, <- Ha.
    unfold with_lfree. rewrite <- Hl. by destruct h.
  - destruct Hm as (-> & -> & ? & ?). destruct u; cbn [b2z].
    + rewrite (proj2 (Z.eqb_neq (total a) _)) by lia. cbn [negb andb].
      change (1 =? 0) with false. cbn [negb andb].
      replace (total a + n) with (total (a ++ [(n, true)])) by (rewrite total_app; cbn; lia).
      rewrite (IH _ (a ++ [(n, true)]) b).
      * rewrite total_app. cbn [total].
        by replace (total a + (n + 0) + ffree b) with (total a + (n + ffree b)) by lia.
      * rewrite <- app_assoc. exact H.
      * done.
      * cbn in Hf. lia.
    + rewrite Z.add_0_r. unfold with_lfree. rewrite <- Hl. by destruct h.
Qed.

Lemma rep_fuel h l : rep h l -> (S (length l) < fuel_of h)%nat.
Proof.
  intros ((pl & H) & (ep & E) & _). unfold fuel_of.
  pose proof (seg_length _ _ _ _ _ _ H). rewrite E in *.
  specialize (H0 ltac:(by eexists)). lia.
Qed.


Lemma ffree_split b : exists b1 b2, b = b1 ++ b2 /\ total b1 = ffree b /\
  forallb snd b1 = true /\ match b2 with [] => True | (_, u) :: _ => u = false end.
Proof.
  induction b as [|[n u] b (b1 & b2 & -> & Ht & Hu & Hb)]; [by exists [], []|].
  destruct u.
  - exists ((n, true) :: b1), b2. cbn. by rewrite Ht, Hu.
  - by exists [], ((n, false) :: b1 ++ b2).
Qed.

Lemma land_3 x : Z.land x (RT_ALIGN_SIZE - 1) = x mod 4.
Proof. exact (Z.land_ones x 2 ltac:(lia)). Qed.

Lemma finish_spec h l1 t r size :
  rep h (l1 ++ (t, true) :: r) -> size <= t - 12 ->
  malloc_finish h (total l1) size =
    Ok (if total l1 =? lfree h
        then with_lfree h (total l1 + ffree ((t, true) :: r)) else h,
        heap_ptr h + total l1 + 12).
Proof.
  intros H Hs. pose proof H as (_ & _ & ? & ? & ? & Hp & Hb).
  destruct (rep_block _ _ _ _ _ H) as (q & Hsg & E & ? & ? & ? & ? & Ht).
  pose proof (rep_aligned h l1 _ H) as Ha.
  assert (Hend : forall h', heap_end h' = heap_end h -> heap_ptr h' = heap_ptr h ->
    (_ ← rt_assert (heap_ptr h' + total l1 + SIZEOF_STRUCT_MEM + size
                    <=? heap_ptr h' + heap_end h');
     _ ← rt_assert ((heap_ptr h' + total l1 + SIZEOF_STRUCT_MEM) mod RT_ALIGN_SIZE =? 0);
     _ ← rt_assert (Z.land (heap_ptr h' + total l1) (RT_ALIGN_SIZE - 1) =? 0);
     Ok (h', heap_ptr h' + total l1 + SIZEOF_STRUCT_MEM)) =
    Ok (h', heap_ptr h + total l1 + 12)).
  { intros h' -> ->. rewrite land_3, sizeof_12. unfold RT_ALIGN_SIZE.
    rewrite (proj2 (Z.leb_le _ _)) by lia.
    rewrite !(proj2 (Z.eqb_eq _ 0)) by dlia. done. }
  unfold malloc_finish. destruct (Z.eqb_spec (total l1) (lfree h)) as [El|El].
  2:{ red_bind. by apply Hend. }
  pose proof (rep_fuel _ _ H) as Hf. rewrite length_app in Hf.
  rewrite (advance_lfree_spec _ h l1 ((t, true) :: r)) by (done || lia).
  red_bind. cbn [lfree with_lfree].
  destruct (ffree_split ((t, true) :: r)) as (b1 & b2 & Eb & Hb1 & _ & Hb2).
  rewrite Eb in H |- *. rewrite app_assoc in H.
  destruct (rep_at _ _ _ H) as (m & Em & Hm).
  rewrite total_app, Hb1, Eb in Em, Hm.
  rewrite (hdr_Ok (with_lfree h _) _ m) by exact Em. red_bind.
  rewrite rt_assert_true; [red_bind; by apply Hend|].
  destruct b2 as [|[n2 u2] b2].
  - destruct Hm as (_ & _ & ->). by rewrite Z.eqb_refl.
  - destruct Hm as (-> & _). by rewrite Hb2, orb_true_r.
Qed.

(** The first free block with room for [size], among the blocks from offset
    [o] on that start below [limit]. *)
Fixpoint first_fit (limit o size : Z) (l : list blk) : option (list blk * Z * list blk) :=
  match l with
  | [] => None
  | (n, u) :: l' =>
      if o <? limit then
        if negb u && (size <=? n - 12) then Some ([], n, l')
        else match first_fit limit (o + n) size l' with
             | Some (a, m, b) => Some ((n, u) :: a, m, b)
             | None => None
             end
      else None
  end.

Lemma first_fit_split limit o size l a n b :
  first_fit limit o size l = Some (a, n, b) ->
  l = a ++ (n, false) :: b /\ size <= n - 12 /\ o + total a < limit.
Proof.
  revert o a; induction l as [|[m u] l IH]; intros o a; cbn; [done|].
  destruct (Z.ltb_spec o limit); [|done].
  destruct (negb u && (size <=? m - 12)) eqn:Eu.
  - intros [= <- <- <-]. bool_prop. subst u. cbn. split_and!; done || lia.
  - destruct (first_fit limit (o + m) size l) as [[[a' n'] b']|] eqn:Ef; [|done].
    intros [= <- <- <-]. apply IH in Ef as (-> & ? & ?). cbn. split_and!; done || lia.
Qed.

Lemma loop_spec fuel h a b size :
  rep h (a ++ b) -> (length b < fuel)%nat -> 12 <= size <= mem_size_aligned h ->
  malloc_loop fuel h size (total a) =
    match first_fit (mem_size_aligned h - size) (total a) size b with
    | Some (pre, _, _) =>
        h ← malloc_carve h (total a + total pre) size;
        malloc_finish h (total a + total pre) size
    | None => Ok (h, 0)
    end.
Proof.
  revert a b; induction fuel as [|fuel IH]; intros a b H Hf Hs; [lia|].
  pose proof H as (_ & _ & ? & ? & ? & ? & Hb).
  assert (He : heap_end h = mem_size_aligned h + 12) by reflexivity.
  cbn [malloc_loop]. rewrite u32_small by lia.
  destruct (rep_at _ _ _ H) as (m & Em & Hm).
  destruct b as [|[n u] b]; cbn [first_fit].
  - destruct Hm as (_ & _ & Ea). by rewrite (proj2 (Z.ltb_ge _ _)) by lia.
  - destruct Hm as (Hu & Hx & Hn). destruct (Z.ltb_spec (total a) (mem_size_aligned h - size));
      [|done].
    pose proof (rep_block _ _ _ _ _ H) as (_ & _ & _ & _ & _ & ? & _ & _).
    rewrite (hdr_Ok _ _ _ Em). red_bind. rewrite Hu, Hx, sizeof_12.
    replace (total a + n - (total a + 12)) with (n - 12) by lia.
    rewrite u32_small by lia.
    replace (b2z u =? 0) with (negb u) by (by destruct u).
    destruct (negb u && (size <=? n - 12)); [by cbn; rewrite Z.add_0_r|].
    replace (total a + n) with (total (a ++ [(n, u)])) by (rewrite total_app; cbn; lia).
    rewrite (IH (a ++ [(n, u)]) b); [|by rewrite <- app_assoc|cbn in Hf; lia|done].
    rewrite total_app. cbn [total]. rewrite Z.add_0_r.
    destruct (first_fit _ _ _ b) as [[[pre n'] post]|]; [|done].
    cbn [total]. by rewrite Z.add_assoc.
Qed.

(** *** [rt_malloc] *)

(** The payload size the search looks for. *)
Definition asize (size : Z) : Z := Z.max 12 (RT_ALIGN size RT_ALIGN_SIZE).

Lemma align_up size : 0 <= RT_ALIGN size RT_ALIGN_SIZE /\
  RT_ALIGN size RT_ALIGN_SIZE mod 4 = 0.
Proof.
  unfold RT_ALIGN_SIZE. rewrite RT_ALIGN_4_u32.
  pose proof (u32_range (size + 3)). split; dlia.
Qed.

Lemma align_ge size : 0 <= size -> size + 3 < 4294967296 ->
  size <= RT_ALIGN size RT_ALIGN_SIZE < size + 4.
Proof. intros. unfold RT_ALIGN_SIZE. rewrite RT_ALIGN_4 by lia. dlia. Qed.

Lemma asize_ok size : 12 <= asize size /\ asize size mod 4 = 0.
Proof. pose proof (align_up size). unfold asize. split; [lia|dlia]. Qed.

Lemma used_total_le bs p o l p' o' : seg bs p o l p' o' -> 0 <= used_total l <= total l.
Proof.
  revert p o; induction l as [|[n u] l IH]; intros p o; cbn; [lia|].
  intros (_ & ? & _ & H). apply IH in H. destruct u; lia.
Qed.

Lemma rep_used h l : rep h l -> 0 <= used_total l <= heap_end h.
Proof.
  intros H. destruct (rep_total _ _ H) as [<- _]. destruct H as ((pl & H) & _).
  by eapply used_total_le.
Qed.

Lemma coalesced_take l1 n l2 size :
  coalesced (l1 ++ (n, false) :: l2) -> coalesced (l1 ++ take_block size n ++ l2).
Proof.
  rewrite (coalesced_app l1 (_ :: l2)), (coalesced_app l1 (_ ++ l2)).
  intros (H1 & H2 & _). split; [done|split].
  - unfold take_block. destruct (_ <=? _); cbn in *; destruct l2 as [|[m v] l2]; tauto.
  - unfold seam, take_block. destruct (last l1) as [[k w]|]; [|done].
    destruct (_ <=? _); cbn; apply orb_true_r.
Qed.

Lemma used_take size n : used_total (take_block size n) = taken size n.
Proof. unfold take_block, taken. destruct (_ <=? _); cbn; lia. Qed.

Lemma total_take size n : total (take_block size n) = n.
Proof. unfold take_block. destruct (_ <=? _); cbn; lia. Qed.

Lemma taken_bounds size n : size <= n - 12 -> size + 12 <= taken size n <= n.
Proof. unfold taken. destruct (Z.leb_spec (size + 24) (n - 12)); lia. Qed.

Lemma take_head size n l2 : exists m r,
  take_block size n ++ l2 = (m, true) :: r /\ m = taken size n.
Proof. unfold take_block, taken. destruct (_ <=? _); eauto. Qed.

(** Taking the block after [a ++ pre], where [lfree] is at the end of [a]. *)
Lemma take_spec s h a pre n post size :
  inv s h (a ++ pre ++ (n, false) :: post) -> lfree h = total a ->
  (s = true -> forallb snd a = true) ->
  match pre with [] => True | (_, u) :: _ => u = false end ->
  12 <= size -> size mod 4 = 0 -> size <= n - 12 ->
  exists h',
    (h ← malloc_carve h (total a + total pre) size;
     malloc_finish h (total a + total pre) size) =
      Ok (h', heap_ptr h + (total a + total pre) + 12) /\
    inv s h' (a ++ pre ++ take_block size n ++ post) /\
    heap_ptr h' = heap_ptr h /\ mem_size_aligned h' = mem_size_aligned h /\
    data h' = data h.
Proof.
  intros (H & _ & Hc & Hst) Hl Hs Hpre H12 Ha Hn. rewrite app_assoc in H, Hc, Hst.
  rewrite <- total_app.
  destruct (carve_spec h (a ++ pre) n post size H H12 Ha Hn)
    as (h1 & E1 & Hr1 & Hl1 & Hp1 & Hd1 & Hm1 & Hu1 & Hx1).
  destruct (take_head size n post) as (m & r & Et & Em).
  pose proof (taken_bounds size n Hn) as Htk.
  assert (Hr1' := Hr1). rewrite Et in Hr1'.
  rewrite E1. cbn [mbind result_bind].
  rewrite (finish_spec h1 (a ++ pre) m r size Hr1') by lia. rewrite <- Et, Hp1.
  eexists. split; [reflexivity|].
  assert (Hco := coalesced_take _ _ _ size Hc). rewrite <- app_assoc in Hr1, Hco.
  pose proof (rep_used _ _ Hr1) as Hub. pose proof Hr1 as (_ & _ & _ & _ & ? & _ & ?).
  assert (Hst1 : stats_ok h1 (a ++ pre ++ take_block size n ++ post)).
  { destruct Hst as [Hs1 Hs2]. unfold stats_ok.
    rewrite Hu1, Hx1, Hs1 in *.
    rewrite !used_total_app, used_take in *. cbn in *.
    rewrite u32_small by lia. lia. }
  destruct (Z.eqb_spec (total (a ++ pre)) (lfree h1)) as [El|El].
  - split; [|done]. split; [exact Hr1|]. split; [|by split].
    rewrite total_app in El. assert (pre = []) as ->.
    { destruct pre as [|[k u] pre]; [done|].
      rewrite Hl1, Hl in El. pose proof (rep_block h a k u (pre ++ (n, false) :: post)) as Hb.
      rewrite <- app_assoc in H. destruct (Hb H) as (_ & _ & _ & ? & _ & _ & ? & _).
      destruct H as ((pl & H) & _). apply seg_app in H as (q & _ & H).
      cbn in H. destruct H as (_ & _ & _ & H). apply seg_app in H as (q' & H & _).
      apply seg_total_nonneg in H. cbn in El. lia. }
    rewrite app_nil_r, app_nil_l.
    destruct (ffree_split (take_block size n ++ post)) as (b1 & b2 & Eb & Hb1 & Hbu & Hb2).
    exists (a ++ b1), b2. rewrite Eb, <- app_assoc, total_app. cbn [lfree with_lfree].
    split; [done|]. split; [by rewrite <- Eb, Hb1|]. split; [|done].
    intros Hst'. by rewrite forallb_app, Hs, Hbu.
  - split; [|done]. split; [exact Hr1|]. split; [|by split].
    exists a, (pre ++ take_block size n ++ post). rewrite Hl1.
    split_and!; try done. destruct pre as [|[k u] pre]; [|done].
    exfalso. apply El. by rewrite app_nil_r, Hl1.
Qed.

(** [rt_malloc] as a search in the block list. *)
Lemma malloc_spec s h a b size :
  inv s h (a ++ b) -> lfree h = total a -> (s = true -> forallb snd a = true) ->
  match b with [] => True | (_, u) :: _ => u = false end ->
  0 < size ->
  match (if mem_size_aligned h <? RT_ALIGN size RT_ALIGN_SIZE then None
         else first_fit (mem_size_aligned h - asize size) (total a) (asize size) b) with
  | None => rt_malloc h size = Ok (h, 0)
  | Some (pre, n, post) =>
      b = pre ++ (n, false) :: post /\ asize size <= n - 12 /\
      exists h',
        rt_malloc h size = Ok (h', heap_ptr h + (total a + total pre) + 12) /\
        inv s h' (a ++ pre ++ take_block (asize size) n ++ post) /\
        heap_ptr h' = heap_ptr h /\ mem_size_aligned h' = mem_size_aligned h /\
        data h' = data h
  end.
Proof.
  intros Hi Hl Hs Hb H0. destruct (asize_ok size) as (A1 & A3).
  pose proof Hi as (H & _). pose proof H as (_ & _ & ? & ? & _).
  unfold rt_malloc. rewrite (proj2 (Z.eqb_neq _ _)) by lia.
  set (al := RT_ALIGN size RT_ALIGN_SIZE) in *.
  destruct (Z.ltb_spec (mem_size_aligned h) al); [done|].
  rewrite minsize_12. replace (if al <? 12 then 12 else al) with (asize size)
    by (unfold asize; fold al; case_bool; lia).
  assert (12 <= asize size <= mem_size_aligned h) by (unfold asize; fold al; lia).
  pose proof (rep_fuel _ _ H) as Hf. rewrite length_app in Hf.
  rewrite Hl, (loop_spec _ h a b (asize size) H) by lia.
  destruct (first_fit _ _ _ b) as [[[pre n] post]|] eqn:Ef; [|done].
  apply first_fit_split in Ef as (-> & Hn & _).
  split; [done|]. split; [done|]. apply take_spec; try done.
  by destruct pre as [|[k u] pre].
Qed.

(** *** Merging free neighbours *)

(** The free block [n] after it absorbed a free successor. *)
Definition merge_next (n : Z) (l2 : list blk) : Z * list blk :=
  match l2 with (m, false) :: l3 => (n + m, l3) | _ => (n, l2) end.

(** ... and after its free predecessor absorbed it. *)
Definition merge_prev (l1 : list blk) (n : Z) (l2 : list blk) : list blk :=
  match last l1 with
  | Some (k, false) => removelast l1 ++ (k + n, false) :: l2
  | _ => l1 ++ (n, false) :: l2
  end.

(** The block list after the allocated block between [l1] and [l2] is freed. *)
Definition release (l1 : list blk) (n : Z) (l2 : list blk) : list blk :=
  let (n', l2') := merge_next n l2 in merge_prev l1 n' l2'.

(** The parts of the state that merging leaves alone. *)
Definition same_rest (h h' : heap) : Prop :=
  heap_ptr h' = heap_ptr h /\ mem_size_aligned h' = mem_size_aligned h /\
  data h' = data h /\ used_mem h' = used_mem h /\ max_mem h' = max_mem h.

Definition pos (l : list blk) : Prop := Forall (fun b => 12 <= b.1) l.

Lemma rep_pos h l : rep h l -> pos l.
Proof.
  intros ((pl & H) & _). revert H. generalize 0 at 1 as p. generalize 0 as o.
  induction l as [|[n u] l IH]; intros o p; cbn; [constructor|].
  intros (_ & ? & _ & H). constructor; [cbn; lia|by eapply IH].
Qed.

Lemma pos_total l : pos l -> 0 <= total l.
Proof. induction 1 as [|[n u] l ? _ IH]; cbn in *; lia. Qed.

(** Where [lfree] stands once two free neighbours are one block. *)
Lemma lfree_merge s x l1 n k l3 :
  pos (l1 ++ (n, false) :: (k, false) :: l3) ->
  lfree_at s x (l1 ++ (n, false) :: (k, false) :: l3) ->
  lfree_at s (if x =? total l1 + n then total l1 else x) (l1 ++ (n + k, false) :: l3).
Proof.
  intros Hp (a & b & Eab & -> & Hs & Hb). apply Forall_app in Hp as [Hp1 Hp2].
  inversion Hp2 as [|? ? Hn Hp3]; subst. inversion Hp3 as [|? ? Hk Hp4]; subst.
  cbn in Hn, Hk. symmetry in Eab.
  apply app_eq_inv in Eab as [(d & -> & Ed)|(c & -> & ->)].
  - rewrite total_app. destruct d as [|[n' u'] d].
    { rewrite app_nil_r in *. cbn in Ed |- *. rewrite (proj2 (Z.eqb_neq _ _)) by lia.
      exists l1, ((n + k, false) :: l3). by rewrite Z.add_0_r. }
    injection Ed as <- <- Ed. rewrite forallb_app in Hs. cbn [total] in *.
    destruct s; [by specialize (Hs eq_refl); rewrite andb_false_r in Hs|].
    destruct d as [|[k' u'] d].
    + cbn [total]. rewrite (proj2 (Z.eqb_eq _ _)) by lia.
      by exists l1, ((n + k, false) :: l3).
    + injection Ed as <- <- ->. apply Forall_app in Hp4 as [Hp4 _].
      apply pos_total in Hp4. cbn [total].
      rewrite (proj2 (Z.eqb_neq _ _)) by lia.
      exists (l1 ++ (n + k, false) :: d), b. rewrite <- app_assoc, total_app. cbn.
      split_and!; try done. lia.
  - rewrite total_app. apply Forall_app in Hp1 as [_ Hp1]. apply pos_total in Hp1.
    rewrite (proj2 (Z.eqb_neq _ _)) by lia.
    exists a, (c ++ (n + k, false) :: l3). rewrite <- app_assoc.
    split_and!; try done. by destruct c as [|[c1 u1] c].
Qed.

Lemma forward_spec s h l1 n l2 :
  rep h (l1 ++ (n, false) :: l2) -> lfree_ok s h (l1 ++ (n, false) :: l2) ->
  exists h', plug_forward h (total l1) = Ok h' /\ same_rest h h' /\
    rep h' (l1 ++ ((merge_next n l2).1, false) :: (merge_next n l2).2) /\
    lfree_ok s h' (l1 ++ ((merge_next n l2).1, false) :: (merge_next n l2).2).
Proof.
  intros H Hlf. destruct (rep_block _ _ _ _ _ H) as (q & Hsg & E & ? & ? & ? & ? & Ht).
  destruct (rep_at h (l1 ++ [(n, false)]) l2) as (m & Em & Hm).
  { by rewrite <- app_assoc. }
  rewrite total_app in Em, Hm. cbn in Em, Hm.
  replace (total l1 + (n + 0)) with (total l1 + n) in Em, Hm by lia.
  unfold plug_forward. rewrite (hdr_Ok _ _ _ E). cbn [mbind result_bind].
  unfold hd_of; cbn [next]. rewrite (proj2 (Z.eqb_neq _ _)) by lia.
  rewrite (hdr_Ok _ _ _ Em). cbn [mbind result_bind].
  destruct l2 as [|[k v] l3]; cbn [merge_next].
  { destruct Hm as (-> & _ & _). cbn. by exists h. }
  destruct Hm as (-> & Hnx & Hk). destruct v; cbn [b2z].
  { cbn. by exists h. }
  rewrite (proj2 (Z.eqb_neq (total l1 + n) _)) by lia.
  change (0 =? 0) with true. cbn [negb andb]. rewrite Hnx.
  destruct (rep_at h (l1 ++ [(n, false); (k, false)]) l3) as (m2 & Em2 & Hm2).
  { by rewrite <- app_assoc. }
  rewrite total_app in Em2, Hm2. cbn in Em2, Hm2.
  replace (total l1 + (n + (k + 0))) with (total l1 + n + k) in Em2, Hm2 by lia.
  set (h1 := if lfree h =? total l1 + n then with_lfree h (total l1) else h).
  assert (Hb1 : blocks h1 = blocks h) by (subst h1; by case_bool).
  rewrite (set_next_Ok h1 _ _ _ (eq_trans (f_equal (.!! _) Hb1) E)).
  cbn [mbind result_bind].
  rewrite (set_prev_Ok _ (total l1 + n + k) m2) by (cbn; rewrite Hb1; map_cases).
  eexists. split; [reflexivity|].
  split; [subst h1; unfold same_rest; by case_bool|]. cbn [fst snd]. split.
  - apply (rep_replace h _ l1 [(n, false); (k, false)] [(n + k, false)] l3 (total l1));
      try (subst h1; by case_bool); [done|cbn; lia|..]; cbn [total];
      replace (total l1 + (n + (k + 0))) with (total l1 + n + k) by lia.
    + intros q0 pm0 _ (E0 & _ & _ & _ & _ & Hk4 & _). rewrite E in E0.
      injection E0 as <-. cbn [seg]. split_and!; try lia; try dlia.
      cbn. rewrite Hb1. unfold hd_of. map_cases. do 2 f_equal. lia.
    + intros x Hx. cbn. rewrite Hb1. map_cases.
    + intros m' Em'. rewrite Em2 in Em'. injection Em' as <-.
      eexists. split; [|cbn; rewrite Hb1; map_cases]. done.
  - unfold lfree_ok. cbn. subst h1.
    replace (lfree (if lfree h =? total l1 + n then with_lfree h (total l1) else h))
      with (if lfree h =? total l1 + n then total l1 else lfree h) by (by case_bool).
    apply lfree_merge; [by eapply rep_pos|exact Hlf].
Qed.

Lemma backward_spec s h l1 n l2 :
  rep h (l1 ++ (n, false) :: l2) -> lfree_ok s h (l1 ++ (n, false) :: l2) ->
  exists h', plug_backward h (total l1) = Ok h' /\ same_rest h h' /\
    rep h' (merge_prev l1 n l2) /\ lfree_ok s h' (merge_prev l1 n l2) /\
    blocks h' !! total l1 = blocks h !! total l1.
Proof.
  intros H Hlf. destruct (rep_block _ _ _ _ _ H) as (q & Hsg & E & ? & ? & ? & ? & Ht).
  unfold plug_backward. rewrite (hdr_Ok _ _ _ E). cbn [mbind result_bind].
  unfold hd_of; cbn [next prev]. unfold merge_prev.
  destruct l1 as [|b0 l0 _] using rev_ind.
  { destruct Hsg as [<- _]. cbn. by exists h. }
  destruct b0 as [k v]. rewrite last_snoc.
  rewrite <- app_assoc in H, Hlf. cbn [app] in H, Hlf.
  destruct (rep_block _ _ _ _ _ H) as (r & _ & Ek & ? & ? & ? & ? & _).
  apply seg_app in Hsg as (q0 & _ & E0). rewrite Z.add_0_l in E0.
  cbn [seg] in E0. destruct E0 as (_ & _ & _ & <- & Hto). clear q0.
  rewrite <- Hto in *. rewrite (proj2 (Z.eqb_neq (total l0) _)) by lia.
  rewrite (hdr_Ok _ _ _ Ek). cbn [mbind result_bind]. unfold hd_of; cbn [used].
  destruct v; cbn [b2z].
  { rewrite <- app_assoc. by exists h. }
  change (0 =? 0) with true. cbv iota.
  rewrite removelast_last.
  destruct (rep_at h (l0 ++ [(k, false); (n, false)]) l2) as (m2 & Em2 & Hm2).
  { by rewrite <- app_assoc. }
  rewrite total_app in Em2, Hm2. cbn in Em2, Hm2.
  replace (total l0 + (k + (n + 0))) with (total l0 + k + n) in Em2, Hm2 by lia.
  set (h1 := if lfree h =? total l0 + k then with_lfree h (total l0) else h).
  assert (Hb1 : blocks h1 = blocks h) by (subst h1; by case_bool).
  rewrite (set_next_Ok h1 _ _ _ (eq_trans (f_equal (.!! _) Hb1) Ek)).
  cbn [mbind result_bind].
  rewrite (set_prev_Ok _ (total l0 + k + n) m2) by (cbn; rewrite Hb1; map_cases).
  eexists. split; [reflexivity|].
  split; [subst h1; unfold same_rest; by case_bool|]. split.
  - apply (rep_replace h _ l0 [(k, false); (n, false)] [(k + n, false)] l2 (total l0));
      try (subst h1; by case_bool); [done|cbn; lia|..]; cbn [total];
      replace (total l0 + (k + (n + 0))) with (total l0 + k + n) by lia.
    + intros q0 pm0 _ (E0 & _). rewrite Ek in E0.
      injection E0 as <-. cbn [seg]. split_and!; try lia; try dlia.
      cbn. rewrite Hb1. unfold hd_of. map_cases. do 2 f_equal. lia.
    + intros x Hx. cbn. rewrite Hb1. map_cases.
    + intros m' Em'. rewrite Em2 in Em'. injection Em' as <-.
      eexists. split; [|cbn; rewrite Hb1; map_cases]. done.
  - split; [|cbn; rewrite Hb1; map_cases]. unfold lfree_ok. cbn. subst h1.
    replace (lfree (if lfree h =? total l0 + k then with_lfree h (total l0) else h))
      with (if lfree h =? total l0 + k then total l0 else lfree h) by (by case_bool).
    apply lfree_merge; [by eapply rep_pos|exact Hlf].
Qed.

Lemma same_rest_trans h1 h2 h3 : same_rest h1 h2 -> same_rest h2 h3 -> same_rest h1 h3.
Proof. unfold same_rest. intuition congruence. Qed.

(** [plug_holes] turns a free block and its free neighbours into one. *)
Lemma plug_spec s h l1 n l2 :
  rep h (l1 ++ (n, false) :: l2) -> lfree_ok s h (l1 ++ (n, false) :: l2) ->
  exists h', plug_holes h (total l1) = Ok h' /\ same_rest h h' /\
    rep h' (release l1 n l2) /\ lfree_ok s h' (release l1 n l2) /\
    used <$> blocks h' !! total l1 = Some 0.
Proof.
  intros H Hlf. destruct (rep_block _ _ _ _ _ H) as (q & _ & E & ? & ? & ? & ? & Ht).
  destruct (forward_spec s h l1 n l2 H Hlf) as (h1 & E1 & S1 & R1 & L1).
  destruct (backward_spec s h1 l1 _ _ R1 L1) as (h2 & E2 & S2 & R2 & L2 & F2).
  destruct (rep_block _ _ _ _ _ R1) as (q1 & _ & Eq1 & _). rewrite Eq1 in F2.
  exists h2. unfold plug_holes.
  rewrite (proj2 (Z.leb_le _ _)), (proj2 (Z.ltb_lt _ _)) by lia.
  cbn [rt_assert mbind result_bind]. rewrite (hdr_Ok _ _ _ E).
  cbn [mbind result_bind hd_of used b2z]. change (0 =? 0) with true.
  cbn [rt_assert mbind result_bind]. rewrite E1. cbn [mbind result_bind].
  split; [done|]. split; [by eapply same_rest_trans|].
  unfold release. rewrite F2. by destruct (merge_next n l2).
Qed.

(** *** [rt_free] *)

Lemma lfree_freed s x l1 n l2 :
  pos (l1 ++ (n, true) :: l2) -> lfree_at s x (l1 ++ (n, true) :: l2) ->
  lfree_at s (if total l1 <? x then total l1 else x) (l1 ++ (n, false) :: l2).
Proof.
  intros Hp (a & b & Eab & -> & Hs & Hb). apply Forall_app in Hp as [Hp1 Hp2].
  inversion Hp2 as [|? ? Hn Hp3]; subst. cbn in Hn. symmetry in Eab.
  apply app_eq_inv in Eab as [(d & -> & Ed)|(c & -> & ->)]; rewrite total_app.
  - destruct d as [|[n' u'] d].
    { destruct b as [|[m v] b]; [done|]. injection Ed as <- <- <-. done. }
    injection Ed as <- <- ->. apply Forall_app in Hp3 as [Hp3 _].
    apply pos_total in Hp3. cbn [total]. rewrite (proj2 (Z.ltb_lt _ _)) by lia.
    exists l1, ((n, false) :: d ++ b). split_and!; try done.
    intros H. specialize (Hs H). rewrite forallb_app in Hs. by apply andb_prop in Hs as [].
  - apply Forall_app in Hp1 as [_ Hp1]. apply pos_total in Hp1.
    rewrite (proj2 (Z.ltb_ge _ _)) by lia.
    exists a, (c ++ (n, false) :: l2). rewrite <- app_assoc. split_and!; try done.
    by destruct c as [|[c1 u1] c].
Qed.

Lemma coalesced_release l1 n l2 :
  coalesced (l1 ++ (n, true) :: l2) -> coalesced (release l1 n l2).
Proof.
  intros (H1 & H2 & _)%coalesced_app. unfold release.
  assert (Hn : exists n' r, merge_next n l2 = (n', r) /\ coalesced ((n', false) :: r)).
  { destruct l2 as [|[m v] l3]; [by exists n, []|]. destruct v; cbn in *.
    - exists n, ((m, true) :: l3). cbn. tauto.
    - exists (n + m), l3. destruct l3 as [|[k w] l3]; [done|]. cbn in *. tauto. }
  destruct Hn as (n' & r & -> & Hr). unfold merge_prev.
  destruct l1 as [|[k v] l0 _] using rev_ind; [done|].
  rewrite last_snoc, removelast_last. apply coalesced_app in H1 as (H0 & _ & Hk).
  destruct v.
  - rewrite <- app_assoc. apply coalesced_app. split; [done|]. split.
    + cbn [app]. split; [done|exact Hr].
    + unfold seam in *. cbn in *. by destruct (last l0) as [[? ?]|].
  - apply coalesced_app. split; [done|]. split.
    + destruct r as [|[m w] r]; [done|exact Hr].
    + unfold seam in *. cbn in *. by destruct (last l0) as [[? ?]|].
Qed.

Lemma used_release l1 n l2 : used_total (release l1 n l2) = used_total l1 + used_total l2.
Proof.
  assert (Hn : exists n' r, merge_next n l2 = (n', r) /\ used_total r = used_total l2).
  { destruct l2 as [|[m v] l3]; [by exists n, []|].
    destruct v; cbn [merge_next]; eauto. }
  unfold release. destruct Hn as (n' & r & -> & Hr). unfold merge_prev.
  destruct l1 as [|[k v] l0 _] using rev_ind; [cbn; lia|].
  rewrite last_snoc, removelast_last.
  destruct v; rewrite !used_total_app; cbn; lia.
Qed.

Lemma free_spec s h l1 n l2 :
  inv s h (l1 ++ (n, true) :: l2) ->
  exists h', rt_free h (heap_ptr h + total l1 + 12) = Ok h' /\
    inv s h' (release l1 n l2) /\
    heap_ptr h' = heap_ptr h /\ mem_size_aligned h' = mem_size_aligned h /\
    data h' = data h /\ used <$> blocks h' !! total l1 = Some 0.
Proof.
  intros (H & Hlf & Hc & Hst & Hmx). pose proof H as (_ & _ & ? & ? & ? & ? & ?).
  destruct (rep_block _ _ _ _ _ H) as (q & Hsg & E & ? & ? & ? & ? & Ht).
  pose proof (rep_aligned h l1 _ H) as Ha. pose proof (rep_used _ _ H) as Hub.
  unfold rt_free. rewrite (proj2 (Z.eqb_neq _ 0)) by lia. rewrite land_3, sizeof_12.
  rewrite (proj2 (Z.eqb_eq (_ mod 4) 0)) by dlia. cbn [rt_assert mbind result_bind].
  rewrite (proj2 (Z.leb_le _ _)), (proj2 (Z.ltb_lt _ _)) by lia.
  cbn [andb rt_assert mbind result_bind].
  replace (heap_ptr h + total l1 + 12 - 12 - heap_ptr h) with (total l1) by lia.
  rewrite (hdr_Ok _ _ _ E). cbn [mbind result_bind hd_of used magic next prev b2z].
  change (negb (1 =? 0)) with true. rewrite Z.eqb_refl.
  cbn [rt_assert mbind result_bind].
  set (h1 := set_hdr h (total l1) _).
  set (h2 := if total l1 <? lfree h1 then with_lfree h1 (total l1) else h1).
  set (h3 := stat_sub h2 _).
  assert (Hb3 : blocks h3 = blocks h1) by (subst h3 h2; by case_bool).
  assert (Hr3 : rep h3 (l1 ++ (n, false) :: l2)).
  { apply (rep_replace h _ l1 [(n, true)] [(n, false)] l2 (total l1));
      [exact H|subst h3 h2; by case_bool|subst h3 h2; by case_bool|done|..]; cbn [total]; rewrite ?Z.add_0_r.
    - intros q0 pm0 _ (E0 & _). rewrite E in E0. injection E0 as <-. cbn [seg].
      split_and!; try done. rewrite Hb3. cbn. map_cases.
    - intros x Hx. rewrite Hb3. cbn. map_cases.
    - intros m Em. exists (prev m). split.
      + intros Hl2. by eapply rep_prev.
      + rewrite Hb3. cbn. map_cases. rewrite Em. by destruct m. }
  assert (Hl3 : lfree_ok s h3 (l1 ++ (n, false) :: l2)).
  { unfold lfree_ok. replace (lfree h3) with (if total l1 <? lfree h then total l1 else lfree h)
      by (subst h3 h2 h1; cbn; by case_bool).
    apply lfree_freed; [by eapply rep_pos|exact Hlf]. }
  destruct (plug_spec s h3 l1 n l2 Hr3 Hl3)
    as (h5 & E5 & (S51 & S52 & S53 & S54 & S55) & R5 & L5 & F5).
  exists h5. split; [exact E5|].
  assert (Hu3 : used_mem h3 = u32 (used_mem h - n) /\ max_mem h3 = max_mem h /\
    heap_ptr h3 = heap_ptr h /\ mem_size_aligned h3 = mem_size_aligned h /\
    data h3 = data h).
  { subst h3 h2 h1. cbn. case_bool; cbn; (split_and!; [f_equal; lia|done..]). }
  destruct Hu3 as (U1 & U2 & U3 & U4 & U5).
  split; [|split_and!; congruence].
  split; [done|]. split; [done|]. split; [by apply coalesced_release|].
  unfold stats_ok. rewrite used_release, S54, U1, S55, U2.
  rewrite Hst. rewrite Hst, used_total_app in *. cbn [used_total] in *.
  destruct (rep_used _ _ R5) as [Hu0 _]. rewrite used_release in Hu0.
  rewrite u32_small by lia. lia.
Qed.

(** *** [rt_realloc] to a smaller size *)

(** [lfree] never points into the block that is split. *)
Lemma lfree_split x l1 n n1 n2 l2 : n1 + n2 = n ->
  lfree_at false x (l1 ++ (n, true) :: l2) ->
  lfree_at false x (l1 ++ (n1, true) :: (n2, false) :: l2).
Proof.
  intros Hn (a & b & Eab & -> & _ & Hb). symmetry in Eab.
  apply app_eq_inv in Eab as [(d & -> & Ed)|(c & -> & ->)].
  - destruct d as [|[n' u'] d].
    { destruct b as [|[m v] b]; [done|]. injection Ed as <- <- <-. done. }
    injection Ed as <- <- ->. exists (l1 ++ (n1, true) :: (n2, false) :: d), b.
    rewrite <- app_assoc, !total_app. cbn. split_and!; try done. lia.
  - exists a, (c ++ (n1, true) :: (n2, false) :: l2). rewrite <- app_assoc.
    split_and!; try done. by destruct c as [|[c1 u1] c].
Qed.

(** The block list after the allocated block [n] was cut to [n1] bytes. *)
Definition shrunk (l1 : list blk) (n1 n : Z) (l2 : list blk) : list blk :=
  let (m, r) := merge_next (n - n1) l2 in l1 ++ (n1, true) :: (m, false) :: r.

Lemma coalesced_shrunk l1 n1 n l2 :
  coalesced (l1 ++ (n, true) :: l2) -> coalesced (shrunk l1 n1 n l2).
Proof.
  intros (H1 & H2 & _)%coalesced_app. unfold shrunk, merge_next.
  assert (Hs : forall r, seam l1 ((n1, true) :: r)).
  { intros r. unfold seam. destruct (last l1) as [[? ?]|]; [apply orb_true_r|done]. }
  destruct l2 as [|[m v] l3]; [by apply coalesced_app|].
  destruct v; apply coalesced_app; (split; [done|]); (split; [|apply Hs]).
  - cbn in *. tauto.
  - destruct l3 as [|[k w] l3]; [done|]. cbn in *. tauto.
Qed.

Lemma used_shrunk l1 n1 n l2 :
  used_total (shrunk l1 n1 n l2) = used_total l1 + n1 + used_total l2.
Proof.
  unfold shrunk, merge_next. destruct l2 as [|[m v] l3];
    [|destruct v]; rewrite used_total_app; cbn; lia.
Qed.

(** Carving a free block off the end of an allocated one. *)
Lemma split_used_spec h l1 n l2 newsize :
  rep h (l1 ++ (n, true) :: l2) ->
  4 <= newsize -> newsize mod 4 = 0 -> newsize + 24 < n - 12 ->
  let X := total l1 + 12 + newsize in
  exists h',
    (let h := set_hdr h X (mk_mem HEAP_MAGIC 0 (total l1 + n) (total l1)) in
     h ← set_next h (total l1) X;
     if negb (total l1 + n =? mem_size_aligned h + 12)
     then set_prev h (total l1 + n) X else Ok h) = Ok h' /\
    rep h' (l1 ++ (newsize + 12, true) :: (n - newsize - 12, false) :: l2) /\
    lfree h' = lfree h /\ same_rest h h'.
Proof.
  intros H Hs4 Hsa Hlt X. pose proof H as (_ & _ & ? & ? & ? & ? & ?).
  destruct (rep_block _ _ _ _ _ H) as (q & Hsg & E & ? & ? & ? & ? & Ht).
  assert (He : heap_end h = mem_size_aligned h + 12) by reflexivity.
  destruct (rep_at h (l1 ++ [(n, true)]) l2) as (m & Em & Hm).
  { by rewrite <- app_assoc. }
  rewrite total_app in Em, Hm. cbn in Em, Hm.
  replace (total l1 + (n + 0)) with (total l1 + n) in Em, Hm by lia.
  cbv zeta. unfold hd_of in E. run_hdr. cbn [mem_size_aligned set_hdr with_blocks].
  destruct (Z.eqb_spec (total l1 + n) (mem_size_aligned h + 12)) as [El|El];
    cbn [negb]; run_hdr; (eexists; split; [reflexivity|]; split; [|done]).
  all: apply (rep_replace h _ l1 [(n, true)]
         [(newsize + 12, true); (n - newsize - 12, false)] l2 X);
    [done|done|done|cbn; lia|..]; cbn [total]; rewrite ?Z.add_0_r; subst X.
  all: try solve [intros x Hx; cbn; map_cases].
  1,3: intros q0 pm0 _ (E0 & _); rewrite E in E0; injection E0 as <-;
    cbn [seg]; split_and!; try lia; try dlia; unfold hd_of, b2z;
    try (cbn; map_cases; do 2 f_equal; lia).
  all: intros m' Em'; rewrite Em in Em'; injection Em' as <-.
  - exists (prev m). split; [|cbn; map_cases; rewrite Em; by destruct m].
    intros Hl2. destruct l2 as [|[n2 u2] l2]; [done|]. lia.
  - eexists. split; [|cbn; map_cases]. done.
Qed.

Lemma shrink_spec s h l1 n l2 newsize :
  inv s h (l1 ++ (n, true) :: l2) ->
  4 <= newsize -> newsize mod 4 = 0 -> newsize + 24 < n - 12 ->
  let X := total l1 + 12 + newsize in
  exists h',
    (let h := stat_sub h (n - 12 - newsize) in
     let h := set_hdr h X (mk_mem HEAP_MAGIC 0 (total l1 + n) (total l1)) in
     h ← set_next h (total l1) X;
     h ← (if negb (total l1 + n =? mem_size_aligned h + 12)
          then set_prev h (total l1 + n) X else Ok h);
     plug_holes h X) = Ok h' /\
    inv false h' (shrunk l1 (newsize + 12) n l2) /\
    heap_ptr h' = heap_ptr h /\ mem_size_aligned h' = mem_size_aligned h /\
    data h' = data h.
Proof.
  intros (H & Hlf & Hc & Hst & Hmx) Hs4 Hsa Hlt X. pose proof (rep_used _ _ H) as Hub.
  pose proof H as (_ & _ & ? & ? & ? & ? & ?).
  set (h1 := stat_sub h (n - 12 - newsize)).
  destruct (split_used_spec h1 l1 n l2 newsize) as (h3 & E3 & R3 & L3 & S3); try done.
  fold X in E3. cbv zeta in E3 |- *.
  destruct (set_next _ _ _) as [h2|f]; [|done]. cbn [mbind result_bind] in *.
  rewrite E3. cbn [mbind result_bind].
  assert (EX : X = total (l1 ++ [(newsize + 12, true)]))
    by (rewrite total_app; subst X; cbn; lia).
  rewrite EX.
  assert (L3' : lfree_ok false h3 (l1 ++ (newsize + 12, true) :: (n - newsize - 12, false) :: l2)).
  { unfold lfree_ok. rewrite L3. apply (lfree_split _ _ n); [lia|].
    destruct Hlf as (a & b & ? & ? & _ & ?). by exists a, b. }
  change (?a :: ?b :: l2) with ([a] ++ b :: l2) in R3, L3'. rewrite app_assoc in R3, L3'.
  destruct (plug_spec false h3 _ _ l2 R3 L3') as (h4 & E4 & S4 & R4 & L4 & _).
  exists h4. split; [exact E4|].
  assert (Hrel : release (l1 ++ [(newsize + 12, true)]) (n - newsize - 12) l2
      = shrunk l1 (newsize + 12) n l2).
  { unfold release, merge_prev, shrunk. rewrite last_snoc.
    replace (n - (newsize + 12)) with (n - newsize - 12) by lia.
    destruct (merge_next _ l2). by rewrite <- app_assoc. }
  rewrite Hrel in *.
  destruct (same_rest_trans _ _ _ S3 S4) as (S1 & S2 & S5 & S6 & S7).
  split; [|done]. split; [done|]. split; [done|]. split; [by apply coalesced_shrunk|].
  unfold stats_ok. rewrite used_shrunk, S6, S7. subst h1. cbn.
  rewrite Hst in *. rewrite used_total_app in *. cbn [used_total] in *.
  destruct (rep_used _ _ R4) as [Hu0 _]. rewrite used_shrunk in Hu0.
  rewrite u32_small by lia. lia.
Qed.

(** *** Allocated blocks *)

Lemma live_release l1 n l2 :
  live 0 (release l1 n l2) = live 0 l1 ++ live (total l1 + n) l2.
Proof.
  assert (Hn : exists n' r, merge_next n l2 = (n', r) /\
    forall o, live (o + n') r = live (o + n) l2).
  { destruct l2 as [|[m v] l3]; [by exists n, []|].
    destruct v; cbn [merge_next]; eexists _, _; (split; [done|]); intros o; cbn [live app];
      [done|f_equal; lia]. }
  unfold release. destruct Hn as (n' & r & -> & Hr). unfold merge_prev.
  destruct l1 as [|[k v] l0 _] using rev_ind; [exact (Hr 0)|].
  rewrite last_snoc, removelast_last.
  destruct v; rewrite !live_app, ?total_app; cbn [live total app];
    rewrite ?app_nil_r, ?Z.add_0_l, <- ?Hr; [done|f_equal; f_equal; lia].
Qed.

Lemma live_take l1 n l2 size :
  live 0 (l1 ++ take_block size n ++ l2) ≡ₚ
    (total l1, taken size n) :: live 0 (l1 ++ (n, false) :: l2).
Proof.
  rewrite !live_app, total_take, !Z.add_0_l. unfold take_block, taken.
  destruct (_ <=? _); cbn [live app]; by rewrite Permutation_middle.
Qed.

Lemma live_block l1 n l2 :
  live 0 (l1 ++ (n, true) :: l2) ≡ₚ
    (total l1, n) :: (live 0 l1 ++ live (total l1 + n) l2).
Proof. rewrite live_app, Z.add_0_l. cbn [live app]. by rewrite Permutation_middle. Qed.

Lemma live_shrunk l1 n1 n l2 :
  live 0 (shrunk l1 n1 n l2) ≡ₚ
    (total l1, n1) :: (live 0 l1 ++ live (total l1 + n) l2).
Proof.
  unfold shrunk. destruct l2 as [|[m v] l3]; [|destruct v]; cbn [merge_next];
    rewrite live_app, Z.add_0_l; cbn [live app]; rewrite <- Permutation_middle;
    [done|replace (total l1 + n1 + (n - n1)) with (total l1 + n) by lia; done|].
  by replace (total l1 + n1 + (n - n1 + m)) with (total l1 + n + m) by lia.
Qed.

Lemma live_split o0 l o n : (o, n) ∈ live o0 l ->
  exists l1 l2, l = l1 ++ (n, true) :: l2 /\ o = o0 + total l1.
Proof.
  revert o0; induction l as [|[m u] l IH]; intros o0; cbn; [intros H; inversion H|].
  intros [H|H]%elem_of_app.
  - destruct u; [|inversion H]. apply list_elem_of_singleton in H as [= -> ->].
    exists [], l. split; [done|]. cbn. lia.
  - apply IH in H as (l1 & l2 & -> & ->). exists ((m, u) :: l1), l2.
    split; [done|]. cbn. lia.
Qed.

(** An allocated block stays where it is when another one is taken. *)
Lemma take_keeps l1 n l2 A m B size :
  l1 ++ (n, true) :: l2 = A ++ (m, false) :: B ->
  exists l1' l2', A ++ take_block size m ++ B = l1' ++ (n, true) :: l2' /\
    total l1' = total l1 /\
    live 0 l1' ++ live (total l1' + n) l2' ≡ₚ
      (total A, taken size m) :: (live 0 l1 ++ live (total l1 + n) l2).
Proof.
  intros E. assert (Hp := live_take A m B size). rewrite <- E, live_block in Hp.
  assert (H : exists l1' l2', A ++ take_block size m ++ B = l1' ++ (n, true) :: l2' /\
    total l1' = total l1).
  { apply app_eq_inv in E as [(d & -> & Ed)|(d & -> & Ed)].
    - destruct d as [|d0 d]; [done|]. injection Ed as <- ->.
      exists (A ++ take_block size m ++ d), l2. rewrite <- !app_assoc. split; [done|].
      rewrite !total_app, total_take. cbn. lia.
    - destruct d as [|d0 d]; [done|]. injection Ed as <- ->.
      exists l1, (d ++ take_block size m ++ B). by rewrite <- app_assoc. }
  destruct H as (l1' & l2' & E' & Ht). exists l1', l2'. split_and!; try done.
  rewrite E', live_block, Ht in Hp. apply (Permutation_cons_inv (a := (total l1, n))).
  rewrite Ht, Hp. constructor.
Qed.

(** Taking a block and freeing it again. *)
Lemma release_take A m B size l1 l2 t :
  coalesced (A ++ (m, false) :: B) ->
  A ++ take_block size m ++ B = l1 ++ (t, true) :: l2 -> l1 = A ->
  release l1 t l2 = A ++ (m, false) :: B.
Proof.
  intros Hc E ->. apply coalesced_app in Hc as (_ & Hc & Hs). apply app_inv_head in E.
  unfold release, take_block in *. destruct (size + 24 <=? m - 12).
  - injection E as <- <-. cbn [merge_next]. unfold merge_prev, seam in *.
    replace (size + 12 + (m - size - 12)) with m by lia.
    destruct (last A) as [[k v]|]; [|done]. by destruct v.
  - injection E as <- <-. unfold merge_next. destruct B as [|[k v] B].
    + unfold merge_prev, seam in *. destruct (last A) as [[k v]|]; [|done]. by destruct v.
    + destruct v; [|by destruct Hc]. unfold merge_prev, seam in *.
      destruct (last A) as [[k' v]|]; [|done]. by destruct v.
Qed.

(** Allocated blocks lie inside the heap, one after the other. *)
Lemma live_bounds bs p o l p' o' a n :
  seg bs p o l p' o' -> (a, n) ∈ live o l -> o <= a /\ 16 <= n /\ a + n <= o'.
Proof.
  intros H (l1 & l2 & -> & ->)%live_split. apply seg_app in H as (q & H1 & H2).
  cbn in H2. destruct H2 as (_ & ? & _ & H2).
  pose proof (seg_total_nonneg _ _ _ _ _ _ H1). pose proof (seg_total_nonneg _ _ _ _ _ _ H2).
  pose proof (seg_end _ _ _ _ _ _ H2). lia.
Qed.

Definition disjoint_blocks (bl : list (Z * Z)) : Prop :=
  forall i j a n b m, bl !! i = Some (a, n) -> bl !! j = Some (b, m) -> (i < j)%nat ->
    a + n <= b.

Lemma live_sorted bs p o l p' o' : seg bs p o l p' o' -> disjoint_blocks (live o l).
Proof.
  revert p o; induction l as [|[k u] l IH]; intros p o; cbn; [by intros _ ???|].
  intros (_ & ? & _ & H). destruct u; [|by eapply IH].
  intros [|i] [|j] a n b m; cbn; try lia.
  - intros [= <- <-] Hj _. apply list_elem_of_lookup_2 in Hj.
    by eapply live_bounds in Hj as (? & _).
  - intros Hi Hj Hij. eapply (IH _ _ H i j); eauto; lia.
Qed.

(** *** Allocation and reallocation, from any state *)

Lemma inv_weaken s h l : inv s h l -> inv false h l.
Proof. intros (? & (a & b & ? & ? & _ & ?) & ? & ?). split_and!; try done. by exists a, b. Qed.

Lemma malloc_total s h l size :
  inv s h l -> 0 < size ->
  rt_malloc h size = Ok (h, 0) \/
  exists A m B h',
    l = A ++ (m, false) :: B /\ asize size <= m - 12 /\
    rt_malloc h size = Ok (h', heap_ptr h + total A + 12) /\
    inv s h' (A ++ take_block (asize size) m ++ B) /\
    heap_ptr h' = heap_ptr h /\ mem_size_aligned h' = mem_size_aligned h /\
    data h' = data h.
Proof.
  intros Hi Hs. pose proof Hi as (_ & (a & b & -> & Hl & Ha & Hb) & _).
  pose proof (malloc_spec s h a b size Hi Hl Ha Hb Hs) as H.
  destruct (if _ : bool then _ else _) as [[[pre n] post]|]; [right|by left].
  destruct H as (-> & Hn & h' & E & Hi' & ? & ? & ?). exists (a ++ pre), n, post, h'.
  rewrite <- !app_assoc, total_app, E. by split_and!.
Qed.

Lemma copy_bytes_out d dst src n x :
  ~ (dst <= x < dst + Z.of_nat n) -> copy_bytes d dst src n !! x = d !! x.
Proof.
  revert d dst src; induction n as [|n IH]; intros d dst src Hx; [done|].
  cbn [copy_bytes]. rewrite IH by lia.
  destruct (d !! src); [rewrite lookup_insert_ne by lia|rewrite lookup_delete_ne by lia]; done.
Qed.

Lemma copy_bytes_in d dst src n i :
  dst + Z.of_nat n <= src \/ src + Z.of_nat n <= dst -> 0 <= i < Z.of_nat n ->
  copy_bytes d dst src n !! (dst + i) = d !! (src + i).
Proof.
  revert d dst src i; induction n as [|n IH]; intros d dst src i Hd Hi; [lia|].
  cbn [copy_bytes]. destruct (decide (i = 0)) as [->|].
  - rewrite !Z.add_0_r, copy_bytes_out by lia.
    destruct (d !! src) eqn:E; [by rewrite lookup_insert_eq|by rewrite lookup_delete_eq].
  - replace (dst + i) with (dst + 1 + (i - 1)) by lia.
    replace (src + i) with (src + 1 + (i - 1)) by lia. rewrite IH by lia.
    destruct (d !! src); [rewrite lookup_insert_ne by lia|rewrite lookup_delete_ne by lia]; done.
Qed.

(** What [rt_realloc (p, newsize)] makes of the payload at offset [o]: the
    first bytes survive at offset [o'], and only the [t] bytes there change. *)
Definition moved (d d' : gmap Z Z) (o o' len t : Z) : Prop :=
  (forall i, 0 <= i < len -> d' !! (o' + i) = d !! (o + i)) /\
  (forall x, ~ (o' <= x < o' + t) -> d' !! x = d !! x).

Lemma moved_refl d o len t : moved d d o o len t.
Proof. by split. Qed.

(** The outcome of [rt_realloc] on the block [n] between [l1] and [l2]. *)
Definition reallocated (h h' : heap) (l1 : list blk) (n : Z) (l2 : list blk)
    (al q : Z) : Prop :=
  heap_ptr h' = heap_ptr h /\ mem_size_aligned h' = mem_size_aligned h /\
  exists l' t,
    inv false h' l' /\ al <= t - 12 /\
    live 0 l' ≡ₚ (q - heap_ptr h - 12, t) :: (live 0 l1 ++ live (total l1 + n) l2) /\
    moved (data h) (data h') (total l1 + 12) (q - heap_ptr h) (Z.min (n - 12) al) (t - 12).

Lemma realloc_grow h l1 n l2 al :
  inv false h (l1 ++ (n, true) :: l2) -> 0 < al -> RT_ALIGN al RT_ALIGN_SIZE = al ->
  let p := heap_ptr h + total l1 + 12 in
  let m := '(h, nmem) ← rt_malloc h al;
      if nmem =? 0 then Ok (h, 0)
      else
        let k := if n - 12 <? al then n - 12 else al in
        let h := with_data h (copy_bytes (data h) (nmem - heap_ptr h)
                                (p - heap_ptr h) (Z.to_nat k)) in
        h ← rt_free h p; Ok (h, nmem) in
  m = Ok (h, 0) \/ exists h' q, m = Ok (h', q) /\ q <> 0 /\ reallocated h h' l1 n l2 al q.
Proof.
  intros Hi Hal Hid p m. subst m.
  destruct (malloc_total _ _ _ al Hi Hal) as [->|(A & k & B & h1 & El & Hk & -> & Hi1 & Hp & Hm & Hd)];
    [by left|right].
  destruct (take_keeps l1 n l2 A k B (asize al) El) as (l1' & l2' & E' & Ht & Hlive).
  pose proof (taken_bounds _ _ Hk) as Htk. destruct (asize_ok al) as [Ha12 _].
  assert (Hale : al <= asize al) by (unfold asize; rewrite Hid; lia).
  pose proof Hi as (Hr & _). pose proof Hr as (_ & _ & _ & _ & Hp0 & _).
  destruct (rep_block _ _ _ _ _ Hr) as (_ & _ & _ & Hn16 & _ & ? & _).
  rewrite El in Hr. destruct (rep_block _ _ _ _ _ Hr) as (_ & _ & _ & _ & _ & ? & _).
  cbn [mbind result_bind]. rewrite (proj2 (Z.eqb_neq _ 0)) by lia.
  set (h2 := with_data h1 _).
  rewrite E' in Hi1. assert (Hi2 : inv false h2 (l1' ++ (n, true) :: l2')) by exact Hi1.
  destruct (free_spec _ _ _ _ _ Hi2) as (h3 & E3 & Hi3 & Hp3 & Hm3 & Hd3 & _).
  change (heap_ptr h2) with (heap_ptr h1) in E3, Hp3. rewrite Hp, Ht in E3.
  subst p. rewrite E3. eexists _, _. split; [reflexivity|]. split; [lia|].
  split; [congruence|]. split; [exact (eq_trans Hm3 Hm)|].
  exists (release l1' n l2'), (taken (asize al) k). split; [done|]. split; [lia|].
  split.
  { rewrite live_release, Hlive. by replace (heap_ptr h + total A + 12 - heap_ptr h - 12)
      with (total A) by lia. }
  rewrite Hd3. subst h2. cbn [data with_data]. rewrite Hd, Hp.
  replace (heap_ptr h + total A + 12 - heap_ptr h) with (total A + 12) by lia.
  replace (heap_ptr h + total l1 + 12 - heap_ptr h) with (total l1 + 12) by lia.
  replace (if n - 12 <? al then n - 12 else al) with (Z.min (n - 12) al) by (case_bool; lia).
  assert (Hdis : total A + k <= total l1 \/ total l1 + n <= total A).
  { apply app_eq_inv in El as [(d & -> & Ed)|(d & -> & Ed)]; rewrite total_app;
      (destruct d as [|d0 d]; [done|]); injection Ed as <- ->.
    - left. rewrite <- app_assoc in Hi. destruct Hi as (Hi & _). apply rep_pos in Hi.
      apply Forall_app in Hi as [_ Hi]. inversion Hi as [|?? _ Hi']; subst.
      apply Forall_app in Hi' as [Hi' _]. apply pos_total in Hi'. cbn. lia.
    - right. rewrite <- app_assoc in Hr. apply rep_pos in Hr.
      apply Forall_app in Hr as [_ Hr]. inversion Hr as [|?? _ Hr']; subst.
      apply Forall_app in Hr' as [Hr' _]. apply pos_total in Hr'. cbn. lia. }
  split.
  - intros i Hj. apply copy_bytes_in; lia.
  - intros x Hx. apply copy_bytes_out. lia.
Qed.

Lemma align_idem size : RT_ALIGN (RT_ALIGN size RT_ALIGN_SIZE) RT_ALIGN_SIZE =
  RT_ALIGN size RT_ALIGN_SIZE.
Proof.
  unfold RT_ALIGN_SIZE. rewrite !RT_ALIGN_4_u32. pose proof (u32_range (size + 3)).
  unfold u32 at 1. dlia.
Qed.

Lemma realloc_spec s h l1 n l2 newsize :
  inv s h (l1 ++ (n, true) :: l2) ->
  let al := RT_ALIGN newsize RT_ALIGN_SIZE in
  let m := rt_realloc h (heap_ptr h + total l1 + 12) newsize in
  m = Ok (h, 0) /\ 0 < al \/
  (al = 0 /\ exists h', m = Ok (h', 0) /\ inv s h' (release l1 n l2) /\
    heap_ptr h' = heap_ptr h /\ mem_size_aligned h' = mem_size_aligned h /\
    data h' = data h) \/
  exists h' q, m = Ok (h', q) /\ q <> 0 /\ 0 < al /\ reallocated h h' l1 n l2 al q.
Proof.
  intros Hi al m. subst m. pose proof Hi as (Hr & _). pose proof Hr as (_ & _ & ? & ? & ? & ? & ?).
  destruct (rep_block _ _ _ _ _ Hr) as (q & _ & E & ? & ? & ? & ? & Ht).
  assert (He : heap_end h = mem_size_aligned h + 12) by reflexivity.
  destruct (align_up newsize) as [Ha0 Ha4].
  unfold rt_realloc. fold al in Ha0, Ha4 |- *.
  destruct (Z.ltb_spec (mem_size_aligned h) al); [left; split; [done|lia]|].
  destruct (Z.eqb_spec al 0).
  { right; left. split; [done|].
    destruct (free_spec _ _ _ _ _ Hi) as (h' & -> & ? & ? & ? & ? & _). by exists h'. }
  rewrite (proj2 (Z.eqb_neq _ 0)) by lia.
  rewrite (proj2 (Z.ltb_ge _ _)), (proj2 (Z.leb_gt _ _)) by lia. cbn [orb].
  rewrite sizeof_12.
  replace (heap_ptr h + total l1 + 12 - 12 - heap_ptr h) with (total l1) by lia.
  rewrite (hdr_Ok _ _ _ E). cbn [mbind result_bind hd_of next].
  replace (total l1 + n - total l1 - 12) with (n - 12) by lia.
  rewrite (u32_small (n - 12)), (u32_small (al + _ + _)) by (unfold MIN_SIZE; lia).
  apply inv_weaken in Hi.
  assert (Hb := live_block l1 n l2).
  destruct (Z.eqb_spec (n - 12) al) as [En|En].
  { right; right. eexists _, _. split; [reflexivity|]. split; [lia|]. split; [lia|].
    split; [done|]. split; [done|]. exists (l1 ++ (n, true) :: l2), n.
    split; [done|]. split; [lia|].
    replace (heap_ptr h + total l1 + 12 - heap_ptr h) with (total l1 + 12) by lia.
    replace (total l1 + 12 - 12) with (total l1) by lia. by split. }
  destruct (Z.ltb_spec (al + 12 + MIN_SIZE) (n - 12)) as [Hlt|Hge]; unfold MIN_SIZE in *.
  - rewrite (u32_small (total l1 + 12 + al)) by lia.
    destruct (shrink_spec _ _ _ _ _ al Hi) as (h' & E' & Hi' & Hp' & Hm' & Hd'); [dlia|done|lia|].
    right; right. exists h', (heap_ptr h + total l1 + 12).
    split.
    { cbv zeta in E'. cbn [mem_size_aligned stat_sub with_used] in E' |- *.
      destruct (set_next _ _ _) as [h2|]; [|done]. cbn [mbind result_bind] in E' |- *.
      destruct (if negb _ then _ else _) as [h3|]; [|done].
      cbn [mbind result_bind] in E' |- *. by rewrite E'. }
    split; [lia|]. split; [lia|]. split; [done|]. split; [done|].
    exists (shrunk l1 (al + 12) n l2), (al + 12). split; [done|]. split; [lia|].
    replace (heap_ptr h + total l1 + 12 - heap_ptr h) with (total l1 + 12) by lia.
    replace (total l1 + 12 - 12) with (total l1) by lia. rewrite Hd'.
    split; [apply live_shrunk|apply moved_refl].
  - destruct (realloc_grow h l1 n l2 al Hi) as [Hg|(h' & q' & Hg & Hq)];
      [lia|apply align_idem| |]; cbv zeta in Hg.
    + left. by split; [|lia].
    + right; right. exists h', q'. split; [done|]. destruct Hq. split_and!; try done. lia.
Qed.

End HeapSpec.

(** ** Clients of the heap

    A client holds pointers it got from the heap and hands each back once.
    [reach strict h own]: [h] and the pointers [own] arise from an initialised
    heap; [strict] as long as [rt_realloc] was not used. *)
Module HeapClient.
Import Heap.

Inductive op : Type :=
  | OMalloc (size : Z)
  | OCalloc (count size : Z)
  | OFree (p : Z)
  | ORealloc (p newsize : Z).

Definition drop_ptr (p : Z) (own : list Z) : list Z := filter (.≠ p) own.
Definition add_ptr (p : Z) (own : list Z) : list Z := if p =? 0 then own else p :: own.

Definition run_op (h : heap) (own : list Z) (o : op) : result (heap * list Z) :=
  match o with
  | OMalloc size => '(h, p) ← rt_malloc h size; Ok (h, add_ptr p own)
  | OCalloc count size => '(h, p) ← rt_calloc h count size; Ok (h, add_ptr p own)
  | OFree p => h ← rt_free h p; Ok (h, drop_ptr p own)
  | ORealloc p newsize =>
      '(h, q) ← rt_realloc h p newsize;
      (* on failure the old block is still the client's *)
      if (q =? 0) && negb (RT_ALIGN newsize RT_ALIGN_SIZE =? 0)
      then Ok (h, own) else Ok (h, add_ptr q (drop_ptr p own))
  end.

(** The requests a correct client makes. *)
Definition allowed (own : list Z) (o : op) : Prop :=
  match o with
  | OMalloc size => 0 <= size
  | OCalloc _ _ => True
  | OFree p => p = 0 \/ p ∈ own
  | ORealloc p _ => p ∈ own
  end.

Definition no_realloc (o : op) : bool :=
  match o with ORealloc _ _ => false | _ => true end.

Inductive reach (begin_addr end_addr : Z) : bool -> heap -> list Z -> Prop :=
  | reach_init h :
      rt_system_heap_init begin_addr end_addr = Some h -> 12 <= mem_size_aligned h ->
      reach begin_addr end_addr true h []
  | reach_step strict h own o h' own' :
      reach begin_addr end_addr strict h own -> allowed own o ->
      run_op h own o = Ok (h', own') ->
      reach begin_addr end_addr (strict && no_realloc o) h' own'.

End HeapClient.

Module HeapThms.
Import Heap Seg HeapSpec HeapClient.

Lemma init_inv b e h :
  0 <= b < 4294967293 -> 0 <= e < 4294967296 ->
  rt_system_heap_init b e = Some h -> 12 <= mem_size_aligned h ->
  inv true h [(heap_end h, false)].
Proof.
  intros Hb He E Hm. unfold rt_system_heap_init, RT_ALIGN_SIZE in E.
  rewrite RT_ALIGN_4, RT_ALIGN_DOWN_4, sizeof_12 in E by lia.
  set (ba := 4 * ((b + 3) / 4)) in *. set (ea := 4 * (e / 4)) in *.
  assert (ba mod 4 = 0 /\ ea mod 4 = 0 /\ ba >= 0 /\ ea <= e)
    by (subst ba ea; split_and!; dlia).
  destruct (_ && _)%bool eqn:Hc; [|done]. bool_prop. injection E as <-. cbn in Hm.
  assert (Hend : ea - ba - 24 + 12 = ea - ba - 12) by lia.
  split; [|split; [|done]].
  - unfold rep, heap_end, seg; rewrite sizeof_12;
      cbn [blocks mem_size_aligned heap_ptr hd_of].
    split; [exists 0|split]; [split_and!| |].
    + map_cases.
    + lia.
    + dlia.
    + done.
    + lia.
    + eexists. by rewrite lookup_insert_eq.
    + split_and!; try lia. dlia.
  - by exists [], [(ea - ba - 24 + 12, false)].
Qed.

(** The pointers of the allocated blocks. *)
Definition ptrs (h : heap) (l : list blk) : list Z :=
  map (fun b => heap_ptr h + b.1 + 12) (live 0 l).

Definition client_inv (strict : bool) (h : heap) (own : list Z) : Prop :=
  exists l, inv strict h l /\ own ≡ₚ ptrs h l.

Lemma ptrs_split h l p : p ∈ ptrs h l ->
  exists l1 n l2, l = l1 ++ (n, true) :: l2 /\ p = heap_ptr h + total l1 + 12.
Proof.
  intros ((o & n) & -> & (l1 & l2 & -> & ->)%live_split)%list_elem_of_fmap.
  by exists l1, n, l2.
Qed.

Lemma offs_live_NoDup o l : pos l -> NoDup (live o l).*1.
Proof.
  assert (Hge : forall l o x, pos l -> x ∈ (live o l).*1 -> o <= x).
  { clear. intros l o x Hp ((a & n) & -> & (l1 & l2 & -> & ->)%live_split)%list_elem_of_fmap.
    apply Forall_app in Hp as [Hp _]. apply pos_total in Hp. cbn. lia. }
  revert o; induction l as [|[n u] l IH]; intros o Hp; cbn; [constructor|].
  inversion Hp as [|?? Hn Hp']; subst. destruct u; cbn; [|by apply IH].
  constructor; [|by apply IH]. intros Hx. apply Hge in Hx; [|done]. cbn in Hn. lia.
Qed.

Lemma ptrs_NoDup s h l : inv s h l -> NoDup (ptrs h l).
Proof.
  intros (Hr & _). unfold ptrs.
  change (map _ (live 0 l)) with ((fun b : Z * Z => heap_ptr h + b.1 + 12) <$> live 0 l).
  replace ((fun b : Z * Z => heap_ptr h + b.1 + 12) <$> live 0 l)
    with ((fun x => heap_ptr h + x + 12) <$> (live 0 l).*1)
    by (rewrite <- list_fmap_compose; done).
  apply NoDup_fmap_2_strong; [intros; lia|]. apply offs_live_NoDup. by eapply rep_pos.
Qed.

(** Handing one pointer back leaves the others. *)
Lemma drop_ptr_perm p own rest : NoDup own -> own ≡ₚ p :: rest -> drop_ptr p own ≡ₚ rest.
Proof.
  intros Hn Hp. unfold drop_ptr. rewrite Hp in Hn |- *.
  apply NoDup_cons in Hn as [Hn _]. rewrite filter_cons_False by tauto.
  clear Hp. induction rest as [|x rest IH]; [done|].
  apply not_elem_of_cons in Hn as [Hx Hn].
  rewrite filter_cons_True by done. by rewrite IH.
Qed.

Lemma ptrs_perm h h' l o n rest : heap_ptr h' = heap_ptr h ->
  live 0 l ≡ₚ (o, n) :: rest ->
  ptrs h' l ≡ₚ (heap_ptr h + o + 12) :: map (fun b => heap_ptr h + b.1 + 12) rest.
Proof. intros Hp H. unfold ptrs. rewrite Hp, H. done. Qed.

Lemma ptrs_nonzero s h l p : inv s h l -> p ∈ ptrs h l -> p <> 0.
Proof.
  intros (Hr & _) (l1 & n & l2 & -> & ->)%ptrs_split.
  destruct (rep_block _ _ _ _ _ Hr) as (_ & _ & _ & _ & _ & ? & _).
  destruct Hr as (_ & _ & _ & _ & ? & _). lia.
Qed.

Lemma malloc_step strict h own size : client_inv strict h own -> 0 <= size ->
  exists h' p, rt_malloc h size = Ok (h', p) /\ client_inv strict h' (add_ptr p own).
Proof.
  intros (l & Hi & Hown) Hs. destruct (decide (size = 0)) as [->|].
  { exists h, 0. split; [done|]. by exists l. }
  destruct (malloc_total _ _ _ size Hi) as [E|(A & m & B & h' & -> & Hm & E & Hi' & Hp & _)];
    [lia|exists h, 0; split; [done|]; by exists l|].
  assert (Hnz : heap_ptr h + total A + 12 <> 0).
  { pose proof Hi as (Hr & _). destruct (rep_block _ _ _ _ _ Hr) as (_ & _ & _ & _ & _ & ? & _).
    destruct Hr as (_ & _ & _ & _ & ? & _). lia. }
  eexists _, _. split; [exact E|]. eexists. split; [exact Hi'|].
  unfold add_ptr. rewrite (proj2 (Z.eqb_neq _ 0)) by done.
  rewrite (ptrs_perm h h' _ _ _ _ Hp (live_take A m B (asize size))). by rewrite Hown.
Qed.

Lemma realloc_step strict h own p newsize : client_inv strict h own -> p ∈ own ->
  exists h' own', run_op h own (ORealloc p newsize) = Ok (h', own') /\
    client_inv false h' own'.
Proof.
  intros (l & Hi & Hown) Hp. pose proof (ptrs_NoDup _ _ _ Hi) as Hn. rewrite Hown in Hp.
  rewrite <- Hown in Hn.
  apply ptrs_split in Hp as (l1 & n & l2 & -> & ->).
  assert (Hdrop : drop_ptr (heap_ptr h + total l1 + 12) own ≡ₚ
    map (fun b => heap_ptr h + b.1 + 12) (live 0 l1 ++ live (total l1 + n) l2)).
  { apply drop_ptr_perm; [done|]. rewrite Hown. apply (ptrs_perm h h _ _ n); [done|].
    apply live_block. }
  pose proof (realloc_spec _ _ _ _ _ newsize Hi) as Hre. cbn [run_op].
  destruct Hre as [[-> Hal]|[(Hal & h' & -> & Hi' & Hp' & _)|(h' & q & -> & Hq & Hal & Hre)]];
    red_bind.
  - rewrite (proj2 (Z.eqb_neq (RT_ALIGN _ _) 0)) by lia. cbn [andb negb].
    change (0 =? 0) with true. cbv iota. eexists _, _. split; [reflexivity|].
    eexists. split; [by eapply inv_weaken|done].
  - rewrite Hal. cbn. eexists _, _. split; [reflexivity|]. eexists.
    split; [by eapply inv_weaken|]. unfold ptrs, add_ptr. cbn.
    rewrite live_release, Hp'. exact Hdrop.
  - rewrite (proj2 (Z.eqb_neq q 0)) by done. cbn [andb]. eexists _, _. split; [reflexivity|].
    destruct Hre as (Hp' & _ & l' & t & Hi' & _ & Hl' & _). exists l'. split; [done|].
    rewrite (ptrs_perm h h' _ _ _ _ Hp' Hl'). unfold add_ptr.
    rewrite (proj2 (Z.eqb_neq q 0)), Hdrop by done. f_equiv. lia.
Qed.

Lemma drop_ptr_notin p own : p ∉ own -> drop_ptr p own = own.
Proof.
  unfold drop_ptr. induction own as [|x own IH]; [done|].
  intros [Hx Hn]%not_elem_of_cons. rewrite filter_cons_True by done. by rewrite IH.
Qed.

Lemma free_step strict h own p : client_inv strict h own -> p ∈ own ->
  exists h' own', run_op h own (OFree p) = Ok (h', own') /\ client_inv strict h' own'.
Proof.
  intros (l & Hi & Hown) Hp. pose proof (ptrs_NoDup _ _ _ Hi) as Hn. rewrite Hown in Hp.
  rewrite <- Hown in Hn. apply ptrs_split in Hp as (l1 & n & l2 & -> & ->).
  destruct (free_spec _ _ _ _ _ Hi) as (h' & E & Hi' & Hp' & _).
  cbn [run_op]. rewrite E. eexists _, _. split; [reflexivity|].
  eexists. split; [exact Hi'|]. unfold ptrs. rewrite live_release, Hp'.
  apply drop_ptr_perm; [done|]. rewrite Hown.
  apply (ptrs_perm h h _ _ n); [done|]. apply live_block.
Qed.

Lemma client_step strict h own o : client_inv strict h own -> allowed own o ->
  exists h' own', run_op h own o = Ok (h', own') /\
    client_inv (strict && no_realloc o) h' own'.
Proof.
  intros Hc Ha. destruct o as [size|c n|p|p n]; cbn [no_realloc];
    rewrite ?andb_true_r, ?andb_false_r.
  - destruct (malloc_step _ _ _ size Hc Ha) as (h' & p & E & Hc').
    exists h', (add_ptr p own). cbn [run_op]. by rewrite E.
  - destruct (malloc_step _ _ _ (u32 (c * n)) Hc) as (h' & p & E & Hc');
      [apply u32_range|].
    cbn [run_op]. unfold rt_calloc. rewrite E. red_bind.
    destruct (p =? 0) eqn:Ep; red_bind; eexists _, _; (split; [reflexivity|]).
    + unfold add_ptr in *. rewrite Ep in Hc'. exact Hc'.
    + exact Hc'.
  - destruct Ha as [->|Hp].
    + exists h, (drop_ptr 0 own). split; [done|].
      destruct Hc as (l & Hi & Hown). exists l. split; [done|].
      rewrite drop_ptr_notin; [done|]. rewrite Hown. intros H.
      by apply (ptrs_nonzero _ _ _ _ Hi) in H.
    + by apply free_step.
  - by apply realloc_step with strict.
Qed.

Lemma reach_inv b e strict h own :
  0 <= b < 4294967293 -> 0 <= e < 4294967296 ->
  reach b e strict h own -> client_inv strict h own.
Proof.
  intros Hb He. induction 1 as [h E Hm|strict h own o h' own' _ IH Ha E].
  - eexists. split; [by eapply init_inv|]. done.
  - destruct (client_step _ _ _ _ IH Ha) as (h2 & own2 & E2 & Hc).
    rewrite E in E2. by injection E2 as <- <-.
Qed.

(** A heap of 176 payload bytes, for the examples. *)
Definition heap0 : heap := default (mk_heap ∅ ∅ 0 0 0 0 0) (rt_system_heap_init 1000 1200).

Lemma heap0_init : rt_system_heap_init 1000 1200 = Some heap0.
Proof. reflexivity. Qed.

Lemma heap0_inv : inv true heap0 [(188, false)].
Proof. apply (init_inv 1000 1200 heap0); [lia|lia|reflexivity|]. vm_compute. done. Qed.

Lemma heap0_malloc : exists h1,
  rt_malloc heap0 40 = Ok (h1, 1012) /\ inv true h1 [(52, true); (136, false)].
Proof.
  destruct (malloc_spec true heap0 [] _ 40 heap0_inv) as (_ & _ & h1 & E & Hi & _);
    [done..|]. by exists h1.
Qed.

Lemma heap0_reach : reach 1000 1200 true heap0 [].
Proof. apply reach_init; [reflexivity|]. vm_compute. done. Qed.

(** C2: a client that frees and reallocates only what it owns never runs into
    a failing assertion, a wild access or an endless walk of the block list,
    whatever sequence of calls led here; and the pointers it owns are
    distinct, aligned and inside the heap. *)
Theorem heap_clients_are_safe b e strict h own o :
  0 <= b < 4294967293 -> 0 <= e < 4294967296 ->
  reach b e strict h own -> allowed own o ->
  (exists h' own', run_op h own o = Ok (h', own')) /\
  NoDup own /\
  Forall (fun p => p mod 4 = 0 /\
                   heap_ptr h + 12 <= p /\ p + 4 <= heap_ptr h + heap_end h) own.
Proof.
  intros Hb He Hr Ha. pose proof (reach_inv _ _ _ _ _ Hb He Hr) as Hc.
  destruct (client_step _ _ _ _ Hc Ha) as (h' & own' & E & _).
  split; [by exists h', own'|]. destruct Hc as (l & Hi & Hown). rewrite Hown.
  split; [by eapply ptrs_NoDup|]. apply Forall_forall.
  intros p (l1 & n & l2 & -> & ->)%ptrs_split. destruct Hi as (Hrep & _).
  pose proof (rep_aligned _ _ _ Hrep). pose proof Hrep as (_ & _ & _ & _ & ? & ? & _).
  destruct (rep_block _ _ _ _ _ Hrep) as (_ & _ & _ & ? & ? & ? & ? & ?).
  split; [dlia|lia].
Qed.

Lemma heap_clients_are_safe_witness :
  exists h' own', run_op heap0 [] (OMalloc 40) = Ok (h', own').
Proof.
  apply (heap_clients_are_safe 1000 1200 true heap0 [] (OMalloc 40)); [lia|lia| |cbn; lia].
  exact heap0_reach.
Defined.

(** C31: [rt_malloc] is first fit from [lfree] on.  The blocks from [lfree] on
    are [b]; those in front of it, [a], are all allocated as long as no
    [rt_realloc] has cut a block (the invariant with [s = true]; see
    [rt_realloc_shrink_hides_memory] for what happens then).  It takes the
    lowest free block of [b] that holds the aligned size and starts below the
    bound of the loop, [mem_size_aligned - size], splits it when the rest can
    be a block of its own, and changes no other block and no byte.  It returns
    NULL, and changes nothing, exactly when [b] has no such block; a free block
    in [a], or one that starts at the bound or above it, is not used even if it
    is large enough. *)
Theorem rt_malloc_first_fit s h l size :
  inv s h l -> 0 < size ->
  exists a b, l = a ++ b /\ lfree h = total a /\ (s = true -> forallb snd a = true) /\
  match (if mem_size_aligned h <? RT_ALIGN size RT_ALIGN_SIZE then None
         else first_fit (mem_size_aligned h - asize size) (total a) (asize size) b) with
  | None => rt_malloc h size = Ok (h, 0)
  | Some (pre, n, post) =>
      b = pre ++ (n, false) :: post /\ asize size <= n - 12 /\
      exists h', rt_malloc h size = Ok (h', heap_ptr h + (total a + total pre) + 12) /\
        heap_ptr h + (total a + total pre) + 12 <> 0 /\
        inv s h' (a ++ pre ++ take_block (asize size) n ++ post) /\
        heap_ptr h' = heap_ptr h /\ mem_size_aligned h' = mem_size_aligned h /\
        data h' = data h
  end.
Proof.
  intros Hi Hs. pose proof Hi as (Hr & (a & b & -> & Hl & Ha & Hb) & _).
  exists a, b. split_and!; try done. pose proof (malloc_spec s h a b size Hi Hl Ha Hb Hs) as H.
  destruct (if _ <? _ then None else _) as [[[pre n] post]|]; [|done].
  destruct H as (-> & Hn & h' & E & H). split; [done|]. split; [done|]. exists h'. split; [done|]. split; [|done].
  pose proof Hr as (_ & _ & _ & _ & ? & _). pose proof (rep_pos _ _ Hr) as Hp. apply Forall_app in Hp as [Hp1 Hp2].
  apply Forall_app in Hp2 as [Hp2 _]. apply pos_total in Hp1, Hp2. lia.
Qed.

Lemma rt_malloc_first_fit_witness :
  exists h', rt_malloc heap0 40 = Ok (h', 1012) /\
    inv true h' [(52, true); (136, false)].
Proof.
  destruct (rt_malloc_first_fit true heap0 _ 40 heap0_inv) as (a & b & E & _ & Ha & H); [lia|].
  destruct a as [|x a].
  - cbn in E. subst b. destruct H as (_ & _ & h' & E & _ & Hi & _). exists h'. split; [exact E|exact Hi].
  - cbn in E. injection E as <- _. by specialize (Ha eq_refl).
Defined.

(** C36: [rt_free] after [rt_malloc] restores the block list: the block and the
    rest it was split from are one free block again. *)
Theorem rt_free_undoes_rt_malloc h l size h1 p :
  inv true h l -> 0 < size -> rt_malloc h size = Ok (h1, p) -> p <> 0 ->
  exists h2, rt_free h1 p = Ok h2 /\ inv true h2 l /\ used_mem h2 = used_mem h.
Proof.
  intros Hi Hs E Hp.
  destruct (malloc_total _ _ _ _ Hi Hs) as [E2|(A & m & B & h1' & -> & Hm & E2 & Hi1 & Hpt & _)];
    rewrite E2 in E; injection E as <- <-; [done|].
  pose proof Hi as (_ & _ & Hc & Hu & _).
  destruct (take_head (asize size) m B) as (t & r & Et & _). rewrite Et in Hi1.
  destruct (free_spec _ _ _ _ _ Hi1) as (h2 & E3 & Hi2 & _). rewrite Hpt in E3.
  exists h2. split; [done|].
  rewrite (release_take A m B (asize size) A r t) in Hi2; [|done|by rewrite Et|done].
  split; [done|]. destruct Hi2 as (_ & _ & _ & Hu2 & _). congruence.
Qed.

Lemma rt_free_undoes_rt_malloc_witness : exists h1 h2,
  rt_malloc heap0 40 = Ok (h1, 1012) /\ rt_free h1 1012 = Ok h2 /\ inv true h2 [(188, false)].
Proof.
  destruct (rt_malloc heap0 40) as [[h1 p]|] eqn:E; [|vm_compute in E; discriminate].
  assert (Hp : p = 1012) by (vm_compute in E; by injection E). subst p.
  destruct (rt_free_undoes_rt_malloc heap0 _ 40 h1 1012 heap0_inv) as (h2 & E2 & Hi & _);
    [lia|exact E|lia|]. by exists h1, h2.
Defined.

(** [rt_free] of an allocated block takes exactly that block out of the
    allocated ones, leaves no two free neighbours, keeps every byte, and a
    second [rt_free] of the pointer is caught by the assertion on [used]. *)
Theorem rt_free_releases_one_block s h l1 n l2 :
  inv s h (l1 ++ (n, true) :: l2) ->
  let p := heap_ptr h + total l1 + 12 in
  exists h' l', rt_free h p = Ok h' /\ inv s h' l' /\
    live 0 l' = live 0 l1 ++ live (total l1 + n) l2 /\ coalesced l' /\
    used_mem h' = used_mem h - n /\ data h' = data h /\
    rt_free h' p = Err F_assert.
Proof.
  intros Hi p. destruct (free_spec _ _ _ _ _ Hi) as (h' & E & Hi' & Hp & Hm & Hd & Hu).
  exists h', (release l1 n l2). split; [done|]. split; [done|].
  split; [apply live_release|]. pose proof Hi' as (_ & _ & Hc & Hs & _).
  split; [done|]. split.
  { rewrite Hs, used_release. destruct Hi as (_ & _ & _ & -> & _).
    rewrite used_total_app. cbn. lia. }
  split; [done|]. destruct Hi as (Hr & _). pose proof (rep_aligned _ _ _ Hr).
  pose proof Hr as (_ & _ & _ & _ & ? & ? & _).
  destruct (rep_block _ _ _ _ _ Hr) as (_ & _ & _ & ? & ? & ? & ? & ?).
  subst p. unfold rt_free. rewrite (proj2 (Z.eqb_neq _ 0)), land_3, sizeof_12 by lia.
  rewrite (proj2 (Z.eqb_eq _ 0)) by dlia. unfold heap_end in *. rewrite Hp, Hm.
  rewrite (proj2 (Z.leb_le _ _)), (proj2 (Z.ltb_lt _ _)) by lia. cbn [andb]. red_bind.
  replace (heap_ptr h + total l1 + 12 - 12 - heap_ptr h) with (total l1) by lia.
  unfold hdr. destruct (blocks h' !! total l1) as [m|]; [|done].
  injection Hu as Hu. cbn [deref mbind result_bind]. by rewrite Hu.
Qed.

Lemma rt_free_releases_one_block_witness : exists h1 h2,
  rt_malloc heap0 40 = Ok (h1, 1012) /\ rt_free h1 1012 = Ok h2 /\
  rt_free h2 1012 = Err F_assert.
Proof.
  destruct heap0_malloc as (h1 & E1 & Hi1).
  assert (Hp : heap_ptr h1 = 1000) by (vm_compute in E1; by injection E1 as <-).
  destruct (rt_free_releases_one_block true h1 [] 52 [(136, false)] Hi1)
    as (h2 & _ & E2 & _ & _ & _ & _ & _ & E3).
  rewrite Hp in E2, E3. by exists h1, h2.
Defined.

(** C32: [rt_realloc] either fails and changes nothing, or returns a block
    that holds the new size in place of the old one: the bytes up to the
    smaller of the two sizes are those of the old block, every byte outside
    the new block and every other allocated block is untouched. *)
Theorem rt_realloc_moves_contents s h l1 n l2 newsize :
  inv s h (l1 ++ (n, true) :: l2) -> 0 < newsize -> newsize + 3 < 4294967296 ->
  let p := heap_ptr h + total l1 + 12 in
  rt_realloc h p newsize = Ok (h, 0) \/
  exists h' q l' t,
    rt_realloc h p newsize = Ok (h', q) /\ q <> 0 /\ inv false h' l' /\
    newsize <= t - 12 /\
    live 0 l' ≡ₚ (q - heap_ptr h - 12, t) :: (live 0 l1 ++ live (total l1 + n) l2) /\
    (forall i, 0 <= i < Z.min (n - 12) newsize ->
       data h' !! (q - heap_ptr h + i) = data h !! (p - heap_ptr h + i)) /\
    (forall x, ~ (q - heap_ptr h <= x < q - heap_ptr h + (t - 12)) ->
       data h' !! x = data h !! x).
Proof.
  intros Hi Hpos Hov p. pose proof (align_ge newsize) as Hge.
  destruct (realloc_spec s h l1 n l2 newsize Hi) as [[E _]|[[Hz _]|(h' & q & E & Hq & Hal & Hre)]];
    [by left|lia|right].
  destruct Hre as (_ & _ & l' & t & Hi' & Ht & Hl' & Hin & Hout).
  exists h', q, l', t. split_and!; try done; [lia|].
  intros i Hr. rewrite Hin by lia. do 2 f_equal. subst p. lia.
Qed.

Lemma rt_realloc_moves_contents_witness : exists h1 h2 q,
  rt_malloc heap0 40 = Ok (h1, 1012) /\ rt_realloc h1 1012 60 = Ok (h2, q) /\ q <> 0.
Proof.
  destruct heap0_malloc as (h1 & E1 & Hi1).
  assert (Hp : heap_ptr h1 = 1000) by (vm_compute in E1; by injection E1 as <-).
  destruct (rt_realloc_moves_contents true h1 [] 52 _ 60 Hi1) as [E|(h2 & q & _ & _ & E & Hq & _)];
    [lia|lia| |].
  - exfalso. rewrite Hp in E. vm_compute in E1. injection E1 as <-. vm_compute in E. done.
  - exists h1, h2, q. rewrite Hp in E. by split_and!.
Defined.

Lemma no_live_one_block l : coalesced l -> live 0 l = [] -> 0 < total l ->
  l = [(total l, false)].
Proof.
  intros Hc Hl Ht. destruct l as [|[n u] l]; [done|]. destruct u; [done|].
  destruct l as [|[m v] l]; [cbn; by rewrite Z.add_0_r|].
  destruct v; [done|]. by destruct Hc.
Qed.

(** when clients have handed everything back, the heap is one free block
    again, the search starts at it and no byte counts as used. *)
Theorem rt_free_recovers_the_heap b e h :
  0 <= b < 4294967293 -> 0 <= e < 4294967296 ->
  reach b e true h [] ->
  blocks h !! 0 = Some (mk_mem HEAP_MAGIC 0 (heap_end h) 0) /\
  lfree h = 0 /\ used_mem h = 0.
Proof.
  intros Hb He Hreach. destruct (reach_inv _ _ _ _ _ Hb He Hreach) as (l & Hi & Hl).
  pose proof Hi as (Hr & (x & y & El & Hx & Hu & _) & Hc & Hs & _).
  pose proof (rep_total _ _ Hr) as [Ht _]. pose proof Hr as (_ & _ & ? & _).
  assert (heap_end h = mem_size_aligned h + 12) by reflexivity.
  assert (Hlive : live 0 l = []).
  { unfold ptrs in Hl. destruct (live 0 l); [done|]. by apply Permutation_nil_l in Hl. }
  apply no_live_one_block in Hlive; [|done|lia]. rewrite Ht in Hlive. subst l.
  destruct Hr as ((pl & Hsg) & _). rewrite Hlive in *. cbn [seg] in Hsg. destruct Hsg as (E & _).
  rewrite E, Hs. split; [unfold hd_of; by rewrite Z.add_0_l|]. split; [|done].
  destruct x as [|[n u] x]; [done|]. injection Hlive as -> -> _. by specialize (Hu eq_refl).
Qed.

Lemma rt_free_recovers_the_heap_witness : exists h1 h2,
  rt_malloc heap0 40 = Ok (h1, 1012) /\ rt_free h1 1012 = Ok h2 /\
  blocks h2 !! 0 = Some (mk_mem HEAP_MAGIC 0 188 0).
Proof.
  destruct (rt_malloc heap0 40) as [[h1 p]|] eqn:E1; [|vm_compute in E1; discriminate].
  assert (p = 1012) as -> by (vm_compute in E1; by injection E1).
  destruct (rt_free h1 1012) as [h2|] eqn:E2;
    [|vm_compute in E1; injection E1 as <-; vm_compute in E2; discriminate].
  assert (Hr : reach 1000 1200 true h2 []).
  { apply (reach_step _ _ true h1 [1012] (OFree 1012)).
    - apply (reach_step _ _ true heap0 [] (OMalloc 40)); [exact heap0_reach|cbn; lia|].
      cbn [run_op]. by rewrite E1.
    - right. by left.
    - cbn [run_op]. by rewrite E2. }
  destruct (rt_free_recovers_the_heap 1000 1200 h2) as (H & _); [lia|lia|exact Hr|].
  exists h1, h2. split; [done|]. split; [done|]. rewrite H.
  vm_compute in E1. injection E1 as <-. vm_compute in E2. by injection E2 as <-.
Defined.

(** the largest request a fresh heap serves is one alignment unit less
    than its payload: the loop bound [ptr < mem_size_aligned - size] refuses
    a request for all of it (and any request counts for at least 12 bytes). *)
Theorem rt_malloc_fresh_capacity b e h size :
  0 <= b < 4294967293 -> 0 <= e < 4294967296 ->
  rt_system_heap_init b e = Some h -> 12 <= mem_size_aligned h ->
  0 < size < 4294967293 ->
  rt_malloc h size = Ok (h, 0) <-> mem_size_aligned h - 4 < Z.max 12 size.
Proof.
  intros Hb He Ei Hm Hs. pose proof (init_inv _ _ _ Hb He Ei Hm) as Hi.
  assert (Hge := align_ge size ltac:(lia) ltac:(lia)). pose proof (align_up size) as [_ Ha4].
  pose proof Hi as ((_ & _ & _ & Hm4 & _) & (x & y & Exy & Hl & Hu & Hy) & _).
  assert (heap_end h = mem_size_aligned h + 12) as He' by reflexivity.
  assert (x = [] /\ y = [(heap_end h, false)]) as [-> ->].
  { destruct x as [|[??] x]; [done|]. injection Exy as <- <- _. by specialize (Hu eq_refl). }
  pose proof (malloc_spec true h [] _ size Hi Hl Hu Hy) as H. cbn [total first_fit] in H.
  unfold asize in H. set (al := RT_ALIGN size RT_ALIGN_SIZE) in *.
  destruct (Z.ltb_spec (mem_size_aligned h) al) as [|]; [rewrite H by lia; split; [intros _; lia|done]|].
  destruct (Z.ltb_spec 0 (mem_size_aligned h - Z.max 12 al)) as [|].
  - cbn [negb andb] in H. rewrite (proj2 (Z.leb_le _ _)) in H by lia.
    destruct H as (_ & _ & h' & -> & _); [lia|]. split; [|intros; exfalso; dlia].
    intros [= _ Hc]; cbn in Hc. pose proof Hi as ((_ & _ & _ & _ & ? & _) & _). cbn in Hc. lia.
  - rewrite H by lia. split; [|done]. intros _. dlia.
Qed.

Lemma rt_malloc_fresh_capacity_witness : rt_malloc heap0 176 = Ok (heap0, 0).
Proof.
  apply (rt_malloc_fresh_capacity 1000 1200 heap0 176); [lia|lia|reflexivity| |lia|].
  - vm_compute. done.
  - vm_compute. done.
Defined.

(** The state after the calls of a list, none of which fails. *)
Fixpoint run_ops (h : heap) (own : list Z) (os : list op) : result (heap * list Z) :=
  match os with
  | [] => Ok (h, own)
  | o :: os => '(h, own) ← run_op h own o; run_ops h own os
  end.

(** after [rt_realloc] has cut a block, [lfree] is not the lowest free
    block any more, against the comment on the variable: here it stays at the
    end of the heap, so that [rt_malloc] fails although a free block fits (it
    succeeds as soon as [lfree] is set to that block). *)
Theorem rt_realloc_shrink_hides_memory :
  exists h, run_ops heap0 [] [OMalloc 164; ORealloc 1012 20] = Ok (h, [1012]) /\
    lfree h = heap_end h /\ blocks h !! 32 = Some (mk_mem HEAP_MAGIC 0 188 0) /\
    rt_malloc h 40 = Ok (h, 0) /\
    exists h', rt_malloc (with_lfree h 32) 40 = Ok (h', 1044).
Proof.
  destruct (run_ops heap0 [] [OMalloc 164; ORealloc 1012 20]) as [[h own]|] eqn:E;
    vm_compute in E; [|discriminate].
  injection E as <- <-. eexists. split; [reflexivity|]. split; [reflexivity|].
  split; [reflexivity|]. split; [vm_compute; reflexivity|].
  eexists. vm_compute. reflexivity.
Qed.

(** a size within three bytes of the end of the 32-bit range wraps to zero
    when it is aligned: [rt_malloc] then hands out a block of 12 bytes, and
    [rt_realloc] frees the block and returns NULL. *)
Theorem rt_malloc_size_wraps h size p :
  12 <= mem_size_aligned h -> 4294967293 <= size < 4294967296 ->
  rt_malloc h size = rt_malloc h 12 /\
  rt_realloc h p size = (h' ← rt_free h p; Ok (h', 0)).
Proof.
  intros Hm Hs.
  assert (Ha : RT_ALIGN size RT_ALIGN_SIZE = 0).
  { unfold RT_ALIGN_SIZE. rewrite RT_ALIGN_4_u32. unfold u32. dlia. }
  unfold rt_malloc, rt_realloc. rewrite Ha.
  rewrite (proj2 (Z.eqb_neq size 0)), (proj2 (Z.ltb_ge _ 0)) by lia.
  change (12 =? 0) with false. change (RT_ALIGN 12 RT_ALIGN_SIZE) with 12.
  by rewrite (proj2 (Z.ltb_ge (mem_size_aligned h) 12)) by lia.
Qed.

Lemma rt_malloc_size_wraps_witness : exists h', rt_malloc heap0 4294967295 = Ok (h', 1012).
Proof.
  destruct (rt_malloc_size_wraps heap0 4294967295 0) as [E _]; [vm_compute; done|lia|].
  eexists. rewrite E. vm_compute. reflexivity.
Defined.

Lemma zero_bytes_out d o n x : ~ (o <= x < o + Z.of_nat n) -> zero_bytes d o n !! x = d !! x.
Proof.
  revert d o; induction n as [|n IH]; intros d o Hx; [done|]. cbn [zero_bytes].
  rewrite IH by lia. by rewrite lookup_insert_ne by lia.
Qed.

Lemma zero_bytes_in d o n i : 0 <= i < Z.of_nat n -> zero_bytes d o n !! (o + i) = Some 0.
Proof.
  revert d o i; induction n as [|n IH]; intros d o i Hi; [lia|]. cbn [zero_bytes].
  destruct (decide (i = 0)) as [->|].
  - rewrite Z.add_0_r, zero_bytes_out by lia. by rewrite lookup_insert_eq.
  - replace (o + i) with (o + 1 + (i - 1)) by lia. apply IH. lia.
Qed.

(** [rt_calloc] returns NULL or a new block whose first bytes are zero,
    and writes nothing outside it; the number of bytes is the product
    truncated to 32 bits, so that a product of 2^32 or more gives a block
    smaller than the caller asked for. *)
Theorem rt_calloc_zeroes s h l count size :
  inv s h l -> u32 (count * size) + 3 < 4294967296 ->
  let m := u32 (count * size) in
  rt_calloc h count size = Ok (h, 0) \/
  exists h' p l' t,
    rt_calloc h count size = Ok (h', p) /\ inv s h' l' /\ m <= t - 12 /\
    live 0 l' ≡ₚ (p - heap_ptr h - 12, t) :: live 0 l /\
    (forall i, 0 <= i < m -> data h' !! (p - heap_ptr h + i) = Some 0) /\
    (forall x, ~ (p - heap_ptr h <= x < p - heap_ptr h + m) -> data h' !! x = data h !! x).
Proof.
  intros Hi Hov m. subst m. pose proof (u32_range (count * size)) as Hr.
  unfold rt_calloc. set (m := u32 (count * size)) in *.
  destruct (decide (m = 0)) as [->|Hm]; [by left|].
  destruct (malloc_total _ _ _ m Hi) as [->|(A & k & B & h' & -> & Hk & -> & Hi' & Hp & _ & Hd)];
    [lia|by left|right].
  pose proof Hi as (Hrep & _). pose proof Hrep as (_ & _ & _ & _ & Hp0 & _).
  destruct (rep_block _ _ _ _ _ Hrep) as (_ & _ & _ & _ & _ & ? & _).
  cbn [mbind result_bind]. rewrite (proj2 (Z.eqb_neq _ 0)) by lia.
  pose proof (taken_bounds _ _ Hk). pose proof (align_ge m).
  eexists _, _, _, (taken (asize m) k). split; [reflexivity|]. split; [exact Hi'|].
  split; [unfold asize in *; lia|].
  replace (heap_ptr h + total A + 12 - heap_ptr h - 12) with (total A) by lia.
  split; [apply live_take|]. cbn [data with_data]. rewrite Hd, Hp.
  split; intros x Hx; [apply zero_bytes_in|apply zero_bytes_out]; lia.
Qed.

Lemma rt_calloc_zeroes_witness : exists h' p,
  rt_calloc heap0 268435457 16 = Ok (h', p) /\ data h' !! (p - 1000 + 15) = Some 0.
Proof.
  destruct (rt_calloc_zeroes true heap0 _ 268435457 16 heap0_inv)
    as [E|(h' & p & l' & t & E & _ & _ & _ & Hz & _)]; [vm_compute; done| |].
  - exfalso. vm_compute in E. done.
  - exists h', p. split; [exact E|]. apply Hz. vm_compute. done.
Defined.

End HeapThms.
