(* ===== verification/RtList.v ===== *)
(** * Intrusive lists (rt-thread/include/rtservice.h)

    [DList] is the code of the [rt_list_*] functions and [SList] that of the
    [rt_slist_*] ones, on an explicit store of nodes; [DListSpec] and
    [SListSpec] relate the store to logical lists; [ListThms] holds the
    properties.  The kernel components use lists of node names, which these
    theorems justify. *)
From S2P Require Import Prelude CTypes.
From stdpp Require Import base list gmap.
From Stdlib Require Import ZArith Lia.
Open Scope Z_scope.

Module DList.

(** [rt_list_t]; nodes are named by their address. *)
Record rt_list_node : Type := mk_node { next : Z; prev : Z }.

Abbreviation store := (gmap Z rt_list_node).

Definition node (st : store) (a : Z) : result rt_list_node := deref (st !! a).
Definition set_next (st : store) (a v : Z) : result store :=
  x ← node st a; Ok (<[a := mk_node v (prev x)]> st).
Definition set_prev (st : store) (a v : Z) : result store :=
  x ← node st a; Ok (<[a := mk_node (next x) v]> st).

(** [l->next = l->prev = l]; the node is the caller's memory. *)
Definition rt_list_init (st : store) (l : Z) : store := <[l := mk_node l l]> st.

Definition rt_list_insert_after (st : store) (l n : Z) : result store :=
  x ← node st l;
  st ← set_prev st (next x) n;
  x ← node st l;
  st ← set_next st n (next x);
  st ← set_next st l n;
  set_prev st n l.

Definition rt_list_insert_before (st : store) (l n : Z) : result store :=
  x ← node st l;
  st ← set_next st (prev x) n;
  x ← node st l;
  st ← set_prev st n (prev x);
  st ← set_prev st l n;
  set_next st n l.

Definition rt_list_remove (st : store) (n : Z) : result store :=
  x ← node st n;
  st ← set_prev st (next x) (prev x);
  x ← node st n;
  st ← set_next st (prev x) (next x);
  st ← set_prev st n n;
  set_next st n n.

Definition rt_list_isempty (st : store) (l : Z) : result bool :=
  x ← node st l; Ok (next x =? l).

(** The loop of [rt_list_len]; [p] is the cursor. *)
Fixpoint len_loop (fuel : nat) (st : store) (l p len : Z) : result Z :=
  match fuel with
  | O => Err F_fuel
  | S k =>
      x ← node st p;
      if next x =? l then Ok len
      else len_loop k st l (next x) (u32 (len + 1))
  end.

Definition rt_list_len (st : store) (l : Z) : result Z :=
  len_loop (S (size st)) st l l 0.

End DList.

Module SList.

(** [rt_slist_t]: the address of the next node; 0 is [RT_NULL]. *)
Abbreviation store := (gmap Z Z).

Definition next (st : store) (a : Z) : result Z := deref (st !! a).

Definition rt_slist_init (st : store) (l : Z) : store := <[l := 0]> st.

(** [while (node->next) node = node->next]. *)
Fixpoint tail_loop (fuel : nat) (st : store) (a : Z) : result Z :=
  match fuel with
  | O => Err F_fuel
  | S k => x ← next st a; if x =? 0 then Ok a else tail_loop k st x
  end.

Definition rt_slist_tail (st : store) (l : Z) : result Z :=
  tail_loop (S (size st)) st l.

Definition rt_slist_append (st : store) (l n : Z) : result store :=
  t ← tail_loop (S (size st)) st l;
  Ok (<[n := 0]> (<[t := n]> st)).

Definition rt_slist_insert (st : store) (l n : Z) : result store :=
  x ← next st l; Ok (<[l := n]> (<[n := x]> st)).

Fixpoint slen_loop (fuel : nat) (st : store) (a len : Z) : result Z :=
  match fuel with
  | O => Err F_fuel
  | S k => if a =? 0 then Ok len
           else x ← next st a; slen_loop k st x (u32 (len + 1))
  end.

Definition rt_slist_len (st : store) (l : Z) : result Z :=
  x ← next st l; slen_loop (S (size st)) st x 0.

(** [while (node->next && node->next != n) node = node->next]. *)
Fixpoint find_loop (fuel : nat) (st : store) (a n : Z) : result Z :=
  match fuel with
  | O => Err F_fuel
  | S k => x ← next st a;
           if (x =? 0) || (x =? n) then Ok a else find_loop k st x n
  end.

Definition rt_slist_remove (st : store) (l n : Z) : result store :=
  a ← find_loop (S (size st)) st l n;
  x ← next st a;
  if x =? 0 then Ok st else y ← next st x; Ok (<[a := y]> st).

Definition rt_slist_first (st : store) (l : Z) : result Z := next st l.
Definition rt_slist_next (st : store) (n : Z) : result Z := next st n.
Definition rt_slist_isempty (st : store) (l : Z) : result bool :=
  x ← next st l; Ok (x =? 0).

End SList.

(** ** Doubly linked lists *)
Module DListSpec.
Import DList.

(** [p] and [q] are linked to each other. *)
Definition link (st : store) (p q : Z) : Prop :=
  next <$> st !! p = Some q /\ prev <$> st !! q = Some p.

(** The circular list with head [h] and nodes [l]. *)
Definition circ (st : store) (h : Z) (l : list Z) : Prop :=
  NoDup (h :: l) /\ Forall2 (link st) (h :: l) (l ++ [h]).

(** A cycle opened at the place after [l1]: [p] ends the first part, [q]
    starts the second. *)
Lemma circ_open h l1 l2 :
  exists init rest,
    let p := default h (last l1) in let q := default h (head l2) in
    h :: l1 = init ++ [p] /\ l2 ++ [h] = q :: rest /\
    (forall st, Forall2 (link st) (h :: l1 ++ l2) ((l1 ++ l2) ++ [h]) <->
     Forall2 (link st) init l1 /\ link st p q /\ Forall2 (link st) l2 rest) /\
    (forall st n, Forall2 (link st) (h :: l1 ++ n :: l2) ((l1 ++ n :: l2) ++ [h]) <->
       Forall2 (link st) init l1 /\ link st p n /\ link st n q /\
       Forall2 (link st) l2 rest).
Proof.
  destruct (exists_last (l := h :: l1)) as (init & p & Ei); [done|].
  destruct (l2 ++ [h]) as [|q rest] eqn:Er; [by destruct l2|].
  exists init, rest. cbv zeta.
  assert (Hlen : length init = length l1).
  { apply (f_equal length) in Ei. rewrite length_app in Ei. cbn in Ei. lia. }
  replace (default h (last l1)) with p.
  2:{ destruct l1 as [|l0 z _] using rev_ind; [by destruct init as [|? [|]]; injection Ei|].
      rewrite last_snoc. cbn. rewrite app_comm_cons in Ei. by apply app_inj_tail in Ei as [_ ->]. }
  replace (default h (head l2)) with q by (by destruct l2; injection Er).
  assert (E : forall k, h :: l1 ++ k = init ++ p :: k).
  { intros k. change (h :: l1 ++ k) with ((h :: l1) ++ k). by rewrite Ei, <- app_assoc. }
  split_and!; try done; [intros st|intros st n]; rewrite E, <- app_assoc; cbn [app];
    rewrite Er, Forall2_app_iff by done; by rewrite !Forall2_cons.
Qed.

(** The nodes on the two sides of the opening are those of the list. *)
Lemma open_ends (h p q : Z) (l1 l2 init rest : list Z) :
  h :: l1 = init ++ [p] -> l2 ++ [h] = q :: rest -> NoDup (h :: l1 ++ l2) ->
  (forall x, x ∈ init ++ p :: l2 -> x ∈ h :: l1 ++ l2) /\
  (forall x, x ∈ l1 ++ q :: rest -> x ∈ h :: l1 ++ l2) /\
  (p ∉ init) /\ (p ∉ l2) /\ (q ∉ l1) /\ (q ∉ rest).
Proof.
  intros Ei Er Hnd.
  assert (E : init ++ p :: l2 = h :: l1 ++ l2).
  { change (h :: l1 ++ l2) with ((h :: l1) ++ l2). by rewrite Ei, <- app_assoc. }
  assert (E2 : l1 ++ q :: rest ≡ₚ h :: l1 ++ l2).
  { rewrite <- Er, app_assoc, (Permutation_app_comm _ [h]). done. }
  assert (N1 := Hnd). rewrite <- E in N1. rewrite <- E2 in Hnd.
  apply NoDup_app in N1 as (_ & Dp & (Pl2 & _)%NoDup_cons).
  apply NoDup_app in Hnd as (_ & Dq & (Qr & _)%NoDup_cons).
  rewrite E. split_and!; try done.
  - intros x. by rewrite E2.
  - intros H. apply (Dp p H). by left.
  - intros H. apply (Dq q H). by left.
Qed.

Lemma link_keep st st' p q :
  next <$> st' !! p = next <$> st !! p -> prev <$> st' !! q = prev <$> st !! q ->
  link st p q -> link st' p q.
Proof. unfold link. intros -> ->. done. Qed.

Lemma links_keep st st' l k :
  (forall x, x ∈ l -> next <$> st' !! x = next <$> st !! x) ->
  (forall x, x ∈ k -> prev <$> st' !! x = prev <$> st !! x) ->
  Forall2 (link st) l k -> Forall2 (link st') l k.
Proof.
  intros Hl Hk H. induction H as [|a b l k Hab H IH]; constructor.
  - apply (link_keep st); [apply Hl; left|apply Hk; left|done].
  - apply IH; intros x Hx; [apply Hl|apply Hk]; by right.
Qed.

(** Another list is not affected by changes outside its nodes. *)
Lemma circ_frame st st' h l :
  (forall x, x ∈ h :: l -> st' !! x = st !! x) -> circ st h l -> circ st' h l.
Proof.
  intros Ha [Hn H]. split; [done|]. eapply links_keep; [| |exact H].
  - intros x Hx. by rewrite Ha.
  - intros x Hx. rewrite Ha; [done|]. apply elem_of_app in Hx as [Hx|Hx].
    + by right.
    + apply list_elem_of_singleton in Hx as ->. by left.
Qed.

Lemma link_inv st p q : link st p q -> exists x y,
  st !! p = Some x /\ next x = q /\ st !! q = Some y /\ prev y = p.
Proof.
  intros [Hp Hq]. destruct (st !! p) as [x|] eqn:Ex; [|done].
  destruct (st !! q) as [y|] eqn:Ey; [|done]. injection Hp as Hp. injection Hq as Hq.
  by exists x, y.
Qed.

Lemma node_Ok st a x : st !! a = Some x -> node st a = Ok x.
Proof. unfold node. by intros ->. Qed.
Lemma store_next_Ok st a x v : st !! a = Some x -> set_next st a v = Ok (<[a := mk_node v (prev x)]> st).
Proof. intros E. unfold set_next. by rewrite (node_Ok _ _ _ E). Qed.
Lemma store_prev_Ok st a x v : st !! a = Some x -> set_prev st a v = Ok (<[a := mk_node (next x) v]> st).
Proof. intros E. unfold set_prev. by rewrite (node_Ok _ _ _ E). Qed.

(** Lookups in an updated store by cases on the addresses. *)
Ltac st_look :=
  repeat (rewrite lookup_insert; case_decide; try (exfalso; congruence); subst; try done; try congruence).

Ltac run_list :=
  repeat first
    [ progress cbn [mbind result_bind next prev]
    | erewrite node_Ok by (st_look; eassumption)
    | erewrite store_next_Ok by (st_look; eassumption)
    | erewrite store_prev_Ok by (st_look; eassumption) ].

(** [st'] has [n] linked in between [p] and [q]. *)
Definition inserted (st st' : store) (p n q : Z) : Prop :=
  link st' p n /\ link st' n q /\
  (forall x, x <> p -> x <> n -> next <$> st' !! x = next <$> st !! x) /\
  (forall x, x <> q -> x <> n -> prev <$> st' !! x = prev <$> st !! x) /\
  (forall x, x <> p -> x <> q -> x <> n -> st' !! x = st !! x).

(** The store agrees with the old one outside a list and one more node. *)
Definition unchanged (st st' : store) (l : list Z) : Prop :=
  forall x, x ∉ l -> st' !! x = st !! x.

Lemma insert_after_run st p n q xn :
  link st p q -> p <> n -> q <> n -> st !! n = Some xn ->
  exists st', rt_list_insert_after st p n = Ok st' /\ inserted st st' p n q.
Proof.
  intros (x & y & Ex & <- & Ey & Ep)%link_inv Hp Hq En. unfold rt_list_insert_after.
  destruct (decide (p = next x)) as [E|E].
  - rewrite <- E in *. rewrite Ex in Ey. injection Ey as <-.
    do 6 (run_list; rewrite <- ?E).
    eexists. split; [reflexivity|]. unfold inserted, link. rewrite <- ?E.
    split_and!; intros; st_look; cbn; rewrite <- ?E; done.
  - run_list. eexists. split; [reflexivity|]. unfold inserted, link.
    split_and!; intros; st_look; rewrite ?Ex, ?Ey; done.
Qed.

Lemma insert_before_run st p n q xn :
  link st p q -> p <> n -> q <> n -> st !! n = Some xn ->
  exists st', rt_list_insert_before st q n = Ok st' /\ inserted st st' p n q.
Proof.
  intros (x & y & Ex & Eq & Ey & <-)%link_inv Hp Hq En. unfold rt_list_insert_before.
  destruct (decide (prev y = q)) as [E|E].
  - rewrite E in *. rewrite Ex in Ey. injection Ey as <-.
    do 6 (run_list; rewrite ?E).
    eexists. split; [reflexivity|]. unfold inserted, link.
    split_and!; intros; st_look; cbn; rewrite ?E; done.
  - run_list. eexists. split; [reflexivity|]. unfold inserted, link.
    split_and!; intros; st_look; rewrite ?Ex, ?Ey; done.
Qed.

(** The links away from the opening survive a change at [p], [n] and [q]. *)
Lemma open_keep st st' h l1 l2 n :
  let p := default h (last l1) in let q := default h (head l2) in
  NoDup (h :: l1 ++ l2) -> n ∉ h :: l1 ++ l2 ->
  (forall x, x <> p -> x <> n -> next <$> st' !! x = next <$> st !! x) ->
  (forall x, x <> q -> x <> n -> prev <$> st' !! x = prev <$> st !! x) ->
  (forall x, x <> p -> x <> q -> x <> n -> st' !! x = st !! x) ->
  (forall init rest, h :: l1 = init ++ [p] -> l2 ++ [h] = q :: rest ->
     Forall2 (link st) init l1 -> Forall2 (link st) l2 rest ->
     Forall2 (link st') init l1 /\ Forall2 (link st') l2 rest) /\
  unchanged st st' (n :: h :: l1 ++ l2).
Proof.
  intros p q Hnd Hn Hnx Hpv Hrest. split.
  - intros init rest Ei Er H1 H2.
    destruct (open_ends _ _ _ _ _ _ _ Ei Er Hnd) as (Hin & Hin2 & Dp & Pl2 & Dq & Qr).
    split; [eapply links_keep; [| |exact H1]|eapply links_keep; [| |exact H2]];
      intros x Hx; [apply Hnx|apply Hpv|apply Hnx|apply Hpv]; intros ->; try done; apply Hn.
    + by apply Hin, elem_of_app; left.
    + by right; apply elem_of_app; left.
    + by right; apply elem_of_app; right.
    + by apply Hin2, elem_of_app; right; right.
  - destruct (circ_open h l1 l2) as (init & rest & Ei & Er & Hc & Ho).
    destruct (open_ends _ _ _ _ _ _ _ Ei Er Hnd) as (Hin & Hin2 & _).
    intros x [Hxn Hx]%not_elem_of_cons. apply Hrest; [| |done]; intros ->; apply Hx.
    + apply Hin, elem_of_app. right. by left.
    + apply Hin2, elem_of_app. right. by left.
Qed.

Lemma circ_inserted st st' h l1 l2 n :
  circ st h (l1 ++ l2) -> n ∉ h :: l1 ++ l2 ->
  inserted st st' (default h (last l1)) n (default h (head l2)) ->
  circ st' h (l1 ++ n :: l2) /\ unchanged st st' (n :: h :: l1 ++ l2).
Proof.
  intros [Hnd H] Hn (L1 & L2 & Hnx & Hpv & Hrest).
  destruct (open_keep st st' h l1 l2 n Hnd Hn Hnx Hpv Hrest) as [Hk Hu].
  split; [|done]. destruct (circ_open h l1 l2) as (init & rest & Ei & Er & Ho & Hc).
  split.
  { rewrite <- Permutation_middle. rewrite NoDup_cons in Hnd |- *. rewrite NoDup_cons.
    rewrite not_elem_of_cons in Hn |- *. destruct Hnd, Hn. by split_and!. }
  pose proof (proj1 (Ho _) H) as (H1 & L & H2). apply Hc.
  destruct (Hk _ _ Ei Er H1 H2). by split_and!.
Qed.

Definition removed (st st' : store) (p n q : Z) : Prop :=
  link st' p q /\ st' !! n = Some (mk_node n n) /\
  (forall x, x <> p -> x <> n -> next <$> st' !! x = next <$> st !! x) /\
  (forall x, x <> q -> x <> n -> prev <$> st' !! x = prev <$> st !! x) /\
  (forall x, x <> p -> x <> q -> x <> n -> st' !! x = st !! x).

Lemma remove_run st p n q :
  link st p n -> link st n q -> p <> n -> q <> n ->
  exists st', rt_list_remove st n = Ok st' /\ removed st st' p n q.
Proof.
  intros (x & y & Ex & Exn & Ey & <-)%link_inv (y' & z & Ey' & <- & Ez & Ezp)%link_inv Hp Hq.
  rewrite Ey in Ey'. injection Ey' as <-. unfold rt_list_remove.
  destruct (decide (prev y = next y)) as [E|E].
  - rewrite <- E in *. rewrite Ex in Ez. injection Ez as <-.
    do 6 (run_list; rewrite <- ?E).
    eexists. split; [reflexivity|]. unfold removed, link. rewrite <- ?E.
    split_and!; intros; st_look; cbn; rewrite <- ?E; done.
  - run_list. eexists. split; [reflexivity|]. unfold removed, link.
    split_and!; intros; st_look; rewrite ?Ex, ?Ez; done.
Qed.

Lemma circ_removed st st' h l1 l2 n :
  circ st h (l1 ++ n :: l2) ->
  removed st st' (default h (last l1)) n (default h (head l2)) ->
  circ st' h (l1 ++ l2) /\ circ st' n [] /\ unchanged st st' (n :: h :: l1 ++ l2).
Proof.
  intros [Hnd H] (L & Hn & Hnx & Hpv & Hrest).
  rewrite <- Permutation_middle, Permutation_swap in Hnd.
  apply NoDup_cons in Hnd as [Hnn Hnd].
  destruct (open_keep st st' h l1 l2 n Hnd Hnn Hnx Hpv Hrest) as [Hk Hu].
  destruct (circ_open h l1 l2) as (init & rest & Ei & Er & Hc & Ho).
  pose proof (proj1 (Ho _ _) H) as (H1 & Lp & Lq & H2). destruct (Hk _ _ Ei Er H1 H2).
  split; [split; [done|]; apply Hc; by split_and!|]. split; [|done].
  split; [apply NoDup_singleton|]. constructor; [|constructor]. unfold link. by rewrite Hn.
Qed.

(** Links of the node at a place of a list. *)
Lemma circ_links st h l1 n l2 : circ st h (l1 ++ n :: l2) ->
  link st (default h (last l1)) n /\ link st n (default h (head l2)) /\
  default h (last l1) <> n /\ default h (head l2) <> n.
Proof.
  intros [Hnd H]. destruct (circ_open h l1 l2) as (init & rest & Ei & Er & Hc & Ho).
  pose proof (proj1 (Ho _ _) H) as (H1 & Lp & Lq & H2).
  rewrite <- Permutation_middle, Permutation_swap in Hnd. apply NoDup_cons in Hnd as [Hn Hnd].
  destruct (open_ends _ _ _ _ _ _ _ Ei Er Hnd) as (Hin & Hin2 & _).
  split_and!; try done; intros E; apply Hn.
  - apply Hin, elem_of_app. right. rewrite E. by left.
  - apply Hin2, elem_of_app. right. rewrite E. by left.
Qed.

Lemma circ_link_between st h l1 l2 : circ st h (l1 ++ l2) ->
  link st (default h (last l1)) (default h (head l2)).
Proof.
  intros [Hnd H]. destruct (circ_open h l1 l2) as (init & rest & Ei & Er & Ho & Hc).
  pose proof (proj1 (Ho _) H) as (H1 & L & H2). exact L.
Qed.

End DListSpec.

(** ** Singly linked lists *)
Module SListSpec.
Import SList.

(** From node [a] the links run through [l] and end. *)
Fixpoint schain (st : store) (a : Z) (l : list Z) : Prop :=
  match l with
  | [] => st !! a = Some 0
  | x :: l' => st !! a = Some x /\ x <> 0 /\ schain st x l'
  end.

Definition slist (st : store) (h : Z) (l : list Z) : Prop :=
  NoDup (h :: l) /\ schain st h l.

Lemma snext_Ok st a x : st !! a = Some x -> next st a = Ok x.
Proof. unfold next. by intros ->. Qed.

Lemma schain_agree st st' a l :
  (forall x, x ∈ a :: l -> st' !! x = st !! x) -> schain st a l -> schain st' a l.
Proof.
  revert a; induction l as [|x l IH]; intros a Ha; cbn; rewrite Ha by (by left); [done|].
  intros (? & ? & H). split_and!; try done. apply IH; [|done].
  intros y Hy. apply Ha. by right.
Qed.

Lemma schain_dom st a l x : schain st a l -> x ∈ a :: l -> is_Some (st !! x).
Proof.
  revert a; induction l as [|y l IH]; intros a; cbn; intros H Hx.
  - apply list_elem_of_singleton in Hx as ->. by eexists.
  - destruct H as (Ha & _ & H). apply elem_of_cons in Hx as [->|Hx]; [by eexists|].
    by eapply IH.
Qed.

(** The node that ends a chain from [a], or [a] itself. *)
Lemma end_cons (a x : Z) l : default a (last (x :: l)) = default x (last l).
Proof.
  destruct l as [|y l _] using rev_ind; [done|].
  by rewrite app_comm_cons, !last_snoc.
Qed.

Lemma schain_app st a l1 x l2 :
  schain st a (l1 ++ x :: l2) ->
  st !! default a (last l1) = Some x /\ x <> 0 /\ schain st x l2.
Proof.
  revert a; induction l1 as [|y l1 IH]; intros a; cbn [app schain]; [done|].
  intros (_ & _ & H). apply IH in H. by rewrite end_cons.
Qed.

(** The nodes of a chain are at most as many as those of the store. *)
Lemma nodes_size {A} (st : gmap Z A) l :
  NoDup l -> (forall x, x ∈ l -> is_Some (st !! x)) -> (length l <= size st)%nat.
Proof.
  intros Hn Hd. rewrite <- (size_dom (D := gset Z) st).
  rewrite <- (size_list_to_set (C := gset Z) l) by done.
  apply subseteq_size. intros x Hx. apply elem_of_list_to_set in Hx.
  by apply elem_of_dom, Hd.
Qed.

Lemma slist_size st h l : slist st h l -> (S (length l) <= size st)%nat.
Proof.
  intros [Hn Hc]. apply (nodes_size st (h :: l)); [done|]. intros x.
  by apply schain_dom.
Qed.

Lemma tail_loop_run st a l fuel : schain st a l -> (length l < fuel)%nat ->
  tail_loop fuel st a = Ok (default a (last l)).
Proof.
  revert a fuel; induction l as [|x l IH]; intros a [|fuel] H Hf;
    cbn [length schain tail_loop] in *; try lia.
  - by rewrite (snext_Ok _ _ _ H).
  - destruct H as (Ha & Hx & H). rewrite (snext_Ok _ _ _ Ha). cbn [mbind result_bind].
    rewrite (proj2 (Z.eqb_neq _ _)) by done. rewrite (IH x) by (done || lia).
    by rewrite end_cons.
Qed.

Lemma slen_loop_run st a l c fuel x : schain st a l -> st !! a = Some x ->
  (length l < fuel)%nat -> 0 <= c ->
  slen_loop fuel st x (u32 c) = Ok (u32 (c + zlen l)).
Proof.
  revert a x c fuel; induction l as [|y l IH]; intros a x c [|fuel] H Hx Hf Hc;
    cbn [length schain slen_loop] in *; try lia.
  - rewrite H in Hx. injection Hx as <-. cbn. by rewrite Z.add_0_r.
  - destruct H as (Ha & Hy & H). rewrite Ha in Hx. injection Hx as <-.
    rewrite (proj2 (Z.eqb_neq _ _)) by done.
    assert (Hs : is_Some (st !! y)) by (apply (schain_dom _ _ _ _ H); by left).
    destruct Hs as [z Hz]. rewrite (snext_Ok _ _ _ Hz). cbn [mbind result_bind].
    replace (u32 (u32 c + 1)) with (u32 (c + 1)) by (unfold u32; dlia).
    rewrite (IH y z) by (done || lia). unfold zlen. cbn [length]. do 2 f_equal. lia.
Qed.

(** The search stops before [n], or at the last node when [n] is not there. *)
Lemma find_loop_run st a l1 l2 n fuel :
  schain st a (l1 ++ l2) -> n ∉ l1 -> (length l1 < fuel)%nat ->
  match l2 with [] => True | x :: _ => x = n end ->
  find_loop fuel st a n = Ok (default a (last l1)).
Proof.
  revert a fuel; induction l1 as [|x l1 IH]; intros a [|fuel] H Hn Hf Hl;
    cbn [length app schain find_loop] in *; try lia.
  - destruct l2 as [|x l2].
    + by rewrite (snext_Ok _ _ _ H).
    + destruct H as (Ha & _). subst x. rewrite (snext_Ok _ _ _ Ha). cbn.
      by rewrite Z.eqb_refl, orb_true_r.
  - destruct H as (Ha & Hx & H). apply not_elem_of_cons in Hn as [Hxn Hn].
    rewrite (snext_Ok _ _ _ Ha). cbn [mbind result_bind].
    rewrite !(proj2 (Z.eqb_neq _ _)) by done. cbn [orb].
    rewrite (IH x) by (done || lia). by rewrite end_cons.
Qed.

Lemma last_elem a (l : list Z) : default a (last l) ∈ a :: l.
Proof.
  destruct l as [|x l _] using rev_ind; [by left|]. rewrite last_snoc. cbn.
  right. apply elem_of_app. right. by left.
Qed.

(** Relinking the node before a chain. *)
Lemma schain_link st a l1 y l2 :
  NoDup (a :: l1 ++ l2) -> (y = 0 /\ l2 = [] \/ y <> 0 /\ exists r, l2 = y :: r) ->
  (exists t, schain st a (l1 ++ t)) ->
  (forall r, l2 = y :: r -> schain st y r) ->
  schain (<[default a (last l1) := y]> st) a (l1 ++ l2).
Proof.
  revert a; induction l1 as [|x l1 IH]; intros a Hn Hy (t & Ht) Hr; cbn [app] in *.
  - cbn [last default from_option].
    destruct Hy as [[-> ->]|[Hy (r & ->)]]; cbn [schain id]; rewrite lookup_insert_eq; [done|].
    split_and!; try done. apply (schain_agree st); [|by apply Hr].
    intros z Hz. rewrite lookup_insert_ne; [done|]. intros ->.
    apply NoDup_cons in Hn as [Hn _]. apply Hn. exact Hz.
  - destruct Ht as (Ha & Hx & Ht). apply NoDup_cons in Hn as [Ha' Hn].
    rewrite end_cons.
    cbn [schain]. split_and!; [|done|apply IH; eauto].
    rewrite lookup_insert_ne; [done|]. intros E. apply Ha'.
    rewrite <- E, app_comm_cons, elem_of_app. left. apply last_elem.
Qed.

Lemma slist_append_run st h l n : slist st h l -> n <> 0 -> n ∉ h :: l ->
  exists st', rt_slist_append st h n = Ok st' /\ slist st' h (l ++ [n]).
Proof.
  intros [Hnd Hc] Hn0 Hn. unfold rt_slist_append.
  rewrite (tail_loop_run _ _ _ _ Hc)
    by (pose proof (slist_size _ _ _ (conj Hnd Hc)); lia).
  eexists. split; [reflexivity|].
  assert (Hnd' : NoDup (h :: l ++ [n])).
  { rewrite app_comm_cons. apply NoDup_app. split_and!; [done| |apply NoDup_singleton].
    by intros x Hx ->%list_elem_of_singleton. }
  split; [done|]. rewrite insert_insert_ne by (intros ->; apply Hn, last_elem).
  apply schain_link; [done|right; eauto| |].
  - exists []. rewrite app_nil_r. apply (schain_agree st); [|done].
    intros x Hx. rewrite lookup_insert_ne; [done|]. by intros ->.
  - intros r [= <-]. cbn. by rewrite lookup_insert_eq.
Qed.

Lemma slist_insert_run st h l n : slist st h l -> n <> 0 -> n ∉ h :: l ->
  exists st', rt_slist_insert st h n = Ok st' /\ slist st' h (n :: l).
Proof.
  intros [Hnd Hc] Hn0 Hn. unfold rt_slist_insert.
  destruct (schain_dom _ _ _ h Hc) as [x Hx]; [by left|].
  rewrite (snext_Ok _ _ _ Hx). eexists. split; [reflexivity|].
  apply NoDup_cons in Hnd as [Hh Hl]. apply not_elem_of_cons in Hn as [Hnh Hn].
  assert (Hnd' : NoDup (h :: [] ++ n :: l)).
  { cbn. rewrite !NoDup_cons, not_elem_of_cons. by split_and!. }
  split; [done|]. apply (schain_link _ h [] n (n :: l)); [done|right; eauto| |].
  - exists l. apply (schain_agree st); [|done]. intros y Hy.
    rewrite lookup_insert_ne; [done|]. intros <-. by apply elem_of_cons in Hy as [?|?].
  - intros r [= <-]. destruct l as [|z l]; cbn in Hc |- *; rewrite lookup_insert_eq.
    + by rewrite <- Hx.
    + destruct Hc as (Hz & Hz0 & Hc). rewrite Hz in Hx. injection Hx as <-.
      split_and!; try done. apply (schain_agree st); [|done].
      intros y Hy. rewrite lookup_insert_ne; [done|]. by intros <-.
Qed.

Lemma slist_remove_run st h l1 x l2 : slist st h (l1 ++ x :: l2) ->
  exists st', rt_slist_remove st h x = Ok st' /\ slist st' h (l1 ++ l2).
Proof.
  intros Hsl. pose proof (slist_size _ _ _ Hsl) as Hs. destruct Hsl as [Hnd Hc].
  rewrite length_app in Hs. cbn in Hs. unfold rt_slist_remove.
  rewrite <- Permutation_middle, Permutation_swap in Hnd. apply NoDup_cons in Hnd as [Hx Hnd].
  rewrite (find_loop_run st h l1 (x :: l2) x); [|done| |lia|done].
  2:{ intros H. apply Hx. right. apply elem_of_app. by left. }
  pose proof (schain_app _ _ _ _ _ Hc) as (E & Hx0 & Hc2).
  cbn [mbind result_bind]. rewrite (snext_Ok _ _ _ E). cbn [mbind result_bind].
  rewrite (proj2 (Z.eqb_neq _ _)) by done. destruct (schain_dom _ _ _ x Hc2) as [y Hy]; [by left|].
  rewrite (snext_Ok _ _ _ Hy). cbn [mbind result_bind].
  eexists. split; [reflexivity|]. split; [done|].
  apply schain_link; [done| |by exists (x :: l2)|].
  - destruct l2 as [|z l2]; cbn in Hc2; [left|right].
    + rewrite Hy in Hc2. by injection Hc2 as ->.
    + destruct Hc2 as (E2 & Hz & _). rewrite Hy in E2. injection E2 as ->. eauto.
  - intros r ->. cbn in Hc2. by destruct Hc2 as (_ & _ & ?).
Qed.

Lemma slist_remove_absent st h l n : slist st h l -> n ∉ l -> rt_slist_remove st h n = Ok st.
Proof.
  intros Hsl Hn. pose proof (slist_size _ _ _ Hsl) as Hs. destruct Hsl as [Hnd Hc].
  unfold rt_slist_remove.
  rewrite (find_loop_run st h l [] n) by (rewrite ?app_nil_r; done || lia).
  assert (E : next st (default h (last l)) = Ok 0).
  { apply snext_Ok. clear -Hc. revert h Hc; induction l as [|x l IH]; intros h Hc; [done|].
    destruct Hc as (_ & _ & Hc). rewrite end_cons. by apply IH. }
  cbn [mbind result_bind]. by rewrite E.
Qed.

End SListSpec.

Module ListThms.
Import DListSpec SListSpec.

Lemma circ_dom st h l x : circ st h l -> x ∈ h :: l -> is_Some (st !! x).
Proof.
  intros [_ H] Hx. apply list_elem_of_lookup in Hx as [i Hi].
  destruct (Forall2_lookup_l _ _ _ _ _ H Hi) as (q & _ & L).
  apply link_inv in L as (y & _ & E & _). by eexists.
Qed.

Lemma circ_size st h l : circ st h l -> (S (length l) <= size st)%nat.
Proof.
  intros H. apply (nodes_size st (h :: l)); [apply H|]. intros x. by apply circ_dom.
Qed.

Lemma len_loop_run st h p l c fuel :
  Forall2 (link st) (p :: l) (l ++ [h]) -> h ∉ l -> (length l < fuel)%nat ->
  DList.len_loop fuel st h p (u32 c) = Ok (u32 (c + zlen l)).
Proof.
  revert p c fuel; induction l as [|x l IH]; intros p c [|fuel] H Hh Hf;
    cbn [length app DList.len_loop] in *; try lia; inversion H as [|???? L H']; subst;
    apply link_inv in L as (y & _ & E & En & _); rewrite (node_Ok _ _ _ E); cbn [mbind result_bind];
    rewrite En.
  - rewrite Z.eqb_refl. cbn. by rewrite Z.add_0_r.
  - apply not_elem_of_cons in Hh as [Hx Hh].
    rewrite (proj2 (Z.eqb_neq _ _)) by done.
    replace (u32 (u32 c + 1)) with (u32 (c + 1)) by (unfold u32; dlia).
    rewrite IH by (done || lia). unfold zlen. cbn [length]. do 2 f_equal. lia.
Qed.

(** inserting a node after the end of [l1], or before the start of [l2],
    puts it exactly between the two parts of the circular list, and no node
    outside the list and the new one is written. *)
Theorem rt_list_insert_refines st h l1 l2 n :
  circ st h (l1 ++ l2) -> n ∉ h :: l1 ++ l2 -> is_Some (st !! n) ->
  (exists st', DList.rt_list_insert_after st (default h (last l1)) n = Ok st' /\
    circ st' h (l1 ++ n :: l2) /\ unchanged st st' (n :: h :: l1 ++ l2)) /\
  (exists st', DList.rt_list_insert_before st (default h (head l2)) n = Ok st' /\
    circ st' h (l1 ++ n :: l2) /\ unchanged st st' (n :: h :: l1 ++ l2)).
Proof.
  intros H Hn [xn En]. pose proof (circ_link_between _ _ _ _ H) as L.
  assert (default h (last l1) <> n /\ default h (head l2) <> n) as [Hp Hq].
  { split; intros <-; apply Hn.
    - rewrite app_comm_cons, elem_of_app. left. apply last_elem.
    - destruct l2; [by left|]. right. apply elem_of_app. right. by left. }
  destruct (insert_after_run _ _ _ _ _ L Hp Hq En) as (s1 & E1 & I1).
  destruct (insert_before_run _ _ _ _ _ L Hp Hq En) as (s2 & E2 & I2).
  split; [exists s1|exists s2]; (split; [done|]); by apply circ_inserted.
Qed.

Definition demo_store : DList.store :=
  DList.rt_list_init (DList.rt_list_init (DList.rt_list_init ∅ 100) 200) 300.

Lemma demo_circ : circ demo_store 100 [].
Proof. split; [apply NoDup_singleton|]. by repeat constructor. Qed.

Lemma rt_list_insert_refines_witness : exists st1 st2,
  DList.rt_list_insert_before demo_store 100 200 = Ok st1 /\
  DList.rt_list_insert_before st1 100 300 = Ok st2 /\ circ st2 100 [200; 300].
Proof.
  destruct (rt_list_insert_refines demo_store 100 [] [] 200 demo_circ) as [_ (s1 & E1 & C1 & U1)];
    [not_in|by eexists|].
  destruct (rt_list_insert_refines s1 100 [200] [] 300 C1) as [_ (s2 & E2 & C2 & _)];
    [not_in|rewrite U1 by not_in; by eexists|].
  by exists s1, s2.
Defined.

(** removing a node of a circular list takes exactly it out and leaves it
    linked to itself, so that removing it again changes nothing; no node
    outside the list is written. *)
Theorem rt_list_remove_refines st h l1 n l2 :
  circ st h (l1 ++ n :: l2) ->
  exists st', DList.rt_list_remove st n = Ok st' /\
    circ st' h (l1 ++ l2) /\ circ st' n [] /\ unchanged st st' (n :: h :: l1 ++ l2) /\
    DList.rt_list_remove st' n = Ok st'.
Proof.
  intros H. destruct (circ_links _ _ _ _ _ H) as (L1 & L2 & Hp & Hq).
  destruct (remove_run _ _ _ _ L1 L2 Hp Hq) as (st' & E & R).
  destruct (circ_removed _ _ _ _ _ _ H R) as (C1 & C2 & U).
  exists st'. split_and!; try done. destruct R as (_ & En & _).
  unfold DList.rt_list_remove. rewrite (node_Ok _ _ _ En). cbn [mbind result_bind DList.next DList.prev].
  do 3 (erewrite store_prev_Ok || erewrite node_Ok || erewrite store_next_Ok;
        [|first [exact En|apply lookup_insert_eq]]; cbn [mbind result_bind DList.next DList.prev]).
  repeat (erewrite store_prev_Ok || erewrite store_next_Ok; [|apply lookup_insert_eq];
          cbn [mbind result_bind DList.next DList.prev]).
  by rewrite !insert_insert_eq, insert_id.
Qed.

Lemma rt_list_remove_refines_witness : exists st1 st2,
  DList.rt_list_insert_before demo_store 100 200 = Ok st1 /\
  DList.rt_list_remove st1 200 = Ok st2 /\ circ st2 100 [].
Proof.
  destruct (insert_before_run demo_store 100 200 100 (DList.mk_node 200 200))
    as (s1 & E1 & I1); [by split|done|done|done|].
  destruct (circ_inserted demo_store s1 100 [] [] 200 demo_circ) as (C1 & _);
    [not_in|done|].
  destruct (rt_list_remove_refines s1 100 [] 200 [] C1) as (s2 & E2 & C2 & _).
  by exists s1, s2.
Defined.

(** [rt_list_len] terminates on every circular list and counts its nodes
    (modulo 2^32), and [rt_list_isempty] says whether there is none. *)
Theorem rt_list_len_counts st h l :
  circ st h l ->
  DList.rt_list_len st h = Ok (u32 (zlen l)) /\
  DList.rt_list_isempty st h = Ok (bool_decide (l = [])).
Proof.
  intros H. pose proof (circ_size _ _ _ H) as Hs. destruct H as [Hn H].
  apply NoDup_cons in Hn as [Hh Hn]. split.
  - unfold DList.rt_list_len. change 0 with (u32 0) at 1.
    rewrite (len_loop_run st h h l 0) by (done || lia). by rewrite Z.add_0_l.
  - unfold DList.rt_list_isempty. destruct l as [|x l]; inversion H as [|???? L H']; subst;
      apply link_inv in L as (y & _ & E & En & _); rewrite (node_Ok _ _ _ E); cbn [mbind result_bind];
      rewrite En.
    + by rewrite Z.eqb_refl.
    + apply not_elem_of_cons in Hh as [Hx _]. by rewrite (proj2 (Z.eqb_neq _ _)) by done.
Qed.

Lemma rt_list_len_counts_witness : DList.rt_list_len demo_store 100 = Ok 0.
Proof. exact (proj1 (rt_list_len_counts demo_store 100 [] demo_circ)). Defined.

(** on singly linked lists, append adds a node at the end, insert at the
    front, remove takes out exactly the node it names and does nothing when
    the node is not there; all loops terminate. *)
Theorem rt_slist_refines st h l n :
  slist st h l -> n <> 0 -> n ∉ h :: l ->
  (exists st', SList.rt_slist_append st h n = Ok st' /\ slist st' h (l ++ [n])) /\
  (exists st', SList.rt_slist_insert st h n = Ok st' /\ slist st' h (n :: l)) /\
  SList.rt_slist_remove st h n = Ok st /\
  (forall l1 x l2, l = l1 ++ x :: l2 ->
     exists st', SList.rt_slist_remove st h x = Ok st' /\ slist st' h (l1 ++ l2)) /\
  SList.rt_slist_len st h = Ok (u32 (zlen l)).
Proof.
  intros Hsl Hn0 Hn. pose proof (slist_size _ _ _ Hsl) as Hs.
  split_and!; [by apply slist_append_run|by apply slist_insert_run| | |].
  - apply (slist_remove_absent st h l); [done|]. intros H. apply Hn. by right.
  - intros l1 x l2 ->. by apply slist_remove_run.
  - destruct Hsl as [_ Hc]. unfold SList.rt_slist_len.
    destruct (schain_dom _ _ _ h Hc) as [x Hx]; [by left|].
    rewrite (SListSpec.snext_Ok _ _ _ Hx). cbn [mbind result_bind]. change 0 with (u32 0) at 1.
    rewrite (slen_loop_run st h l 0) by (done || lia). by rewrite Z.add_0_l.
Qed.

Lemma rt_slist_refines_witness : exists st',
  SList.rt_slist_append (SList.rt_slist_init ∅ 100) 100 200 = Ok st' /\ slist st' 100 [200].
Proof.
  apply (rt_slist_refines (SList.rt_slist_init ∅ 100) 100 [] 200); [|done|not_in].
  split; [apply NoDup_singleton|done].
Defined.

End ListThms.
