(* ===== verification/Timer.v ===== *)
(** * Timers (rt-thread/src/timer.c and the tick of src/clock.c)

    [TimerOps] is the code, over any kernel state [K] that holds a timer state
    (class [HasTimers]); [TimerSpec] gives the order of timeouts on the
    wrapping tick counter; [TimerThms] holds the properties.

    [RT_TIMER_SKIP_LIST_LEVEL] is 1 (rtdef.h), so that a timer list is one
    circular list, kept here as the list of the timers' names in order (see
    RtList for the pointers). *)
From S2P Require Import Prelude CTypes.
From stdpp Require Import base list gmap sorting.
From Stdlib Require Import ZArith Lia.
Open Scope Z_scope.

Module TimerOps.

Definition RT_TIMER_FLAG_ACTIVATED : Z := 1.
Definition RT_TIMER_FLAG_PERIODIC : Z := 2.
Definition RT_TIMER_FLAG_SOFT_TIMER : Z := 4.
Definition RT_TIMER_CTRL_SET_TIME : Z := 0.
Definition RT_TIMER_CTRL_GET_TIME : Z := 1.
Definition RT_TIMER_CTRL_SET_ONESHOT : Z := 2.
Definition RT_TIMER_CTRL_SET_PERIODIC : Z := 3.

(** [RT_TICK_MAX / 2]. *)
Definition TICK_HALF : Z := RT_TICK_MAX / 2.

(** [struct rt_timer], less its list node. *)
Record rt_timer : Type := mk_timer {
  flag : Z;
  timeout_func : Z;
  parameter : Z;
  init_tick : Z;
  timeout_tick : Z
}.

(** The static variables of timer.c and [rt_tick] of clock.c.  A timer that
    is in no list has its node linked to itself.  [timers] holds the objects
    of class Timer. *)
Record tstate : Type := mk_tstate {
  timers : gmap Z rt_timer;
  rt_timer_list : list Z;
  rt_soft_timer_list : list Z;
  rt_tick : Z;
  random_nr : Z
}.

Definition with_objs (s : tstate) (m : gmap Z rt_timer) : tstate :=
  mk_tstate m (rt_timer_list s) (rt_soft_timer_list s) (rt_tick s) (random_nr s).
Definition with_lists (s : tstate) (l k : list Z) : tstate :=
  mk_tstate (timers s) l k (rt_tick s) (random_nr s).
Definition with_tick (s : tstate) (x : Z) : tstate :=
  mk_tstate (timers s) (rt_timer_list s) (rt_soft_timer_list s) x (random_nr s).
Definition with_random (s : tstate) (x : Z) : tstate :=
  mk_tstate (timers s) (rt_timer_list s) (rt_soft_timer_list s) (rt_tick s) x.

Definition with_flag (t : rt_timer) (f : Z) : rt_timer :=
  mk_timer f (timeout_func t) (parameter t) (init_tick t) (timeout_tick t).
Definition with_init (t : rt_timer) (x : Z) : rt_timer :=
  mk_timer (flag t) (timeout_func t) (parameter t) x (timeout_tick t).
Definition with_timeout (t : rt_timer) (x : Z) : rt_timer :=
  mk_timer (flag t) (timeout_func t) (parameter t) (init_tick t) x.

(** [flag & bit], [flag |= bit] and [flag &= ~bit] on a byte. *)
Definition has (f b : Z) : bool := negb (Z.land f b =? 0).
Definition set_bit (f b : Z) : Z := Z.lor f b.
Definition clr_bit (f b : Z) : Z := Z.land f (u8 (Z.lnot b)).

(** [RT_ASSERT (rt_object_get_type (timer) == RT_Object_Class_Timer)]. *)
Definition timer_obj (s : tstate) (t : Z) : result rt_timer :=
  match timers s !! t with Some x => Ok x | None => Err F_assert end.

Definition put_timer (s : tstate) (t : Z) (x : rt_timer) : tstate :=
  with_objs s (<[t := x]> (timers s)).

Definition _rt_timer_init (timeout param time fl : Z) : rt_timer :=
  mk_timer (clr_bit (u8 fl) RT_TIMER_FLAG_ACTIVATED) timeout param time 0.

Definition rt_timer_init (s : tstate) (t timeout param time fl : Z) : tstate :=
  put_timer s t (_rt_timer_init timeout param time fl).

Definition rt_timer_list_next_timeout (s : tstate) (timer_list : list Z) : result Z :=
  match timer_list with
  | [] => Ok RT_TICK_MAX
  | x :: _ => t ← deref (timers s !! x); Ok (timeout_tick t)
  end.

Definition _rt_timer_remove (s : tstate) (t : Z) : tstate :=
  with_lists s (filter (.≠ t) (rt_timer_list s)) (filter (.≠ t) (rt_soft_timer_list s)).

Definition rt_timer_detach (s : tstate) (t : Z) : result tstate :=
  _ ← timer_obj s t;
  let s := _rt_timer_remove s t in
  Ok (with_objs s (delete t (timers s))).

(** The walk to [row_head] and the insertion after it, for a timer [t] that
    is due at [timeout]. *)
Fixpoint row_insert (m : gmap Z rt_timer) (t timeout : Z) (l : list Z) : result (list Z) :=
  match l with
  | [] => Ok [t]
  | p :: l' =>
      x ← deref (m !! p);
      let d := u32 (timeout_tick x - timeout) in
      if d =? 0 then r ← row_insert m t timeout l'; Ok (p :: r)
      else if d <? TICK_HALF then Ok (t :: p :: l')
      else r ← row_insert m t timeout l'; Ok (p :: r)
  end.

(** [rt_timer_start] up to the last [rt_hw_interrupt_enable]. *)
Definition timer_start (s : tstate) (t : Z) : result tstate :=
  x ← timer_obj s t;
  let s := _rt_timer_remove s t in
  let x := with_flag x (clr_bit (flag x) RT_TIMER_FLAG_ACTIVATED) in
  _ ← rt_assert (init_tick x <? TICK_HALF);
  let x := with_timeout x (u32 (rt_tick s + init_tick x)) in
  let s := put_timer s t x in
  s ← (if has (flag x) RT_TIMER_FLAG_SOFT_TIMER
       then l ← row_insert (timers s) t (timeout_tick x) (rt_soft_timer_list s);
            Ok (with_lists s (rt_timer_list s) l)
       else l ← row_insert (timers s) t (timeout_tick x) (rt_timer_list s);
            Ok (with_lists s l (rt_soft_timer_list s)));
  let s := with_random s (u32 (random_nr s + 1)) in
  Ok (put_timer s t (with_flag x (set_bit (flag x) RT_TIMER_FLAG_ACTIVATED))).

(** The status code and the new state. *)
Definition rt_timer_stop (s : tstate) (t : Z) : result (tstate * Z) :=
  x ← timer_obj s t;
  if negb (has (flag x) RT_TIMER_FLAG_ACTIVATED) then Ok (s, - RT_ERROR)
  else
    let s := _rt_timer_remove s t in
    Ok (put_timer s t (with_flag x (clr_bit (flag x) RT_TIMER_FLAG_ACTIVATED)), RT_EOK).

(** [arg] is the word the argument points to; the new one is returned. *)
Definition rt_timer_control (s : tstate) (t cmd arg : Z) : result (tstate * Z) :=
  x ← timer_obj s t;
  if cmd =? RT_TIMER_CTRL_GET_TIME then Ok (s, init_tick x)
  else if cmd =? RT_TIMER_CTRL_SET_TIME then Ok (put_timer s t (with_init x arg), arg)
  else if cmd =? RT_TIMER_CTRL_SET_ONESHOT
  then Ok (put_timer s t (with_flag x (clr_bit (flag x) RT_TIMER_FLAG_PERIODIC)), arg)
  else if cmd =? RT_TIMER_CTRL_SET_PERIODIC
  then Ok (put_timer s t (with_flag x (set_bit (flag x) RT_TIMER_FLAG_PERIODIC)), arg)
  else Ok (s, arg).

Definition rt_timer_next_timeout_tick (s : tstate) : result Z :=
  rt_timer_list_next_timeout s (rt_timer_list s).

Definition rt_system_timer_init (s : tstate) : tstate := with_lists s [] (rt_soft_timer_list s).

Definition rt_tick_get (s : tstate) : Z := rt_tick s.
Definition rt_tick_set (s : tstate) (x : Z) : tstate := with_tick s x.

Definition RT_TICK_PER_SECOND : Z := 1000.
Definition rt_tick_from_millisecond (ms : Z) : Z :=
  if ms <? 0 then u32 (-1)
  else
    let tick := u32 (RT_TICK_PER_SECOND * (ms / 1000)) in
    u32 (tick + (RT_TICK_PER_SECOND * (ms mod 1000) + 999) / 1000).

(** What timers need of the state around them: the timer state in it, the way
    the timer thread is woken ([rt_thread_resume] and [rt_schedule], when its
    status is suspended), and the scheduler lock ([rt_enter_critical] and
    [rt_exit_critical]), which leaves the timers alone. *)
Class HasTimers (K : Type) : Type := {
  get_timers : K -> tstate;
  set_timers : K -> tstate -> K;
  wake_timer_thread : K -> result K;
  enter_critical : K -> K;
  exit_critical : K -> result K;
  get_set_timers : forall k s, get_timers (set_timers k s) = s;
  set_set_timers : forall k s s', set_timers (set_timers k s) s' = set_timers k s';
  enter_timers : forall k, get_timers (enter_critical k) = get_timers k;
  exit_timers : forall k k', exit_critical k = Ok k' -> get_timers k' = get_timers k
}.

Section Check.
Context {K : Type} `{HasTimers K}.
(** [timeout_func (parameter)]: the functions that users give are not part
    of the program; they run on the whole state.  Those of soft timers run in
    a thread with the scheduler unlocked: [call] is then all that happens up to
    their return, the ticks and the other threads included. *)
Variable call : Z -> Z -> K -> result K.

Definition rt_timer_start (k : K) (t : Z) : result K :=
  s ← timer_start (get_timers k) t;
  let k := set_timers k s in
  x ← timer_obj s t;
  if has (flag x) RT_TIMER_FLAG_SOFT_TIMER then wake_timer_thread k else Ok k.

(** Lines after the timeout function: restart a periodic timer, stop others. *)
Definition after_timeout (k : K) (t : Z) : result K :=
  let s := get_timers k in
  x ← deref (timers s !! t);
  let x' := with_flag x (clr_bit (flag x) RT_TIMER_FLAG_ACTIVATED) in
  let k' := set_timers k (put_timer s t x') in
  if has (flag x) RT_TIMER_FLAG_PERIODIC && has (flag x) RT_TIMER_FLAG_ACTIVATED
  then rt_timer_start k' t else Ok k'.

(** The loop of [rt_timer_check]: fuel bounds the timeouts it handles. *)
Fixpoint check_loop (fuel : nat) (k : K) (current_tick : Z) : result K :=
  match fuel with
  | O => Err F_fuel
  | S n =>
      let s := get_timers k in
      match rt_timer_list s with
      | [] => Ok k
      | t :: _ =>
          x ← deref (timers s !! t);
          if u32 (current_tick - timeout_tick x) <? TICK_HALF then
            let k := set_timers k (_rt_timer_remove s t) in
            k ← call (timeout_func x) (parameter x) k;
            let current_tick := rt_tick_get (get_timers k) in
            k ← after_timeout k t;
            check_loop n k current_tick
          else Ok k
      end
  end.

Definition rt_timer_check (fuel : nat) (k : K) : result K :=
  check_loop fuel k (rt_tick_get (get_timers k)).

(** [n->next] of a node of the soft list; [None] is the list head.  A node
    that is in no list is its own successor. *)
Fixpoint next_in (l : list Z) (n : Z) : option Z :=
  match l with
  | [] => Some n
  | x :: l' => if x =? n then head l' else next_in l' n
  end.

(** The loop of [rt_soft_timer_check] with the scheduler locked; [n] is the
    cursor. *)
Fixpoint soft_loop (fuel : nat) (k : K) (current_tick : Z) (n : option Z) : result K :=
  match fuel, n with
  | O, _ => Err F_fuel
  | S _, None => exit_critical k
  | S f, Some t =>
      let s := get_timers k in
      x ← deref (timers s !! t);
      if u32 (current_tick - timeout_tick x) <? TICK_HALF then
        let n := next_in (rt_soft_timer_list s) t in
        let k := set_timers k (_rt_timer_remove s t) in
        k ← exit_critical k;
        k ← call (timeout_func x) (parameter x) k;
        let current_tick := rt_tick_get (get_timers k) in
        k ← after_timeout (enter_critical k) t;
        soft_loop f k current_tick n
      else exit_critical k
  end.

Definition rt_soft_timer_check (fuel : nat) (k : K) : result K :=
  let current_tick := rt_tick_get (get_timers k) in
  let k := enter_critical k in
  soft_loop fuel k current_tick (head (rt_soft_timer_list (get_timers k))).

(** What the timer thread does before [rt_soft_timer_check] in one turn of its
    loop: suspend itself, sleep for some ticks, or neither. *)
Inductive timer_wait : Type := W_suspend | W_delay (ticks : Z) | W_none.

Definition rt_thread_timer_entry (s : tstate) : result timer_wait :=
  next_timeout ← rt_timer_list_next_timeout s (rt_soft_timer_list s);
  if next_timeout =? RT_TICK_MAX then Ok W_suspend
  else
    let d := u32 (next_timeout - rt_tick_get s) in
    if d <? TICK_HALF then Ok (W_delay d) else Ok W_none.

End Check.

End TimerOps.

(** ** Timeouts on the wrapping counter

    Ticks are compared through their distance from a base tick [b]; the code's
    comparisons are right as long as all of them lie within [TICK_HALF] ticks
    after [b]. *)
Module TimerSpec.
Import TimerOps.

Definition in_window (b x : Z) : Prop := u32 (x - b) < TICK_HALF.

(** Distance of the timeout of timer [p] from [b]. *)
Definition key (m : gmap Z rt_timer) (b p : Z) : Z :=
  match m !! p with Some x => u32 (timeout_tick x - b) | None => 0 end.

(** Insertion before the first timer that is due later. *)
Fixpoint insert_by (f : Z -> Z) (t : Z) (l : list Z) : list Z :=
  match l with
  | [] => [t]
  | p :: l' => if f p <=? f t then p :: insert_by f t l' else t :: p :: l'
  end.

Definition by_key (f : Z -> Z) (p q : Z) : Prop := f p <= f q.

Definition sorted_by (f : Z -> Z) (l : list Z) : Prop := StronglySorted (by_key f) l.

Lemma tick_half : TICK_HALF = 2147483647.
Proof. reflexivity. Qed.

Lemma window_compare b x y : in_window b x -> in_window b y ->
  (if u32 (x - y) =? 0 then true else if u32 (x - y) <? TICK_HALF then false else true) =
  (u32 (x - b) <=? u32 (y - b)).
Proof.
  unfold in_window. rewrite tick_half. unfold u32. intros Hx Hy.
  destruct (Z.leb_spec ((x - b) mod 4294967296) ((y - b) mod 4294967296));
    repeat case_bool; try done; exfalso; dlia.
Qed.

Lemma row_insert_spec m b t l :
  (forall p, p ∈ l -> exists y, m !! p = Some y /\ in_window b (timeout_tick y)) ->
  forall x, m !! t = Some x -> in_window b (timeout_tick x) ->
  row_insert m t (timeout_tick x) l = Ok (insert_by (key m b) t l).
Proof.
  intros Hl x Ht Hx. induction l as [|p l IH]; [done|].
  destruct (Hl p) as (y & Ey & Hy); [by left|].
  cbn [row_insert insert_by]. rewrite Ey. cbn [deref mbind result_bind].
  rewrite IH by (intros q Hq; apply Hl; by right).
  replace (key m b p) with (u32 (timeout_tick y - b)) by (unfold key; by rewrite Ey).
  replace (key m b t) with (u32 (timeout_tick x - b)) by (unfold key; by rewrite Ht).
  rewrite <- (window_compare b (timeout_tick y) (timeout_tick x)) by done.
  destruct (u32 (timeout_tick y - timeout_tick x) =? 0); [done|].
  by destruct (_ <? TICK_HALF).
Qed.

(** Where the insertion puts [t]: after everything due no later. *)
Lemma insert_by_split f t l : sorted_by f l ->
  exists l1 l2, l = l1 ++ l2 /\ insert_by f t l = l1 ++ t :: l2 /\
    Forall (fun p => f p <= f t) l1 /\ Forall (fun p => f t < f p) l2.
Proof.
  induction 1 as [|p l Hs (l1 & l2 & -> & E & H1 & H2) Hp]; [by exists [], []|].
  cbn. destruct (Z.leb_spec (f p) (f t)) as [Hle|Hgt].
  - exists (p :: l1), l2. rewrite E. split_and!; try done. by constructor.
  - exists [], (p :: l1 ++ l2). split_and!; try done.
    constructor; [done|]. eapply Forall_impl; [exact Hp|]. unfold by_key. cbn. lia.
Qed.

Lemma insert_by_sorted f t l : sorted_by f l -> sorted_by f (insert_by f t l).
Proof.
  intros Hs. induction Hs as [|p l Hs IH Hp]; cbn; [repeat constructor|].
  destruct (Z.leb_spec (f p) (f t)) as [Hle|Hgt].
  - constructor; [done|].
    assert (H : Forall (by_key f p) (t :: l)) by (by constructor).
    assert (E : insert_by f t l ≡ₚ t :: l).
    { clear. induction l as [|q l IH]; cbn; [done|]. destruct (_ <=? _); [|done].
      by rewrite IH, Permutation_swap. }
    by rewrite E.
  - constructor; [by constructor|]. constructor; [unfold by_key; lia|].
    eapply Forall_impl; [exact Hp|]. unfold by_key. cbn. lia.
Qed.

Lemma insert_by_perm f t l : insert_by f t l ≡ₚ t :: l.
Proof.
  induction l as [|q l IH]; cbn; [done|]. destruct (_ <=? _); [|done].
  by rewrite IH, Permutation_swap.
Qed.

(** Timers due no later than [t] stay in front of it. *)
Lemma insert_by_app f t l1 l2 : Forall (fun p => f p <= f t) l1 ->
  insert_by f t (l1 ++ l2) = l1 ++ insert_by f t l2.
Proof.
  induction 1 as [|p l1 Hp _ IH]; cbn; [done|]. by rewrite (proj2 (Z.leb_le _ _)), IH.
Qed.

Lemma insert_by_ext f g t l : (forall p, p ∈ t :: l -> f p = g p) ->
  insert_by f t l = insert_by g t l.
Proof.
  intros E. induction l as [|p l IH]; [done|]. cbn.
  rewrite (E p), (E t), IH; [done| |by left|by right; left].
  intros q Hq. apply E. apply elem_of_cons in Hq as [->|Hq]; [by left|by right; right].
Qed.

Lemma sorted_by_ext f g l : (forall p, p ∈ l -> f p = g p) -> sorted_by f l -> sorted_by g l.
Proof.
  intros E H. induction H as [|p l Hs IH Hp]; [constructor|].
  constructor; [apply IH; intros q Hq; apply E; by right|].
  rewrite Forall_forall in Hp |- *. intros q Hq. unfold by_key.
  rewrite <- !E by (by left || by right). by apply Hp.
Qed.

(** *** Flag bits *)

Lemma has_clr_other f :
  has (clr_bit f RT_TIMER_FLAG_ACTIVATED) RT_TIMER_FLAG_PERIODIC = has f RT_TIMER_FLAG_PERIODIC /\
  has (clr_bit f RT_TIMER_FLAG_ACTIVATED) RT_TIMER_FLAG_SOFT_TIMER = has f RT_TIMER_FLAG_SOFT_TIMER.
Proof. unfold has, clr_bit. rewrite <- !Z.land_assoc. done. Qed.
Lemma has_clr_same f : has (clr_bit f RT_TIMER_FLAG_ACTIVATED) RT_TIMER_FLAG_ACTIVATED = false.
Proof.
  unfold has, clr_bit. rewrite <- !Z.land_assoc.
  change (Z.land (u8 _) _) with 0. by rewrite Z.land_0_r.
Qed.
Lemma has_set_other f :
  has (set_bit f RT_TIMER_FLAG_ACTIVATED) RT_TIMER_FLAG_PERIODIC = has f RT_TIMER_FLAG_PERIODIC /\
  has (set_bit f RT_TIMER_FLAG_ACTIVATED) RT_TIMER_FLAG_SOFT_TIMER = has f RT_TIMER_FLAG_SOFT_TIMER.
Proof.
  unfold has, set_bit. rewrite !Z.land_lor_distr_l.
  change (Z.land RT_TIMER_FLAG_ACTIVATED _) with 0.
  by rewrite !Z.lor_0_r.
Qed.
Lemma has_set_same f : has (set_bit f RT_TIMER_FLAG_ACTIVATED) RT_TIMER_FLAG_ACTIVATED = true.
Proof.
  unfold has, set_bit. rewrite Z.land_lor_distr_l. change (Z.land RT_TIMER_FLAG_ACTIVATED _) with 1.
  apply negb_true_iff, Z.eqb_neq. intros E. apply Z.lor_eq_0_iff in E as [_ E]. done.
Qed.

End TimerSpec.

Module TimerThms.
Import TimerOps TimerSpec.

(** The list a timer with flag [f] goes to. *)
Definition list_of (f : Z) (s : tstate) : list Z :=
  if has f RT_TIMER_FLAG_SOFT_TIMER then rt_soft_timer_list s else rt_timer_list s.

(** The other timers of a list, all of them in the window after [b]. *)
Definition others_ok (s : tstate) (b t : Z) (l : list Z) : Prop :=
  sorted_by (key (timers s) b) (filter (.≠ t) l) /\
  forall p, p ∈ l -> p <> t ->
    exists y, timers s !! p = Some y /\ in_window b (timeout_tick y).

(** The timer once it is started at tick [now]. *)
Definition armed (now : Z) (x : rt_timer) : rt_timer :=
  with_flag (with_timeout x (u32 (now + init_tick x)))
    (set_bit (clr_bit (flag x) RT_TIMER_FLAG_ACTIVATED) RT_TIMER_FLAG_ACTIVATED).

Lemma key_insert_ne m b t x p : p <> t -> key (<[t := x]> m) b p = key m b p.
Proof. intros Hp. unfold key. by rewrite lookup_insert_ne. Qed.

Lemma key_insert m b t x : key (<[t := x]> m) b t = u32 (timeout_tick x - b).
Proof. unfold key. by rewrite lookup_insert_eq. Qed.

Lemma elem_of_others t p (l : list Z) : p ∈ filter (.≠ t) l <-> p <> t /\ p ∈ l.
Proof. by rewrite list_elem_of_filter. Qed.

(** The state of [timer_start], as an insertion by distance from [b]. *)
Lemma timer_start_run s b t x :
  timers s !! t = Some x -> init_tick x < TICK_HALF ->
  in_window b (u32 (rt_tick s + init_tick x)) ->
  others_ok s b t (list_of (flag x) s) ->
  let m := <[t := armed (rt_tick s) x]> (timers s) in
  let soft := has (flag x) RT_TIMER_FLAG_SOFT_TIMER in
  let ins l := insert_by (key m b) t (filter (.≠ t) l) in
  timer_start s t = Ok (mk_tstate m
    ((if soft then filter (.≠ t) else ins) (rt_timer_list s))
    ((if soft then ins else filter (.≠ t)) (rt_soft_timer_list s))
    (rt_tick s) (u32 (random_nr s + 1))).
Proof.
  intros Et Hi Hw [Hs Ho] m soft ins. subst ins. unfold timer_start, timer_obj. rewrite Et.
  cbn [mbind result_bind init_tick with_flag].
  rewrite (proj2 (Z.ltb_lt _ _)) by done. cbn [rt_assert mbind result_bind].
  cbn [flag with_timeout with_flag timeout_tick].
  rewrite (proj2 (has_clr_other (flag x))). fold soft.
  change (rt_tick (_rt_timer_remove s t)) with (rt_tick s).
  set (x1 := with_timeout _ _).
  assert (Hk : forall p, key (<[t := x1]> (timers s)) b p = key m b p).
  { intros p. unfold m. destruct (decide (p = t)) as [->|Hp].
    - by rewrite !key_insert.
    - by rewrite !key_insert_ne. }
  assert (Hr : forall l, list_of (flag x) s = l ->
    row_insert (<[t := x1]> (timers s)) t (timeout_tick x1) (filter (.≠ t) l) =
    Ok (insert_by (key m b) t (filter (.≠ t) l))).
  { intros l <-. rewrite (row_insert_spec _ b t); [|..|exact Hw].
    - f_equal. apply insert_by_ext. intros p _. apply Hk.
    - intros p [Hp Hl]%elem_of_others. destruct (Ho p Hl Hp) as (y & Ey & Hy).
      exists y. by rewrite lookup_insert_ne.
    - by rewrite lookup_insert_eq. }
  unfold list_of in Hr. fold soft in Hr.
  change (timeout_tick x1) with (u32 (rt_tick s + init_tick x)) in Hr.
  destruct soft; cbn [timers put_timer with_objs rt_soft_timer_list rt_timer_list
    _rt_timer_remove with_lists]; rewrite (Hr _ eq_refl);
    unfold put_timer, with_objs, with_random, with_lists; cbn;
    by rewrite insert_insert_eq.
Qed.

(** C13: starting a timer takes it out of its list and puts it back behind
    every timer that is due no later and before every timer due later, also
    across the wrap of the tick counter, as long as the timeouts lie within
    [RT_TICK_MAX / 2] ticks of each other: the list stays sorted and timers
    with equal timeouts keep the order they were started in.  No other timer
    changes. *)
Theorem rt_timer_start_sorts s b t x :
  timers s !! t = Some x -> init_tick x < TICK_HALF ->
  in_window b (u32 (rt_tick s + init_tick x)) ->
  others_ok s b t (list_of (flag x) s) ->
  exists s' l1 l2,
    timer_start s t = Ok s' /\
    timers s' = <[t := armed (rt_tick s) x]> (timers s) /\
    filter (.≠ t) (list_of (flag x) s) = l1 ++ l2 /\
    list_of (flag x) s' = l1 ++ t :: l2 /\
    sorted_by (key (timers s') b) (list_of (flag x) s') /\
    Forall (fun p => key (timers s') b p <= key (timers s') b t) l1 /\
    Forall (fun p => key (timers s') b t < key (timers s') b p) l2.
Proof.
  intros Et Hi Hw Ho. rewrite (timer_start_run s b t x) by done.
  set (m := <[t := _]> (timers s)). destruct Ho as [Hs _].
  assert (Hs' : sorted_by (key m b) (filter (.≠ t) (list_of (flag x) s))).
  { eapply sorted_by_ext; [|exact Hs]. intros p [Hp _]%elem_of_others.
    symmetry. by apply key_insert_ne. }
  destruct (insert_by_split _ t _ Hs') as (l1 & l2 & E & Ei & H1 & H2).
  eexists _, l1, l2. split; [reflexivity|]. cbn [timers].
  assert (El : list_of (flag x) (mk_tstate m
      ((if has (flag x) RT_TIMER_FLAG_SOFT_TIMER then filter (.≠ t)
        else fun l => insert_by (key m b) t (filter (.≠ t) l)) (rt_timer_list s))
      ((if has (flag x) RT_TIMER_FLAG_SOFT_TIMER
        then fun l => insert_by (key m b) t (filter (.≠ t) l) else filter (.≠ t))
        (rt_soft_timer_list s)) (rt_tick s) (u32 (random_nr s + 1))) = l1 ++ t :: l2).
  { rewrite <- Ei. unfold list_of. by destruct (has _ _). }
  rewrite El. split_and!; try done. rewrite <- Ei. by apply insert_by_sorted.
Qed.

(** Two timers close to the wrap of the counter: 1 is pending, 2 is not. *)
Definition demo : tstate :=
  mk_tstate (<[1 := mk_timer 1 11 0 5 4294967295]> (<[2 := mk_timer 2 12 0 10 0]> ∅))
    [1] [] 4294967290 0.

Lemma demo_others : others_ok demo 4294967290 2 (list_of 2 demo).
Proof.
  split; [by repeat constructor|]. intros p ->%list_elem_of_singleton _.
  eexists. split; [reflexivity|]. by vm_compute.
Qed.

Lemma rt_timer_start_sorts_witness : exists s',
  timer_start demo 2 = Ok s' /\ rt_timer_list s' = [1; 2] /\
  timers s' !! 2 = Some (mk_timer 3 12 0 10 4).
Proof.
  destruct (rt_timer_start_sorts demo 4294967290 2 (mk_timer 2 12 0 10 0))
    as (s' & l1 & l2 & E & Em & _); [reflexivity|by vm_compute|by vm_compute|exact demo_others|].
  exists s'. split; [exact E|]. vm_compute in E. injection E as <-. by split.
Defined.

(** stopping a timer that was started out of no list restores both lists,
    and a second stop is refused and changes nothing. *)
Theorem rt_timer_stop_undoes_start s b t x s1 :
  timers s !! t = Some x -> init_tick x < TICK_HALF ->
  in_window b (u32 (rt_tick s + init_tick x)) ->
  others_ok s b t (list_of (flag x) s) ->
  t ∉ rt_timer_list s -> t ∉ rt_soft_timer_list s ->
  timer_start s t = Ok s1 ->
  exists s2, rt_timer_stop s1 t = Ok (s2, RT_EOK) /\
    rt_timer_list s2 = rt_timer_list s /\
    rt_soft_timer_list s2 = rt_soft_timer_list s /\
    rt_timer_stop s2 t = Ok (s2, - RT_ERROR).
Proof.
  intros Et Hi Hw Ho Hh Hs E. rewrite (timer_start_run s b t x) in E by done.
  injection E as <-. unfold rt_timer_stop at 1, timer_obj. cbn [timers].
  rewrite lookup_insert_eq. cbn [mbind result_bind flag armed with_flag].
  rewrite has_set_same. cbn [negb].
  eexists. split; [reflexivity|].
  cbn [rt_timer_list rt_soft_timer_list put_timer with_objs _rt_timer_remove with_lists].
  assert (Hf : forall l : list Z, t ∉ l -> filter (.≠ t) l = l).
  { clear. induction l as [|p l IH]; [done|]. intros [Hp Hl]%not_elem_of_cons.
    rewrite filter_cons_True by done. by rewrite IH. }
  assert (Hfi : forall f (l : list Z), t ∉ l -> filter (.≠ t) (insert_by f t l) = l).
  { intros f l. induction l as [|p l IH]; intros Hl; cbn [insert_by].
    - by rewrite filter_cons_False by tauto.
    - pose proof Hl as [Hp Hl']%not_elem_of_cons. destruct (_ <=? _).
      + rewrite filter_cons_True by done. by rewrite IH.
      + rewrite filter_cons_False by tauto. by rewrite Hf. }
  split_and!.
  - destruct (has _ _); cbv beta; rewrite (Hf (rt_timer_list s)) by done; [by apply Hf|by apply Hfi].
  - destruct (has _ _); cbv beta; rewrite (Hf (rt_soft_timer_list s)) by done; [by apply Hfi|by apply Hf].
  - unfold rt_timer_stop, timer_obj. cbn [timers put_timer with_objs].
    rewrite lookup_insert_eq. cbn [mbind result_bind flag with_flag].
    by rewrite has_clr_same.
Qed.

Lemma rt_timer_stop_undoes_start_witness : exists s1 s2,
  timer_start demo 2 = Ok s1 /\ rt_timer_stop s1 2 = Ok (s2, RT_EOK) /\ rt_timer_list s2 = [1].
Proof.
  destruct (timer_start demo 2) as [s1|] eqn:E; [|by vm_compute in E].
  destruct (rt_timer_stop_undoes_start demo 4294967290 2 (mk_timer 2 12 0 10 0) s1)
    as (s2 & E2 & El & _);
    [reflexivity|by vm_compute|by vm_compute|exact demo_others|not_in|not_in|exact E|].
  by exists s1, s2.
Defined.

(** *** [rt_timer_check] *)

Section Check.
Context {K : Type} `{HasTimers K}.
Variable call : Z -> Z -> K -> result K.

(** A record of the calls made so far, for timeout functions that leave the
    timers alone. *)
Variable fired : K -> list (Z * Z).
Hypothesis fired_set : forall k s, fired (set_timers k s) = fired k.
Hypothesis quiet : forall f p k, exists k',
  call f p k = Ok k' /\ get_timers k' = get_timers k /\ fired k' = fired k ++ [(f, p)].

Lemma filter_in_ext (f g : Z -> bool) (l : list Z) :
  (forall p, p ∈ l -> f p = g p) -> filter f l = filter g l.
Proof.
  induction l as [|p l IH]; intros E; [done|]. rewrite !filter_cons, (E p) by (by left).
  rewrite IH by (intros q Hq; apply E; by right). done.
Qed.

(** The hard timers at a check: each pending in the window after [b] ... *)
Definition timer_ok (b : Z) (x : rt_timer) : Prop :=
  in_window b (timeout_tick x) /\ has (flag x) RT_TIMER_FLAG_SOFT_TIMER = false /\
  has (flag x) RT_TIMER_FLAG_ACTIVATED = true.

(** ... and a periodic one with a positive period that ends in it. *)
Definition period_ok (b now : Z) (x : rt_timer) : Prop :=
  has (flag x) RT_TIMER_FLAG_PERIODIC = true ->
  init_tick x < TICK_HALF /\ in_window b (u32 (now + init_tick x)) /\
  u32 (now - b) < u32 (u32 (now + init_tick x) - b).

(** What a timeout leaves of a timer. *)
Definition rearmed (now : Z) (x : rt_timer) : rt_timer :=
  if has (flag x) RT_TIMER_FLAG_PERIODIC then armed now x
  else with_flag x (clr_bit (flag x) RT_TIMER_FLAG_ACTIVATED).

Definition is_periodic (m : gmap Z rt_timer) (p : Z) : bool :=
  match m !! p with Some x => has (flag x) RT_TIMER_FLAG_PERIODIC | None => false end.

Definition call_of (m : gmap Z rt_timer) (p : Z) : Z * Z :=
  match m !! p with Some x => (timeout_func x, parameter x) | None => (0, 0) end.

(** The timers [exp] of the list are due, the timers [alive] are not. *)
Definition hard_ok (b now : Z) (s : tstate) (exp alive : list Z) : Prop :=
  rt_timer_list s = exp ++ alive /\ rt_tick s = now /\
  NoDup (exp ++ alive ++ rt_soft_timer_list s) /\
  sorted_by (key (timers s) b) (exp ++ alive) /\
  (forall p, p ∈ exp ++ alive -> exists x, timers s !! p = Some x /\ timer_ok b x /\
     (p ∈ exp -> period_ok b now x)) /\
  Forall (fun p => key (timers s) b p <= u32 (now - b)) exp /\
  Forall (fun p => u32 (now - b) < key (timers s) b p) alive.

(** The state once they were handled. *)
Definition checked (b now : Z) (s s' : tstate) (exp alive : list Z) : Prop :=
  rt_timer_list s' ≡ₚ filter (is_periodic (timers s)) exp ++ alive /\
  sorted_by (key (timers s') b) (rt_timer_list s') /\
  Forall (fun p => u32 (now - b) < key (timers s') b p) (rt_timer_list s') /\
  rt_soft_timer_list s' = rt_soft_timer_list s /\ rt_tick s' = now /\
  (forall p x, p ∈ exp -> timers s !! p = Some x -> timers s' !! p = Some (rearmed now x)) /\
  (forall p, p ∉ exp -> timers s' !! p = timers s !! p).

Lemma due_compare b now x : in_window b x -> in_window b now ->
  (u32 (now - x) <? TICK_HALF) = (u32 (x - b) <=? u32 (now - b)).
Proof.
  unfold in_window. rewrite tick_half. unfold u32. intros Hx Hy.
  destruct (Z.leb_spec ((x - b) mod 4294967296) ((now - b) mod 4294967296));
    case_bool; try done; exfalso; dlia.
Qed.

Lemma filter_notin t (l : list Z) : t ∉ l -> filter (.≠ t) l = l.
Proof.
  induction l as [|p l IH]; [done|]. intros [Hp Hl]%not_elem_of_cons.
  rewrite filter_cons_True by done. by rewrite IH.
Qed.

Lemma clr_clr f : clr_bit (clr_bit f RT_TIMER_FLAG_ACTIVATED) RT_TIMER_FLAG_ACTIVATED =
  clr_bit f RT_TIMER_FLAG_ACTIVATED.
Proof. unfold clr_bit. by rewrite <- Z.land_assoc. Qed.

(** The timers that are not due, once timer [t] was handled. *)
Definition alive_after (b now : Z) (s : tstate) (t : Z) (x : rt_timer) (alive : list Z) :=
  if has (flag x) RT_TIMER_FLAG_PERIODIC
  then insert_by (key (<[t := rearmed now x]> (timers s)) b) t alive else alive.

(** One timer handled. *)
Lemma after_timeout_run b now s k t exp alive x :
  hard_ok b now s (t :: exp) alive -> timers s !! t = Some x -> in_window b now ->
  get_timers k = _rt_timer_remove s t ->
  exists r, after_timeout k t =
    Ok (set_timers k (mk_tstate (<[t := rearmed now x]> (timers s))
      (exp ++ alive_after b now s t x alive) (rt_soft_timer_list s) now r)).
Proof.
  intros (El & Et & Hnd & Hs & Hok & Hexp & Hal) Ex Hw Hg.
  destruct (Hok t) as (x0 & Ex0 & (Hwx & Hsoft & Hact) & Hper); [by left|].
  rewrite Ex in Ex0. injection Ex0 as <-. specialize (Hper ltac:(by left)).
  cbn [app] in Hnd. apply NoDup_cons in Hnd as [Hnt Hnd].
  assert (HnE : t ∉ exp ++ alive).
  { intros H1. apply Hnt. rewrite app_assoc, elem_of_app. by left. }
  assert (Hft : filter (.≠ t) (rt_timer_list s) = exp ++ alive).
  { rewrite El. cbn [app]. rewrite filter_cons_False by tauto. apply filter_notin.
    exact HnE. }
  assert (Hfs : filter (.≠ t) (rt_soft_timer_list s) = rt_soft_timer_list s).
  { apply filter_notin. intros H1. apply Hnt. rewrite app_assoc, elem_of_app. by right. }
  unfold after_timeout. rewrite Hg. cbn [timers _rt_timer_remove with_lists].
  rewrite Ex. cbn [deref mbind result_bind]. rewrite Hact, andb_true_r.
  unfold alive_after, rearmed. unfold _rt_timer_remove. rewrite Hft, Hfs.
  destruct (has (flag x) RT_TIMER_FLAG_PERIODIC) eqn:Ep; [|by exists (random_nr s); rewrite <- Et].
  destruct Hper as (Hi & Hwi & Hlt); [done|].
  set (m := <[t := armed now x]> (timers s)).
  set (x' := with_flag x _).
  set (s1 := put_timer _ t x').
  unfold rt_timer_start. rewrite get_set_timers.
  rewrite (timer_start_run s1 b t x').
  - cbn [mbind result_bind timer_obj timers]. unfold timer_obj; cbn [timers].
    rewrite lookup_insert_eq. cbn [mbind result_bind flag armed with_flag].
    change (flag x') with (clr_bit (flag x) RT_TIMER_FLAG_ACTIVATED).
    rewrite (proj2 (has_set_other _)), !(proj2 (has_clr_other _)), Hsoft.
    exists (u32 (random_nr s1 + 1)). rewrite set_set_timers.
    cbn [s1 put_timer with_objs timers with_lists rt_timer_list rt_soft_timer_list].
    rewrite insert_insert_eq.
    assert (E : armed now x' = armed now x).
    { unfold armed, x', with_flag, with_timeout. cbn. by rewrite clr_clr. }
    change (rt_tick s1) with (rt_tick s). rewrite Et, E. fold m.
    do 3 f_equal; [|by apply filter_notin; intros H1; apply Hnt; rewrite app_assoc, elem_of_app; right].
    rewrite filter_notin by done. apply insert_by_app.
    rewrite Forall_forall. intros p Hp. apply Forall_cons in Hexp as [_ Hexp].
    rewrite Forall_forall in Hexp. specialize (Hexp p Hp).
    unfold m. rewrite key_insert, key_insert_ne by (intros ->; apply HnE, elem_of_app; by left).
    cbn. lia.
  - apply lookup_insert_eq.
  - done.
  - cbn. by rewrite Et.
  - unfold list_of, x'. cbn [flag with_flag].
    rewrite (proj2 (has_clr_other _)), Hsoft. unfold others_ok. cbn [s1 rt_timer_list put_timer with_objs with_lists timers].
    rewrite filter_notin by done. split.
    + apply (sorted_by_ext (key (timers s) b)); [|by inversion Hs].
      intros p Hp. symmetry. apply key_insert_ne. by intros ->.
    + intros p Hp Hpt. destruct (Hok p) as (y & Ey & (Hy & _) & _); [by right|].
      exists y. by rewrite lookup_insert_ne.
Qed.

Lemma is_periodic_insert m t x p : p <> t -> is_periodic (<[t := x]> m) p = is_periodic m p.
Proof. intros Hp. unfold is_periodic. by rewrite lookup_insert_ne. Qed.

(** What follows the timer that is handled is still in order. *)
Lemma hard_ok_step b now s t exp alive x r :
  hard_ok b now s (t :: exp) alive -> timers s !! t = Some x ->
  let alive' := alive_after b now s t x alive in
  hard_ok b now (mk_tstate (<[t := rearmed now x]> (timers s)) (exp ++ alive')
    (rt_soft_timer_list s) now r) exp alive'.
Proof.
  intros (El & Et & Hnd & Hs & Hin & Hexp & Hal) Ex alive'.
  set (m := <[t := _]> _) in *. cbn [app] in Hnd. apply NoDup_cons in Hnd as [Hnt Hnd].
  destruct (Hin t) as (x0 & Ex0 & (Hx & Hsoft & Hact) & Hper); [by left|].
  rewrite Ex in Ex0. injection Ex0 as <-. specialize (Hper ltac:(by left)).
  apply Forall_cons in Hexp as [_ Hexp]. inversion Hs as [|?? Hs' _]; subst.
  assert (Hne : forall p, p ∈ exp ++ alive -> p <> t).
  { intros p Hp ->. apply Hnt. rewrite app_assoc, elem_of_app. by left. }
  assert (Hk : forall p, p ∈ exp ++ alive -> key m b p = key (timers s) b p)
    by (intros p Hp; apply key_insert_ne; by apply Hne).
  assert (Hin' : forall p, p ∈ exp ++ alive -> exists y, m !! p = Some y /\ timer_ok b y /\
     (p ∈ exp -> period_ok b (rt_tick s) y)).
  { intros p Hp. destruct (Hin p) as (y & Ey & Hy & Hpy); [by right|].
    exists y. unfold m. rewrite lookup_insert_ne by (by apply not_eq_sym, Hne).
    split_and!; try done. intros Hpe. apply Hpy. by right. }
  assert (Hexp' : Forall (fun p => key m b p <= u32 (rt_tick s - b)) exp).
  { rewrite Forall_forall in Hexp |- *. intros p Hp.
    rewrite Hk by (apply elem_of_app; by left). by apply Hexp. }
  assert (Hal' : Forall (fun p => u32 (rt_tick s - b) < key m b p) alive).
  { rewrite Forall_forall in Hal |- *. intros p Hp.
    rewrite Hk by (apply elem_of_app; by right). by apply Hal. }
  assert (Hsm : sorted_by (key m b) (exp ++ alive)).
  { eapply sorted_by_ext; [|exact Hs']. intros p Hp. symmetry. by apply Hk. }
  unfold hard_ok. cbn [rt_timer_list rt_tick timers rt_soft_timer_list].
  subst alive'. unfold alive_after, rearmed in *. fold m.
  destruct (has (flag x) RT_TIMER_FLAG_PERIODIC) eqn:Ep; [|by split_and!].
  destruct (Hper Ep) as (Hi & Hwi & Hlt).
  assert (Ekt : key m b t = u32 (u32 (rt_tick s + init_tick x) - b)) by apply key_insert.
  split_and!; try done.
  - rewrite (insert_by_perm _ t alive).
    cbn [app]. rewrite <- Permutation_middle. by constructor.
  - rewrite <- insert_by_app; [by apply insert_by_sorted|].
    eapply Forall_impl; [exact Hexp'|]. cbn. lia.
  - intros p. rewrite (insert_by_perm _ t alive), <- Permutation_middle.
    intros [->|Hp]%elem_of_cons; [|by apply Hin'].
    exists (armed (rt_tick s) x). split; [apply lookup_insert_eq|].
    split; [|intros Hp; exfalso; apply (Hne t); [apply elem_of_app; by left|done]].
    unfold timer_ok, armed. cbn [flag timeout_tick with_flag with_timeout].
    rewrite (proj2 (has_set_other _)), (proj2 (has_clr_other _)), has_set_same. done.
  - rewrite (insert_by_perm _ t alive). constructor; [cbn; lia|done].
Qed.

Lemma checked_step b now s s' t exp alive x r :
  hard_ok b now s (t :: exp) alive -> timers s !! t = Some x ->
  let alive' := alive_after b now s t x alive in
  checked b now (mk_tstate (<[t := rearmed now x]> (timers s)) (exp ++ alive')
    (rt_soft_timer_list s) now r) s' exp alive' ->
  checked b now s s' (t :: exp) alive.
Proof.
  intros (El & Et & Hnd & _) Ex alive' (Hl & Hs & Hal & Hso & Htk & Hin & Hout).
  cbn [timers rt_soft_timer_list] in *.
  cbn [app] in Hnd. apply NoDup_cons in Hnd as [Hnt Hnd].
  assert (Hte : t ∉ exp) by (intros H1; apply Hnt, elem_of_app; by left).
  unfold checked. split_and!; try done.
  - rewrite Hl. rewrite (filter_in_ext _ (is_periodic (timers s)) exp)
      by (intros p Hp; apply is_periodic_insert; by intros ->).
    subst alive'. unfold alive_after. 
    assert (Ep : is_periodic (timers s) t = has (flag x) RT_TIMER_FLAG_PERIODIC)
      by (unfold is_periodic; by rewrite Ex).
    destruct (has (flag x) RT_TIMER_FLAG_PERIODIC).
    + rewrite filter_cons_True by (by rewrite Ep).
      by rewrite insert_by_perm, <- Permutation_middle.
    + rewrite filter_cons_False by (rewrite Ep; intros []). done.
  - intros p y [->|Hp]%elem_of_cons Ey.
    + rewrite Ex in Ey. injection Ey as <-. rewrite (Hout t Hte). apply lookup_insert_eq.
    + apply (Hin p y Hp). rewrite lookup_insert_ne; [done|]. by intros ->.
  - intros p [Hpt Hp]%not_elem_of_cons. rewrite (Hout p Hp). by rewrite lookup_insert_ne.
Qed.

Lemma check_loop_run b now exp : forall k alive fuel,
  hard_ok b now (get_timers k) exp alive -> in_window b now -> (length exp < fuel)%nat ->
  exists k', check_loop call fuel k now = Ok k' /\
    checked b now (get_timers k) (get_timers k') exp alive /\
    fired k' = fired k ++ map (call_of (timers (get_timers k))) exp.
Proof.
  induction exp as [|t exp IH]; intros k alive fuel Hok Hw Hf;
    (destruct fuel as [|fuel]; [cbn in Hf; lia|]); cbn [check_loop].
  - destruct Hok as (El & Et & Hnd & Hs & Hok & _ & Hal). rewrite El. cbn [app].
    exists k. split; [|split; [|by rewrite app_nil_r]].
    2:{ unfold checked. cbn. rewrite El. split_and!; try done.
        intros p x Hp. by inversion Hp. }
    destruct alive as [|p alive]; [done|].
    destruct (Hok p) as (y & Ey & (Hy & _) & _); [by left|]. rewrite Ey.
    cbn [deref mbind result_bind]. rewrite (due_compare b) by done.
    apply Forall_cons in Hal as [Hp _]. unfold key in Hp. rewrite Ey in Hp.
    by rewrite (proj2 (Z.leb_gt _ _)) by done.
  - pose proof Hok as (El & Et & Hnd & Hs & Hin & Hexp & Hal).
    destruct (Hin t) as (x & Ex & (Hx & Hsoft & Hact) & Hper); [by left|].
    rewrite El. cbn [app]. rewrite Ex. cbn [deref mbind result_bind].
    rewrite (due_compare b) by done. pose proof Hexp as [Ht Hexp']%Forall_cons.
    unfold key in Ht. rewrite Ex in Ht. rewrite (proj2 (Z.leb_le _ _)) by done.
    set (k1 := set_timers k _).
    destruct (quiet (timeout_func x) (parameter x) k1) as (k2 & Ec & Eg & Efire).
    rewrite Ec. cbn [mbind result_bind].
    assert (Eg2 : get_timers k2 = _rt_timer_remove (get_timers k) t)
      by (rewrite Eg; apply get_set_timers).
    destruct (after_timeout_run b now (get_timers k) k2 t exp alive x Hok Ex Hw Eg2) as (r & Er).
    rewrite Er. cbn [mbind result_bind].
    replace (rt_tick_get (get_timers k2)) with now by (rewrite Eg2; unfold rt_tick_get; cbn; done).
    set (k3 := set_timers k2 _).
    destruct (IH k3 (alive_after b now (get_timers k) t x alive) fuel) as (k' & E' & Hc & Hfire).
    + unfold k3. rewrite get_set_timers. by apply hard_ok_step.
    + done.
    + cbn in Hf. lia.
    + exists k'. split; [done|]. unfold k3 in Hc. rewrite get_set_timers in Hc.
      split; [by eapply checked_step|].
      rewrite Hfire. unfold k3. rewrite fired_set, get_set_timers, Efire. unfold k1.
      rewrite fired_set, <- app_assoc. f_equal. cbn [app map]. f_equal.
      * unfold call_of. by rewrite Ex.
      * apply map_ext_in. intros p Hp%list_elem_of_In. unfold call_of. cbn [timers].
        rewrite lookup_insert_ne; [done|]. intros <-. cbn [app] in Hnd.
        apply NoDup_cons in Hnd as [Hnt _]. apply Hnt, elem_of_app. by left.
Qed.

(** C12: when the tick has reached [now], the hard timers are pending in order
    within half the range of the tick after [b], the due periodic ones among
    them have a positive period that ends in this window ([period_ok]), and the
    timeout functions leave the timers alone: [rt_timer_check] calls the
    timeout functions of exactly the timers that are due, in the order of
    their timeouts (and of their start when these are equal), and returns
    within one turn for each of them; then the list holds, in order, the
    timers that were not due and the periodic ones, started again [init_tick]
    later, and none of them is due.  Without the condition on the periods it
    need not return: see [rt_timer_check_zero_period_hangs]. *)
Theorem rt_timer_check_fires_due b k exp alive fuel :
  let s := get_timers k in let now := rt_tick s in
  hard_ok b now s exp alive -> in_window b now -> (length exp < fuel)%nat ->
  exists k', rt_timer_check call fuel k = Ok k' /\
    fired k' = fired k ++ map (call_of (timers s)) exp /\
    let s' := get_timers k' in
    rt_timer_list s' ≡ₚ filter (is_periodic (timers s)) exp ++ alive /\
    sorted_by (key (timers s') b) (rt_timer_list s') /\
    Forall (fun p => u32 (now - b) < key (timers s') b p) (rt_timer_list s') /\
    (forall p x, p ∈ exp -> timers s !! p = Some x -> timers s' !! p = Some (rearmed now x)) /\
    (forall p, p ∉ exp -> timers s' !! p = timers s !! p).
Proof.
  intros s now Hok Hw Hf.
  destruct (check_loop_run b now exp k alive fuel Hok Hw Hf) as (k' & E & Hc & Hfire).
  exists k'. split; [exact E|]. split; [done|].
  destruct Hc as (? & ? & ? & _ & _ & ? & ?). by split_and!.
Qed.

End Check.

(** Timers beside a record of the calls, for the examples. *)
Definition get_logged (r : result (tstate * list (Z * Z))) : tstate :=
  match r with Ok k => k.1 | Err _ => mk_tstate ∅ [] [] 0 0 end.

#[local] Instance logged : HasTimers (tstate * list (Z * Z)) := {|
  get_timers k := k.1;
  set_timers k s := (s, k.2);
  wake_timer_thread k := Ok k;
  enter_critical k := k;
  exit_critical k := Ok k;
  get_set_timers _ _ := eq_refl;
  set_set_timers _ _ _ := eq_refl;
  enter_timers _ := eq_refl;
  exit_timers k k' E := eq_sym (f_equal get_logged E)
|}.

Definition log_call (f p : Z) (k : tstate * list (Z * Z)) : result (tstate * list (Z * Z)) :=
  Ok (k.1, k.2 ++ [(f, p)]).

(** Shortly after the wrap: periodic timer 1 is due, timer 2 is not. *)
Definition demo2 : tstate :=
  mk_tstate (<[1 := mk_timer 3 11 0 5 4294967295]> (<[2 := mk_timer 1 12 0 10 4]> ∅))
    [1; 2] [] 2 0.

Lemma rt_timer_check_fires_due_witness : exists s' log,
  rt_timer_check log_call 2 (demo2, []) = Ok (s', log) /\ log = [(11, 0)] /\
  timers s' !! 1 = Some (mk_timer 3 11 0 5 7).
Proof.
  destruct (rt_timer_check_fires_due (H := logged) log_call (fun k => k.2) (fun _ _ => eq_refl)
    (fun f p k => ex_intro _ _ (conj eq_refl (conj eq_refl eq_refl)))
    4294967290 (demo2, []) [1] [2] 2) as ([s' log] & E & Hl & _ & _ & _ & H1 & _).
  - unfold hard_ok. split_and!; try reflexivity.
    + cbn. rewrite !NoDup_cons. split_and!; [not_in|not_in|constructor].
    + repeat constructor. unfold by_key. by vm_compute.
    + intros p Hp. apply elem_of_cons in Hp as [->|Hp]; [|apply list_elem_of_singleton in Hp as ->];
        (eexists; split; [reflexivity|]; split; [by vm_compute|]).
      * intros _ _. by vm_compute.
      * intros Hp. by apply list_elem_of_singleton in Hp.
    + repeat constructor. by vm_compute.
    + repeat constructor; by vm_compute.
  - by vm_compute.
  - cbn. lia.
  - exists s', log. split; [exact E|]. split; [exact Hl|].
    exact (H1 1 (mk_timer 3 11 0 5 4294967295) (list_elem_of_here _ _) eq_refl).
Defined.

(** a periodic timer whose period is zero keeps [rt_timer_check], which
    runs in the tick interrupt, in its loop for ever: no number of turns is
    enough. *)
Theorem rt_timer_check_zero_period_hangs fuel s log t x :
  rt_timer_list s = [t] -> timers s !! t = Some x ->
  init_tick x = 0 -> has (flag x) RT_TIMER_FLAG_PERIODIC = true ->
  has (flag x) RT_TIMER_FLAG_ACTIVATED = true ->
  has (flag x) RT_TIMER_FLAG_SOFT_TIMER = false ->
  0 <= rt_tick s < 4294967296 -> u32 (rt_tick s - timeout_tick x) < TICK_HALF ->
  rt_timer_check log_call fuel (s, log) = Err F_fuel.
Proof.
  intros El Ex Hi Hp Ha Hsf Htk Hd. unfold rt_timer_check, rt_tick_get. cbn [get_timers logged fst].
  revert s log x El Ex Hi Hp Ha Hsf Htk Hd.
  induction fuel as [|fuel IH]; intros s log x El Ex Hi Hp Ha Hsf Htk Hd; [done|].
  cbn [check_loop get_timers logged fst]. rewrite El, Ex. cbn [deref mbind result_bind].
  rewrite (proj2 (Z.ltb_lt _ _)) by done.
  cbn [log_call set_timers logged mbind result_bind fst snd].
  unfold after_timeout. cbn [get_timers logged fst].
  change (timers (_rt_timer_remove s t)) with (timers s). rewrite Ex.
  cbn [deref mbind result_bind]. rewrite Hp, Ha. cbn [andb].
  cbn [set_timers logged snd]. unfold rt_timer_start. cbn [get_timers logged fst].
  set (x1 := with_flag x _). set (s1 := put_timer _ t x1).
  assert (Hl1 : rt_timer_list s1 = []).
  { cbn. rewrite El. rewrite filter_cons_False by tauto. done. }
  assert (Hsf1 : has (flag x1) RT_TIMER_FLAG_SOFT_TIMER = false).
  { unfold x1. cbn [flag with_flag]. by rewrite (proj2 (has_clr_other _)). }
  rewrite (timer_start_run s1 (rt_tick s1) t x1); [|apply lookup_insert_eq|..].
  2:{ change (init_tick x1) with (init_tick x). by rewrite Hi. }
  2:{ change (init_tick x1) with (init_tick x). rewrite Hi. unfold in_window, u32.
      rewrite tick_half. change (rt_tick s1) with (rt_tick s). dlia. }
  2:{ unfold list_of. rewrite Hsf1, Hl1. split; [constructor|]. intros p Hpl. by inversion Hpl. }
  rewrite Hsf1, Hl1. cbn [mbind result_bind timer_obj timers]. unfold timer_obj. cbn [timers].
  rewrite lookup_insert_eq. cbn [mbind result_bind set_timers logged snd fst].
  assert (Hfl : has (flag (armed (rt_tick s1) x1)) RT_TIMER_FLAG_SOFT_TIMER = false).
  { unfold armed. cbn [flag with_flag].
    by rewrite (proj2 (has_set_other _)), (proj2 (has_clr_other _)). }
  rewrite Hfl. change (rt_tick_get (_rt_timer_remove s t)) with (rt_tick s).
  set (s2 := mk_tstate _ _ _ _ _). change (rt_tick s) with (rt_tick s2).
  apply (IH s2 _ (armed (rt_tick s1) x1)); try done.
  - apply lookup_insert_eq.
  - unfold armed, x1. cbn [flag with_flag].
    by rewrite (proj1 (has_set_other _)), !(proj1 (has_clr_other _)).
  - apply has_set_same.
  - cbn [armed with_flag with_timeout timeout_tick]. change (init_tick x1) with (init_tick x).
    rewrite Hi, tick_half. cbn [s2 rt_tick]. change (rt_tick s1) with (rt_tick s).
    unfold u32. dlia.
Qed.

Lemma rt_timer_check_zero_period_hangs_witness :
  rt_timer_check log_call 100
    (mk_tstate (<[1 := mk_timer 3 11 0 0 5]> ∅) [1] [] 7 0, []) = Err F_fuel.
Proof.
  apply (rt_timer_check_zero_period_hangs 100 _ [] 1 (mk_timer 3 11 0 0 5));
    try reflexivity; cbn; lia.
Defined.

(** *** A soft timer that is stopped by the one before it *)
Section Soft.
Context {K : Type} `{HasTimers K}.
Variable call : Z -> Z -> K -> result K.

(** Timer [u] with the function [f] and the parameter [p] is stopped, and its
    timeout lies less than half the range of the tick back. *)
Definition stopped_due (u f p : Z) (s : tstate) : Prop :=
  (u ∉ rt_soft_timer_list s) /\
  exists y, timers s !! u = Some y /\ timeout_func y = f /\ parameter y = p /\
    has (flag y) RT_TIMER_FLAG_ACTIVATED = false /\ u32 (rt_tick s - timeout_tick y) < TICK_HALF.

Lemma next_in_out l u : u ∉ l -> next_in l u = Some u.
Proof.
  induction l as [|x l IH]; [done|]. intros [Hx Hl]%not_elem_of_cons. cbn.
  rewrite (proj2 (Z.eqb_neq _ _)) by (by apply not_eq_sym). by apply IH.
Qed.

(** What the loop does to a timer that was stopped. *)
Lemma stopped_after u f p s y : stopped_due u f p s -> timers s !! u = Some y ->
  stopped_due u f p (put_timer s u (with_flag y (clr_bit (flag y) RT_TIMER_FLAG_ACTIVATED))).
Proof.
  intros (Hl & y' & Ey & Hf & Hp & Ha & Hd) E. rewrite E in Ey. injection Ey as <-. split; [done|].
  eexists. split; [apply lookup_insert_eq|]. cbn. split_and!; try done. apply has_clr_same.
Qed.

Lemma soft_loop_stuck u f p :
  (forall k k', stopped_due u f p (get_timers k) -> call f p k = Ok k' -> stopped_due u f p (get_timers k')) ->
  forall fuel k cur k', stopped_due u f p (get_timers k) ->
    (forall y, timers (get_timers k) !! u = Some y -> u32 (cur - timeout_tick y) < TICK_HALF) ->
    soft_loop call fuel k cur (Some u) <> Ok k'.
Proof.
  intros Hcall. induction fuel as [|fuel IH]; intros k cur k' Hs Hcur E; [done|].
  pose proof Hs as (Hl & y & Ey & Hf & Hp & Ha & Hd). cbn [soft_loop] in E.
  rewrite Ey in E. cbn [deref mbind result_bind] in E. specialize (Hcur y Ey).
  rewrite (proj2 (Z.ltb_lt _ _)) in E by done. rewrite next_in_out in E by done.
  apply bind_Ok_inv in E as (k1 & E1 & E). apply exit_timers in E1. rewrite get_set_timers in E1.
  apply bind_Ok_inv in E as (k2 & E2 & E). rewrite Hf, Hp in E2. apply Hcall in E2.
  2:{ rewrite E1. split; [|by exists y]. cbn. rewrite list_elem_of_filter. tauto. }
  apply bind_Ok_inv in E as (k3 & E3 & E). unfold after_timeout in E3. rewrite enter_timers in E3.
  pose proof E2 as (_ & y2 & Ey2 & _ & _ & Ha2 & Hd2). rewrite Ey2 in E3. cbn [deref mbind result_bind] in E3.
  rewrite Ha2, andb_false_r in E3. injection E3 as <-.
  apply IH in E; [done|..]; rewrite get_set_timers; [by apply stopped_after|].
  cbn [timers put_timer with_objs]. intros z. rewrite lookup_insert_eq. by intros [= <-].
Qed.

(** C39: [rt_soft_timer_check] keeps the next node of the list across a timeout
    function.  When the function of a one-shot timer [t] stops the next timer
    [u], which is due as well, the node of [u] is linked to itself: the loop
    calls the function of the stopped timer again and again, and does not
    return while that timer stays stopped and its timeout lies less than half
    the range of the tick back, however long that function runs and whatever
    else happens meanwhile. *)
Theorem rt_soft_timer_check_can_hang k t u l x y :
  rt_soft_timer_list (get_timers k) = t :: u :: l -> timers (get_timers k) !! t = Some x ->
  u32 (rt_tick (get_timers k) - timeout_tick x) < TICK_HALF ->
  (forall k1 k2, get_timers k1 = _rt_timer_remove (get_timers k) t ->
     call (timeout_func x) (parameter x) k1 = Ok k2 ->
     stopped_due u (timeout_func y) (parameter y) (get_timers k2) /\
     exists x2, timers (get_timers k2) !! t = Some x2 /\ has (flag x2) RT_TIMER_FLAG_PERIODIC = false) ->
  (forall k1 k2, stopped_due u (timeout_func y) (parameter y) (get_timers k1) ->
     call (timeout_func y) (parameter y) k1 = Ok k2 -> stopped_due u (timeout_func y) (parameter y) (get_timers k2)) ->
  t <> u ->
  forall fuel k', rt_soft_timer_check call fuel k <> Ok k'.
Proof.
  intros El Ex Hd Hc1 Hc2 Hne [|fuel] k' E; unfold rt_soft_timer_check in E; rewrite enter_timers, El in E; [done|].
  cbn [head soft_loop] in E. rewrite enter_timers, Ex in E. cbn [deref mbind result_bind] in E.
  unfold rt_tick_get in E at 1. rewrite (proj2 (Z.ltb_lt _ _)) in E by done.
  rewrite El in E. cbn [next_in head] in E. rewrite Z.eqb_refl in E.
  apply bind_Ok_inv in E as (k1 & E1 & E). apply exit_timers in E1. rewrite get_set_timers in E1.
  apply bind_Ok_inv in E as (k2 & E2 & E). apply Hc1 in E2; [|exact E1].
  destruct E2 as (Hs & x2 & Ex2 & Hp2). apply bind_Ok_inv in E as (k3 & E3 & E).
  unfold after_timeout in E3. rewrite enter_timers, Ex2 in E3. cbn [deref mbind result_bind] in E3.
  rewrite Hp2 in E3. injection E3 as <-. revert E. apply (soft_loop_stuck u (timeout_func y) (parameter y)); [done|..];
    rewrite get_set_timers; destruct Hs as (Hl & z & Ez & Hs).
  - split; [done|]. exists z. split; [|done]. cbn. by rewrite lookup_insert_ne.
  - cbn. intros z'. rewrite lookup_insert_ne, Ez by done. intros [= <-]. apply Hs.
Qed.

End Soft.

(** The timeout function of timer 1 stops timer 2. *)
Definition stop_2 (f p : Z) (k : tstate * list (Z * Z)) : result (tstate * list (Z * Z)) :=
  if f =? 11 then '(s, _) ← rt_timer_stop k.1 2; Ok (s, k.2 ++ [(f, p)])
  else Ok (k.1, k.2 ++ [(f, p)]).

(** Two soft timers that are both due. *)
Definition demo3 : tstate :=
  mk_tstate (<[1 := mk_timer 5 11 0 5 5]> (<[2 := mk_timer 5 12 0 5 5]> ∅)) [] [1; 2] 6 0.

Lemma rt_soft_timer_check_can_hang_witness :
  (forall k', rt_soft_timer_check stop_2 1000 (demo3, []) <> Ok k') /\
  rt_soft_timer_check stop_2 1000 (demo3, []) = Err F_fuel.
Proof.
  split; [|by vm_compute]. apply (rt_soft_timer_check_can_hang stop_2 (demo3, []) 1 2 []
    (mk_timer 5 11 0 5 5) (mk_timer 5 12 0 5 5)); try reflexivity.
  - intros [s1 l1] k2 Es E. cbn in Es. subst s1. vm_compute in E. injection E as <-. split.
    + split; [by intros ?%elem_of_nil|]. eexists. by split_and!.
    + eexists. by split.
  - intros [s1 l1] k2 Hs E. cbn in E. injection E as <-. exact Hs.
  - done.
Defined.

(** the timer thread sleeps until the earliest soft timer is due, no
    shorter and no longer, and suspends itself when there is none; but it also
    suspends itself, with a timer pending, when the earliest one is due at
    [RT_TICK_MAX]. *)
Theorem rt_thread_timer_entry_waits s t l x :
  rt_soft_timer_list s = t :: l -> timers s !! t = Some x ->
  0 <= timeout_tick x < 4294967296 ->
  sorted_by (key (timers s) (rt_tick s)) (t :: l) ->
  in_window (rt_tick s) (timeout_tick x) ->
  if timeout_tick x =? RT_TICK_MAX then rt_thread_timer_entry s = Ok W_suspend
  else exists d, rt_thread_timer_entry s = Ok (W_delay d) /\
    u32 (rt_tick s + d) = timeout_tick x /\
    forall p, p ∈ t :: l -> d <= key (timers s) (rt_tick s) p.
Proof.
  intros El Ex Hr Hs Hw. unfold rt_thread_timer_entry, rt_timer_list_next_timeout.
  rewrite El, Ex. cbn [deref mbind result_bind].
  destruct (timeout_tick x =? RT_TICK_MAX); [done|].
  exists (u32 (timeout_tick x - rt_tick s)).
  unfold rt_tick_get. unfold in_window in Hw. rewrite (proj2 (Z.ltb_lt _ _)) by done.
  split; [done|]. split; [unfold u32; dlia|].
  assert (Ek : key (timers s) (rt_tick s) t = u32 (timeout_tick x - rt_tick s))
    by (unfold key; by rewrite Ex).
  intros p [->|Hp]%elem_of_cons; [lia|]. inversion Hs as [|?? _ Hf]; subst.
  rewrite Forall_forall in Hf. rewrite <- Ek. by apply Hf.
Qed.

Lemma rt_thread_timer_entry_waits_witness :
  rt_thread_timer_entry
    (mk_tstate (<[1 := mk_timer 5 11 0 5 4294967295]> ∅) [] [1] 4294967290 0) = Ok W_suspend.
Proof.
  apply (rt_thread_timer_entry_waits
    (mk_tstate (<[1 := mk_timer 5 11 0 5 4294967295]> ∅) [] [1] 4294967290 0)
    1 [] (mk_timer 5 11 0 5 4294967295)); try reflexivity.
  - cbn. lia.
  - repeat constructor.
Defined.

End TimerThms.
