(* ===== verification/KService.v ===== *)
(** * Kernel service routines (rt-thread/src/kservice.c)

    [Ffs] is the search for the lowest set bit that the scheduler uses, in the
    table version of kservice.c and in the compiler-builtin version of
    libcpu/arm/cortex-m3/cpuport.c that this configuration selects. *)
From S2P Require Import Prelude CTypes.
From stdpp Require Import base list.
From Stdlib Require Import ZArith Lia.
Open Scope Z_scope.

Module Ffs.

Definition __lowest_bit_bitmap : list Z :=
  [ 0;0;1;0;2;0;1;0;3;0;1;0;2;0;1;0; 4;0;1;0;2;0;1;0;3;0;1;0;2;0;1;0;
    5;0;1;0;2;0;1;0;3;0;1;0;2;0;1;0; 4;0;1;0;2;0;1;0;3;0;1;0;2;0;1;0;
    6;0;1;0;2;0;1;0;3;0;1;0;2;0;1;0; 4;0;1;0;2;0;1;0;3;0;1;0;2;0;1;0;
    5;0;1;0;2;0;1;0;3;0;1;0;2;0;1;0; 4;0;1;0;2;0;1;0;3;0;1;0;2;0;1;0;
    7;0;1;0;2;0;1;0;3;0;1;0;2;0;1;0; 4;0;1;0;2;0;1;0;3;0;1;0;2;0;1;0;
    5;0;1;0;2;0;1;0;3;0;1;0;2;0;1;0; 4;0;1;0;2;0;1;0;3;0;1;0;2;0;1;0;
    6;0;1;0;2;0;1;0;3;0;1;0;2;0;1;0; 4;0;1;0;2;0;1;0;3;0;1;0;2;0;1;0;
    5;0;1;0;2;0;1;0;3;0;1;0;2;0;1;0; 4;0;1;0;2;0;1;0;3;0;1;0;2;0;1;0 ].

Definition bitmap_at (i : Z) : Z := nth (Z.to_nat i) __lowest_bit_bitmap 0.

(** The version of kservice.c ([value] as its 32-bit pattern). *)
Definition __rt_ffs (value : Z) : Z :=
  if value =? 0 then 0
  else if negb (Z.land value 255 =? 0) then bitmap_at (Z.land value 255) + 1
  else if negb (Z.land value 65280 =? 0)
  then bitmap_at (Z.shiftr (Z.land value 65280) 8) + 9
  else if negb (Z.land value 16711680 =? 0)
  then bitmap_at (Z.shiftr (Z.land value 16711680) 16) + 17
  else bitmap_at (Z.shiftr (Z.land value 4278190080) 24) + 25.

(** [__builtin_ffs]: one plus the index of the least significant 1-bit. *)
Fixpoint first_bit (n : nat) (i value : Z) : Z :=
  match n with
  | O => 0
  | S k => if Z.testbit value i then i + 1 else first_bit k (i + 1) value
  end.

(** The version of cpuport.c. *)
Definition rt_ffs_cpu (value : Z) : Z := first_bit 32 0 value.

(** ** The lowest set bit *)

Definition is_lowest (x i : Z) : Prop :=
  0 <= i /\ Z.testbit x i = true /\ forall j, 0 <= j < i -> Z.testbit x j = false.

Lemma is_lowest_unique x i j : is_lowest x i -> is_lowest x j -> i = j.
Proof.
  intros (Hi & Bi & Li) (Hj & Bj & Lj).
  destruct (Z.lt_trichotomy i j) as [H|[H|H]]; [|done|].
  - rewrite Lj in Bi by lia. done.
  - rewrite Li in Bj by lia. done.
Qed.

Lemma first_bit_found n : forall i x, 0 <= i ->
  (exists j, i <= j < i + Z.of_nat n /\ Z.testbit x j = true) ->
  (forall j, 0 <= j < i -> Z.testbit x j = false) ->
  exists k, first_bit n i x = k + 1 /\ is_lowest x k /\ k < i + Z.of_nat n.
Proof.
  induction n as [|n IH]; intros i x Hi (j & Hj & Bj) Hlow; [lia|]. cbn [first_bit].
  destruct (Z.testbit x i) eqn:Bi.
  - exists i. by split_and!; [| |lia].
  - destruct (IH (i + 1) x) as (k & E & Hk & Hlt); [lia| | |exists k; split_and!; [done|done|lia]].
    + exists j. split; [|done]. destruct (decide (j = i)) as [->|]; [congruence|lia].
    + intros m Hm. destruct (decide (m = i)) as [->|]; [done|]. apply Hlow. lia.
Qed.

Lemma nonzero_has_bit x : 0 < x < 4294967296 -> exists j, 0 <= j < 32 /\ Z.testbit x j = true.
Proof.
  intros Hx. exists (Z.log2 x). pose proof (Z.log2_nonneg x). split; [|apply Z.bit_log2; lia].
  split; [done|]. apply Z.log2_lt_pow2; [lia|]. change (2 ^ 32) with 4294967296. lia.
Qed.

Lemma rt_ffs_cpu_lowest x : 0 < x < 4294967296 ->
  exists k, rt_ffs_cpu x = k + 1 /\ is_lowest x k /\ k < 32.
Proof.
  intros Hx. destruct (nonzero_has_bit x Hx) as (j & Hj & Bj).
  destruct (first_bit_found 32 0 x) as (k & E & Hk & Hlt); [lia|exists j; split; [lia|done]|lia|].
  exists k. by split_and!.
Qed.

Lemma rt_ffs_cpu_zero : rt_ffs_cpu 0 = 0.
Proof. reflexivity. Qed.

(** Every entry of the table but the first. *)
Definition entry_ok (b : Z) : bool :=
  let i := bitmap_at b in
  (0 <=? i) && (i <? 8) && Z.testbit b i &&
  forallb (fun j => negb (Z.testbit b j) || negb (j <? i)) (map Z.of_nat (seq 0 8)).

Lemma table_ok : forallb entry_ok (map Z.of_nat (seq 1 255)) = true.
Proof. vm_compute. reflexivity. Qed.

Lemma bitmap_lowest b : 0 < b < 256 -> is_lowest b (bitmap_at b) /\ bitmap_at b < 8.
Proof.
  intros Hb. pose proof table_ok as H. rewrite forallb_forall in H.
  specialize (H b). rewrite in_map_iff in H.
  assert (He : entry_ok b = true).
  { apply H. exists (Z.to_nat b). split; [lia|]. apply in_seq. lia. }
  unfold entry_ok in He. cbv zeta in He.
  apply andb_true_iff in He as [He Hf]. apply andb_true_iff in He as [He Hb1].
  apply andb_true_iff in He as [H0 H8]. apply Z.leb_le in H0. apply Z.ltb_lt in H8.
  split; [|done]. split; [done|]. split; [done|]. intros j Hj.
  rewrite forallb_forall in Hf. specialize (Hf j). rewrite in_map_iff in Hf.
  assert (Hj' : negb (Z.testbit b j) || negb (j <? bitmap_at b) = true).
  { apply Hf. exists (Z.to_nat j). split; [lia|]. apply in_seq. lia. }
  rewrite (proj2 (Z.ltb_lt _ _)) in Hj' by lia. cbn in Hj'. rewrite orb_false_r in Hj'.
  by apply negb_true_iff.
Qed.

(** A byte of [x], and what its lowest bit says of [x]. *)
Lemma byte_bits x s j : 0 <= s -> 0 <= j ->
  Z.testbit (Z.shiftr (Z.land x (Z.shiftl 255 s)) s) j = Z.testbit x (j + s) && (j <? 8).
Proof.
  intros Hs Hj. rewrite Z.shiftr_spec, Z.land_spec, Z.shiftl_spec by lia.
  replace (j + s - s) with j by lia. f_equal.
  change 255 with (Z.ones 8). destruct (Z.ltb_spec j 8) as [H|H].
  - by rewrite Z.ones_spec_low by lia.
  - by rewrite Z.ones_spec_high by lia.
Qed.

Lemma byte_range x s : 0 <= s ->
  0 <= Z.shiftr (Z.land x (Z.shiftl 255 s)) s < 256.
Proof.
  intros Hs. set (b := Z.shiftr _ s).
  assert (E : b = Z.land b (Z.ones 8)).
  { apply Z.bits_inj_iff'. intros j Hj. rewrite Z.land_spec. unfold b at 1 2.
    rewrite byte_bits by lia. destruct (Z.ltb_spec j 8).
    - by rewrite Z.ones_spec_low, !andb_true_r by lia.
    - by rewrite Z.ones_spec_high, !andb_false_r by lia. }
  rewrite E, Z.land_ones by lia. change (2 ^ 8) with 256. dlia.
Qed.

Lemma byte_lowest x s : 0 <= s ->
  let b := Z.shiftr (Z.land x (Z.shiftl 255 s)) s in
  b <> 0 -> (forall j, 0 <= j < s -> Z.testbit x j = false) ->
  is_lowest x (bitmap_at b + s).
Proof.
  intros Hs b Hb Hlow. pose proof (byte_range x s Hs) as Hr. fold b in Hr.
  destruct (bitmap_lowest b) as ((H0 & Bb & Lb) & H8); [lia|].
  split; [lia|]. split.
  - unfold b in Bb at 1. rewrite byte_bits in Bb by lia. by apply andb_true_iff in Bb as [? _].
  - intros j Hj. destruct (Z.lt_ge_cases j s); [apply Hlow; lia|].
    specialize (Lb (j - s) ltac:(lia)). unfold b in Lb. rewrite byte_bits in Lb by lia.
    rewrite (proj2 (Z.ltb_lt _ _)), andb_true_r in Lb by lia.
    by replace (j - s + s) with j in Lb by lia.
Qed.

(** The masked word is zero exactly when the byte has no bit. *)
Lemma byte_zero x s : 0 <= s -> Z.land x (Z.shiftl 255 s) = 0 ->
  forall j, s <= j < s + 8 -> Z.testbit x j = false.
Proof.
  intros Hs E j Hj. pose proof (byte_bits x s (j - s) Hs ltac:(lia)) as H.
  rewrite E, Z.shiftr_0_l, Z.bits_0 in H.
  rewrite (proj2 (Z.ltb_lt _ _)), andb_true_r in H by lia.
  by replace (j - s + s) with j in H by lia.
Qed.

Lemma byte_nonzero x s : 0 <= s -> Z.land x (Z.shiftl 255 s) <> 0 ->
  Z.shiftr (Z.land x (Z.shiftl 255 s)) s <> 0.
Proof.
  intros Hs H E. apply H. apply Z.bits_inj_iff'. intros j Hj. rewrite Z.bits_0.
  destruct (Z.lt_ge_cases j s).
  - rewrite Z.land_spec, Z.shiftl_spec_low by lia. apply andb_false_r.
  - assert (Hb : Z.testbit (Z.shiftr (Z.land x (Z.shiftl 255 s)) s) (j - s) = false)
      by (rewrite E; apply Z.bits_0).
    rewrite Z.shiftr_spec in Hb by lia. by replace (j - s + s) with j in Hb by lia.
Qed.

End Ffs.

Module FfsThms.
Import Ffs.

(** C40: the table search of kservice.c finds the lowest set bit of every
    32-bit word, numbered from 1, returns 0 exactly on 0, and agrees with the
    processor's version that the scheduler runs on. *)
Theorem __rt_ffs_lowest_bit value :
  0 <= value < 4294967296 ->
  __rt_ffs value = rt_ffs_cpu value /\
  (value = 0 -> __rt_ffs value = 0) /\
  (value <> 0 -> 1 <= __rt_ffs value <= 32 /\ is_lowest value (__rt_ffs value - 1)).
Proof.
  intros Hv. destruct (decide (value = 0)) as [->|Hnz]; [done|].
  destruct (rt_ffs_cpu_lowest value) as (k & E & Hk & H32); [lia|].
  assert (Hl : is_lowest value (__rt_ffs value - 1)).
  { unfold __rt_ffs. rewrite (proj2 (Z.eqb_neq value 0)) by done.
    pose proof (byte_lowest value 0) as L0. pose proof (byte_lowest value 8) as L1.
    pose proof (byte_lowest value 16) as L2. pose proof (byte_lowest value 24) as L3.
    pose proof (byte_zero value 0) as Z0. pose proof (byte_zero value 8) as Z1.
    pose proof (byte_zero value 16) as Z2. pose proof (byte_zero value 24) as Z3.
    pose proof (byte_nonzero value 0) as N0. pose proof (byte_nonzero value 8) as N1.
    pose proof (byte_nonzero value 16) as N2. pose proof (byte_nonzero value 24) as N3.
    change (Z.shiftl 255 0) with 255 in *. change (Z.shiftl 255 8) with 65280 in *.
    change (Z.shiftl 255 16) with 16711680 in *. change (Z.shiftl 255 24) with 4278190080 in *.
    rewrite Z.shiftr_0_r in *.
    destruct (Z.eqb_spec (Z.land value 255) 0) as [E0|E0]; cbn [negb].
    2:{ replace (_ + 1 - 1) with (bitmap_at (Z.land value 255) + 0) by lia. apply L0; lia || auto with lia. }
    specialize (Z0 ltac:(lia) E0).
    destruct (Z.eqb_spec (Z.land value 65280) 0) as [E1|E1]; cbn [negb].
    2:{ replace (_ + 9 - 1) with (bitmap_at (Z.shiftr (Z.land value 65280) 8) + 8) by lia.
        apply L1; [lia|by apply N1|]. intros j Hj. apply Z0. lia. }
    specialize (Z1 ltac:(lia) E1).
    destruct (Z.eqb_spec (Z.land value 16711680) 0) as [E2|E2]; cbn [negb].
    2:{ replace (_ + 17 - 1) with (bitmap_at (Z.shiftr (Z.land value 16711680) 16) + 16) by lia.
        apply L2; [lia|by apply N2|]. intros j Hj.
        destruct (Z.lt_ge_cases j 8); [apply Z0|apply Z1]; lia. }
    specialize (Z2 ltac:(lia) E2).
    replace (_ + 25 - 1) with (bitmap_at (Z.shiftr (Z.land value 4278190080) 24) + 24) by lia.
    apply L3; [lia| |].
    - apply N3; [lia|]. intros E3. specialize (Z3 ltac:(lia) E3).
      destruct Hk as (Hk0 & Bk & _). destruct (Z.lt_ge_cases k 8).
      { rewrite Z0 in Bk by lia. done. }
      destruct (Z.lt_ge_cases k 16); [rewrite Z1 in Bk by lia; done|].
      destruct (Z.lt_ge_cases k 24); [rewrite Z2 in Bk by lia; done|].
      rewrite Z3 in Bk by lia. done.
    - intros j Hj. destruct (Z.lt_ge_cases j 8); [apply Z0; lia|].
      destruct (Z.lt_ge_cases j 16); [apply Z1|apply Z2]; lia. }
  pose proof (is_lowest_unique _ _ _ Hl Hk) as Ek. destruct Hk as (Hk0 & _).
  split; [lia|]. split; [done|]. intros _. split; [lia|done].
Qed.

Lemma __rt_ffs_lowest_bit_witness : is_lowest 1073741824 (__rt_ffs 1073741824 - 1).
Proof. apply (__rt_ffs_lowest_bit 1073741824); lia. Defined.

End FfsThms.
