(* ===== verification/Kernel.v ===== *)
(** * The kernel state, the scheduler and the threads
      (rt-thread/src/scheduler.c, thread.c, irq.c, the tick of clock.c)

    [Kern] is the data of rtdef.h and the list operations on it; [Sched] the
    scheduler and [Thread] the thread operations, on that state.  A function
    that gives up the processor in the middle is two definitions: the part up
    to its [rt_schedule], and ([..._wake]) the part that runs when the thread
    is switched to again. *)
From S2P Require Import Prelude CTypes KService Timer.
From stdpp Require Import base list gmap countable.
From Stdlib Require Import ZArith Lia.
Open Scope Z_scope.

Module Kern.

(** [struct rt_thread]; its list node [tlist] is in [lists] below, its timer
    is the timer object [thread_timer], its stack is not modelled; [cleanup]
    says that a cleanup function is set, and [typed] that the object's type is
    still Thread ([rt_object_detach] resets it). *)
Record rt_thread : Type := mk_thread {
  stat : Z;
  current_priority : Z;
  init_priority : Z;
  number_mask : Z;
  event_set : Z;
  event_info : Z;
  thread_init_tick : Z;
  remaining_tick : Z;
  error : Z;
  systemobject : bool;
  cleanup : bool;
  typed : bool
}.

Definition RT_THREAD_INIT : Z := 0.
Definition RT_THREAD_READY : Z := 1.
Definition RT_THREAD_SUSPEND : Z := 2.
Definition RT_THREAD_RUNNING : Z := 3.
Definition RT_THREAD_CLOSE : Z := 4.
Definition RT_THREAD_STAT_MASK : Z := 7.
Definition RT_THREAD_STAT_YIELD : Z := 8.
Definition RT_THREAD_PRIORITY_MAX : Z := 32.

(** The objects of ipc.c, less their lists of suspended threads. *)
Record rt_semaphore : Type := mk_sem { sem_flag : Z; sem_value : Z }.

Record rt_mutex : Type := mk_mutex {
  mutex_flag : Z;
  mutex_value : Z;
  original_priority : Z;
  hold : Z;
  owner : Z
}.

Record rt_event : Type := mk_event { event_flag : Z; set : Z }.

Record rt_mailbox : Type := mk_mailbox {
  mb_flag : Z;
  mb_msg_pool : list Z;
  mb_size : Z;
  mb_entry : Z;
  in_offset : Z;
  out_offset : Z
}.

(** Messages are blocks of the pool, named by their address; [mq_next] is
    their link word and [mq_data] the bytes after it. *)
Record rt_messagequeue : Type := mk_mq {
  mq_flag : Z;
  mq_next : gmap Z Z;
  mq_data : gmap Z (list Z);
  msg_size : Z;
  max_msgs : Z;
  mq_entry : Z;
  msg_queue_head : Z;
  msg_queue_tail : Z;
  msg_queue_free : Z
}.

(** The blocks of a pool are named by their addresses; their first words are
    in the store of [MemPool]. *)
Record rt_mempool : Type := mk_mempool {
  start_address : Z;
  mp_size : Z;
  block_size : Z;
  block_list : Z;
  block_total_count : Z;
  block_free_count : Z
}.

(** The objects on which threads wait. *)
Inductive ipc_object : Type :=
  | O_sem (s : rt_semaphore)
  | O_mutex (m : rt_mutex)
  | O_event (e : rt_event)
  | O_mailbox (b : rt_mailbox)
  | O_mq (q : rt_messagequeue)
  | O_mempool (p : rt_mempool).

(** [static]: the object was initialised, not created on the heap. *)
Record object : Type := mk_object { static : bool; body : ipc_object }.

(** The heads of the lists a thread's [tlist] can be in: the ready list of a
    priority, the [suspend_thread] and [suspend_sender_thread] lists of an
    object, and [rt_thread_defunct]. *)
Inductive lname : Type :=
  | L_ready (priority : Z)
  | L_wait (obj : Z)
  | L_send (obj : Z)
  | L_defunct.

#[export] Instance lname_eq_dec : EqDecision lname.
Proof. solve_decision. Defined.

#[export] Instance lname_countable : Countable lname.
Proof.
  refine (inj_countable'
    (fun n => match n with
              | L_ready p => inl (inl p) | L_wait o => inl (inr o)
              | L_send o => inr (inl o) | L_defunct => inr (inr tt) end)
    (fun s => match s with
              | inl (inl p) => L_ready p | inl (inr o) => L_wait o
              | inr (inl o) => L_send o | inr (inr _) => L_defunct end) _).
  by intros [].
Defined.

(** The static variables of the kernel.  Threads and objects are named by
    their address; 0 is [RT_NULL]; [objs] holds the objects whose type is
    set; [lists] gives the threads of each list in
    order. *)
Record kernel : Type := mk_kernel {
  threads : gmap Z rt_thread;
  lists : gmap lname (list Z);
  objs : gmap Z object;
  ready_group : Z;
  lock_nest : Z;
  current : Z;
  cur_priority : Z;
  interrupt_nest : Z;
  tst : TimerOps.tstate
}.

Definition with_threads (k : kernel) (x : gmap Z rt_thread) : kernel :=
  mk_kernel x (lists k) (objs k) (ready_group k) (lock_nest k) (current k)
    (cur_priority k) (interrupt_nest k) (tst k).
Definition with_lists (k : kernel) (x : gmap lname (list Z)) : kernel :=
  mk_kernel (threads k) x (objs k) (ready_group k) (lock_nest k) (current k)
    (cur_priority k) (interrupt_nest k) (tst k).
Definition with_objs (k : kernel) (x : gmap Z object) : kernel :=
  mk_kernel (threads k) (lists k) x (ready_group k) (lock_nest k) (current k)
    (cur_priority k) (interrupt_nest k) (tst k).
Definition with_group (k : kernel) (x : Z) : kernel :=
  mk_kernel (threads k) (lists k) (objs k) x (lock_nest k) (current k)
    (cur_priority k) (interrupt_nest k) (tst k).
Definition with_lock (k : kernel) (x : Z) : kernel :=
  mk_kernel (threads k) (lists k) (objs k) (ready_group k) x (current k)
    (cur_priority k) (interrupt_nest k) (tst k).
Definition with_current (k : kernel) (x p : Z) : kernel :=
  mk_kernel (threads k) (lists k) (objs k) (ready_group k) (lock_nest k) x
    p (interrupt_nest k) (tst k).
Definition with_nest (k : kernel) (x : Z) : kernel :=
  mk_kernel (threads k) (lists k) (objs k) (ready_group k) (lock_nest k) (current k)
    (cur_priority k) x (tst k).
Definition with_tst (k : kernel) (x : TimerOps.tstate) : kernel :=
  mk_kernel (threads k) (lists k) (objs k) (ready_group k) (lock_nest k) (current k)
    (cur_priority k) (interrupt_nest k) x.

Definition with_stat (t : rt_thread) (x : Z) : rt_thread :=
  mk_thread x (current_priority t) (init_priority t) (number_mask t) (event_set t)
    (event_info t) (thread_init_tick t) (remaining_tick t) (error t) (systemobject t) (cleanup t) (typed t).
Definition with_priority (t : rt_thread) (p m : Z) : rt_thread :=
  mk_thread (stat t) p (init_priority t) m (event_set t)
    (event_info t) (thread_init_tick t) (remaining_tick t) (error t) (systemobject t) (cleanup t) (typed t).
Definition with_event (t : rt_thread) (s i : Z) : rt_thread :=
  mk_thread (stat t) (current_priority t) (init_priority t) (number_mask t) s
    i (thread_init_tick t) (remaining_tick t) (error t) (systemobject t) (cleanup t) (typed t).
Definition with_remaining (t : rt_thread) (x : Z) : rt_thread :=
  mk_thread (stat t) (current_priority t) (init_priority t) (number_mask t) (event_set t)
    (event_info t) (thread_init_tick t) x (error t) (systemobject t) (cleanup t) (typed t).
Definition with_error (t : rt_thread) (x : Z) : rt_thread :=
  mk_thread (stat t) (current_priority t) (init_priority t) (number_mask t) (event_set t)
    (event_info t) (thread_init_tick t) (remaining_tick t) x (systemobject t) (cleanup t) (typed t).

Definition with_typed (t : rt_thread) (x : bool) : rt_thread :=
  mk_thread (stat t) (current_priority t) (init_priority t) (number_mask t) (event_set t)
    (event_info t) (thread_init_tick t) (remaining_tick t) (error t) (systemobject t) (cleanup t) x.

(** [thread->stat & RT_THREAD_STAT_MASK] and
    [s | (thread->stat & ~RT_THREAD_STAT_MASK)]. *)
Definition stat_of (t : rt_thread) : Z := Z.land (stat t) RT_THREAD_STAT_MASK.
Definition set_stat (s : Z) (t : rt_thread) : rt_thread :=
  with_stat t (Z.lor s (Z.land (stat t) (u8 (Z.lnot RT_THREAD_STAT_MASK)))).

(** The timer that is the member [thread_timer] of a thread, and the name of
    its timeout function [rt_thread_timeout]. *)
Definition thread_timer (t : Z) : Z := - t.
Definition RT_THREAD_TIMEOUT : Z := 1.

Definition thread_at (k : kernel) (t : Z) : result rt_thread := deref (threads k !! t).

(** [RT_ASSERT (rt_object_get_type (thread) == RT_Object_Class_Thread)]. *)
Definition thread_obj (k : kernel) (t : Z) : result rt_thread :=
  x ← deref (threads k !! t);
  _ ← rt_assert (typed x);
  Ok x.

Definition put_thread (k : kernel) (t : Z) (x : rt_thread) : kernel :=
  with_threads k (<[t := x]> (threads k)).

Definition upd_thread (k : kernel) (t : Z) (f : rt_thread -> rt_thread) : result kernel :=
  x ← thread_at k t; Ok (put_thread k t (f x)).

(** *** The lists (RtList justifies these operations on the nodes) *)

Definition lst (k : kernel) (n : lname) : list Z := default [] (lists k !! n).

Definition put_list (k : kernel) (n : lname) (l : list Z) : kernel :=
  with_lists k (<[n := l]> (lists k)).

(** Whether the node of [t] is in some list. *)
Definition linked (k : kernel) (t : Z) : bool :=
  existsb (fun l : list Z => existsb (Z.eqb t) l) (map snd (map_to_list (lists k))).

(** [rt_list_remove (&thread->tlist)]. *)
Definition list_remove (k : kernel) (t : Z) : kernel :=
  with_lists k (filter (.≠ t) <$> lists k).

(** [rt_list_insert_before (head, &thread->tlist)]: append.  A node that is
    in a list already would leave that list broken. *)
Definition list_append (k : kernel) (n : lname) (t : Z) : result kernel :=
  if linked k t then Err F_wild else Ok (put_list k n (lst k n ++ [t])).

(** [rt_list_insert_after (head, &thread->tlist)]. *)
Definition list_prepend (k : kernel) (n : lname) (t : Z) : result kernel :=
  if linked k t then Err F_wild else Ok (put_list k n (t :: lst k n)).

(** [RT_DEBUG_NOT_IN_INTERRUPT] and [RT_DEBUG_IN_THREAD_CONTEXT]. *)
Definition not_in_interrupt (k : kernel) : result unit := rt_assert (interrupt_nest k =? 0).
Definition in_thread_context (k : kernel) : result unit :=
  _ ← rt_assert (negb (current k =? 0)); not_in_interrupt k.

Definition rt_interrupt_enter (k : kernel) : kernel := with_nest k (u8 (interrupt_nest k + 1)).
Definition rt_interrupt_leave (k : kernel) : kernel := with_nest k (u8 (interrupt_nest k - 1)).
Definition rt_interrupt_get_nest (k : kernel) : Z := interrupt_nest k.

End Kern.

Module Sched.
Import Kern.

Definition rt_system_scheduler_init (k : kernel) : kernel :=
  let ready := map (fun n => (L_ready (Z.of_nat n), [])) (seq 0 32) in
  with_lock (with_group (with_lists k (<[L_defunct := []]> (list_to_map ready ∪ lists k))) 0) 0.

(** The thread and its priority. *)
Definition _get_highest_priority_thread (k : kernel) : result (Z * Z) :=
  let p := Ffs.rt_ffs_cpu (ready_group k) - 1 in
  t ← deref (head (lst k (L_ready p)));
  Ok (t, p).

Definition rt_schedule_insert_thread (k : kernel) (t : Z) : result kernel :=
  x ← thread_at k t;
  if t =? current k then Ok (put_thread k t (set_stat RT_THREAD_RUNNING x))
  else
    let k := put_thread k t (set_stat RT_THREAD_READY x) in
    k ← list_append k (L_ready (current_priority x)) t;
    Ok (with_group k (Z.lor (ready_group k) (number_mask x))).

Definition rt_schedule_remove_thread (k : kernel) (t : Z) : result kernel :=
  x ← thread_at k t;
  let k := list_remove k t in
  match lst k (L_ready (current_priority x)) with
  | [] => Ok (with_group k (Z.land (ready_group k) (u32 (Z.lnot (number_mask x)))))
  | _ => Ok k
  end.

Definition rt_system_scheduler_start (k : kernel) : result kernel :=
  '(t, _) ← _get_highest_priority_thread k;
  let k := with_current k t (cur_priority k) in
  k ← rt_schedule_remove_thread k t;
  upd_thread k t (fun x => with_stat x RT_THREAD_RUNNING).

(** The thread to run next, and the state with the running thread's yield flag
    cleared when it has to go back to the ready list ([true]). *)
Definition pick (k : kernel) : result (kernel * Z * Z * bool) :=
  '(to, hp) ← _get_highest_priority_thread k;
  c ← thread_at k (current k);
  if stat_of c =? RT_THREAD_RUNNING then
    if current_priority c <? hp then Ok (k, current k, hp, false)
    else if (current_priority c =? hp) && (Z.land (stat c) RT_THREAD_STAT_YIELD =? 0)
    then Ok (k, current k, hp, false)
    else
      let c := with_stat c (Z.land (stat c) (u8 (Z.lnot RT_THREAD_STAT_YIELD))) in
      Ok (put_thread k (current k) c, to, hp, true)
  else Ok (k, to, hp, false).

Definition rt_schedule (k : kernel) : result kernel :=
  if negb (lock_nest k =? 0) then Ok k
  else if ready_group k =? 0 then Ok k
  else
    '(k, to, hp, need_insert) ← pick k;
    let from := current k in
    if negb (to =? from) then
      let k := with_current k to (u8 hp) in
      k ← (if need_insert : bool then rt_schedule_insert_thread k from else Ok k);
      k ← rt_schedule_remove_thread k to;
      upd_thread k to (set_stat RT_THREAD_RUNNING)
    else
      k ← rt_schedule_remove_thread k from;
      upd_thread k from (set_stat RT_THREAD_RUNNING).

Definition rt_enter_critical (k : kernel) : kernel := with_lock k (s16 (lock_nest k + 1)).

Definition rt_exit_critical (k : kernel) : result kernel :=
  let k := with_lock k (s16 (lock_nest k - 1)) in
  if lock_nest k <=? 0 then
    let k := with_lock k 0 in
    if negb (current k =? 0) then rt_schedule k else Ok k
  else Ok k.

Definition rt_critical_level (k : kernel) : Z := u16 (lock_nest k).

End Sched.

Module Thread.
Import Kern Sched.

Definition rt_thread_self (k : kernel) : Z := current k.

(** [rt_timer_stop (&thread->thread_timer)]; the result is not used. *)
Definition stop_timer (k : kernel) (t : Z) : result kernel :=
  '(s, _) ← TimerOps.rt_timer_stop (tst k) (thread_timer t); Ok (with_tst k s).

(** The new state and the status returned. *)
Definition rt_thread_suspend (k : kernel) (t : Z) : result (kernel * Z) :=
  x ← thread_obj k t;
  if negb (stat_of x =? RT_THREAD_READY) && negb (stat_of x =? RT_THREAD_RUNNING)
  then Ok (k, - RT_ERROR)
  else
    _ ← rt_assert (negb (stat_of x =? RT_THREAD_RUNNING) || (t =? rt_thread_self k));
    k ← rt_schedule_remove_thread k t;
    k ← upd_thread k t (set_stat RT_THREAD_SUSPEND);
    k ← stop_timer k t;
    Ok (k, RT_EOK).

Definition rt_thread_resume (k : kernel) (t : Z) : result (kernel * Z) :=
  x ← thread_obj k t;
  if negb (stat_of x =? RT_THREAD_SUSPEND) then Ok (k, - RT_ERROR)
  else
    let k := list_remove k t in
    k ← stop_timer k t;
    k ← rt_schedule_insert_thread k t;
    Ok (k, RT_EOK).

(** The timer thread, which soft timers wake. *)
Definition TIMER_THREAD : Z := 2.

Definition wake_timer (k : kernel) : result kernel :=
  x ← thread_at k TIMER_THREAD;
  if stat_of x =? RT_THREAD_SUSPEND
  then '(k, _) ← rt_thread_resume k TIMER_THREAD; rt_schedule k
  else Ok k.

(** The scheduler leaves the timers alone. *)
Lemma upd_thread_tst k t f k' : upd_thread k t f = Ok k' -> tst k' = tst k.
Proof. unfold upd_thread. destruct (thread_at k t); [|done]. by intros [= <-]. Qed.

Lemma insert_thread_tst k t k' : rt_schedule_insert_thread k t = Ok k' -> tst k' = tst k.
Proof.
  unfold rt_schedule_insert_thread, list_append. destruct (thread_at k t); [|done]. cbn [mbind result_bind].
  destruct (_ =? _); [by intros [= <-]|]. destruct (linked _ _); [done|]. by intros [= <-].
Qed.

Lemma remove_thread_tst k t k' : rt_schedule_remove_thread k t = Ok k' -> tst k' = tst k.
Proof.
  unfold rt_schedule_remove_thread. destruct (thread_at k t); [|done]. cbn [mbind result_bind].
  destruct (lst _ _); by intros [= <-].
Qed.

Lemma pick_tst k k' to hp b : pick k = Ok (k', to, hp, b) -> tst k' = tst k.
Proof.
  unfold pick. intros E. apply bind_Ok_inv in E as ([? ?] & _ & E). apply bind_Ok_inv in E as (? & _ & E).
  repeat case_match; by injection E as <-.
Qed.

Lemma schedule_tst k k' : rt_schedule k = Ok k' -> tst k' = tst k.
Proof.
  unfold rt_schedule. do 2 (destruct (_ =? _); cbn [negb]; [|try by intros [= <-]]); try by intros [= <-].
  intros E. apply bind_Ok_inv in E as ([[[k1 to] hp] b] & Hp%pick_tst & E).
  destruct (to =? current k1); cbn [negb] in E.
  - apply bind_Ok_inv in E as (k2 & H2%remove_thread_tst & E%upd_thread_tst). congruence.
  - apply bind_Ok_inv in E as (k2 & H2 & E). apply bind_Ok_inv in E as (k3 & H3%remove_thread_tst & E%upd_thread_tst).
    assert (tst k2 = tst k1) by (destruct b; [by apply insert_thread_tst in H2|by injection H2 as <-]). congruence.
Qed.

Lemma exit_critical_tst k k' : rt_exit_critical k = Ok k' -> tst k' = tst k.
Proof.
  unfold rt_exit_critical. destruct (_ <=? 0); [|by intros [= <-]].
  destruct (negb _); [intros E%schedule_tst; done|by intros [= <-]].
Qed.

#[export] Instance kernel_timers : TimerOps.HasTimers kernel := {|
  TimerOps.get_timers := tst;
  TimerOps.set_timers := with_tst;
  TimerOps.wake_timer_thread := wake_timer;
  TimerOps.enter_critical := rt_enter_critical;
  TimerOps.exit_critical := rt_exit_critical;
  TimerOps.get_set_timers _ _ := eq_refl;
  TimerOps.set_set_timers _ _ _ := eq_refl;
  TimerOps.enter_timers _ := eq_refl;
  TimerOps.exit_timers := exit_critical_tst
|}.

(** [rt_timer_control (&thread->thread_timer, SET_TIME, &tick)] and
    [rt_timer_start (&thread->thread_timer)]. *)
Definition start_timer (k : kernel) (t tick : Z) : result kernel :=
  '(s, _) ← TimerOps.rt_timer_control (tst k) (thread_timer t)
              TimerOps.RT_TIMER_CTRL_SET_TIME tick;
  TimerOps.rt_timer_start (with_tst k s) (thread_timer t).

Definition rt_thread_sleep (k : kernel) (tick : Z) : result kernel :=
  let t := rt_thread_self k in
  _ ← rt_assert (negb (t =? 0));
  _ ← thread_obj k t;
  '(k, _) ← rt_thread_suspend k t;
  k ← start_timer k t tick;
  rt_schedule k.

Definition rt_thread_sleep_wake (k : kernel) (t : Z) : result kernel :=
  upd_thread k t (fun x => if error x =? - RT_ETIMEOUT then with_error x RT_EOK else x).

Definition rt_thread_delay (k : kernel) (tick : Z) : result kernel := rt_thread_sleep k tick.
Definition rt_thread_mdelay (k : kernel) (ms : Z) : result kernel :=
  rt_thread_sleep k (TimerOps.rt_tick_from_millisecond ms).

(** The timeout function of thread timers.  For an object that is no thread
    any more it prints a name (not modelled) and sleeps, and then fails. *)
Definition rt_thread_timeout (k : kernel) (t : Z) : result kernel :=
  x ← thread_at k t;
  _ ← rt_assert (stat_of x =? RT_THREAD_SUSPEND);
  k ← (if negb (typed x) then rt_thread_mdelay k 500 else Ok k);
  x ← thread_obj k t;
  let k := put_thread k t (with_error x (- RT_ETIMEOUT)) in
  let k := list_remove k t in
  k ← rt_schedule_insert_thread k t;
  rt_schedule k.

(** [rt_thread_delay_until (&tick, inc_tick)]: the new [tick] and whether the
    thread went to sleep; after the sleep [rt_thread_sleep_wake] runs, and in
    both cases [tick] is then the current tick. *)
Definition rt_thread_delay_until (k : kernel) (tick inc_tick : Z) : result (kernel * Z * bool) :=
  let t := rt_thread_self k in
  _ ← rt_assert (negb (t =? 0));
  _ ← thread_obj k t;
  let now := TimerOps.rt_tick_get (tst k) in
  if u32 (now - tick) <? inc_tick then
    let tick := u32 (now - tick + inc_tick) in
    '(k, _) ← rt_thread_suspend k t;
    k ← start_timer k t tick;
    k ← rt_schedule k;
    Ok (k, tick, true)
  else Ok (k, now, false).

Definition rt_thread_yield (k : kernel) : result kernel := rt_schedule k.

Definition set_prio (p : Z) (x : rt_thread) : rt_thread :=
  with_priority x p (u32 (Z.shiftl 1 p)).

Definition rt_thread_startup (k : kernel) (t : Z) : result kernel :=
  x ← thread_obj k t;
  _ ← rt_assert (stat_of x =? RT_THREAD_INIT);
  let k := put_thread k t (with_stat (set_prio (init_priority x) x) RT_THREAD_SUSPEND) in
  '(k, _) ← rt_thread_resume k t;
  if negb (rt_thread_self k =? 0) then rt_schedule k else Ok k.

(** [RT_THREAD_CTRL_CHANGE_PRIORITY]. *)
Definition change_priority (k : kernel) (t prio : Z) : result kernel :=
  x ← thread_obj k t;
  if stat_of x =? RT_THREAD_READY then
    k ← rt_schedule_remove_thread k t;
    k ← upd_thread k t (set_prio prio);
    rt_schedule_insert_thread k t
  else Ok (put_thread k t (set_prio prio x)).

(** Close a thread: the common part of exit, detach and delete. *)
Definition close_thread (k : kernel) (t : Z) : result kernel :=
  s ← TimerOps.rt_timer_detach (tst k) (thread_timer t);
  upd_thread (with_tst k s) t (fun x => with_stat x RT_THREAD_CLOSE).

Definition retire (k : kernel) (t : Z) : result kernel :=
  x ← thread_at k t;
  if systemobject x && negb (cleanup x)
  then Ok (put_thread k t (with_typed x false))
  else list_prepend k L_defunct t.

Definition rt_thread_exit (k : kernel) : result kernel :=
  let t := rt_thread_self k in
  k ← rt_schedule_remove_thread k t;
  k ← close_thread k t;
  k ← retire k t;
  rt_schedule k.

Definition rt_thread_detach (k : kernel) (t : Z) : result kernel :=
  x ← thread_obj k t;
  _ ← rt_assert (systemobject x);
  k ← (if negb (stat_of x =? RT_THREAD_INIT) then rt_schedule_remove_thread k t else Ok k);
  k ← close_thread k t;
  retire k t.

Definition rt_thread_delete (k : kernel) (t : Z) : result kernel :=
  x ← thread_obj k t;
  _ ← rt_assert (negb (systemobject x));
  k ← (if negb (stat_of x =? RT_THREAD_INIT) then rt_schedule_remove_thread k t else Ok k);
  k ← close_thread k t;
  list_prepend k L_defunct t.

(** The commands of [rt_thread_control]. *)
Inductive thread_cmd : Type :=
  | RT_THREAD_CTRL_STARTUP
  | RT_THREAD_CTRL_CLOSE
  | RT_THREAD_CTRL_CHANGE_PRIORITY (prio : Z)
  | RT_THREAD_CTRL_OTHER.

Definition rt_thread_control (k : kernel) (t : Z) (cmd : thread_cmd) : result kernel :=
  _ ← thread_obj k t;
  match cmd with
  | RT_THREAD_CTRL_CHANGE_PRIORITY prio => change_priority k t (u8 prio)
  | RT_THREAD_CTRL_STARTUP => rt_thread_startup k t
  | RT_THREAD_CTRL_CLOSE => rt_thread_delete k t
  | RT_THREAD_CTRL_OTHER => Ok k
  end.

(** [rt_thread_init] and [rt_thread_create], less the stack and the names. *)
Definition _rt_thread_init (k : kernel) (t priority tick : Z) (static : bool) : result kernel :=
  _ ← rt_assert (priority <? RT_THREAD_PRIORITY_MAX);
  let x := mk_thread RT_THREAD_INIT priority priority 0 0 0 tick tick RT_EOK static false true in
  let s := TimerOps.rt_timer_init (tst k) (thread_timer t) RT_THREAD_TIMEOUT t 0 0 in
  Ok (with_tst (put_thread k t x) s).

Section Tick.
(** Timeout functions of user timers. *)
Variable user_call : Z -> Z -> kernel -> result kernel.

Definition timer_call (f p : Z) (k : kernel) : result kernel :=
  if f =? RT_THREAD_TIMEOUT then rt_thread_timeout k p else user_call f p k.

(** [rt_tick_increase]; fuel bounds the timeouts handled in one tick. *)
Definition rt_tick_increase (fuel : nat) (k : kernel) : result kernel :=
  let s := tst k in
  let k := with_tst k (TimerOps.with_tick s (u32 (TimerOps.rt_tick s + 1))) in
  let t := rt_thread_self k in
  x ← thread_at k t;
  let x := with_remaining x (u32 (remaining_tick x - 1)) in
  let k := put_thread k t x in
  k ← (if remaining_tick x =? 0 then
         let x := with_remaining x (thread_init_tick x) in
         let k := put_thread k t (with_stat x (Z.lor (stat x) RT_THREAD_STAT_YIELD)) in
         rt_thread_yield k
       else Ok k);
  TimerOps.rt_timer_check timer_call fuel k.

End Tick.

End Thread.
