(* ===== verification/KernelSpec.v ===== *)
(** * The scheduler's invariant and what the thread operations do

    [KernInv] states the invariant of the thread lists, with one thread
    exempted while an operation moves it, and proves it for each primitive
    step and for [rt_schedule]; [KernOk] adds the thread timers and proves the
    whole invariant [kernel_ok] for each operation. *)
From S2P Require Import Prelude CTypes KService Timer Kernel.
From stdpp Require Import base list gmap.
From Stdlib Require Import ZArith Lia.
Open Scope Z_scope.

Module KernInv.
Import Kern Sched Thread.

(** *** Lists of threads *)

Lemma lst_put_list k n l m : lst (put_list k n l) m = if decide (n = m) then l else lst k m.
Proof. unfold lst, put_list. cbn. rewrite lookup_insert. by case_decide. Qed.

Lemma lst_remove k t n : lst (list_remove k t) n = filter (.≠ t) (lst k n).
Proof. unfold lst, list_remove. cbn. rewrite lookup_fmap. by destruct (lists k !! n). Qed.

Lemma linked_spec k t : linked k t = true <-> exists n, t ∈ lst k n.
Proof.
  unfold linked. rewrite existsb_exists. split.
  - intros (l & Hl & Ht). apply existsb_exists in Ht as (u & Hu & ->%Z.eqb_eq).
    apply in_map_iff in Hl as ([n l'] & <- & Hin).
    apply list_elem_of_In, elem_of_map_to_list in Hin. exists n. unfold lst. rewrite Hin.
    by apply list_elem_of_In.
  - intros [n Ht]. unfold lst in Ht. destruct (lists k !! n) as [l|] eqn:E; [|by inversion Ht].
    exists l. split; [|apply existsb_exists; exists t; split; [by apply list_elem_of_In|by apply Z.eqb_eq]].
    apply in_map_iff. exists (n, l). split; [done|]. by apply list_elem_of_In, elem_of_map_to_list.
Qed.

Lemma unlinked k t : (forall n, t ∉ lst k n) -> linked k t = false.
Proof.
  intros H. apply not_true_iff_false. intros [n Hn]%linked_spec. by apply (H n).
Qed.

Lemma filter_absent t (l : list Z) : t ∉ l -> filter (.≠ t) l = l.
Proof. apply TimerThms.filter_notin. Qed.

Lemma lst_remove_absent k t n : t ∉ lst k n -> lst (list_remove k t) n = lst k n.
Proof. intros H. rewrite lst_remove. by apply filter_absent. Qed.

Lemma elem_of_removed k t n u : u ∈ lst (list_remove k t) n <-> u <> t /\ u ∈ lst k n.
Proof. rewrite lst_remove. by rewrite list_elem_of_filter. Qed.

(** *** Priority bits *)

Lemma bit_set g p q : 0 <= p -> 0 <= q ->
  Z.testbit (Z.lor g (2 ^ p)) q = Z.testbit g q || (q =? p).
Proof.
  intros Hp Hq. rewrite Z.lor_spec. f_equal. rewrite Z.pow2_bits_eqb by done.
  by rewrite Z.eqb_sym.
Qed.

Lemma bit_clear g p q : 0 <= p < 32 -> 0 <= q < 32 ->
  Z.testbit (Z.land g (u32 (Z.lnot (2 ^ p)))) q = Z.testbit g q && negb (q =? p).
Proof.
  intros Hp Hq. rewrite Z.land_spec. f_equal. unfold u32.
  change 4294967296 with (2 ^ 32). rewrite Z.mod_pow2_bits_low by lia.
  rewrite Z.lnot_spec, Z.pow2_bits_eqb by lia. by rewrite Z.eqb_sym.
Qed.

Lemma group_or g p : 0 <= g < 4294967296 -> 0 <= p < 32 ->
  0 <= Z.lor g (2 ^ p) < 4294967296.
Proof.
  intros Hg Hp. assert (0 <= 2 ^ p) by (apply Z.pow_nonneg; lia).
  split; [apply Z.lor_nonneg; lia|].
  destruct (Z.eq_dec (Z.lor g (2 ^ p)) 0) as [->|Hnz]; [lia|].
  change 4294967296 with (2 ^ 32). apply Z.log2_lt_pow2; [pose proof (proj2 (Z.lor_nonneg g (2 ^ p)) ltac:(lia)); lia|].
  rewrite Z.log2_lor by lia. rewrite Z.log2_pow2 by lia.
  destruct (Z.eq_dec g 0) as [->|]; [cbn; lia|].
  assert (Z.log2 g < 32) by (apply Z.log2_lt_pow2; change (2 ^ 32) with 4294967296; lia).
  lia.
Qed.

Lemma group_and g m : 0 <= g < 4294967296 -> 0 <= Z.land g m < 4294967296.
Proof.
  intros Hg. split; [apply Z.land_nonneg; lia|].
  assert (E : Z.land g m = Z.land (Z.land g m) (Z.ones 32)).
  { rewrite <- Z.land_assoc, (Z.land_comm m), Z.land_assoc, Z.land_ones by lia.
    rewrite Z.mod_small; [done|]. change (2 ^ 32) with 4294967296. lia. }
  rewrite E, Z.land_ones by lia. change (2 ^ 32) with 4294967296. dlia.
Qed.

(** *** The invariant

    [ex] is a thread that is being moved: it is in no list, and the lists need
    not match its status; 0 exempts none. *)
Definition mask_ok (x : rt_thread) : Prop :=
  0 <= current_priority x < 32 /\
  (stat_of x <> RT_THREAD_INIT -> number_mask x = 2 ^ current_priority x) /\
  (stat_of x <> RT_THREAD_CLOSE -> typed x = true).

(** The same thread with another status or error code. *)
Lemma mask_ok_like x y : mask_ok x -> current_priority y = current_priority x ->
  number_mask y = number_mask x -> typed y = typed x ->
  stat_of x <> RT_THREAD_INIT -> stat_of x <> RT_THREAD_CLOSE -> mask_ok y.
Proof.
  intros (Hp & Hm & Ht) E1 E2 E3 Hi Hc. unfold mask_ok. rewrite E1, E2, E3.
  split_and!; [lia..|intros _; auto|intros _; auto].
Qed.

Definition waiting (k : kernel) (t : Z) : Prop :=
  exists o, t ∈ lst k (L_wait o) \/ t ∈ lst k (L_send o).

Record sched_inv (ex : Z) (k : kernel) : Prop := {
  si_group : 0 <= ready_group k < 4294967296;
  si_bits : forall p, 0 <= p < 32 ->
    Z.testbit (ready_group k) p = negb (bool_decide (lst k (L_ready p) = []));
  si_ready : forall p t, t ∈ lst k (L_ready p) ->
    exists x, threads k !! t = Some x /\ current_priority x = p /\ stat_of x = RT_THREAD_READY;
  si_nodup : forall n, NoDup (lst k n);
  si_one : forall n m t, t ∈ lst k n -> t ∈ lst k m -> n = m;
  si_ex : forall n, ex ∉ lst k n;
  si_null : threads k !! 0 = None /\ forall n, 0 ∉ lst k n;
  si_listed : forall t x, t <> ex -> threads k !! t = Some x -> stat_of x = RT_THREAD_READY ->
    t ∈ lst k (L_ready (current_priority x));
  si_running : forall t x, t <> ex -> threads k !! t = Some x -> stat_of x = RT_THREAD_RUNNING ->
    t = current k /\ forall n, t ∉ lst k n;
  si_mask : forall t x, threads k !! t = Some x -> mask_ok x;
  si_wait : forall t, waiting k t ->
    exists x, threads k !! t = Some x /\ stat_of x = RT_THREAD_SUSPEND
}.

(** The parts of the state that moving threads leaves alone. *)
Definition same_env (k k' : kernel) : Prop :=
  lock_nest k' = lock_nest k /\ interrupt_nest k' = interrupt_nest k /\
  tst k' = tst k /\ objs k' = objs k.

Lemma same_env_refl k : same_env k k.
Proof. by split_and!. Qed.

Lemma same_env_trans k1 k2 k3 : same_env k1 k2 -> same_env k2 k3 -> same_env k1 k3.
Proof. unfold same_env. intuition congruence. Qed.

(** *** Status words *)

Lemma stat_set s x : 0 <= s < 8 -> stat_of (set_stat s x) = s.
Proof.
  intros Hs. unfold stat_of, set_stat, RT_THREAD_STAT_MASK. cbn [stat with_stat].
  rewrite Z.land_lor_distr_l, <- Z.land_assoc. change (Z.land (u8 (Z.lnot 7)) 7) with 0.
  rewrite Z.land_0_r, Z.lor_0_r. change 7 with (Z.ones 3). rewrite Z.land_ones by lia.
  change (2 ^ 3) with 8. dlia.
Qed.

Lemma stat_clear_yield x :
  stat_of (with_stat x (Z.land (stat x) (u8 (Z.lnot RT_THREAD_STAT_YIELD)))) = stat_of x.
Proof. unfold stat_of, RT_THREAD_STAT_MASK. cbn [stat with_stat]. by rewrite <- Z.land_assoc. Qed.

(** *** The primitive steps *)

Lemma thread_at_Ok k t x : threads k !! t = Some x -> thread_at k t = Ok x.
Proof. unfold thread_at. by intros ->. Qed.

Lemma upd_thread_Ok k t x f : threads k !! t = Some x -> upd_thread k t f = Ok (put_thread k t (f x)).
Proof. intros E. unfold upd_thread. by rewrite (thread_at_Ok _ _ _ E). Qed.

Lemma lst_put_thread k t x n : lst (put_thread k t x) n = lst k n.
Proof. done. Qed.

(** Taking a thread out of its list. *)
Lemma remove_inv ex k t x :
  sched_inv ex k -> threads k !! t = Some x -> stat_of x <> RT_THREAD_INIT ->
  ex = 0 \/ ex = t -> t <> 0 ->
  exists k', rt_schedule_remove_thread k t = Ok k' /\ sched_inv t k' /\
    threads k' = threads k /\ current k' = current k /\ cur_priority k' = cur_priority k /\
    same_env k k' /\ forall n, lst k' n = filter (.≠ t) (lst k n).
Proof.
  intros I Ex Hinit Hex Ht0. unfold rt_schedule_remove_thread. rewrite (thread_at_Ok _ _ _ Ex).
  cbn [mbind result_bind]. destruct (si_mask _ _ I t x Ex) as (Hp & Hm & _). specialize (Hm Hinit).
  set (k1 := list_remove k t).
  assert (Hl1 : forall n, lst k1 n = filter (.≠ t) (lst k n)) by (intros n; apply lst_remove).
  assert (Hother : forall p, 0 <= p < 32 -> p <> current_priority x -> lst k1 (L_ready p) = lst k (L_ready p)).
  { intros p _ Hne. rewrite Hl1. apply filter_absent. intros Hin.
    destruct (si_ready _ _ I p t Hin) as (y & Ey & Hy & _). rewrite Ex in Ey. injection Ey as <-. done. }
  set (g := match lst k1 (L_ready (current_priority x)) with
            | [] => Z.land (ready_group k) (u32 (Z.lnot (number_mask x)))
            | _ => ready_group k end).
  assert (Er : match lst k1 (L_ready (current_priority x)) with
    | [] => Ok (with_group k1 (Z.land (ready_group k1) (u32 (Z.lnot (number_mask x)))))
    | _ :: _ => Ok k1 end = Ok (with_group k1 g)).
  { subst g. destruct (lst k1 _); [done|]. by destruct k. }
  rewrite Er. eexists. split; [reflexivity|].
  split; [|by split_and!].
  assert (Hbits : forall p, 0 <= p < 32 ->
    Z.testbit g p = negb (bool_decide (lst k1 (L_ready p) = []))).
  { intros p Hpr. subst g. destruct (decide (p = current_priority x)) as [->|Hne].
    - destruct (lst k1 (L_ready (current_priority x))) as [|y l] eqn:El.
      + rewrite Hm, bit_clear, Z.eqb_refl by lia. cbn. apply andb_false_r.
      + rewrite (si_bits _ _ I) by lia. cbn. rewrite Hl1 in El.
        destruct (lst k (L_ready (current_priority x))); [done|]. done.
    - rewrite (Hother p) by done. rewrite <- (si_bits _ _ I) by done.
      destruct (lst k1 (L_ready (current_priority x))); [|done].
      rewrite Hm, bit_clear by lia. by rewrite (proj2 (Z.eqb_neq _ _)), andb_true_r by done. }
  assert (Hsub : forall n u, u ∈ lst k1 n -> u <> t /\ u ∈ lst k n)
    by (intros n u; rewrite Hl1; by rewrite list_elem_of_filter).
  constructor; cbn [ready_group with_group lists threads current]; try exact Hbits;
    change (lst (with_group k1 g)) with (lst k1); change (threads k1) with (threads k).
  - subst g. destruct (lst k1 _); [|apply (si_group _ _ I)]. apply group_and, (si_group _ _ I).
  - intros p u [_ Hu]%Hsub. by apply (si_ready _ _ I).
  - intros n. rewrite Hl1. apply NoDup_filter, (si_nodup _ _ I).
  - intros n m u [_ Hn]%Hsub [_ Hm']%Hsub. by apply (si_one _ _ I n m u).
  - intros n [Hn _]%Hsub. done.
  - split; [apply (si_null _ _ I)|]. intros n [_ Hn]%Hsub. by apply (proj2 (si_null _ _ I) n).
  - intros u y Hu Ey Hs. rewrite Hl1. apply list_elem_of_filter. split; [done|].
    apply (si_listed _ _ I); [|done|done]. destruct Hex as [->| ->]; [|done].
    intros ->. by rewrite (proj1 (si_null _ _ I)) in Ey.
  - intros u y Hu Ey Hs. destruct (si_running _ _ I u y) as [Hc Hn]; try done.
    { destruct Hex as [->| ->]; [|done]. intros ->. by rewrite (proj1 (si_null _ _ I)) in Ey. }
    split; [done|]. intros n [_ Hin]%Hsub. by apply (Hn n).
  - intros u y Ey. by apply (si_mask _ _ I u).
  - intros u [o Ho]. apply (si_wait _ _ I). exists o.
    destruct Ho as [[_ Ho]%Hsub|[_ Ho]%Hsub]; [by left|by right].
Qed.

(** Changing the thread that is being moved. *)
Lemma put_inv k t y :
  sched_inv t k -> t <> 0 -> mask_ok y -> sched_inv t (put_thread k t y).
Proof.
  intros I Ht Hy.
  assert (Hne : forall n u, u ∈ lst k n -> u <> t) by (intros n u Hu ->; by apply (si_ex _ _ I n)).
  constructor; cbn [ready_group put_thread with_threads threads current];
    change (lst (put_thread k t y)) with (lst k); try apply I.
  - intros p u Hu. rewrite lookup_insert_ne by (by apply not_eq_sym, (Hne _ _ Hu)).
    by apply (si_ready _ _ I).
  - rewrite lookup_insert_ne by done. apply I.
  - intros u x Hu. rewrite lookup_insert_ne by done. by apply (si_listed _ _ I).
  - intros u x Hu. rewrite lookup_insert_ne by done. by apply (si_running _ _ I).
  - intros u x. rewrite lookup_insert. case_decide; [by intros [= <-]|]. apply (si_mask _ _ I).
  - intros u Hu. rewrite lookup_insert_ne; [by apply (si_wait _ _ I)|].
    intros <-. destruct Hu as [o [Ho|Ho]]; by apply Hne in Ho.
Qed.

(** The move ends with the thread in no list ... *)
Lemma settle_inv k t x :
  sched_inv t k -> threads k !! t = Some x -> stat_of x <> RT_THREAD_READY ->
  (stat_of x = RT_THREAD_RUNNING -> t = current k) -> sched_inv 0 k.
Proof.
  intros I Ex Hr Hrun. constructor; try apply I.
  - intros u y _ Ey Hs. destruct (decide (u = t)) as [->|Hu]; [|by apply (si_listed _ _ I)].
    rewrite Ex in Ey. by injection Ey as <-.
  - intros u y _ Ey Hs. destruct (decide (u = t)) as [->|Hu]; [|by apply (si_running _ _ I u y)].
    rewrite Ex in Ey. injection Ey as <-. split; [by apply Hrun|apply (si_ex _ _ I)].
Qed.

(** ... or appended to a list of suspended threads ... *)
Lemma append_wait_inv k t x n :
  sched_inv t k -> threads k !! t = Some x -> stat_of x = RT_THREAD_SUSPEND -> t <> 0 ->
  (exists o, n = L_wait o \/ n = L_send o) ->
  forall l1 l2, lst k n = l1 ++ l2 -> sched_inv 0 (put_list k n (l1 ++ t :: l2)).
Proof.
  intros I Ex Hs Ht0 Hn l1 l2 El.
  assert (Hl : forall m, lst (put_list k n (l1 ++ t :: l2)) m =
    if decide (n = m) then l1 ++ t :: l2 else lst k m) by (intros m; apply lst_put_list).
  assert (Hin : forall m u, u ∈ lst (put_list k n (l1 ++ t :: l2)) m ->
    u ∈ lst k m \/ (u = t /\ m = n)).
  { intros m u. rewrite Hl. case_decide as Hd; [subst m|by left]. rewrite El.
    rewrite elem_of_app, elem_of_cons, elem_of_app. tauto. }
  assert (Hr : forall p, n <> L_ready p) by (destruct Hn as [o [-> | ->]]; done).
  constructor; cbn [ready_group put_list with_lists threads current]; try apply I.
  - intros p Hp. rewrite Hl, decide_False by done. by apply (si_bits _ _ I).
  - intros p u Hu. rewrite Hl, decide_False in Hu by done. by apply (si_ready _ _ I).
  - intros m. rewrite Hl. case_decide as Hd; [subst m|apply (si_nodup _ _ I)].
    rewrite <- Permutation_middle, <- El. constructor; [apply (si_ex _ _ I)|apply (si_nodup _ _ I)].
  - intros m m' u [Hu|[Eu En]]%Hin [Hu'|[Eu' En']]%Hin; subst;
      [by apply (si_one _ _ I m m' u)| | |done].
    + by apply (si_ex _ _ I) in Hu.
    + by apply (si_ex _ _ I) in Hu'.
  - intros m [Hu|[Hu _]]%Hin; [by apply (proj2 (si_null _ _ I)) in Hu|done].
  - split; [apply (si_null _ _ I)|]. intros m [Hu|[Hu _]]%Hin; [by apply (proj2 (si_null _ _ I)) in Hu|done].
  - intros u y _ Ey Hy. rewrite Hl, decide_False by done. apply (si_listed _ _ I); try done.
    intros ->. rewrite Ex in Ey. injection Ey as <-. by rewrite Hs in Hy.
  - intros u y _ Ey Hy. assert (Hut : u <> t).
    { intros ->. rewrite Ex in Ey. injection Ey as <-. by rewrite Hs in Hy. }
    destruct (si_running _ _ I u y Hut Ey Hy) as [Hc Hno]. split; [done|].
    intros m [Hu|[Hu _]]%Hin; [by apply (Hno m)|done].
  - intros u [o Ho].
    assert (Hu : waiting k u \/ u = t).
    { destruct Ho as [Ho|Ho]; apply Hin in Ho as [Ho|[-> _]]; try (by right); left; exists o; eauto. }
    destruct Hu as [Hu| ->]; [by apply (si_wait _ _ I)|by exists x].
Qed.

(** ... or in the ready list of its priority. *)
Lemma insert_inv k t x :
  sched_inv t k -> threads k !! t = Some x -> t <> 0 -> t <> current k ->
  number_mask x = 2 ^ current_priority x -> typed x = true ->
  exists k', rt_schedule_insert_thread k t = Ok k' /\ sched_inv 0 k' /\
    threads k' = <[t := set_stat RT_THREAD_READY x]> (threads k) /\
    current k' = current k /\ cur_priority k' = cur_priority k /\ same_env k k' /\
    (forall n, lst k' n = if decide (n = L_ready (current_priority x))
                          then lst k n ++ [t] else lst k n).
Proof.
  intros I Ex Ht0 Hc Hm Hty. unfold rt_schedule_insert_thread. rewrite (thread_at_Ok _ _ _ Ex).
  cbn [mbind result_bind]. rewrite (proj2 (Z.eqb_neq _ _)) by done.
  set (k1 := put_thread k t _). set (p := current_priority x) in *.
  pose proof (si_mask _ _ I t x Ex) as Hmask. pose proof (proj1 Hmask) as Hp. fold p in Hp.
  unfold list_append. rewrite (unlinked k1) by (apply (si_ex _ _ I)).
  cbn [mbind result_bind]. eexists. split; [reflexivity|].
  set (k' := with_group _ _).
  assert (Hl : forall n, lst k' n = if decide (n = L_ready p) then lst k n ++ [t] else lst k n).
  { intros n. subst k'. transitivity (lst (put_list k1 (L_ready p) (lst k1 (L_ready p) ++ [t])) n); [done|].
    rewrite lst_put_list. destruct (decide (L_ready p = n)) as [<-|Hd].
    - by rewrite decide_True.
    - by rewrite decide_False by (by apply not_eq_sym). }
  split; [|by split_and!].
  assert (Hin : forall n u, u ∈ lst k' n -> u ∈ lst k n \/ (u = t /\ n = L_ready p)).
  { intros n u. rewrite Hl. case_decide as Hd; [subst n|by left].
    rewrite elem_of_app, list_elem_of_singleton. tauto. }
  assert (Hs : stat_of (set_stat RT_THREAD_READY x) = RT_THREAD_READY)
    by (apply stat_set; unfold RT_THREAD_READY; lia).
  constructor; cbn [k' ready_group with_group put_list with_lists k1 put_thread with_threads threads current].
  - rewrite Hm. apply group_or; [apply (si_group _ _ I)|done].
  - intros q Hq. rewrite Hl, Hm, bit_set by lia. rewrite (si_bits _ _ I) by done.
    case_decide as Hd.
    + injection Hd as ->. rewrite Z.eqb_refl, orb_true_r. by destruct (lst k _).
    + rewrite (proj2 (Z.eqb_neq _ _)), orb_false_r; [done|]. congruence.
  - intros q u [Hu|[-> Hq]]%Hin.
    + rewrite lookup_insert_ne; [by apply (si_ready _ _ I)|]. intros <-. by apply (si_ex _ _ I) in Hu.
    + injection Hq as ->. exists (set_stat RT_THREAD_READY x). by rewrite lookup_insert_eq.
  - intros n. rewrite Hl. case_decide as Hd; [|apply (si_nodup _ _ I)].
    apply NoDup_app. split_and!; [apply (si_nodup _ _ I)| |apply NoDup_singleton].
    intros u Hu ->%list_elem_of_singleton. by apply (si_ex _ _ I) in Hu.
  - intros n m u [Hu|[Eu En]]%Hin [Hu'|[Eu' En']]%Hin;
      [by apply (si_one _ _ I n m u)|subst u|subst u|congruence].
    + by apply (si_ex _ _ I) in Hu.
    + by apply (si_ex _ _ I) in Hu'.
  - intros n [Hu|[Hu _]]%Hin; [by apply (proj2 (si_null _ _ I)) in Hu|done].
  - split; [rewrite lookup_insert_ne by done; apply (si_null _ _ I)|].
    intros n [Hu|[Hu _]]%Hin; [by apply (proj2 (si_null _ _ I)) in Hu|done].
  - intros u y _. rewrite lookup_insert. case_decide as Hd.
    + intros [= <-] _. subst u. rewrite Hl, decide_True by done. apply elem_of_app. right. by left.
    + intros Ey Hy. rewrite Hl. pose proof (si_listed _ _ I u y (not_eq_sym Hd) Ey Hy) as Hu.
      case_decide; [apply elem_of_app; by left|done].
  - intros u y _. rewrite lookup_insert. case_decide as Hd.
    + intros [= <-]. by rewrite Hs.
    + intros Ey Hy. destruct (si_running _ _ I u y (not_eq_sym Hd) Ey Hy) as [Hcu Hno].
      split; [done|]. intros n [Hu|[-> _]]%Hin; [by apply (Hno n)|done].
  - intros u y. rewrite lookup_insert. case_decide as Hd; [intros [= <-]|apply (si_mask _ _ I)].
    split_and!; [apply Hp|apply Hp|intros _; exact Hm|intros _; exact Hty].
  - intros u [o Ho]. assert (Hu : waiting k u).
    { exists o. destruct Ho as [Ho|Ho]; apply Hin in Ho as [Ho|[_ Ho]]; try done; eauto. }
    rewrite lookup_insert_ne; [by apply (si_wait _ _ I)|]. intros <-.
    destruct Hu as [o' [Hu|Hu]]; by apply (si_ex _ _ I) in Hu.
Qed.

(** *** [rt_schedule] *)

(** Ready or running. *)
Definition active (x : rt_thread) : Prop :=
  stat_of x = RT_THREAD_READY \/ stat_of x = RT_THREAD_RUNNING.

(** Thread [y] is [x] with another status, both of them active, or [x]. *)
Definition only_stat (x y : rt_thread) : Prop :=
  y = with_stat x (stat y) /\ (y = x \/ (active x /\ active y)).

Lemma only_stat_refl x : only_stat x x.
Proof. split; [by destruct x|by left]. Qed.

Lemma only_stat_trans x y z : only_stat x y -> only_stat y z -> only_stat x z.
Proof.
  unfold only_stat. intros [E1 H1] [E2 H2]. split; [by rewrite E2, E1|].
  destruct H1 as [->|[??]], H2 as [->|[??]]; tauto.
Qed.

Lemma only_stat_set s x : active x -> s = RT_THREAD_READY \/ s = RT_THREAD_RUNNING ->
  only_stat x (set_stat s x).
Proof.
  intros Hx Hs. split; [done|]. right. split; [done|]. unfold active.
  rewrite !stat_set; [done|]. unfold RT_THREAD_READY, RT_THREAD_RUNNING in *. lia.
Qed.

(** All threads keep everything but their status. *)
Definition threads_kept (k k' : kernel) : Prop :=
  forall u, match threads k !! u with
            | Some y => exists y', threads k' !! u = Some y' /\ only_stat y y'
            | None => threads k' !! u = None
            end.

Lemma threads_kept_refl k k' : threads k' = threads k -> threads_kept k k'.
Proof.
  intros E u. rewrite E. destruct (threads k !! u) as [y|]; [|done].
  exists y. split; [done|apply only_stat_refl].
Qed.

Lemma threads_kept_trans k1 k2 k3 :
  threads_kept k1 k2 -> threads_kept k2 k3 -> threads_kept k1 k3.
Proof.
  intros H1 H2 u. specialize (H1 u). specialize (H2 u).
  destruct (threads k1 !! u) as [y|].
  - destruct H1 as (y' & E & Hy). rewrite E in H2. destruct H2 as (y'' & E' & Hy').
    exists y''. split; [done|]. by eapply only_stat_trans.
  - by rewrite H1 in H2.
Qed.

Lemma threads_kept_insert k k' t x y :
  threads k !! t = Some x -> only_stat x y -> threads k' = <[t := y]> (threads k) ->
  threads_kept k k'.
Proof.
  intros Ex Hy E u. rewrite E, lookup_insert. case_decide as Hd.
  - subst u. rewrite Ex. by exists y.
  - destruct (threads k !! u) as [z|]; [|done]. exists z. split; [done|apply only_stat_refl].
Qed.

(** The running thread is in no list and may be exempted. *)
Lemma exempt_inv k t x : sched_inv 0 k -> threads k !! t = Some x ->
  (forall n, t ∉ lst k n) -> sched_inv t k.
Proof.
  intros I Ex Hno. assert (Hnz : forall u y, threads k !! u = Some y -> u <> 0).
  { intros u y Ey ->. by rewrite (proj1 (si_null _ _ I)) in Ey. }
  constructor; try apply I; try done.
  - intros u y _ Ey. exact (si_listed _ _ I u y (Hnz u y Ey) Ey).
  - intros u y _ Ey. exact (si_running _ _ I u y (Hnz u y Ey) Ey).
Qed.

Lemma current_inv ex k to p : sched_inv ex k ->
  (forall u x, u <> ex -> threads k !! u = Some x -> stat_of x <> RT_THREAD_RUNNING) ->
  sched_inv ex (with_current k to p).
Proof. intros I H. constructor; try apply I. intros u x Hu Ex Hs. by destruct (H u x Hu Ex). Qed.

(** Switching to a thread: out of its list and running. *)
Lemma run_inv ex k t x :
  sched_inv ex k -> ex = 0 \/ ex = t -> threads k !! t = Some x -> t <> 0 ->
  active x -> current k = t ->
  exists k', (k ← rt_schedule_remove_thread k t; upd_thread k t (set_stat RT_THREAD_RUNNING)) = Ok k' /\
    sched_inv 0 k' /\ threads k' = <[t := set_stat RT_THREAD_RUNNING x]> (threads k) /\
    current k' = t /\ cur_priority k' = cur_priority k /\ same_env k k' /\
    (forall n, lst k' n = filter (.≠ t) (lst k n)).
Proof.
  intros I Hex Ex Ht0 Ha Hc.
  assert (Hi : stat_of x <> RT_THREAD_INIT) by by destruct Ha as [-> | ->].
  assert (Hcl : stat_of x <> RT_THREAD_CLOSE) by by destruct Ha as [-> | ->].
  destruct (remove_inv ex k t x I Ex Hi Hex Ht0) as (k1 & -> & I1 & Et & Ec & Ep & Hs & Hl).
  cbn [mbind result_bind]. rewrite (upd_thread_Ok _ _ x) by (by rewrite Et).
  assert (Hst : stat_of (set_stat RT_THREAD_RUNNING x) = RT_THREAD_RUNNING)
    by (apply stat_set; unfold RT_THREAD_RUNNING; lia).
  eexists. split; [reflexivity|]. split.
  - apply (settle_inv _ t (set_stat RT_THREAD_RUNNING x)).
    + apply put_inv; [done|done|]. by apply (mask_ok_like x); [by apply (si_mask _ _ I t)|..].
    + apply lookup_insert_eq.
    + by rewrite Hst.
    + intros _. cbn. by rewrite Ec.
  - cbn. rewrite Et, Ec. by split_and!.
Qed.

(** The head of the first ready list that is not empty. *)
Lemma highest_spec k : sched_inv 0 k -> ready_group k <> 0 ->
  exists t x p, _get_highest_priority_thread k = Ok (t, p) /\ 0 <= p < 32 /\
    head (lst k (L_ready p)) = Some t /\
    threads k !! t = Some x /\ current_priority x = p /\ stat_of x = RT_THREAD_READY /\ t <> 0 /\
    (forall u y, threads k !! u = Some y -> stat_of y = RT_THREAD_READY -> p <= current_priority y).
Proof.
  intros I Hg. pose proof (si_group _ _ I) as Hr.
  destruct (Ffs.rt_ffs_cpu_lowest (ready_group k)) as (p & E & (Hp0 & Hb & Hlow) & Hp); [lia|].
  unfold _get_highest_priority_thread. rewrite E. replace (p + 1 - 1) with p by lia.
  rewrite (si_bits _ _ I) in Hb by lia. apply negb_true_iff, bool_decide_eq_false in Hb.
  destruct (lst k (L_ready p)) as [|t l] eqn:El; [done|]. cbn.
  destruct (si_ready _ _ I p t) as (x & Ex & Hx & Hs); [rewrite El; by left|].
  exists t, x, p. split_and!; try done.
  - by rewrite El.
  - intros ->. by rewrite (proj1 (si_null _ _ I)) in Ex.
  - intros u y Ey Hy. destruct (Z.le_gt_cases p (current_priority y)) as [|Hlt]; [done|exfalso].
    assert (Hu0 : u <> 0) by (intros ->; by rewrite (proj1 (si_null _ _ I)) in Ey).
    pose proof (si_listed _ _ I u y Hu0 Ey Hy) as Hin.
    destruct (si_mask _ _ I u y Ey) as [Hyp _].
    specialize (Hlow (current_priority y) ltac:(lia)). rewrite (si_bits _ _ I) in Hlow by lia.
    apply negb_false_iff, bool_decide_eq_true in Hlow. rewrite Hlow in Hin. by inversion Hin.
Qed.

(** Whether the running thread keeps the processor against priority [p]. *)
Definition keeps (c : rt_thread) (p : Z) : bool :=
  (stat_of c =? RT_THREAD_RUNNING) &&
  ((current_priority c <? p) ||
   ((current_priority c =? p) && (Z.land (stat c) RT_THREAD_STAT_YIELD =? 0))).

(** What a call of [rt_schedule] with the scheduler unlocked leads to. *)
Definition scheduled (k k' : kernel) (t p : Z) (c : rt_thread) : Prop :=
  sched_inv 0 k' /\ same_env k k' /\ threads_kept k k' /\
  current k' = (if keeps c p then current k else t) /\ current k' <> 0 /\
  (exists x, threads k' !! current k' = Some x /\ stat_of x = RT_THREAD_RUNNING) /\
  (forall n, (forall q, n <> L_ready q) -> lst k' n = filter (.≠ current k') (lst k n)) /\
  (forall q, lst k' (L_ready q) =
     filter (.≠ current k') (lst k (L_ready q)) ++
     (if (stat_of c =? RT_THREAD_RUNNING) && negb (keeps c p) && (q =? current_priority c)
      then [current k] else [])).

Lemma schedule_keep k c t p :
  sched_inv 0 k -> threads k !! current k = Some c -> current k <> 0 ->
  stat_of c <> RT_THREAD_INIT -> keeps c p = true ->
  exists k', (j ← rt_schedule_remove_thread k (current k);
              upd_thread j (current k) (set_stat RT_THREAD_RUNNING)) = Ok k' /\
    scheduled k k' t p c.
Proof.
  intros I Ec Hc0 Hi Hk.
  assert (Ha : active c) by (right; by apply andb_true_iff in Hk as [?%Z.eqb_eq _]).
  destruct (run_inv 0 k (current k) c I (or_introl eq_refl) Ec Hc0 Ha eq_refl)
    as (k' & -> & I' & Et & Ecur & _ & Hs & Hl).
  exists k'. split; [done|]. unfold scheduled. rewrite Hk, Ecur, Et, lookup_insert_eq.
  split_and!; try done.
  - apply (threads_kept_insert _ _ _ _ _ Ec) in Et; [done|]. apply only_stat_set; [|by right].
    right. by apply andb_true_iff in Hk as [?%Z.eqb_eq _].
  - eexists. split; [done|]. apply stat_set. unfold RT_THREAD_RUNNING. lia.
  - intros q. by rewrite andb_false_r, app_nil_r.
Qed.

(** The running thread goes back to the end of its ready list. *)
Lemma schedule_preempt k c t x p :
  sched_inv 0 k -> threads k !! current k = Some c -> current k <> 0 ->
  stat_of c = RT_THREAD_RUNNING -> keeps c p = false -> 0 <= p < 32 ->
  threads k !! t = Some x -> stat_of x = RT_THREAD_READY -> t <> 0 ->
  let c' := with_stat c (Z.land (stat c) (u8 (Z.lnot RT_THREAD_STAT_YIELD))) in
  let k1 := with_current (put_thread k (current k) c') t (u8 p) in
  exists k', (k ← rt_schedule_insert_thread k1 (current k);
              k ← rt_schedule_remove_thread k t; upd_thread k t (set_stat RT_THREAD_RUNNING)) = Ok k' /\
    scheduled k k' t p c.
Proof.
  intros I Ec Hc0 Hrun Hk Hp Ex Hx Ht0 c' k1.
  destruct (si_running _ _ I _ c Hc0 Ec Hrun) as [_ Hno].
  destruct (si_mask _ _ I _ c Ec) as (Hcp & Hcm & Hct).
  assert (Htc : t <> current k).
  { intros ->. rewrite Ec in Ex. injection Ex as <-. by rewrite Hrun in Hx. }
  assert (I1 : sched_inv (current k) k1).
  { apply current_inv.
    - apply put_inv; [by apply (exempt_inv _ _ c)|done|].
      apply (mask_ok_like c); [by apply (si_mask _ _ I (current k))|..]; try done; by rewrite Hrun.
    - intros u y Hu. cbn. rewrite lookup_insert_ne by (by apply not_eq_sym). intros Ey Hy.
      destruct (si_running _ _ I u y) as [-> _]; try done.
      intros ->. by rewrite (proj1 (si_null _ _ I)) in Ey. }
  destruct (insert_inv k1 (current k) c' I1) as (k2 & -> & I2 & Et2 & Ec2 & Ep2 & Hs2 & Hl2);
    [apply lookup_insert_eq|done|by apply not_eq_sym|apply Hcm; by rewrite Hrun|apply Hct; by rewrite Hrun|].
  cbn [mbind result_bind].
  assert (Ex2 : threads k2 !! t = Some x).
  { rewrite Et2. cbn. by rewrite !lookup_insert_ne by (by apply not_eq_sym). }
  destruct (run_inv 0 k2 t x I2 (or_introl eq_refl) Ex2 Ht0) as (k3 & -> & I3 & Et3 & Ec3 & _ & Hs3 & Hl3);
    [by left|by rewrite Ec2|].
  exists k3. split; [done|]. unfold scheduled. rewrite Hk, Ec3, Hrun, Z.eqb_refl.
  split_and!; try done.
  - eapply same_env_trans; [|exact Hs3]. eapply same_env_trans; [|exact Hs2]. by split_and!.
  - eapply threads_kept_trans;
      [|apply (threads_kept_insert _ _ _ _ _ Ex2) in Et3; [done|apply only_stat_set; [by left|by right]]].
    apply (threads_kept_insert _ _ (current k) c (set_stat RT_THREAD_READY c')); [done|..].
    { split; [done|]. right. split; [by right|]. left. apply stat_set. unfold RT_THREAD_READY. lia. }
    rewrite Et2. cbn. by rewrite insert_insert_eq.
  - exists (set_stat RT_THREAD_RUNNING x). rewrite Et3, lookup_insert_eq. split; [done|].
    apply stat_set. unfold RT_THREAD_RUNNING. lia.
  - intros n Hn. rewrite Hl3, Hl2. by rewrite decide_False by apply Hn.
  - intros q. rewrite Hl3, Hl2. cbn [negb andb]. change (current_priority c') with (current_priority c).
    destruct (Z.eqb_spec q (current_priority c)) as [->|Hq].
    + rewrite decide_True by done. rewrite filter_app. f_equal.
      by rewrite filter_cons_True by (by apply not_eq_sym).
    + rewrite decide_False by congruence. by rewrite app_nil_r.
Qed.

(** The thread that gives up the processor is not running any more. *)
Lemma schedule_switch k c t x p :
  sched_inv 0 k -> threads k !! current k = Some c -> current k <> 0 ->
  stat_of c <> RT_THREAD_RUNNING ->
  threads k !! t = Some x -> stat_of x = RT_THREAD_READY -> t <> 0 ->
  exists k', (k ← rt_schedule_remove_thread (with_current k t (u8 p)) t;
              upd_thread k t (set_stat RT_THREAD_RUNNING)) = Ok k' /\
    scheduled k k' t p c.
Proof.
  intros I Ec Hc0 Hrun Ex Hx Ht0.
  assert (Hk : keeps c p = false).
  { unfold keeps. by rewrite (proj2 (Z.eqb_neq _ _)). }
  assert (I1 : sched_inv 0 (with_current k t (u8 p))).
  { apply current_inv; [done|]. intros u y Hu Ey Hy.
    destruct (si_running _ _ I u y Hu Ey Hy) as [-> _]. rewrite Ec in Ey. by injection Ey as <-. }
  destruct (run_inv 0 _ t x I1 (or_introl eq_refl) Ex Ht0) as (k3 & -> & I3 & Et3 & Ec3 & _ & Hs3 & Hl3);
    [by left|done|].
  exists k3. split; [done|]. unfold scheduled. rewrite Hk, Ec3.
  rewrite (proj2 (Z.eqb_neq (stat_of c) _)) by done. cbn [andb].
  split_and!; try done.
  - apply (threads_kept_insert _ _ _ _ _ Ex) in Et3; [done|apply only_stat_set; [by left|by right]].
  - exists (set_stat RT_THREAD_RUNNING x). rewrite Et3, lookup_insert_eq. split; [done|].
    apply stat_set. unfold RT_THREAD_RUNNING. lia.
  - intros q. rewrite Hl3. by rewrite app_nil_r.
Qed.

Lemma schedule_spec k c :
  sched_inv 0 k -> threads k !! current k = Some c -> current k <> 0 ->
  stat_of c <> RT_THREAD_INIT -> stat_of c <> RT_THREAD_READY ->
  lock_nest k = 0 -> ready_group k <> 0 ->
  exists k' t p, rt_schedule k = Ok k' /\
    _get_highest_priority_thread k = Ok (t, p) /\ head (lst k (L_ready p)) = Some t /\
    scheduled k k' t p c /\
    (forall u y, threads k !! u = Some y -> stat_of y = RT_THREAD_READY -> p <= current_priority y).
Proof.
  intros I Ec Hc0 Hi Hnr Hlk Hg.
  destruct (highest_spec k I Hg) as (t & x & p & E & Hp & Hh & Ex & Hxp & Hx & Ht0 & Hbest).
  unfold rt_schedule. rewrite Hlk. cbn [negb Z.eqb]. rewrite (proj2 (Z.eqb_neq _ _)) by done.
  unfold pick. rewrite E. cbn [mbind result_bind]. rewrite (thread_at_Ok _ _ _ Ec).
  cbn [mbind result_bind].
  assert (Hfin : forall m, (exists k', m = Ok k' /\ scheduled k k' t p c) ->
    exists k' t0 p0, m = Ok k' /\ Ok (t, p) = Ok (t0, p0) /\ head (lst k (L_ready p0)) = Some t0 /\
      scheduled k k' t0 p0 c /\
      (forall u y, threads k !! u = Some y -> stat_of y = RT_THREAD_READY -> p0 <= current_priority y)).
  { intros m (k' & -> & H). by exists k', t, p. }
  apply Hfin. destruct (Z.eqb_spec (stat_of c) RT_THREAD_RUNNING) as [Hr|Hr].
  - assert (Hkeep : keeps c p = true -> exists k', (j ← rt_schedule_remove_thread k (current k);
              upd_thread j (current k) (set_stat RT_THREAD_RUNNING)) = Ok k' /\ scheduled k k' t p c).
    { intros Hk. by apply schedule_keep. }
    unfold keeps in Hkeep. rewrite Hr, Z.eqb_refl in Hkeep.
    destruct (current_priority c <? p) eqn:E1.
    { cbn [mbind result_bind]. rewrite Z.eqb_refl. cbn [negb]. by apply Hkeep. }
    destruct ((current_priority c =? p) && (Z.land (stat c) RT_THREAD_STAT_YIELD =? 0)) eqn:E2.
    { cbn [mbind result_bind]. rewrite Z.eqb_refl. cbn [negb]. by apply Hkeep. }
    cbn [mbind result_bind]. rewrite (proj2 (Z.eqb_neq t _)).
    2:{ intros ->. cbn in Ex. rewrite Ec in Ex. injection Ex as <-. by rewrite Hr in Hx. }
    cbn [negb]. apply (schedule_preempt k c t x p); try done.
    unfold keeps. by rewrite Hr, Z.eqb_refl, E1, E2.
  - cbn [mbind result_bind]. rewrite (proj2 (Z.eqb_neq t _)).
    2:{ intros ->. rewrite Ec in Ex. injection Ex as <-. done. }
    by apply (schedule_switch k c t x p).
Qed.

End KernInv.

(** ** Thread timers and the whole invariant *)
Module KernOk.
Import Kern Sched Thread KernInv.
Import TimerOps.

(** The timer of thread [t]: a hard one-shot timer that calls
    [rt_thread_timeout (t)]. *)
Definition is_thread_timer (t : Z) (y : rt_timer) : Prop :=
  timeout_func y = RT_THREAD_TIMEOUT /\ parameter y = t /\
  has (flag y) RT_TIMER_FLAG_SOFT_TIMER = false /\ has (flag y) RT_TIMER_FLAG_PERIODIC = false.

(** Every thread has its timer, which is pending only if the thread is
    suspended, and then marked active. *)
Record timers_inv (th : gmap Z rt_thread) (s : tstate) : Prop := {
  ti_thread : forall t x, th !! t = Some x -> stat_of x <> RT_THREAD_CLOSE ->
    exists y, timers s !! thread_timer t = Some y /\ is_thread_timer t y;
  ti_pending : forall t x, th !! t = Some x -> thread_timer t ∈ rt_timer_list s ->
    stat_of x = RT_THREAD_SUSPEND /\
    exists y, timers s !! thread_timer t = Some y /\ has (flag y) RT_TIMER_FLAG_ACTIVATED = true;
  ti_known : forall p, p ∈ rt_timer_list s -> is_Some (timers s !! p);
  ti_soft : forall t x, th !! t = Some x -> thread_timer t ∉ rt_soft_timer_list s
}.

Lemma thread_timer_inj t u : thread_timer t = thread_timer u -> t = u.
Proof. unfold thread_timer. lia. Qed.

(** Threads change, but those with a pending timer stay suspended. *)
Lemma timers_inv_kept th th' s :
  timers_inv th s ->
  (forall u y', th' !! u = Some y' -> exists y, th !! u = Some y /\
     (stat_of y' <> RT_THREAD_CLOSE -> stat_of y <> RT_THREAD_CLOSE) /\
     (thread_timer u ∈ rt_timer_list s -> stat_of y = RT_THREAD_SUSPEND -> stat_of y' = RT_THREAD_SUSPEND)) ->
  timers_inv th' s.
Proof.
  intros T H. constructor; [| |apply T|].
  - intros t x' Ex' Hx'. destruct (H t x' Ex') as (x & Ex & Hc & _).
    apply (ti_thread _ _ T t x Ex). by apply Hc.
  - intros t x' Ex' Hin. destruct (H t x' Ex') as (x & Ex & _ & Hs).
    destruct (ti_pending _ _ T t x Ex Hin) as [Hx Hy]. split; [by apply Hs|done].
  - intros t x' Ex'. destruct (H t x' Ex') as (x & Ex & _). exact (ti_soft _ _ T t x Ex).
Qed.

Lemma timers_inv_insert th s t x x' :
  timers_inv th s -> th !! t = Some x ->
  stat_of x <> RT_THREAD_CLOSE ->
  stat_of x' = RT_THREAD_SUSPEND \/ stat_of x' = stat_of x \/ thread_timer t ∉ rt_timer_list s ->
  timers_inv (<[t := x']> th) s.
Proof.
  intros T Ex Hc Hx. apply (timers_inv_kept th); [done|]. intros u y'. rewrite lookup_insert.
  case_decide as Hd; [intros [= <-]; subst u; exists x; split_and!; [done|done|]|intros Ey; by exists y'].
  intros Hin Hs. destruct Hx as [Hx|[Hx|Hx]]; [done|by rewrite Hx|done].
Qed.

Lemma stop_timer_inv th s t x :
  timers_inv th s -> th !! t = Some x -> stat_of x <> RT_THREAD_CLOSE ->
  exists s' e, rt_timer_stop s (thread_timer t) = Ok (s', e) /\ timers_inv th s' /\
    rt_timer_list s' = filter (.≠ thread_timer t) (rt_timer_list s) /\
    rt_tick s' = rt_tick s /\ (forall p, p <> thread_timer t -> timers s' !! p = timers s !! p).
Proof.
  intros T Ex Hc. destruct (ti_thread _ _ T t x Ex Hc) as (y & Ey & Hy).
  unfold rt_timer_stop, timer_obj. rewrite Ey. cbn [mbind result_bind].
  destruct (has (flag y) RT_TIMER_FLAG_ACTIVATED) eqn:Ha; cbn [negb].
  - eexists _, _. split; [reflexivity|]. cbn.
    split; [|by split_and!; [..|intros p Hp; rewrite lookup_insert_ne]].
    constructor; cbn.
    + intros u z Ez Hz. destruct (decide (thread_timer u = thread_timer t)) as [E|E].
      * rewrite E, lookup_insert_eq. eexists. split; [done|]. apply thread_timer_inj in E as ->.
        destruct Hy as (H1 & H2 & H3 & H4). unfold is_thread_timer. cbn.
        by rewrite (proj1 (TimerSpec.has_clr_other _)), (proj2 (TimerSpec.has_clr_other _)).
      * rewrite lookup_insert_ne by done. by apply (ti_thread _ _ T u z).
    + intros u z Ez [Hp Hin]%TimerThms.elem_of_others.
      rewrite lookup_insert_ne by done. by apply (ti_pending _ _ T u z).
    + intros p [Hp Hin]%TimerThms.elem_of_others.
      rewrite lookup_insert_ne by done. by apply (ti_known _ _ T).
    + intros u z Ez [_ Hin]%TimerThms.elem_of_others. by apply (ti_soft _ _ T u z).
  - assert (Hno : thread_timer t ∉ rt_timer_list s).
    { intros Hin. destruct (ti_pending _ _ T t x Ex Hin) as (_ & w & Ew & Hw).
      rewrite Ey in Ew. injection Ew as <-. congruence. }
    eexists _, _. split; [reflexivity|]. split; [done|]. split_and!; try done.
    symmetry. by apply filter_absent.
Qed.

Lemma row_insert_total m t x l :
  (forall p, p ∈ l -> is_Some (m !! p)) ->
  exists l', row_insert m t x l = Ok l' /\ l' ≡ₚ t :: l.
Proof.
  induction l as [|p l IH]; intros H; [by exists [t]|].
  destruct (H p) as [y Ey]; [by left|]. cbn [row_insert]. rewrite Ey. cbn [deref mbind result_bind].
  destruct IH as (l' & E & Hl'); [intros q Hq; apply H; by right|]. rewrite E.
  cbn [mbind result_bind].
  destruct (_ =? 0); [exists (p :: l')|destruct (_ <? _); [exists (t :: p :: l)|exists (p :: l')]];
    (split; [done|]); rewrite ?Hl'; try done; apply Permutation_swap.
Qed.

(** Starting a hard timer, whatever the timeouts of the others. *)
Lemma timer_start_hard s t y :
  timers s !! t = Some y -> has (flag y) RT_TIMER_FLAG_SOFT_TIMER = false -> init_tick y < TICK_HALF ->
  (forall p, p ∈ rt_timer_list s -> is_Some (timers s !! p)) ->
  exists s', timer_start s t = Ok s' /\ timers s' = <[t := TimerThms.armed (rt_tick s) y]> (timers s) /\
    rt_timer_list s' ≡ₚ t :: filter (.≠ t) (rt_timer_list s) /\
    rt_soft_timer_list s' = filter (.≠ t) (rt_soft_timer_list s) /\ rt_tick s' = rt_tick s.
Proof.
  intros Ey Hsoft Hi Hall. unfold timer_start, timer_obj. rewrite Ey.
  cbn [mbind result_bind init_tick with_flag]. rewrite (proj2 (Z.ltb_lt _ _)) by done.
  cbn [rt_assert mbind result_bind flag with_timeout with_flag].
  rewrite (proj2 (TimerSpec.has_clr_other (flag y))), Hsoft.
  set (s1 := put_timer _ _ _).
  destruct (row_insert_total (timers s1) t (timeout_tick (with_timeout (with_flag y
    (clr_bit (flag y) RT_TIMER_FLAG_ACTIVATED)) (u32 (rt_tick (_rt_timer_remove s t) + init_tick y))))
    (rt_timer_list s1)) as (l' & E & Hl').
  { intros p [Hp Hin]%TimerThms.elem_of_others. cbn. rewrite lookup_insert_ne by done. by apply Hall. }
  cbn [timeout_tick init_tick with_timeout with_flag] in E |- *.
  rewrite E. cbn [mbind result_bind]. eexists. split; [reflexivity|]. cbn.
  split_and!; try done. by rewrite insert_insert_eq.
Qed.

Lemma armed_thread_timer t y now : is_thread_timer t y ->
  is_thread_timer t (TimerThms.armed now y) /\
  has (flag (TimerThms.armed now y)) RT_TIMER_FLAG_ACTIVATED = true.
Proof.
  intros (H1 & H2 & H3 & H4). unfold is_thread_timer, TimerThms.armed. cbn.
  rewrite (proj1 (TimerSpec.has_set_other _)), (proj2 (TimerSpec.has_set_other _)),
    (proj1 (TimerSpec.has_clr_other _)), (proj2 (TimerSpec.has_clr_other _)), TimerSpec.has_set_same.
  by split_and!.
Qed.

(** Starting the timer of a suspended thread. *)
Lemma start_timer_inv k t x tick :
  timers_inv (threads k) (tst k) -> threads k !! t = Some x -> stat_of x = RT_THREAD_SUSPEND ->
  tick < TICK_HALF ->
  exists s', start_timer k t tick = Ok (with_tst k s') /\ timers_inv (threads k) s' /\
    rt_timer_list s' ≡ₚ thread_timer t :: filter (.≠ thread_timer t) (rt_timer_list (tst k)) /\
    rt_tick s' = rt_tick (tst k) /\
    (forall p, p <> thread_timer t -> timers s' !! p = timers (tst k) !! p) /\
    timeout_tick <$> timers s' !! thread_timer t = Some (u32 (rt_tick (tst k) + tick)).
Proof.
  intros T Ex Hx Htick.
  destruct (ti_thread _ _ T t x Ex) as (y & Ey & Hy); [by rewrite Hx|].
  unfold start_timer, rt_timer_control, timer_obj. rewrite Ey. cbn [mbind result_bind].
  change (RT_TIMER_CTRL_SET_TIME =? RT_TIMER_CTRL_GET_TIME) with false.
  change (RT_TIMER_CTRL_SET_TIME =? RT_TIMER_CTRL_SET_TIME) with true.
  cbn [mbind result_bind]. unfold rt_timer_start. cbn [get_timers kernel_timers tst with_tst].
  set (s1 := put_timer _ _ _).
  assert (Hy' : is_thread_timer t (with_init y tick)) by exact Hy.
  destruct (timer_start_hard s1 (thread_timer t) (with_init y tick))
    as (s' & -> & Em & Hl & Hs & Ht); [apply lookup_insert_eq|apply Hy'|done| |].
  { intros p Hp. cbn. rewrite lookup_insert. case_decide; [by eexists|by apply (ti_known _ _ T)]. }
  cbn [mbind result_bind]. unfold timer_obj. rewrite Em, lookup_insert_eq. cbn [mbind result_bind].
  destruct (armed_thread_timer t _ (rt_tick s1) Hy') as [Ha Hact].
  rewrite (proj1 (proj2 (proj2 Ha))). exists s'. split; [done|].
  cbn [s1 rt_tick put_timer with_objs rt_timer_list rt_soft_timer_list timers] in *.
  assert (Hne : forall p, p <> thread_timer t -> timers s' !! p = timers (tst k) !! p)
    by (intros p Hp; rewrite Em; by rewrite !lookup_insert_ne).
  split_and!; try done; [|by rewrite Em, lookup_insert_eq].
  constructor.
  - intros u z Ez Hz. destruct (decide (u = t)) as [->|Hu].
    + rewrite Em, lookup_insert_eq. by eexists.
    + rewrite Hne by (unfold thread_timer; lia). by apply (ti_thread _ _ T u z).
  - intros u z Ez Hp. destruct (decide (u = t)) as [->|Hu].
    { rewrite Em, lookup_insert_eq. rewrite Ex in Ez. injection Ez as <-. split; [done|]. by eexists. }
    assert (Hne' : thread_timer u <> thread_timer t) by (intros E; by apply thread_timer_inj in E).
    rewrite Hl in Hp. apply elem_of_cons in Hp as [|[_ Hin]%TimerThms.elem_of_others]; [done|].
    rewrite Hne by done. by apply (ti_pending _ _ T u z).
  - intros p Hp. rewrite Hl in Hp. apply elem_of_cons in Hp as [->|[Hp Hin]%TimerThms.elem_of_others].
    + rewrite Em, lookup_insert_eq. by eexists.
    + rewrite Hne by done. by apply (ti_known _ _ T).
  - intros u z Ez. rewrite Hs. intros [_ Hin]%TimerThms.elem_of_others. by apply (ti_soft _ _ T u z).
Qed.

(** *** The invariant of the kernel between two calls *)

Definition IDLE_THREAD : Z := 1.

(** The thread that executes is running; with the scheduler locked it may
    have suspended itself already. *)
Record kernel_ok (k : kernel) : Prop := {
  ko_sched : sched_inv 0 k;
  ko_timers : timers_inv (threads k) (tst k);
  ko_current : exists c, threads k !! current k = Some c /\
    (stat_of c = RT_THREAD_RUNNING \/ stat_of c = RT_THREAD_SUSPEND);
  ko_idle : exists i, threads k !! IDLE_THREAD = Some i /\ active i
}.

Lemma thread_nonnull k t x : kernel_ok k -> threads k !! t = Some x -> t <> 0.
Proof. intros I Ex ->. by rewrite (proj1 (si_null _ _ (ko_sched _ I))) in Ex. Qed.

Lemma typed_obj ex k t x : sched_inv ex k -> threads k !! t = Some x ->
  stat_of x <> RT_THREAD_CLOSE -> thread_obj k t = Ok x.
Proof.
  intros I Ex Hc. unfold thread_obj. rewrite Ex. cbn [deref mbind result_bind].
  by rewrite (proj2 (proj2 (si_mask _ _ I t x Ex)) Hc).
Qed.

Lemma suspended_not_init x : stat_of x = RT_THREAD_SUSPEND -> stat_of x <> RT_THREAD_INIT.
Proof. by intros ->. Qed.

Lemma active_not_init x : active x -> stat_of x <> RT_THREAD_INIT.
Proof. by intros [-> | ->]. Qed.

Lemma active_not_close x : active x -> stat_of x <> RT_THREAD_CLOSE.
Proof. by intros [-> | ->]. Qed.

(** An active thread has no pending timer. *)
Lemma active_no_timer k t x : timers_inv (threads k) (tst k) ->
  threads k !! t = Some x -> active x -> thread_timer t ∉ rt_timer_list (tst k).
Proof.
  intros T Ex Hx Hin. destruct (ti_pending _ _ T t x Ex Hin) as [Hs _].
  destruct Hx as [Hx|Hx]; by rewrite Hs in Hx.
Qed.

Lemma kept_timers k k' s : timers_inv (threads k) s -> threads_kept k k' ->
  (forall t x, threads k !! t = Some x -> active x -> thread_timer t ∉ rt_timer_list s) ->
  timers_inv (threads k') s.
Proof.
  intros T H Hno. apply (timers_inv_kept (threads k)); [done|]. intros u y' Ey'. specialize (H u).
  destruct (threads k !! u) as [y|] eqn:Ey; [|by rewrite H in Ey'].
  destruct H as (y'' & E & _ & [->|[Ha Hb]]); rewrite E in Ey'; injection Ey' as <-; exists y; split_and!; try done.
  - intros _. by apply active_not_close.
  - intros Hin. by destruct (Hno u y Ey Ha).
Qed.

(** [rt_schedule], whatever the lock. *)
Lemma schedule_ok k : kernel_ok k ->
  exists k', rt_schedule k = Ok k' /\ kernel_ok k' /\ threads_kept k k' /\ same_env k k'.
Proof.
  intros K. destruct (ko_current _ K) as (c & Ec & Hc).
  assert (Hsame : exists k', Ok k = Ok k' /\ kernel_ok k' /\ threads_kept k k' /\ same_env k k').
  { exists k. split_and!; try done. by apply threads_kept_refl. }
  destruct (Z.eqb_spec (lock_nest k) 0) as [Hl|Hl].
  2:{ unfold rt_schedule. by rewrite (proj2 (Z.eqb_neq (lock_nest k) 0)). }
  destruct (Z.eqb_spec (ready_group k) 0) as [Hg|Hg].
  { unfold rt_schedule. by rewrite Hl, Hg. }
  pose proof (thread_nonnull _ _ _ K Ec) as Hc0.
  destruct (schedule_spec k c (ko_sched _ K) Ec Hc0) as (k' & t & p & E & _ & _ & Hs & _);
    [by destruct Hc as [-> | ->]|by destruct Hc as [-> | ->]|done|done|].
  exists k'. split; [done|]. destruct Hs as (I & He & Hk & _ & Hn0 & (x & Ex & Hx) & _).
  split_and!; [constructor|..]; try done.
  - rewrite (proj1 (proj2 (proj2 He))). apply (kept_timers k k'); [apply K|done|].
    intros. by eapply active_no_timer; [apply K|..].
  - exists x. split; [done|]. by left.
  - destruct (ko_idle _ K) as (i & Ei & Hi). specialize (Hk IDLE_THREAD). rewrite Ei in Hk.
    destruct Hk as (i' & Ei' & _ & H). exists i'. split; [done|]. by destruct H as [->|[_ ?]].
Qed.

(** Suspending an active thread. *)
Lemma suspend_ok k t x : kernel_ok k -> threads k !! t = Some x -> active x -> t <> IDLE_THREAD ->
  exists k', rt_thread_suspend k t = Ok (k', RT_EOK) /\ kernel_ok k' /\
    threads k' = <[t := set_stat RT_THREAD_SUSPEND x]> (threads k) /\
    current k' = current k /\ lock_nest k' = lock_nest k /\ interrupt_nest k' = interrupt_nest k /\
    objs k' = objs k /\ rt_timer_list (tst k') = filter (.≠ thread_timer t) (rt_timer_list (tst k)) /\
    rt_tick (tst k') = rt_tick (tst k) /\ forall n, lst k' n = filter (.≠ t) (lst k n).
Proof.
  intros K Ex Hx Hidle. pose proof (ko_sched _ K) as I. pose proof (thread_nonnull _ _ _ K Ex) as Ht0.
  unfold rt_thread_suspend. rewrite (typed_obj _ _ _ _ I Ex) by (by apply active_not_close).
  cbn [mbind result_bind].
  replace (negb (stat_of x =? RT_THREAD_READY) && negb (stat_of x =? RT_THREAD_RUNNING)) with false
    by (by destruct Hx as [-> | ->]).
  replace (negb (stat_of x =? RT_THREAD_RUNNING) || (t =? rt_thread_self k)) with true.
  2:{ destruct Hx as [-> | Hr]; [done|]. destruct (si_running _ _ I t x Ht0 Ex Hr) as [-> _].
      unfold rt_thread_self. by rewrite Z.eqb_refl, orb_true_r. }
  cbn [rt_assert mbind result_bind].
  destruct (remove_inv 0 k t x I Ex (active_not_init _ Hx) (or_introl eq_refl) Ht0)
    as (k1 & -> & I1 & Et & Ec & Ep & He & Hl). cbn [mbind result_bind].
  rewrite (upd_thread_Ok _ _ x) by (by rewrite Et). cbn [mbind result_bind].
  set (y := set_stat RT_THREAD_SUSPEND x).
  assert (Hy : stat_of y = RT_THREAD_SUSPEND) by (apply stat_set; unfold RT_THREAD_SUSPEND; lia).
  assert (I2 : sched_inv 0 (put_thread k1 t y)).
  { apply (settle_inv _ t y); [|apply lookup_insert_eq|by rewrite Hy|by rewrite Hy].
    apply put_inv; [done|done|]. apply (mask_ok_like x); try done;
      [by apply (si_mask _ _ I t)|by apply active_not_init|by apply active_not_close]. }
  assert (T2 : timers_inv (<[t := y]> (threads k)) (tst k)).
  { apply (timers_inv_insert _ _ t x); [apply K|done|by apply active_not_close|by left]. }
  destruct (stop_timer_inv _ _ t y T2) as (s' & e & E & T3 & Hs & Htick & Hother);
    [apply lookup_insert_eq|by rewrite Hy|].
  unfold stop_timer. destruct He as (He1 & He2 & He3 & He4).
  change (tst (put_thread k1 t y)) with (tst k1). rewrite He3, E. cbn [mbind result_bind].
  eexists. split; [reflexivity|]. cbn. rewrite Et. split_and!; try done. constructor; cbn.
  - by constructor; try apply I2.
  - by rewrite Et.
  - destruct (ko_current _ K) as (c & Ecur & Hcur). rewrite Et, Ec, lookup_insert.
    case_decide as Hd; [exists y; auto|by exists c].
  - rewrite Et, lookup_insert_ne by done. apply K.
Qed.

(** A suspended thread leaves the list it waits in. *)
Lemma unwait_inv k t x : sched_inv 0 k -> threads k !! t = Some x ->
  stat_of x = RT_THREAD_SUSPEND -> t <> 0 -> sched_inv t (list_remove k t).
Proof.
  intros I Ex Hx Ht0.
  assert (Hnr : forall p, lst (list_remove k t) (L_ready p) = lst k (L_ready p)).
  { intros p. apply lst_remove_absent. intros Hin.
    destruct (si_ready _ _ I p t Hin) as (y & Ey & _ & Hy). rewrite Ex in Ey. injection Ey as <-.
    by rewrite Hx in Hy. }
  assert (Hsub : forall n u, u ∈ lst (list_remove k t) n -> u <> t /\ u ∈ lst k n)
    by (intros n u; apply elem_of_removed).
  assert (Hnz : forall u y, threads k !! u = Some y -> u <> 0).
  { intros u y Ey ->. by rewrite (proj1 (si_null _ _ I)) in Ey. }
  constructor; cbn [list_remove with_lists ready_group threads current].
  - apply I.
  - intros p Hp. rewrite Hnr. by apply (si_bits _ _ I).
  - intros p u. rewrite Hnr. apply (si_ready _ _ I).
  - intros n. rewrite lst_remove. apply NoDup_filter, (si_nodup _ _ I).
  - intros n m u [_ Hn]%Hsub [_ Hm]%Hsub. by apply (si_one _ _ I n m u).
  - intros n [Hn _]%Hsub. done.
  - split; [apply (si_null _ _ I)|]. intros n [_ Hn]%Hsub. by apply (proj2 (si_null _ _ I) n).
  - intros u y _ Ey Hy. rewrite Hnr. apply (si_listed _ _ I); eauto.
  - intros u y _ Ey Hy. destruct (si_running _ _ I u y) as [Hc Hno]; eauto.
    split; [done|]. intros n [_ Hin]%Hsub. by apply (Hno n).
  - apply I.
  - intros u [o Ho]. apply (si_wait _ _ I). exists o.
    destruct Ho as [[_ Ho]%Hsub|[_ Ho]%Hsub]; [by left|by right].
Qed.

Lemma with_tst_inv ex k s : sched_inv ex k -> sched_inv ex (with_tst k s).
Proof. intros I. constructor; apply I. Qed.

(** The status and the lists of a thread that is made ready to run. *)
Definition woken (k : kernel) (t : Z) : Z :=
  if t =? current k then RT_THREAD_RUNNING else RT_THREAD_READY.

Definition woken_list (k : kernel) (t : Z) (x : rt_thread) (n : lname) (l : list Z) : list Z :=
  if t =? current k then l
  else if decide (n = L_ready (current_priority x)) then l ++ [t] else l.

(** Making the thread that is being moved ready. *)
Lemma wake_inv k t x : sched_inv t k -> threads k !! t = Some x -> t <> 0 ->
  stat_of x = RT_THREAD_SUSPEND ->
  exists k', rt_schedule_insert_thread k t = Ok k' /\ sched_inv 0 k' /\
    threads k' = <[t := set_stat (woken k t) x]> (threads k) /\
    current k' = current k /\ same_env k k' /\
    (forall n, lst k' n = woken_list k t x n (lst k n)).
Proof.
  intros I Ex Ht0 Hx. destruct (si_mask _ _ I t x Ex) as (Hp & Hm & Hty).
  specialize (Hm (suspended_not_init _ Hx)). unfold woken, woken_list.
  destruct (Z.eqb_spec t (current k)) as [Hc|Hc].
  - unfold rt_schedule_insert_thread. rewrite (thread_at_Ok _ _ _ Ex). cbn [mbind result_bind].
    rewrite (proj2 (Z.eqb_eq t (current k))) by done. eexists. split; [reflexivity|].
    split_and!; try done.
    apply (settle_inv _ t (set_stat RT_THREAD_RUNNING x)); [|apply lookup_insert_eq|..].
    + apply put_inv; [done|done|]. apply (mask_ok_like x); try done; by rewrite ?Hx.
    + rewrite stat_set; [done|unfold RT_THREAD_RUNNING; lia].
    + done.
  - destruct (insert_inv k t x I Ex Ht0 Hc Hm) as (k' & -> & I' & Et & Ec & _ & He & Hl).
    { apply Hty. by rewrite Hx. }
    exists k'. split_and!; done.
Qed.

Lemma woken_active k t x : active (set_stat (woken k t) x).
Proof.
  unfold active. rewrite !stat_set; unfold woken, RT_THREAD_READY, RT_THREAD_RUNNING; case_bool; lia.
Qed.

(** The state after a suspended thread [t] was made active, as [y]. *)
Definition resumed (k k' : kernel) (t : Z) (y : rt_thread) : Prop :=
  kernel_ok k' /\ threads k' = <[t := set_stat (woken k t) y]> (threads k) /\
  current k' = current k /\ lock_nest k' = lock_nest k /\ interrupt_nest k' = interrupt_nest k /\
  objs k' = objs k /\
  (forall n, lst k' n = woken_list k t y n (filter (.≠ t) (lst k n))) /\
  rt_tick (tst k') = rt_tick (tst k) /\
  rt_timer_list (tst k') = filter (.≠ thread_timer t) (rt_timer_list (tst k)).

(** The rest of making a thread [x] active, with its timer out of the list. *)
Lemma resumed_ok k t x y s k' :
  kernel_ok k -> threads k !! t = Some x -> stat_of x = RT_THREAD_SUSPEND ->
  timers_inv (threads k) s -> rt_tick s = rt_tick (tst k) ->
  rt_timer_list s = filter (.≠ thread_timer t) (rt_timer_list (tst k)) ->
  sched_inv 0 k' -> threads k' = <[t := set_stat (woken k t) y]> (threads k) ->
  current k' = current k -> same_env (with_tst k s) k' ->
  (forall n, lst k' n = woken_list k t y n (filter (.≠ t) (lst k n))) ->
  resumed k k' t y.
Proof.
  intros K Ex Hx T Htick Hs I Et Ec (He1 & He2 & He3 & He4) Hl.
  assert (Ha : active (set_stat (woken k t) y)) by apply woken_active.
  cbn in He1, He2, He3, He4.
  unfold resumed. rewrite He3. split_and!; try done. constructor.
  - done.
  - rewrite Et, He3. apply (timers_inv_insert _ _ t x); [done|done|by rewrite Hx|]. right. right.
    rewrite Hs. by intros [? _]%TimerThms.elem_of_others.
  - destruct (ko_current _ K) as (c & Ecur & Hcur). rewrite Et, Ec, lookup_insert.
    case_decide as Hd; [|by exists c]. eexists. split; [done|]. left. unfold woken.
    rewrite (proj2 (Z.eqb_eq t (current k))) by done. apply stat_set. unfold RT_THREAD_RUNNING. lia.
  - rewrite Et, lookup_insert. case_decide as Hd; [by eexists|apply K].
Qed.

(** [rt_thread_resume] of a suspended thread. *)
Lemma resume_ok k t x : kernel_ok k -> threads k !! t = Some x -> stat_of x = RT_THREAD_SUSPEND ->
  exists k', rt_thread_resume k t = Ok (k', RT_EOK) /\ resumed k k' t x.
Proof.
  intros K Ex Hx. pose proof (thread_nonnull _ _ _ K Ex) as Ht0.
  unfold rt_thread_resume. rewrite (typed_obj _ _ _ _ (ko_sched _ K) Ex) by (by rewrite Hx).
  cbn [mbind result_bind]. rewrite Hx.
  cbn [negb Z.eqb]. change (negb (RT_THREAD_SUSPEND =? RT_THREAD_SUSPEND)) with false. cbv iota.
  destruct (stop_timer_inv _ _ t x (ko_timers _ K) Ex) as (s' & e & E & T & Hs & Htick & _); [by rewrite Hx|].
  unfold stop_timer. change (tst (list_remove k t)) with (tst k). rewrite E. cbn [mbind result_bind].
  pose proof (with_tst_inv _ _ s' (unwait_inv k t x (ko_sched _ K) Ex Hx Ht0)) as I.
  destruct (wake_inv _ t x I Ex Ht0 Hx) as (k' & -> & I' & Et & Ec & He & Hl).
  cbn [mbind result_bind]. exists k'. split; [done|]. apply (resumed_ok k t x x s'); try done.
  intros n. rewrite Hl. change (lst (with_tst (list_remove k t) s') n) with (lst (list_remove k t) n).
  by rewrite lst_remove.
Qed.

(** [rt_thread_timeout] up to its [rt_schedule], for a timer that is out of
    the list, as when [rt_timer_check] calls it. *)
Lemma timeout_ok k t x : kernel_ok k -> threads k !! t = Some x -> stat_of x = RT_THREAD_SUSPEND ->
  thread_timer t ∉ rt_timer_list (tst k) ->
  exists k1, rt_thread_timeout k t = rt_schedule k1 /\ tst k1 = tst k /\
    resumed k k1 t (with_error x (- RT_ETIMEOUT)).
Proof.
  intros K Ex Hx Hno. pose proof (thread_nonnull _ _ _ K Ex) as Ht0.
  set (y := with_error x (- RT_ETIMEOUT)).
  assert (Eobj : thread_obj k t = Ok x) by (by apply (typed_obj _ _ _ _ (ko_sched _ K) Ex); rewrite Hx).
  assert (Ety : typed x = true) by (unfold thread_obj in Eobj; rewrite Ex in Eobj; cbn in Eobj; by destruct (typed x)).
  unfold rt_thread_timeout, thread_at. rewrite Ex. cbn [deref mbind result_bind]. rewrite Hx.
  change (RT_THREAD_SUSPEND =? RT_THREAD_SUSPEND) with true.
  cbn [rt_assert mbind result_bind]. rewrite Ety. cbn [negb mbind result_bind]. rewrite Eobj.
  cbn [mbind result_bind]. fold y.
  assert (E : list_remove (put_thread k t y) t = put_thread (list_remove k t) t y) by done. rewrite E.
  assert (I : sched_inv t (put_thread (list_remove k t) t y)).
  { apply put_inv; [by apply (unwait_inv k t x (ko_sched _ K))|done|].
    apply (mask_ok_like x); try done; [by apply (si_mask _ _ (ko_sched _ K) t)|by rewrite Hx..]. }
  destruct (wake_inv _ t y I) as (k' & -> & I' & Et & Ec & He & Hl); [apply lookup_insert_eq|done|done|].
  cbn [mbind result_bind]. exists k'. split; [done|]. split; [apply He|].
  apply (resumed_ok k t x y (tst k)); try done.
  - apply K.
  - symmetry. by apply filter_absent.
  - rewrite Et. cbn. by rewrite insert_insert_eq.
  - intros n. rewrite Hl.
    change (lst (put_thread (list_remove k t) t y) n) with (lst (list_remove k t) n).
    by rewrite lst_remove.
Qed.

(** Changing fields that the invariant does not constrain. *)
Lemma relabel_ok k t x y : kernel_ok k -> threads k !! t = Some x ->
  stat_of y = stat_of x -> current_priority y = current_priority x ->
  number_mask y = number_mask x -> typed y = typed x -> kernel_ok (put_thread k t y).
Proof.
  intros K Ex Es Ep Em Ety. pose proof (ko_sched _ K) as I.
  pose proof (thread_nonnull _ _ _ K Ex) as Ht0.
  assert (Hof : forall u z, <[t := y]> (threads k) !! u = Some z ->
    exists z', threads k !! u = Some z' /\ stat_of z = stat_of z' /\
      current_priority z = current_priority z').
  { intros u z. rewrite lookup_insert. case_decide as Hd; [intros [= <-]; subst u; by exists x|by exists z]. }
  assert (Hto : forall u z, threads k !! u = Some z -> exists z', <[t := y]> (threads k) !! u = Some z' /\
      stat_of z' = stat_of z /\ current_priority z' = current_priority z).
  { intros u z Ez. rewrite lookup_insert. case_decide as Hd; [subst u|by exists z].
    rewrite Ex in Ez. injection Ez as <-. by exists y. }
  constructor; [constructor|..]; cbn; change (lst (put_thread k t y)) with (lst k); try apply I.
  - intros p u Hu. destruct (si_ready _ _ I p u Hu) as (z & Ez & Hz & Hs).
    destruct (Hto u z Ez) as (z' & Ez' & E1 & E2). exists z'. split_and!; congruence.
  - rewrite lookup_insert_ne by done. apply I.
  - intros u z Hu Ez Hz. destruct (Hof u z Ez) as (z' & Ez' & E1 & E2). rewrite E2.
    apply (si_listed _ _ I u z'); congruence.
  - intros u z Hu Ez Hz. destruct (Hof u z Ez) as (z' & Ez' & E1 & E2).
    apply (si_running _ _ I u z'); congruence.
  - intros u z. rewrite lookup_insert. case_decide as Hd; [intros [= <-]|apply (si_mask _ _ I)].
    destruct (si_mask _ _ I t x Ex) as (H1 & H2 & H3). unfold mask_ok. by rewrite Es, Ep, Em, Ety.
  - intros u Hu. destruct (si_wait _ _ I u Hu) as (z & Ez & Hz).
    destruct (Hto u z Ez) as (z' & Ez' & E1 & E2). exists z'. split_and!; congruence.
  - apply (timers_inv_kept (threads k)); [apply K|]. intros u z Ez.
    destruct (Hof u z Ez) as (z' & Ez' & E1 & E2). exists z'. rewrite E1. by split_and!.
  - destruct (ko_current _ K) as (c & Ec & Hc). destruct (Hto _ c Ec) as (z' & Ez' & E1 & E2).
    exists z'. by rewrite E1.
  - destruct (ko_idle _ K) as (i & Ei & Hi). destruct (Hto _ i Ei) as (z' & Ez' & E1 & E2).
    exists z'. unfold active. by rewrite E1.
Qed.

Lemma with_tst_ok k s : kernel_ok k -> timers_inv (threads k) s -> kernel_ok (with_tst k s).
Proof. intros K T. constructor; [apply with_tst_inv, K|done|apply K..]. Qed.

Lemma with_tick_inv th s x : timers_inv th s -> timers_inv th (with_tick s x).
Proof. intros T. by constructor; apply T. Qed.

(** [rt_thread_sleep] of the running thread, up to its [rt_schedule]. *)
Lemma sleep_ok k c tick : kernel_ok k -> threads k !! current k = Some c -> active c ->
  current k <> IDLE_THREAD -> tick < TICK_HALF ->
  exists k1, ('(j, _) ← rt_thread_suspend k (current k); start_timer j (current k) tick) = Ok k1 /\
    kernel_ok k1 /\ threads k1 = <[current k := set_stat RT_THREAD_SUSPEND c]> (threads k) /\
    current k1 = current k /\ lock_nest k1 = lock_nest k /\ objs k1 = objs k /\
    (forall n, lst k1 n = filter (.≠ current k) (lst k n)) /\
    rt_tick (tst k1) = rt_tick (tst k) /\
    thread_timer (current k) ∈ rt_timer_list (tst k1) /\
    timeout_tick <$> timers (tst k1) !! thread_timer (current k) = Some (u32 (rt_tick (tst k) + tick)).
Proof.
  intros K Ec Hc Hi Htick.
  destruct (suspend_ok k (current k) c K Ec Hc Hi)
    as (k2 & -> & K2 & Et & Ecur & El & En & Eo & Es & Etick & Hl). cbn [mbind result_bind].
  destruct (start_timer_inv k2 (current k) (set_stat RT_THREAD_SUSPEND c) tick)
    as (s' & -> & T & Hs & Htk & _ & Hto).
  - apply K2.
  - by rewrite Et, lookup_insert_eq.
  - apply stat_set. unfold RT_THREAD_SUSPEND. lia.
  - done.
  - cbn [mbind result_bind]. exists (with_tst k2 s'). rewrite Etick in Hto.
    split_and!; try done; [by apply with_tst_ok|by cbn; rewrite Htk|]. cbn. rewrite Hs. by left.
Qed.

(** Changing the priority of a thread that is not ready. *)
Lemma reprio_ok k t x y : kernel_ok k -> threads k !! t = Some x ->
  stat_of y = stat_of x -> stat_of x <> RT_THREAD_READY -> mask_ok y ->
  kernel_ok (put_thread k t y).
Proof.
  intros K Ex Es Hr Hy. pose proof (ko_sched _ K) as I.
  pose proof (thread_nonnull _ _ _ K Ex) as Ht0.
  constructor; [constructor|..]; cbn; change (lst (put_thread k t y)) with (lst k); try apply I.
  - intros p u Hu. destruct (si_ready _ _ I p u Hu) as (z & Ez & Hz & Hs).
    rewrite lookup_insert_ne; [by exists z|]. intros <-. congruence.
  - rewrite lookup_insert_ne by done. apply I.
  - intros u z Hu. rewrite lookup_insert. case_decide as Hd; [intros [= <-] Hz; congruence|].
    by apply (si_listed _ _ I).
  - intros u z Hu. rewrite lookup_insert. case_decide as Hd; [|by apply (si_running _ _ I)].
    intros [= <-] Hz. subst u. apply (si_running _ _ I t x); congruence.
  - intros u z. rewrite lookup_insert. case_decide as Hd; [by intros [= <-]|apply (si_mask _ _ I)].
  - intros u Hu. rewrite lookup_insert. case_decide as Hd; [|by apply (si_wait _ _ I)].
    subst u. destruct (si_wait _ _ I t Hu) as (z & Ez & Hz). exists y. split; [done|]. congruence.
  - apply (timers_inv_kept (threads k)); [apply K|]. intros u z.
    rewrite lookup_insert. case_decide as Hd; [|intros Ez; by exists z].
    intros [= <-]. subst u. exists x. rewrite Es. by split_and!.
  - destruct (ko_current _ K) as (c & Ec & Hc). rewrite lookup_insert.
    case_decide as Hd; [|by exists c]. exists y. split; [done|]. rewrite Es. congruence.
  - destruct (ko_idle _ K) as (i & Ei & Hi). rewrite lookup_insert.
    case_decide as Hd; [|by exists i]. exists y. split; [done|].
    unfold active. rewrite Es. rewrite <- Hd, Ex in Ei. by injection Ei as <-.
Qed.

(** [1 << prio] of a priority in range. *)
Lemma set_prio_mask p x : 0 <= p < 32 -> number_mask (set_prio p x) = 2 ^ p.
Proof.
  intros Hp. unfold set_prio. cbn. rewrite Z.shiftl_1_l. apply u32_small.
  split; [apply Z.pow_nonneg; lia|]. change 4294967296 with (2 ^ 32). apply Z.pow_lt_mono_r; lia.
Qed.

Lemma set_prio_ok p x : 0 <= p < 32 -> mask_ok x -> mask_ok (set_prio p x).
Proof. intros Hp (_ & _ & Ht). split_and!; [apply Hp..|intros _; by apply set_prio_mask|exact Ht]. Qed.

(** [RT_THREAD_CTRL_CHANGE_PRIORITY]: a ready thread goes to the end of the
    ready list of its new priority. *)
Lemma change_priority_ok k t x p : kernel_ok k -> threads k !! t = Some x ->
  stat_of x <> RT_THREAD_CLOSE -> 0 <= p < 32 ->
  exists k', change_priority k t p = Ok k' /\ kernel_ok k' /\ same_env k k' /\
    current k' = current k /\
    threads k' = <[t := if stat_of x =? RT_THREAD_READY then set_stat RT_THREAD_READY (set_prio p x)
                        else set_prio p x]> (threads k) /\
    (forall n, lst k' n = if stat_of x =? RT_THREAD_READY
       then (if decide (n = L_ready p) then filter (.≠ t) (lst k n) ++ [t] else filter (.≠ t) (lst k n))
       else lst k n).
Proof.
  intros K Ex Hx Hp. pose proof (ko_sched _ K) as I. pose proof (thread_nonnull _ _ _ K Ex) as Ht0.
  unfold change_priority. rewrite (typed_obj _ _ _ _ I Ex Hx). cbn [mbind result_bind].
  destruct (Z.eqb_spec (stat_of x) RT_THREAD_READY) as [Hr|Hr].
  2:{ eexists. split; [reflexivity|]. split_and!; try done.
      apply (reprio_ok k t x); try done. by apply set_prio_ok, (si_mask _ _ I t). }
  assert (Ha : active x) by by left.
  destruct (remove_inv 0 k t x I Ex (active_not_init _ Ha) (or_introl eq_refl) Ht0)
    as (k1 & -> & I1 & Et & Ec & Ep & He & Hl). cbn [mbind result_bind].
  rewrite (upd_thread_Ok _ _ x) by (by rewrite Et). cbn [mbind result_bind].
  assert (Hc : t <> current k).
  { intros E. destruct (ko_current _ K) as (c & Ecur & Hcur). rewrite <- E, Ex in Ecur.
    injection Ecur as <-. rewrite Hr in Hcur. by destruct Hcur. }
  pose proof (set_prio_ok p x Hp (si_mask _ _ I t x Ex)) as Hm.
  destruct (insert_inv (put_thread k1 t (set_prio p x)) t (set_prio p x)) as (k2 & -> & I2 & Et2 & Ec2 & _ & He2 & Hl2).
  { by apply put_inv. }
  { apply lookup_insert_eq. }
  { done. }
  { cbn. by rewrite Ec. }
  { by rewrite set_prio_mask. }
  { apply Hm. change (stat_of (set_prio p x)) with (stat_of x). by rewrite Hr. }
  assert (Et' : threads k2 = <[t := set_stat RT_THREAD_READY (set_prio p x)]> (threads k)).
  { rewrite Et2. cbn. by rewrite Et, insert_insert_eq. }
  assert (Henv : same_env k k2).
  { eapply same_env_trans; [exact He|]. eapply same_env_trans; [|exact He2]. by split_and!. }
  exists k2. split; [done|]. split_and!; try done.
  - constructor; [done|..].
    + rewrite Et', (proj1 (proj2 (proj2 Henv))).
      apply (timers_inv_insert _ _ t x); [apply K|done|done|]. right. left.
      rewrite stat_set; [done|unfold RT_THREAD_READY; lia].
    + rewrite Ec2. cbn. rewrite Ec, Et', lookup_insert_ne by done. apply K.
    + destruct (ko_idle _ K) as (i & Ei & Hi). rewrite Et', lookup_insert.
      case_decide as Hd; [|by exists i]. eexists. split; [done|]. left. apply stat_set. unfold RT_THREAD_READY. lia.
  - by rewrite Ec2.
  - intros n. rewrite Hl2. change (lst (put_thread k1 t (set_prio p x)) n) with (lst k1 n).
    change (current_priority (set_prio p x)) with p. by rewrite Hl.
Qed.

(** *** The tick *)

(** All pending timers belong to threads. *)
Definition only_thread_timers (k : kernel) : Prop :=
  forall p, p ∈ rt_timer_list (tst k) -> exists t x, p = thread_timer t /\ threads k !! t = Some x.

Lemma only_thread_timers_kept k k' : only_thread_timers k -> threads_kept k k' ->
  (forall p, p ∈ rt_timer_list (tst k') -> p ∈ rt_timer_list (tst k)) -> only_thread_timers k'.
Proof.
  intros H Hk Hs p Hp. destruct (H p (Hs p Hp)) as (t & x & -> & Ex).
  specialize (Hk t). rewrite Ex in Hk. destruct Hk as (y & Ey & _). by exists t, y.
Qed.

(** Taking a timer out of the lists, and clearing its flag outside them. *)
Lemma timers_inv_remove th s p : timers_inv th s -> timers_inv th (_rt_timer_remove s p).
Proof.
  intros T. constructor; cbn.
  - apply T.
  - intros t x Ex [_ Hin]%TimerThms.elem_of_others. by apply (ti_pending _ _ T t x).
  - intros q [_ Hin]%TimerThms.elem_of_others. by apply (ti_known _ _ T).
  - intros t x Ex [_ Hin]%TimerThms.elem_of_others. by apply (ti_soft _ _ T t x).
Qed.

Lemma timers_inv_deactivate th s t y : timers_inv th s ->
  timers s !! thread_timer t = Some y -> thread_timer t ∉ rt_timer_list s ->
  timers_inv th (put_timer s (thread_timer t) (with_flag y (clr_bit (flag y) RT_TIMER_FLAG_ACTIVATED))).
Proof.
  intros T Ey Hno. constructor; cbn.
  - intros u x Ex Hx. destruct (ti_thread _ _ T u x Ex Hx) as (z & Ez & Hz). rewrite lookup_insert.
    case_decide as Hd; [|by exists z]. rewrite Hd, Ez in Ey. injection Ey as <-.
    eexists. split; [done|]. destruct Hz as (H1 & H2 & H3 & H4). unfold is_thread_timer. cbn.
    rewrite (proj1 (TimerSpec.has_clr_other _)), (proj2 (TimerSpec.has_clr_other _)).
    apply thread_timer_inj in Hd as ->. by split_and!.
  - intros u x Ex Hin. rewrite lookup_insert_ne; [by apply (ti_pending _ _ T u x)|].
    intros E. by rewrite <- E in Hin.
  - intros p Hp. rewrite lookup_insert_ne; [by apply (ti_known _ _ T)|]. by intros <-.
  - apply T.
Qed.

(** One timeout of a thread timer. *)
Lemma timeout_step u k t x y l :
  kernel_ok k -> rt_timer_list (tst k) = thread_timer t :: l -> only_thread_timers k ->
  threads k !! t = Some x -> timers (tst k) !! thread_timer t = Some y ->
  exists k2 k3, timer_call u (timeout_func y) (parameter y) (with_tst k (_rt_timer_remove (tst k) (thread_timer t))) = Ok k2 /\
    after_timeout k2 (thread_timer t) = Ok k3 /\ kernel_ok k3 /\ only_thread_timers k3 /\
    rt_tick (tst k3) = rt_tick (tst k) /\ (length (rt_timer_list (tst k3)) <= length l)%nat.
Proof.
  intros K El Ho Ex Ey.
  assert (Hin : thread_timer t ∈ rt_timer_list (tst k)) by (rewrite El; by left).
  destruct (ti_pending _ _ (ko_timers _ K) t x Ex Hin) as [Hx _].
  destruct (ti_thread _ _ (ko_timers _ K) t x Ex) as (y' & Ey' & H1 & H2 & H3 & H4); [by rewrite Hx|].
  rewrite Ey in Ey'. injection Ey' as <-. rewrite H1, H2.
  unfold timer_call. change (RT_THREAD_TIMEOUT =? RT_THREAD_TIMEOUT) with true. cbv iota.
  set (k1 := with_tst k _).
  assert (K1 : kernel_ok k1) by (apply with_tst_ok; [done|]; apply timers_inv_remove, K).
  assert (Hno : thread_timer t ∉ rt_timer_list (tst k1)).
  { cbn. by intros [? _]%TimerThms.elem_of_others. }
  destruct (timeout_ok k1 t x K1 Ex Hx Hno) as (k2 & -> & Es & (K2 & Et2 & _)).
  destruct (schedule_ok k2 K2) as (k3 & -> & K3 & Hk & He).
  assert (Es3 : tst k3 = tst k1) by (rewrite (proj1 (proj2 (proj2 He))); exact Es).
  exists k3. unfold after_timeout. cbn [get_timers kernel_timers]. rewrite Es3. cbn [k1 tst with_tst timers _rt_timer_remove with_lists].
  rewrite Ey. cbn [deref mbind result_bind]. rewrite H4. cbn [andb].
  eexists. split; [reflexivity|]. split; [reflexivity|].
  set (s' := put_timer _ _ _). split_and!.
  - apply with_tst_ok; [done|]. apply (timers_inv_deactivate _ (_rt_timer_remove (tst k) (thread_timer t))).
    + pose proof (ko_timers _ K3) as T3. by rewrite Es3 in T3.
    + done.
    + exact Hno.
  - apply (only_thread_timers_kept k2).
    + intros p Hp. rewrite Es in Hp. cbn in Hp. apply TimerThms.elem_of_others in Hp as [_ Hp].
      destruct (Ho p Hp) as (v & z & -> & Ez). exists v. rewrite Et2, lookup_insert.
      case_decide; [by eexists|by exists z].
    + exact Hk.
    + intros p Hp. by rewrite Es.
  - done.
  - cbn. rewrite El, filter_cons_False by (intros H; by apply H). apply length_filter.
Qed.

Lemma check_ok u : forall n k cur, kernel_ok k -> only_thread_timers k ->
  (length (rt_timer_list (tst k)) < n)%nat ->
  exists k', check_loop (timer_call u) n k cur = Ok k' /\ kernel_ok k' /\
    rt_tick (tst k') = rt_tick (tst k).
Proof.
  induction n as [|n IH]; intros k cur K Ho Hn; [lia|]. cbn [check_loop get_timers kernel_timers].
  destruct (rt_timer_list (tst k)) as [|p l] eqn:El; [by exists k|].
  destruct (ti_known _ _ (ko_timers _ K) p) as [y Ey]; [rewrite El; by left|].
  rewrite Ey. cbn [deref mbind result_bind]. destruct (_ <? _); [|by exists k].
  destruct (Ho p) as (t & x & -> & Ex); [rewrite El; by left|].
  destruct (timeout_step u k t x y l K El Ho Ex Ey) as (k2 & k3 & E2 & E3 & K3 & Ho3 & Etick & Hlen).
  unfold set_timers at 1. cbn [kernel_timers]. rewrite E2. cbn [mbind result_bind].
  rewrite E3. cbn [mbind result_bind].
  destruct (IH k3 (rt_tick_get (tst k2)) K3 Ho3) as (k' & E & K' & Ht); [cbn in Hn; lia|].
  exists k'. split_and!; [done|done|congruence].
Qed.

Lemma tick_ok u k : kernel_ok k -> only_thread_timers k ->
  exists k', rt_tick_increase u (S (length (rt_timer_list (tst k)))) k = Ok k' /\ kernel_ok k' /\
    rt_tick (tst k') = u32 (rt_tick (tst k) + 1).
Proof.
  intros K Ho. destruct (ko_current _ K) as (c & Ec & Hc).
  unfold rt_tick_increase. unfold rt_thread_self. set (k1 := with_tst k _).
  assert (K1 : kernel_ok k1) by (apply with_tst_ok; [done|]; apply with_tick_inv, K).
  change (thread_at k1 (current k1)) with (thread_at k (current k)). rewrite (thread_at_Ok _ _ _ Ec).
  cbn [mbind result_bind]. set (c1 := with_remaining c _).
  assert (K2 : kernel_ok (put_thread k1 (current k1) c1)) by (by apply (relabel_ok k1 _ c)).
  assert (Ho2 : only_thread_timers (put_thread k1 (current k1) c1)).
  { intros p Hp. destruct (Ho p Hp) as (t & x & -> & Ex). exists t. cbn. rewrite lookup_insert.
    case_decide; [by eexists|by exists x]. }
  destruct (remaining_tick c1 =? 0); cbn [mbind result_bind].
  2:{ destruct (check_ok u _ _ (rt_tick (tst k1)) K2 Ho2 ltac:(apply Nat.lt_succ_diag_r)) as (k' & E & K' & Ht).
      exists k'. by split_and!. }
  set (c2 := with_remaining c1 _).
  set (c3 := with_stat c2 _).
  assert (Hs3 : stat_of c3 = stat_of c1).
  { unfold stat_of. cbn. by rewrite Z.land_lor_distr_l, Z.lor_0_r. }
  unfold rt_thread_yield.
  set (k3 := put_thread _ _ c3).
  assert (K3 : kernel_ok k3).
  { apply (relabel_ok (put_thread k1 (current k1) c1) _ c1); try done. apply lookup_insert_eq. }
  destruct (schedule_ok k3 K3) as (k4 & E4 & K4 & Hk4 & He4). rewrite E4. cbn [mbind result_bind].
  assert (Es4 : tst k4 = tst k1) by (by rewrite (proj1 (proj2 (proj2 He4)))).
  destruct (check_ok u (S (length (rt_timer_list (tst k)))) k4 (rt_tick (tst k4)) K4) as (k' & E & K' & Ht).
  - apply (only_thread_timers_kept k3); [|done|by rewrite Es4].
    intros p Hp. destruct (Ho2 p Hp) as (t & x & -> & Ex). exists t. cbn in Ex |- *.
    rewrite lookup_insert. case_decide; [by eexists|by exists x].
  - rewrite Es4. cbn. lia.
  - exists k'. split_and!; [done|done|]. by rewrite Ht, Es4.
Qed.

End KernOk.
