(* ===== verification/KernelThms.v ===== *)
(** * Properties of the scheduler and of the thread operations *)
From S2P Require Import Prelude CTypes KService Timer Kernel KernelSpec.
From stdpp Require Import base list gmap.
From Stdlib Require Import ZArith Lia.
Open Scope Z_scope.

Module KernThms.
Import Kern Sched Thread KernInv KernOk TimerOps.

(** *** Sequences of operations *)

(** The operations that the processor executes for the current thread or an
    interrupt. *)
Inductive kop : Type :=
  | K_schedule
  | K_yield
  | K_enter_critical
  | K_exit_critical
  | K_interrupt_enter
  | K_interrupt_leave
  | K_suspend (t : Z)
  | K_resume (t : Z)
  | K_sleep (tick : Z)
  | K_change_priority (t prio : Z)
  | K_tick.

Section Steps.
Variable user_call : Z -> Z -> kernel -> result kernel.

Definition run_kop (o : kop) (k : kernel) : result kernel :=
  match o with
  | K_schedule => rt_schedule k
  | K_yield => rt_thread_yield k
  | K_enter_critical => Ok (rt_enter_critical k)
  | K_exit_critical => rt_exit_critical k
  | K_interrupt_enter => Ok (rt_interrupt_enter k)
  | K_interrupt_leave => Ok (rt_interrupt_leave k)
  | K_suspend t => '(k, _) ← rt_thread_suspend k t; Ok k
  | K_resume t => '(k, _) ← rt_thread_resume k t; Ok k
  | K_sleep tick => rt_thread_sleep k tick
  | K_change_priority t prio => rt_thread_control k t (RT_THREAD_CTRL_CHANGE_PRIORITY prio)
  | K_tick => rt_tick_increase user_call (S (length (rt_timer_list (tst k)))) k
  end.

Definition open_thread (k : kernel) (t : Z) : Prop :=
  exists x, threads k !! t = Some x /\ stat_of x <> RT_THREAD_CLOSE.

(** What the callers have to respect: the idle thread never waits, priorities
    are below 32 and sleeps shorter than half the tick range. *)
Definition enabled (k : kernel) (o : kop) : Prop :=
  match o with
  | K_suspend t => open_thread k t /\ t <> IDLE_THREAD
  | K_resume t => open_thread k t
  | K_sleep tick => current k <> IDLE_THREAD /\ tick < TICK_HALF
  | K_change_priority t prio => open_thread k t /\ 0 <= prio < 32
  | K_tick => only_thread_timers k
  | _ => True
  end.

Inductive reaches : kernel -> kernel -> Prop :=
  | reaches_refl k : reaches k k
  | reaches_step k o k1 k2 : reaches k k1 -> enabled k1 o -> run_kop o k1 = Ok k2 -> reaches k k2.

Lemma enter_critical_ok k : kernel_ok k -> kernel_ok (rt_enter_critical k).
Proof. intros K. constructor; [constructor|..]; apply K. Qed.

Lemma with_lock_ok k x : kernel_ok k -> kernel_ok (with_lock k x).
Proof. intros K. constructor; [constructor|..]; apply K. Qed.

Lemma with_nest_ok k x : kernel_ok k -> kernel_ok (with_nest k x).
Proof. intros K. constructor; [constructor|..]; apply K. Qed.

Lemma exit_critical_ok k : kernel_ok k -> exists k', rt_exit_critical k = Ok k' /\ kernel_ok k'.
Proof.
  intros K. unfold rt_exit_critical. set (k1 := with_lock k _).
  assert (K1 : kernel_ok k1) by by apply with_lock_ok.
  destruct (lock_nest k1 <=? 0); [|by exists k1].
  assert (K2 : kernel_ok (with_lock k1 0)) by by apply with_lock_ok.
  destruct (negb _); [|by eexists].
  destruct (schedule_ok _ K2) as (k' & -> & K' & _). by exists k'.
Qed.

Lemma suspend_any k t : kernel_ok k -> open_thread k t -> t <> IDLE_THREAD ->
  exists k' e, rt_thread_suspend k t = Ok (k', e) /\ kernel_ok k'.
Proof.
  intros K (x & Ex & Hx) Hi.
  destruct (decide (stat_of x = RT_THREAD_READY \/ stat_of x = RT_THREAD_RUNNING)) as [Ha|Hn].
  - destruct (suspend_ok k t x K Ex Ha Hi) as (k' & -> & K' & _). by eexists _, _.
  - unfold rt_thread_suspend. rewrite (typed_obj _ _ _ _ (ko_sched _ K) Ex Hx).
    cbn [mbind result_bind]. rewrite !(proj2 (Z.eqb_neq _ _)) by tauto. by eexists _, _.
Qed.

Lemma resume_any k t : kernel_ok k -> open_thread k t ->
  exists k' e, rt_thread_resume k t = Ok (k', e) /\ kernel_ok k'.
Proof.
  intros K (x & Ex & Hx). destruct (Z.eqb_spec (stat_of x) RT_THREAD_SUSPEND) as [Hs|Hs].
  - destruct (resume_ok k t x K Ex Hs) as (k' & -> & K' & _). by eexists _, _.
  - unfold rt_thread_resume. rewrite (typed_obj _ _ _ _ (ko_sched _ K) Ex Hx).
    cbn [mbind result_bind]. rewrite (proj2 (Z.eqb_neq _ _)) by done. by eexists _, _.
Qed.

(** A thread that sleeps, also when it is suspended already. *)
Lemma sleep_any k tick : kernel_ok k -> current k <> IDLE_THREAD -> tick < TICK_HALF ->
  exists k', rt_thread_sleep k tick = Ok k' /\ kernel_ok k'.
Proof.
  intros K Hi Htick. destruct (ko_current _ K) as (c & Ec & Hc).
  assert (Hcl : stat_of c <> RT_THREAD_CLOSE) by (by destruct Hc as [-> | ->]).
  unfold rt_thread_sleep, rt_thread_self.
  rewrite (proj2 (Z.eqb_neq (current k) 0)) by (by eapply thread_nonnull).
  cbn [negb rt_assert mbind result_bind]. rewrite (typed_obj _ _ _ _ (ko_sched _ K) Ec Hcl).
  cbn [mbind result_bind]. destruct Hc as [Hr|Hs].
  - destruct (sleep_ok k c tick K Ec (or_intror Hr) Hi Htick) as (k1 & E & K1 & _).
    destruct (rt_thread_suspend k (current k)) as [[k2 e]|f]; [|done].
    cbn [mbind result_bind] in E |- *. rewrite E. cbn [mbind result_bind].
    destruct (schedule_ok k1 K1) as (k' & -> & K' & _). by exists k'.
  - unfold rt_thread_suspend. rewrite (typed_obj _ _ _ _ (ko_sched _ K) Ec Hcl).
    cbn [mbind result_bind]. rewrite Hs. cbn [negb andb Z.eqb mbind result_bind].
    change (RT_THREAD_SUSPEND =? RT_THREAD_READY) with false.
    change (RT_THREAD_SUSPEND =? RT_THREAD_RUNNING) with false. cbn [negb andb mbind result_bind].
    destruct (start_timer_inv k (current k) c tick (ko_timers _ K) Ec Hs Htick) as (s' & -> & T & _).
    cbn [mbind result_bind].
    destruct (schedule_ok _ (with_tst_ok k s' K T)) as (k' & -> & K' & _). by exists k'.
Qed.

(** One operation. *)
Lemma kop_ok k o : kernel_ok k -> enabled k o ->
  exists k', run_kop o k = Ok k' /\ kernel_ok k'.
Proof.
  intros K H. destruct o as [| | | | | |t|t|tick|t p|]; cbn [run_kop enabled] in *.
  - destruct (schedule_ok k K) as (k' & -> & K' & _). by exists k'.
  - unfold rt_thread_yield. destruct (schedule_ok k K) as (k' & -> & K' & _). by exists k'.
  - eexists. split; [done|]. by apply enter_critical_ok.
  - by apply exit_critical_ok.
  - eexists. split; [done|]. by apply with_nest_ok.
  - eexists. split; [done|]. by apply with_nest_ok.
  - destruct H as [Ho Hi]. destruct (suspend_any k t K Ho Hi) as (k' & e & -> & K').
    by exists k'.
  - destruct (resume_any k t K H) as (k' & e & -> & K'). by exists k'.
  - destruct H. by apply sleep_any.
  - destruct H as [(x & Ex & Hx) Hp]. unfold rt_thread_control.
    rewrite (typed_obj _ _ _ _ (ko_sched _ K) Ex Hx). cbn [mbind result_bind].
    rewrite u8_small by lia.
    destruct (change_priority_ok k t x p K Ex Hx Hp) as (k' & -> & K' & _). by exists k'.
  - destruct (tick_ok user_call k K H) as (k' & -> & K' & _). by exists k'.
Qed.

(** C1: from a consistent kernel state - every thread in the list its status
    and priority call for, the bitmap equal to the set of non-empty ready
    lists, timers only of suspended threads - every sequence of scheduler
    calls, critical sections, suspensions, resumptions, sleeps, priority
    changes and ticks leads to a consistent state, and none of these
    operations fails an assertion, follows a stale node or loops in it. *)
Theorem kernel_ops_safe k k' o :
  kernel_ok k -> reaches k k' -> enabled k' o ->
  kernel_ok k' /\ exists k2, run_kop o k' = Ok k2 /\ kernel_ok k2.
Proof.
  intros K R H. assert (K' : kernel_ok k').
  { clear H. induction R as [k|k o' k1 k2 R IH H E]; [done|].
    destruct (kop_ok k1 o' (IH K) H) as (k3 & E3 & K3). rewrite E3 in E. by injection E as <-. }
  split; [done|]. by apply kop_ok.
Qed.

End Steps.

(** *** A small system

    Thread 3 runs with a last tick of its slice left, thread 4 of the same
    priority is ready, thread 5 waits for object 100 and thread 1 is idle. *)
Definition demo_thread (stat prio remaining : Z) : rt_thread :=
  mk_thread stat prio prio (2 ^ prio) 0 0 20 remaining RT_EOK false false true.

Definition demo_timer (t : Z) : rt_timer := mk_timer 0 RT_THREAD_TIMEOUT t 0 0.

Definition demo : kernel :=
  mk_kernel
    (<[1 := demo_thread RT_THREAD_READY 31 5]> (<[3 := demo_thread RT_THREAD_RUNNING 10 1]>
      (<[4 := demo_thread RT_THREAD_READY 10 20]> (<[5 := demo_thread RT_THREAD_SUSPEND 5 20]> ∅))))
    (<[L_ready 31 := [1]]> (<[L_ready 10 := [4]]> (<[L_wait 100 := [5]]> ∅)))
    ∅ (2 ^ 31 + 2 ^ 10) 0 3 10 0
    (mk_tstate (<[-1 := demo_timer 1]> (<[-3 := demo_timer 3]> (<[-4 := demo_timer 4]>
      (<[-5 := demo_timer 5]> ∅)))) [] [] 1000 0).

Lemma demo_lst n : lst demo n =
  if decide (n = L_ready 31) then [1] else if decide (n = L_ready 10) then [4]
  else if decide (n = L_wait 100) then [5] else [].
Proof.
  unfold lst, demo. cbn [lists]. rewrite !lookup_insert, lookup_empty.
  repeat case_decide; subst; done.
Qed.

Lemma demo_threads t x : threads demo !! t = Some x ->
  (t = 1 /\ x = demo_thread RT_THREAD_READY 31 5) \/ (t = 3 /\ x = demo_thread RT_THREAD_RUNNING 10 1) \/
  (t = 4 /\ x = demo_thread RT_THREAD_READY 10 20) \/ (t = 5 /\ x = demo_thread RT_THREAD_SUSPEND 5 20).
Proof.
  unfold demo. cbn [threads]. rewrite !lookup_insert, lookup_empty.
  repeat case_decide; subst; intros [= <-]; tauto.
Qed.

Lemma demo_bits : Forall (fun p => Z.testbit (ready_group demo) p =
  negb (bool_decide (lst demo (L_ready p) = []))) (seqZ 0 32).
Proof. vm_compute. repeat constructor. Qed.

Lemma demo_elem n t : t ∈ lst demo n -> (n = L_ready 31 /\ t = 1) \/ (n = L_ready 10 /\ t = 4) \/
  (n = L_wait 100 /\ t = 5).
Proof.
  rewrite demo_lst. repeat case_decide; subst; rewrite ?list_elem_of_singleton; try tauto.
  by intros ?%elem_of_nil.
Qed.

Lemma demo_sched : sched_inv 0 demo.
Proof.
  constructor.
  - done.
  - intros p Hp. pose proof demo_bits as H. rewrite Forall_forall in H. apply H.
    apply elem_of_seqZ. lia.
  - intros p t [[[= ->] ->]|[[[= ->] ->]|[? _]]]%demo_elem; [..|done]; eexists; by split_and!.
  - intros n. rewrite demo_lst. repeat case_decide; first [apply NoDup_singleton|apply NoDup_nil_2].
  - intros n m t Hn%demo_elem Hm%demo_elem.
    destruct Hn as [[-> ->]|[[-> ->]|[-> ->]]], Hm as [[-> ?]|[[-> ?]|[-> ?]]]; done.
  - intros n H%demo_elem. lia.
  - split; [done|]. intros n H%demo_elem. lia.
  - intros t x _ Ex%demo_threads. rewrite demo_lst.
    destruct Ex as [[-> ->]|[[-> ->]|[[-> ->]|[-> ->]]]]; intros Hs; try done; by left.
  - intros t x _ Ex%demo_threads Hs.
    destruct Ex as [[-> ->]|[[-> ->]|[[-> ->]|[-> ->]]]]; try done. split; [done|].
    intros n H%demo_elem. lia.
  - intros t x Ex%demo_threads.
    destruct Ex as [[-> ->]|[[-> ->]|[[-> ->]|[-> ->]]]]; split_and!; done.
  - intros t [o [H|H]]; apply demo_elem in H as [[? _]|[[? _]|[? ->]]]; try done. by eexists.
Qed.

Lemma demo_ok : kernel_ok demo.
Proof.
  constructor; [exact demo_sched| | |].
  - constructor.
    + intros t x Ex%demo_threads _. destruct Ex as [[-> ->]|[[-> ->]|[[-> ->]|[-> ->]]]]; eexists;
        (split; [reflexivity|by split_and!]).
    + intros t x _ H. by apply elem_of_nil in H.
    + intros p H. by apply elem_of_nil in H.
    + intros t x _. apply not_elem_of_nil.
  - eexists. split; [reflexivity|]. by left.
  - eexists. split; [reflexivity|]. by left.
Qed.

Lemma kernel_ops_safe_witness : exists k2,
  run_kop (fun _ _ k => Ok k) K_tick (rt_enter_critical demo) = Ok k2 /\ kernel_ok k2.
Proof.
  apply (kernel_ops_safe (fun _ _ k => Ok k) demo (rt_enter_critical demo) K_tick demo_ok).
  - eapply (reaches_step _ _ K_enter_critical); [apply reaches_refl|exact I|reflexivity].
  - intros p H. by apply elem_of_nil in H.
Defined.

(** *** Which thread runs *)

(** C5: with the scheduler unlocked, [rt_schedule] gives the processor to the
    head of the highest non-empty ready list, unless the running thread has a
    higher priority, or the same one and did not use up its time slice.  A
    thread that is preempted goes to the end of its ready list, the other lists
    keep their order, and no ready thread has a higher priority than the one
    that runs. *)
Theorem rt_schedule_runs_highest k c :
  kernel_ok k -> threads k !! current k = Some c -> lock_nest k = 0 -> ready_group k <> 0 ->
  exists k' t p r, rt_schedule k = Ok k' /\ head (lst k (L_ready p)) = Some t /\
    current k' = (if keeps c p then current k else t) /\
    threads k' !! current k' = Some r /\ stat_of r = RT_THREAD_RUNNING /\
    (forall u y, threads k' !! u = Some y -> stat_of y = RT_THREAD_READY ->
       current_priority r <= current_priority y) /\
    (forall q, lst k' (L_ready q) = filter (.≠ current k') (lst k (L_ready q)) ++
       (if (stat_of c =? RT_THREAD_RUNNING) && negb (keeps c p) && (q =? current_priority c)
        then [current k] else [])).
Proof.
  intros K Ec Hl Hg. pose proof (ko_sched _ K) as I.
  assert (Hc : stat_of c = RT_THREAD_RUNNING \/ stat_of c = RT_THREAD_SUSPEND).
  { destruct (ko_current _ K) as (c' & E & H). rewrite Ec in E. by injection E as <-. }
  destruct (schedule_spec k c I Ec (thread_nonnull _ _ _ K Ec))
    as (k' & t & p & E & _ & Hh & (I' & _ & Hk & Ecur & _ & (r & Er & Hr) & _ & Hq) & Hbest);
    [by destruct Hc as [-> | ->]|by destruct Hc as [-> | ->]|done|done|].
  exists k', t, p, r. split_and!; try done.
  assert (Ht : t ∈ lst k (L_ready p)).
  { destruct (lst k (L_ready p)) as [|? ?]; [done|]. injection Hh as ->. by left. }
  destruct (si_ready _ _ I p t Ht) as (x & Ex & Hxp & Hx).
  assert (Hrp : current_priority r <= p /\ (keeps c p = false -> stat_of c = RT_THREAD_RUNNING ->
    p <= current_priority c)).
  { unfold keeps in *. pose proof (Hk (current k')) as Hc'. rewrite Ecur in Hc', Er.
    destruct (_ && _) eqn:Hkeep in Hc', Er |- *.
    - rewrite Ec in Hc'. destruct Hc' as (r' & Er' & [Hrc _]). rewrite Er in Er'. injection Er' as <-.
      split; [rewrite Hrc; cbn|done]. apply andb_true_iff in Hkeep as [_ Hkeep].
      apply orb_true_iff in Hkeep as [Hkeep%Z.ltb_lt|[Hkeep%Z.eqb_eq _]%andb_true_iff]; lia.
    - rewrite Ex in Hc'. destruct Hc' as (r' & Er' & [Hrc _]). rewrite Er in Er'. injection Er' as <-.
      split; [rewrite Hrc; cbn; lia|]. intros _ Hrun. rewrite Hrun in Hkeep. cbn in Hkeep.
      apply orb_false_iff in Hkeep as [Hkeep%Z.ltb_ge _]. lia. }
  intros u y Ey Hy. pose proof (Hk u) as Hu. destruct (threads k !! u) as [z|] eqn:Ez; [|congruence].
  destruct Hu as (y' & Ey' & [Hyz Hst]). rewrite Ey in Ey'. injection Ey' as <-.
  assert (Epr : current_priority y = current_priority z) by (by rewrite Hyz).
  destruct (decide (stat_of z = RT_THREAD_READY)) as [Hz|Hz].
  { specialize (Hbest u z Ez Hz). lia. }
  destruct Hst as [->|[[?|Hz'] _]]; [done|done|].
  destruct (si_running _ _ I u z (thread_nonnull _ _ _ K Ez) Ez Hz') as [-> _].
  rewrite Ec in Ez. injection Ez as <-. rewrite Epr.
  destruct (keeps c p) eqn:Hkeep; [|destruct Hrp as [H1 H2]; specialize (H2 eq_refl Hz'); lia].
  rewrite Ecur, Ey in Er. injection Er as <-. by rewrite Hy in Hr.
Qed.

Lemma rt_schedule_runs_highest_witness : exists k',
  rt_schedule demo = Ok k' /\ current k' = 3.
Proof.
  destruct (rt_schedule_runs_highest demo (demo_thread RT_THREAD_RUNNING 10 1) demo_ok)
    as (k' & _ & _ & _ & E & _); [reflexivity|reflexivity|done|].
  exists k'. split; [exact E|]. vm_compute in E. by injection E as <-.
Defined.

(** No ready thread has a higher priority than [c]. *)
Definition none_higher (k : kernel) (c : rt_thread) : Prop :=
  forall u y, threads k !! u = Some y -> stat_of y = RT_THREAD_READY ->
    current_priority c <= current_priority y.

(** [rt_thread_yield] is a call of the scheduler and nothing else: a running
    thread whose time slice is not used up keeps the processor although other
    threads of its priority are ready, and no list changes. *)
Theorem rt_thread_yield_keeps k c :
  kernel_ok k -> threads k !! current k = Some c -> stat_of c = RT_THREAD_RUNNING ->
  Z.land (stat c) RT_THREAD_STAT_YIELD = 0 -> none_higher k c ->
  exists k', rt_thread_yield k = Ok k' /\ current k' = current k /\
    (exists r, threads k' !! current k = Some r /\ stat_of r = RT_THREAD_RUNNING) /\
    forall n, lst k' n = lst k n.
Proof.
  intros K Ec Hr Hy Hn. pose proof (ko_sched _ K) as I. pose proof (thread_nonnull _ _ _ K Ec) as Hc0.
  unfold rt_thread_yield.
  assert (Hsame : exists k', Ok k = Ok k' /\ current k' = current k /\
    (exists r, threads k' !! current k = Some r /\ stat_of r = RT_THREAD_RUNNING) /\
    forall n, lst k' n = lst k n).
  { exists k. split_and!; try done. by exists c. }
  destruct (Z.eqb_spec (lock_nest k) 0) as [Hl|Hl].
  2:{ unfold rt_schedule. by rewrite (proj2 (Z.eqb_neq (lock_nest k) 0)). }
  destruct (Z.eqb_spec (ready_group k) 0) as [Hg|Hg].
  { unfold rt_schedule. by rewrite Hl, Hg. }
  destruct (schedule_spec k c I Ec Hc0)
    as (k' & t & p & E & _ & Hh & (_ & _ & _ & Ecur & _ & Hrun & Hwait & Hq) & _);
    [by rewrite Hr|by rewrite Hr|done|done|].
  assert (Ht : t ∈ lst k (L_ready p)).
  { destruct (lst k (L_ready p)) as [|? ?]; [done|]. injection Hh as ->. by left. }
  destruct (si_ready _ _ I p t Ht) as (x & Ex & Hxp & Hx).
  assert (Hkeep : keeps c p = true).
  { unfold keeps. rewrite Hr, Hy. cbn. specialize (Hn t x Ex Hx).
    destruct (Z.ltb_spec (current_priority c) p); [done|]. cbn. rewrite andb_true_r. apply Z.eqb_eq. lia. }
  rewrite Hkeep in Ecur, Hq. rewrite Ecur in *.
  assert (Hf : forall n, filter (.≠ current k) (lst k n) = lst k n).
  { intros n. apply filter_absent. by apply (si_running _ _ I _ c). }
  exists k'. split_and!; try done. intros n.
  destruct n as [q|o|o|]; [|by rewrite Hwait..].
  by rewrite Hq, Hf, andb_false_r, app_nil_r.
Qed.

(** The demo with a full time slice left. *)
Definition fresh_demo : kernel := put_thread demo 3 (demo_thread RT_THREAD_RUNNING 10 20).

Lemma fresh_demo_ok : kernel_ok fresh_demo.
Proof. by apply (relabel_ok demo 3 (demo_thread RT_THREAD_RUNNING 10 1) _ demo_ok). Qed.

Lemma demo_none_higher : none_higher demo (demo_thread RT_THREAD_RUNNING 10 1).
Proof.
  intros u y Ey%demo_threads. destruct Ey as [[-> ->]|[[-> ->]|[[-> ->]|[-> ->]]]]; done.
Qed.

Lemma rt_thread_yield_keeps_witness : exists k',
  rt_thread_yield demo = Ok k' /\ current k' = 3 /\ lst k' (L_ready 10) = [4].
Proof.
  destruct (rt_thread_yield_keeps demo (demo_thread RT_THREAD_RUNNING 10 1) demo_ok)
    as (k' & E & Hc & _ & Hl); [reflexivity|done|reflexivity|exact demo_none_higher|].
  exists k'. split_and!; [exact E|exact Hc|]. by rewrite Hl.
Defined.

(** The highest ready thread, when the head of the list of the running thread's
    priority is one of them. *)
Lemma schedule_same_prio k c t l : kernel_ok k -> threads k !! current k = Some c ->
  stat_of c = RT_THREAD_RUNNING -> lock_nest k = 0 -> none_higher k c ->
  lst k (L_ready (current_priority c)) = t :: l ->
  exists k', rt_schedule k = Ok k' /\ scheduled k k' t (current_priority c) c.
Proof.
  intros K Ec Hr Hl Hn El. pose proof (ko_sched _ K) as I. pose proof (thread_nonnull _ _ _ K Ec) as Hc0.
  destruct (si_mask _ _ I _ c Ec) as (Hcp & _).
  assert (Hg : ready_group k <> 0).
  { intros E. pose proof (si_bits _ _ I (current_priority c) Hcp) as H. rewrite El, E in H.
    by rewrite Z.bits_0 in H. }
  destruct (schedule_spec k c I Ec Hc0) as (k' & t' & p & E & _ & Hh & Hs & Hbest);
    [by rewrite Hr|by rewrite Hr|done|done|].
  assert (Ht : t' ∈ lst k (L_ready p)).
  { destruct (lst k (L_ready p)) as [|? ?]; [done|]. injection Hh as ->. by left. }
  destruct (si_ready _ _ I p t' Ht) as (x' & Ex' & Hxp' & Hx').
  destruct (si_ready _ _ I (current_priority c) t) as (x & Ex & Hxp & Hx); [rewrite El; by left|].
  assert (p = current_priority c) as ->.
  { specialize (Hbest t x Ex Hx). specialize (Hn t' x' Ex' Hx'). lia. }
  rewrite El in Hh. injection Hh as ->. by exists k'.
Qed.

(** No hard timer is due at the next tick: the list is empty, or its first
    timer is still to come. *)
Definition none_due (s : TimerOps.tstate) : Prop :=
  match rt_timer_list s with
  | [] => True
  | p :: _ => exists y, timers s !! p = Some y /\
      TimerOps.TICK_HALF <= u32 (u32 (rt_tick s + 1) - timeout_tick y)
  end.

(** C35: round robin, at a tick at which no hard timer is due ([none_due]),
    with the scheduler unlocked, no ready thread of a higher priority and at
    least one of the same priority as the running thread.  A tick that leaves
    the running thread some of its time slice only counts it down; the tick
    that uses it up reloads it, runs the first ready thread of that priority
    and puts the running thread behind the others. *)
Theorem rt_tick_increase_round_robin u n k c t l :
  kernel_ok k -> threads k !! current k = Some c -> stat_of c = RT_THREAD_RUNNING ->
  0 < remaining_tick c < 4294967296 -> lock_nest k = 0 -> none_due (tst k) ->
  none_higher k c -> lst k (L_ready (current_priority c)) = t :: l ->
  exists k' c', rt_tick_increase u (S n) k = Ok k' /\ threads k' !! current k = Some c' /\
    rt_tick (tst k') = u32 (rt_tick (tst k) + 1) /\
    if remaining_tick c =? 1
    then current k' = t /\ lst k' (L_ready (current_priority c)) = l ++ [current k] /\
         remaining_tick c' = thread_init_tick c /\ stat_of c' = RT_THREAD_READY
    else current k' = current k /\ (forall m, lst k' m = lst k m) /\
         remaining_tick c' = remaining_tick c - 1 /\ c' = with_remaining c (remaining_tick c').
Proof.
  intros K Ec Hr Hrem Hl Htl Hn El.
  unfold rt_tick_increase, rt_thread_self. set (k1 := with_tst k _).
  change (thread_at k1 (current k1)) with (thread_at k (current k)). rewrite (thread_at_Ok _ _ _ Ec).
  cbn [mbind result_bind remaining_tick with_remaining]. rewrite u32_small by lia.
  assert (K1 : kernel_ok k1) by (apply with_tst_ok; [done|]; apply with_tick_inv, K).
  assert (Hcheck : forall j, tst j = tst k1 -> rt_timer_check (timer_call u) (S n) j = Ok j).
  { intros j Ej. unfold rt_timer_check. cbn [check_loop get_timers kernel_timers]. rewrite Ej.
    unfold k1. cbn. unfold none_due in Htl. destruct (rt_timer_list (tst k)) as [|p ps]; [done|].
    destruct Htl as (y & Ey & Hy). rewrite Ey. cbn [deref mbind result_bind].
    by rewrite (proj2 (Z.ltb_ge _ _)). }
  set (c1 := with_remaining c (remaining_tick c - 1)).
  destruct (Z.eqb_spec (remaining_tick c - 1) 0) as [E1|E1].
  2:{ cbn [mbind result_bind]. rewrite Hcheck by done. eexists _, c1. split; [reflexivity|].
      rewrite (proj2 (Z.eqb_neq (remaining_tick c) 1)) by lia.
      split_and!; try done. cbn. by rewrite lookup_insert_eq. }
  rewrite (proj2 (Z.eqb_eq (remaining_tick c) 1)) by lia.
  set (c3 := with_stat _ _). set (k3 := put_thread (put_thread _ _ _) _ c3).
  change (current (put_thread k1 (current k1) c1)) with (current k1) in *.
  assert (Hs3 : stat_of c3 = stat_of c).
  { unfold stat_of. cbn. by rewrite Z.land_lor_distr_l, Z.lor_0_r. }
  assert (K3 : kernel_ok k3).
  { apply (relabel_ok (put_thread k1 (current k1) c1) _ c1); try done; [|apply lookup_insert_eq].
    by apply (relabel_ok k1 _ c). }
  assert (Ec3 : threads k3 !! current k3 = Some c3) by (cbn; by rewrite lookup_insert_eq).
  assert (Hn3 : none_higher k3 c3).
  { intros v y. cbn. rewrite !lookup_insert. case_decide as Hd; [by intros [= <-] _|]. apply Hn. }
  destruct (schedule_same_prio k3 c3 t l K3 Ec3) as (k4 & E4 & Hs4); [congruence|done|done|done|].
  unfold rt_thread_yield. rewrite E4. cbn [mbind result_bind].
  destruct Hs4 as (I4 & He4 & Hk4 & Ecur & _ & (r & Er & Hr4) & _ & Hq).
  rewrite Hcheck by (by rewrite (proj1 (proj2 (proj2 He4)))).
  assert (Hkeep : keeps c3 (current_priority c3) = false).
  { unfold keeps. rewrite Z.ltb_irrefl, Z.eqb_refl. cbn [orb andb]. rewrite Hs3, Hr. cbn [andb].
    change (stat c3) with (Z.lor (stat c) RT_THREAD_STAT_YIELD).
    apply Z.eqb_neq. intros E. rewrite Z.land_comm, Z.land_lor_distr_r in E.
    apply Z.lor_eq_0_iff in E as [_ E]. done. }
  rewrite Hkeep in Ecur, Hq. pose proof (Hk4 (current k3)) as Hc4. rewrite Ec3 in Hc4.
  destruct Hc4 as (c4 & E5 & [Hc4 Hst4]).
  exists k4, c4. split; [done|]. split; [exact E5|]. split.
  { by rewrite (proj1 (proj2 (proj2 He4))). }
  split; [done|]. specialize (Hq (current_priority c)). rewrite Hs3, Hr in Hq.
  change (current_priority c3) with (current_priority c) in Hq. rewrite Z.eqb_refl in Hq.
  change (lst k3 (L_ready (current_priority c))) with (lst k (L_ready (current_priority c))) in Hq.
  rewrite El, Ecur, filter_cons_False in Hq by (intros H; by apply H).
  pose proof (si_nodup _ _ (ko_sched _ K) (L_ready (current_priority c))) as Hnd. rewrite El in Hnd.
  apply NoDup_cons in Hnd as [Hnt _]. rewrite (filter_absent t l Hnt), Z.eqb_refl in Hq.
  split; [exact Hq|]. split; [by rewrite Hc4|].
  destruct (si_ready _ _ I4 (current_priority c) (current k)) as (y & Ey & _ & Hy).
  { rewrite Hq. apply elem_of_app. right. by left. }
  change (current k3) with (current k) in E5. rewrite E5 in Ey. by injection Ey as <-.
Qed.

Lemma rt_tick_increase_round_robin_witness : exists k',
  rt_tick_increase (fun _ _ k => Ok k) 1 demo = Ok k' /\ current k' = 4 /\
  lst k' (L_ready 10) = [3].
Proof.
  destruct (rt_tick_increase_round_robin (fun _ _ k => Ok k) 0 demo
    (demo_thread RT_THREAD_RUNNING 10 1) 4 [] demo_ok) as (k' & c' & E & _ & _ & Hc & Hq & _);
    [reflexivity|reflexivity|done|reflexivity|reflexivity|exact demo_none_higher|reflexivity|].
  exists k'. split_and!; [exact E|exact Hc|exact Hq].
Defined.

(** *** Sleeping *)

(** What a sleep of [tick] ticks leads to. *)
Definition asleep (k k' : kernel) (tick : Z) : Prop :=
  kernel_ok k' /\ current k' <> current k /\ (forall n, current k ∉ lst k' n) /\
  (exists x, threads k' !! current k = Some x /\ stat_of x = RT_THREAD_SUSPEND) /\
  thread_timer (current k) ∈ rt_timer_list (tst k') /\
  timeout_tick <$> timers (tst k') !! thread_timer (current k) = Some (u32 (rt_tick (tst k) + tick)).

(** The suspension, the start of the timer and the call of the scheduler. *)
Lemma sleep_run k c tick : kernel_ok k -> threads k !! current k = Some c ->
  stat_of c = RT_THREAD_RUNNING -> lock_nest k = 0 -> current k <> IDLE_THREAD -> tick < TICK_HALF ->
  exists k1 k', ('(j, _) ← rt_thread_suspend k (current k); start_timer j (current k) tick) = Ok k1 /\
    rt_schedule k1 = Ok k' /\ asleep k k' tick.
Proof.
  intros K Ec Hr Hl Hi Htick.
  destruct (sleep_ok k c tick K Ec (or_intror Hr) Hi Htick)
    as (k1 & E & K1 & Et & Ecur & El & _ & Hlst & Htk & Hp & Hto).
  set (c1 := set_stat RT_THREAD_SUSPEND c) in *.
  assert (Hs1 : stat_of c1 = RT_THREAD_SUSPEND) by (apply stat_set; unfold RT_THREAD_SUSPEND; lia).
  assert (Ec1 : threads k1 !! current k1 = Some c1) by (by rewrite Ecur, Et, lookup_insert_eq).
  destruct (ko_idle _ K) as (i & Ei & Ha).
  assert (Hready : stat_of i = RT_THREAD_READY).
  { destruct Ha as [|Ha]; [done|]. pose proof (ko_sched _ K) as I.
    destruct (si_running _ _ I IDLE_THREAD i ltac:(done) Ei Ha) as [H _]. by destruct Hi. }
  pose proof (ko_sched _ K1) as I1.
  assert (Hg : ready_group k1 <> 0).
  { assert (Ei1 : threads k1 !! IDLE_THREAD = Some i) by (by rewrite Et, lookup_insert_ne).
    pose proof (si_listed _ _ I1 IDLE_THREAD i ltac:(done) Ei1 Hready) as Hin.
    intros E0. pose proof (si_bits _ _ I1 (current_priority i) (proj1 (si_mask _ _ I1 _ i Ei1))) as H.
    rewrite E0, Z.bits_0 in H. symmetry in H. apply negb_false_iff, bool_decide_eq_true in H.
    rewrite H in Hin. by apply elem_of_nil in Hin. }
  destruct (schedule_spec k1 c1 I1 Ec1 (thread_nonnull _ _ _ K1 Ec1))
    as (k' & t & p & E' & _ & Hh & (_ & He & Hk & Ecur' & _ & (r & Er & Hr') & Hw & Hq) & _);
    [by rewrite Hs1|by rewrite Hs1|by rewrite El|done|].
  destruct (schedule_ok k1 K1) as (k2 & E2 & K2 & _). rewrite E' in E2. injection E2 as <-.
  exists k1, k'. split; [done|]. split; [done|].
  assert (Hkeep : keeps c1 p = false) by (unfold keeps; by rewrite Hs1).
  rewrite Hkeep in Ecur'. pose proof (Hk (current k1)) as Hc. rewrite Ec1 in Hc.
  destruct Hc as (c2 & Ec2 & _ & [->|[[Ha1|Ha1] _]]); [|by rewrite Hs1 in Ha1..].
  rewrite Ecur in Ec2. destruct He as (_ & _ & Hts & _).
  assert (Hne : current k' <> current k).
  { intros E0. rewrite E0, Ec2 in Er. injection Er as <-. by rewrite Hs1 in Hr'. }
  unfold asleep. rewrite Hts. split_and!; try done; [|by exists c1].
  intros n Hin. assert (Hin1 : current k ∈ lst k1 n).
  { destruct n as [q|o|o|]; [|rewrite Hw in Hin by done; by apply list_elem_of_filter in Hin as [_ ?]..].
    rewrite Hq, Hs1 in Hin. cbn in Hin. rewrite app_nil_r in Hin.
    by apply list_elem_of_filter in Hin as [_ ?]. }
  rewrite Hlst in Hin1. apply list_elem_of_filter in Hin1 as [? _]. done.
Qed.

(** [rt_thread_sleep] takes the running thread off the processor: another
    thread runs, the thread is suspended and in no list, and its timer is
    pending and due at the current tick plus [tick]. *)
Theorem rt_thread_sleep_suspends k c tick :
  kernel_ok k -> threads k !! current k = Some c -> stat_of c = RT_THREAD_RUNNING ->
  lock_nest k = 0 -> current k <> IDLE_THREAD -> tick < TICK_HALF ->
  exists k', rt_thread_sleep k tick = Ok k' /\ asleep k k' tick.
Proof.
  intros K Ec Hr Hl Hi Htick.
  destruct (sleep_run k c tick K Ec Hr Hl Hi Htick) as (k1 & k' & E1 & E2 & Ha).
  exists k'. split; [|done]. unfold rt_thread_sleep, rt_thread_self.
  rewrite (proj2 (Z.eqb_neq (current k) 0)) by (by eapply thread_nonnull).
  cbn [negb rt_assert mbind result_bind].
  rewrite (typed_obj _ _ _ _ (ko_sched _ K) Ec) by (by rewrite Hr). cbn [mbind result_bind].
  destruct (rt_thread_suspend k (current k)) as [[k2 e]|f]; [|done].
  cbn [mbind result_bind] in E1 |- *. rewrite E1. exact E2.
Qed.

Lemma rt_thread_sleep_suspends_witness : exists k',
  rt_thread_sleep demo 50 = Ok k' /\ current k' = 4 /\ rt_timer_list (tst k') = [-3].
Proof.
  destruct (rt_thread_sleep_suspends demo (demo_thread RT_THREAD_RUNNING 10 1) 50 demo_ok)
    as (k' & E & _); [reflexivity|reflexivity|reflexivity|done|reflexivity|].
  exists k'. split; [exact E|]. vm_compute in E. injection E as <-. by split.
Defined.

(** [rt_thread_delay_until] sleeps when fewer than [inc_tick] ticks have
    passed since [tick], but it sets the timer to the ticks passed plus
    [inc_tick]: the thread is due at [2 * now - tick + inc_tick], twice the
    passed time later than [tick + inc_tick].  Otherwise it returns at once. *)
Theorem rt_thread_delay_until_oversleeps k c tick inc_tick :
  kernel_ok k -> threads k !! current k = Some c -> stat_of c = RT_THREAD_RUNNING ->
  lock_nest k = 0 -> current k <> IDLE_THREAD -> 0 <= inc_tick -> 2 * inc_tick <= TICK_HALF ->
  let now := rt_tick (tst k) in
  let passed := u32 (now - tick) in
  if passed <? inc_tick
  then exists k', rt_thread_delay_until k tick inc_tick = Ok (k', passed + inc_tick, true) /\
         asleep k k' (passed + inc_tick) /\
         u32 (now + (passed + inc_tick)) = u32 (tick + inc_tick + 2 * passed)
  else rt_thread_delay_until k tick inc_tick = Ok (k, now, false).
Proof.
  intros K Ec Hr Hl Hi Hinc Hhalf now passed. pose proof (u32_range (now - tick)) as Hrange.
  unfold rt_thread_delay_until, rt_thread_self, rt_tick_get. fold now. fold passed.
  rewrite (proj2 (Z.eqb_neq (current k) 0)) by (by eapply thread_nonnull).
  cbn [negb rt_assert mbind result_bind].
  rewrite (typed_obj _ _ _ _ (ko_sched _ K) Ec) by (by rewrite Hr). cbn [mbind result_bind].
  destruct (Z.ltb_spec passed inc_tick) as [Hp|Hp]; [|done].
  rewrite TimerSpec.tick_half in Hhalf.
  assert (E : u32 (now - tick + inc_tick) = passed + inc_tick).
  { subst passed. unfold u32 in *. dlia. }
  rewrite E. destruct (sleep_run k c (passed + inc_tick) K Ec Hr Hl Hi) as (k1 & k' & E1 & E2 & Ha).
  { rewrite TimerSpec.tick_half. subst passed. lia. }
  destruct (rt_thread_suspend k (current k)) as [[k2 e]|f]; [|done].
  cbn [mbind result_bind] in E1 |- *. rewrite E1. cbn [mbind result_bind]. rewrite E2.
  exists k'. split_and!; [done|done|]. subst passed. unfold u32. dlia.
Qed.

Lemma rt_thread_delay_until_oversleeps_witness : exists k',
  rt_thread_delay_until demo 970 40 = Ok (k', 70, true) /\
  timeout_tick <$> timers (tst k') !! (-3) = Some 1070.
Proof.
  destruct (rt_thread_delay_until_oversleeps demo (demo_thread RT_THREAD_RUNNING 10 1) 970 40 demo_ok)
    as (k' & E & (_ & _ & _ & _ & _ & Ht) & _); [reflexivity|reflexivity|reflexivity|done|done|done|].
  exists k'. split; [exact E|exact Ht].
Defined.

(** the timer of a waiting thread, when it fires, takes the thread out of
    the list it waits in, gives it the error code of a timeout and makes it
    ready at the end of the ready list of its priority, before the scheduler
    runs. *)
Theorem rt_thread_timeout_wakes k t x :
  kernel_ok k -> threads k !! t = Some x -> stat_of x = RT_THREAD_SUSPEND ->
  thread_timer t ∉ rt_timer_list (tst k) -> t <> current k ->
  exists k1 y, rt_thread_timeout k t = rt_schedule k1 /\ kernel_ok k1 /\
    threads k1 !! t = Some y /\ stat_of y = RT_THREAD_READY /\ error y = - RT_ETIMEOUT /\
    (forall n, lst k1 n = if decide (n = L_ready (current_priority x))
       then lst k n ++ [t] else filter (.≠ t) (lst k n)).
Proof.
  intros K Ex Hx Hno Hc. destruct (timeout_ok k t x K Ex Hx Hno)
    as (k1 & E & _ & (K1 & Et & _ & _ & _ & _ & Hl & _)).
  eexists k1, _. split; [exact E|]. split; [done|]. split; [rewrite Et; apply lookup_insert_eq|].
  unfold woken. rewrite (proj2 (Z.eqb_neq t (current k))) by done.
  split; [apply stat_set; unfold RT_THREAD_READY; lia|]. split; [done|].
  intros n. rewrite Hl. unfold woken_list. rewrite (proj2 (Z.eqb_neq t (current k))) by done.
  cbn [current_priority with_error]. case_decide as Hd; [subst n|done].
  rewrite filter_absent; [done|]. intros Hin.
  destruct (si_ready _ _ (ko_sched _ K) _ t Hin) as (y & Ey & _ & Hy).
  rewrite Ex in Ey. injection Ey as <-. by rewrite Hx in Hy.
Qed.

Lemma rt_thread_timeout_wakes_witness : exists k1,
  rt_thread_timeout demo 5 = rt_schedule k1 /\ lst k1 (L_wait 100) = [] /\ lst k1 (L_ready 5) = [5].
Proof.
  destruct (rt_thread_timeout_wakes demo 5 (demo_thread RT_THREAD_SUSPEND 5 20) demo_ok)
    as (k1 & y & E & _ & _ & _ & _ & Hl); [reflexivity|reflexivity|apply not_elem_of_nil|done|].
  exists k1. split; [exact E|]. by rewrite !Hl.
Defined.

End KernThms.
