(* ===== verification/Ipc.v ===== *)
(** * Semaphores, mutexes, events, mailboxes and message queues
      (rt-thread/src/ipc.c)

    The operations on the kernel state of [Kernel].  A function that may block
    is a definition for the part up to its [rt_schedule], which either returns
    ([Ret]) or leaves the thread waiting ([Blocked], with the local variables
    that are still needed), and a [..._wake] definition for the part that runs
    when the thread executes again. *)
From S2P Require Import Prelude CTypes KService Timer Kernel.
From stdpp Require Import base list gmap.
From Stdlib Require Import ZArith Lia.
Open Scope Z_scope.

Module IpcList.
Import Kern Sched Thread.

Definition RT_IPC_FLAG_FIFO : Z := 0.
Definition RT_IPC_FLAG_PRIO : Z := 1.
Definition RT_IPC_CMD_RESET : Z := 1.

Inductive turn (W : Type) : Type :=
  | Ret (e : Z)
  | Blocked (w : W).
Arguments Ret {W} e.
Arguments Blocked {W} w.

(** The position of a thread [t] of priority [p] in a list sorted by priority:
    before the first thread that has a lower one. *)
Fixpoint prio_insert (k : kernel) (t p : Z) (l : list Z) : result (list Z) :=
  match l with
  | [] => Ok [t]
  | s :: l' =>
      y ← thread_at k s;
      if p <? current_priority y then Ok (t :: s :: l')
      else r ← prio_insert k t p l'; Ok (s :: r)
  end.

Definition rt_ipc_list_suspend (k : kernel) (n : lname) (t flag : Z) : result kernel :=
  '(k, _) ← rt_thread_suspend k t;
  if flag =? RT_IPC_FLAG_FIFO then list_append k n t
  else if flag =? RT_IPC_FLAG_PRIO then
    x ← thread_at k t;
    l ← prio_insert k t (current_priority x) (lst k n);
    if linked k t then Err F_wild else Ok (put_list k n l)
  else Ok k.

Definition rt_ipc_list_resume (k : kernel) (n : lname) : result kernel :=
  t ← deref (head (lst k n));
  '(k, _) ← rt_thread_resume k t;
  Ok k.

Fixpoint resume_all (fuel : nat) (k : kernel) (n : lname) : result kernel :=
  match lst k n with
  | [] => Ok k
  | t :: _ =>
      match fuel with
      | O => Err F_fuel
      | S f =>
          k ← upd_thread k t (fun x => with_error x (- RT_ERROR));
          '(k, _) ← rt_thread_resume k t;
          resume_all f k n
      end
  end.

(** One turn of the loop per thread in the list. *)
Definition rt_ipc_list_resume_all (k : kernel) (n : lname) : result kernel :=
  resume_all (length (lst k n)) k n.

(** What all blocking functions do: suspend the current thread in the list,
    start its timer when there is a limit, and give up the processor. *)
Definition wait_on (k : kernel) (n : lname) (flag timeout : Z) : result kernel :=
  let t := rt_thread_self k in
  k ← rt_ipc_list_suspend k n t flag;
  k ← (if 0 <? timeout then start_timer k t timeout else Ok k);
  rt_schedule k.

(** [thread->error = e] for the current thread. *)
Definition set_error (k : kernel) (e : Z) : result kernel :=
  upd_thread k (rt_thread_self k) (fun x => with_error x e).

(** The objects. *)
Definition put_body (k : kernel) (o : Z) (b : ipc_object) : kernel :=
  with_objs k (alter (fun x => mk_object (static x) b) o (objs k)).

Definition rt_ipc_object_init (k : kernel) (o : Z) : kernel := put_list k (L_wait o) [].

(** Objects of one class are in one container list. *)
Definition same_class (b c : ipc_object) : bool :=
  match b, c with
  | O_sem _, O_sem _ | O_mutex _, O_mutex _ | O_event _, O_event _
  | O_mailbox _, O_mailbox _ | O_mq _, O_mq _ | O_mempool _, O_mempool _ => true
  | _, _ => false
  end.

(** The object [b] at [o], of which the members are set by the caller. *)
Definition attach (k : kernel) (o : Z) (st : bool) (b : ipc_object) : kernel :=
  with_objs k (<[o := mk_object st b]> (objs k)).

Definition rt_object_init (k : kernel) (o : Z) (b : ipc_object) : result kernel :=
  let k := rt_enter_critical k in
  _ ← rt_assert (match objs k !! o with Some x => negb (same_class (body x) b) | None => true end);
  k ← rt_exit_critical k;
  Ok (attach k o true b).

(** [o] is the address that the heap returned, 0 if it had no memory. *)
Definition rt_object_allocate (k : kernel) (o : Z) (b : ipc_object) : result kernel :=
  _ ← not_in_interrupt k;
  if o =? 0 then Ok k else Ok (attach k o false b).

Definition rt_object_detach (k : kernel) (o : Z) : kernel := with_objs k (delete o (objs k)).

Definition rt_object_is_systemobject (k : kernel) (o : Z) : result bool :=
  x ← deref (objs k !! o); Ok (static x).

Definition rt_object_delete (k : kernel) (o : Z) : result kernel :=
  st ← rt_object_is_systemobject k o;
  _ ← rt_assert (negb st);
  Ok (with_objs k (delete o (objs k))).

(** The timeout that is left for the next turn of a waiting loop:
    [timeout -= rt_tick_get () - tick_delta], not below 0. *)
Definition remaining (k : kernel) (timeout tick_delta : Z) : Z :=
  if 0 <? timeout then
    let left := s32 (timeout - u32 (TimerOps.rt_tick_get (tst k) - tick_delta)) in
    if left <? 0 then 0 else left
  else timeout.

End IpcList.

Module Sem.
Import Kern Sched Thread IpcList.

Definition get_sem (k : kernel) (o : Z) : result rt_semaphore :=
  match objs k !! o with Some (mk_object _ (O_sem s)) => Ok s | _ => Err F_assert end.

Definition set_value (s : rt_semaphore) (v : Z) : rt_semaphore := mk_sem (sem_flag s) v.

Definition rt_sem_init (k : kernel) (o value flag : Z) : result kernel :=
  _ ← rt_assert (value <? 65536);
  k ← rt_object_init k o (O_sem (mk_sem flag (u16 value)));
  Ok (rt_ipc_object_init k o).

Definition rt_sem_detach (k : kernel) (o : Z) : result kernel :=
  _ ← get_sem k o;
  st ← rt_object_is_systemobject k o;
  _ ← rt_assert st;
  k ← rt_ipc_list_resume_all k (L_wait o);
  Ok (rt_object_detach k o).

(** [o] is the address that the heap returns, or 0. *)
Definition rt_sem_create (k : kernel) (o value flag : Z) : result kernel :=
  _ ← not_in_interrupt k;
  _ ← rt_assert (value <? 65536);
  k ← rt_object_allocate k o (O_sem (mk_sem flag (u16 value)));
  if o =? 0 then Ok k else Ok (rt_ipc_object_init k o).

Definition rt_sem_delete (k : kernel) (o : Z) : result kernel :=
  _ ← not_in_interrupt k;
  _ ← get_sem k o;
  st ← rt_object_is_systemobject k o;
  _ ← rt_assert (negb st);
  k ← rt_ipc_list_resume_all k (L_wait o);
  rt_object_delete k o.

Definition rt_sem_take (k : kernel) (o time : Z) : result (kernel * turn unit) :=
  s ← get_sem k o;
  if 0 <? sem_value s then Ok (put_body k o (O_sem (set_value s (u16 (sem_value s - 1)))), Ret RT_EOK)
  else if time =? 0 then Ok (k, Ret (- RT_ETIMEOUT))
  else
    _ ← in_thread_context k;
    k ← set_error k RT_EOK;
    k ← wait_on k (L_wait o) (sem_flag s) time;
    Ok (k, Blocked tt).

(** What [rt_sem_take] returns to thread [t] that waited. *)
Definition rt_sem_take_wake (k : kernel) (t : Z) : result Z :=
  x ← thread_at k t;
  if negb (error x =? RT_EOK) then Ok (error x) else Ok RT_EOK.

Definition rt_sem_trytake (k : kernel) (o : Z) : result (kernel * turn unit) := rt_sem_take k o 0.

Definition rt_sem_release (k : kernel) (o : Z) : result kernel :=
  s ← get_sem k o;
  match lst k (L_wait o) with
  | _ :: _ => k ← rt_ipc_list_resume k (L_wait o); rt_schedule k
  | [] => Ok (put_body k o (O_sem (set_value s (u16 (sem_value s + 1)))))
  end.

Definition rt_sem_control (k : kernel) (o cmd arg : Z) : result (kernel * Z) :=
  s ← get_sem k o;
  if cmd =? RT_IPC_CMD_RESET then
    k ← rt_ipc_list_resume_all k (L_wait o);
    let k := put_body k o (O_sem (set_value s (u16 arg))) in
    k ← rt_schedule k;
    Ok (k, RT_EOK)
  else Ok (k, - RT_ERROR).

End Sem.

Module Mutex.
Import Kern Sched Thread IpcList.

Definition get_mutex (k : kernel) (o : Z) : result rt_mutex :=
  match objs k !! o with Some (mk_object _ (O_mutex m)) => Ok m | _ => Err F_assert end.

Definition put_mutex (k : kernel) (o : Z) (m : rt_mutex) : kernel := put_body k o (O_mutex m).

Definition fresh_mutex (flag : Z) : rt_mutex := mk_mutex flag 1 255 0 0.

Definition rt_mutex_init (k : kernel) (o flag : Z) : result kernel :=
  k ← rt_object_init k o (O_mutex (fresh_mutex flag));
  Ok (rt_ipc_object_init k o).

Definition rt_mutex_detach (k : kernel) (o : Z) : result kernel :=
  _ ← get_mutex k o;
  st ← rt_object_is_systemobject k o;
  _ ← rt_assert st;
  k ← rt_ipc_list_resume_all k (L_wait o);
  Ok (rt_object_detach k o).

Definition rt_mutex_create (k : kernel) (o flag : Z) : result kernel :=
  _ ← not_in_interrupt k;
  k ← rt_object_allocate k o (O_mutex (fresh_mutex flag));
  if o =? 0 then Ok k else Ok (rt_ipc_object_init k o).

Definition rt_mutex_delete (k : kernel) (o : Z) : result kernel :=
  _ ← not_in_interrupt k;
  _ ← get_mutex k o;
  st ← rt_object_is_systemobject k o;
  _ ← rt_assert (negb st);
  k ← rt_ipc_list_resume_all k (L_wait o);
  rt_object_delete k o.

(** From the label [__again]: the mutex is not the current thread's. *)
Definition mutex_again (k : kernel) (o time : Z) : result (kernel * turn unit) :=
  let t := rt_thread_self k in
  m ← get_mutex k o;
  x ← thread_at k t;
  if 0 <? mutex_value m then
    Ok (put_mutex k o (mk_mutex (mutex_flag m) (u16 (mutex_value m - 1)) (current_priority x)
                         (u8 (hold m + 1)) t), Ret RT_EOK)
  else if time =? 0 then
    k ← set_error k (- RT_ETIMEOUT);
    Ok (k, Ret (- RT_ETIMEOUT))
  else
    w ← thread_at k (owner m);
    k ← (if current_priority x <? current_priority w
         then rt_thread_control k (owner m) (RT_THREAD_CTRL_CHANGE_PRIORITY (current_priority x))
         else Ok k);
    k ← wait_on k (L_wait o) (mutex_flag m) time;
    Ok (k, Blocked tt).

Definition rt_mutex_take (k : kernel) (o time : Z) : result (kernel * turn unit) :=
  _ ← in_thread_context k;
  m ← get_mutex k o;
  k ← set_error k RT_EOK;
  if owner m =? rt_thread_self k then
    Ok (put_mutex k o (mk_mutex (mutex_flag m) (mutex_value m) (original_priority m)
                         (u8 (hold m + 1)) (owner m)), Ret RT_EOK)
  else mutex_again k o time.

Definition rt_mutex_take_wake (k : kernel) (o time : Z) : result (kernel * turn unit) :=
  x ← thread_at k (rt_thread_self k);
  if negb (error x =? RT_EOK) then
    if error x =? - RT_EINTR then mutex_again k o time else Ok (k, Ret (error x))
  else Ok (k, Ret RT_EOK).

(** The part of [rt_mutex_release] for the last release of the owner. *)
Definition mutex_hand_over (k : kernel) (o : Z) (m : rt_mutex) : result kernel :=
  w ← thread_at k (owner m);
  k ← (if negb (original_priority m =? current_priority w)
       then rt_thread_control k (owner m) (RT_THREAD_CTRL_CHANGE_PRIORITY (original_priority m))
       else Ok k);
  match lst k (L_wait o) with
  | t :: _ =>
      x ← thread_at k t;
      let k := put_mutex k o (mk_mutex (mutex_flag m) (mutex_value m) (current_priority x)
                                (u8 (hold m + 1)) t) in
      k ← rt_ipc_list_resume k (L_wait o);
      rt_schedule k
  | [] =>
      Ok (put_mutex k o (mk_mutex (mutex_flag m) (u16 (mutex_value m + 1)) 255 (hold m) 0))
  end.

Definition rt_mutex_release (k : kernel) (o : Z) : result (kernel * Z) :=
  m ← get_mutex k o;
  _ ← in_thread_context k;
  if negb (rt_thread_self k =? owner m) then
    k ← set_error k (- RT_ERROR);
    Ok (k, - RT_ERROR)
  else
    let m := mk_mutex (mutex_flag m) (mutex_value m) (original_priority m)
               (u8 (hold m - 1)) (owner m) in
    k ← (if hold m =? 0 then mutex_hand_over k o m else Ok (put_mutex k o m));
    Ok (k, RT_EOK).

Definition rt_mutex_control (k : kernel) (o : Z) : result Z :=
  _ ← get_mutex k o; Ok (- RT_ERROR).

End Mutex.

Module Event.
Import Kern Sched Thread IpcList.

Definition RT_EVENT_FLAG_AND : Z := 1.
Definition RT_EVENT_FLAG_OR : Z := 2.
Definition RT_EVENT_FLAG_CLEAR : Z := 4.

Definition has (x b : Z) : bool := negb (Z.land x b =? 0).

Definition get_event (k : kernel) (o : Z) : result rt_event :=
  match objs k !! o with Some (mk_object _ (O_event e)) => Ok e | _ => Err F_assert end.

Definition put_set (k : kernel) (o : Z) (e : rt_event) (s : Z) : kernel :=
  put_body k o (O_event (mk_event (event_flag e) s)).

Definition rt_event_init (k : kernel) (o flag : Z) : result kernel :=
  k ← rt_object_init k o (O_event (mk_event flag 0));
  Ok (rt_ipc_object_init k o).

Definition rt_event_detach (k : kernel) (o : Z) : result kernel :=
  _ ← get_event k o;
  st ← rt_object_is_systemobject k o;
  _ ← rt_assert st;
  k ← rt_ipc_list_resume_all k (L_wait o);
  Ok (rt_object_detach k o).

Definition rt_event_create (k : kernel) (o flag : Z) : result kernel :=
  _ ← not_in_interrupt k;
  k ← rt_object_allocate k o (O_event (mk_event flag 0));
  if o =? 0 then Ok k else Ok (rt_ipc_object_init k o).

Definition rt_event_delete (k : kernel) (o : Z) : result kernel :=
  _ ← get_event k o;
  st ← rt_object_is_systemobject k o;
  _ ← rt_assert (negb st);
  _ ← not_in_interrupt k;
  k ← rt_ipc_list_resume_all k (L_wait o);
  rt_object_delete k o.

(** Whether a waiting thread gets its events from [s]; an OR wait also keeps
    the events received. *)
Definition satisfied (x : rt_thread) (s : Z) : option rt_thread :=
  if has (event_info x) RT_EVENT_FLAG_AND then
    if Z.land (event_set x) s =? event_set x then Some x else None
  else if has (event_info x) RT_EVENT_FLAG_OR then
    if has (event_set x) s
    then Some (with_event x (Z.land (event_set x) s) (event_info x)) else None
  else None.

(** The loop of [rt_event_send] over the waiting threads: the state, the
    event set that is left and whether to schedule. *)
Fixpoint send_loop (k : kernel) (s : Z) (l : list Z) (need : bool) : result (kernel * Z * bool) :=
  match l with
  | [] => Ok (k, s, need)
  | t :: l' =>
      x ← thread_at k t;
      match satisfied x s with
      | Some x' =>
          let k := put_thread k t x' in
          let s := if has (event_info x') RT_EVENT_FLAG_CLEAR
                   then Z.land s (u32 (Z.lnot (event_set x'))) else s in
          '(k, _) ← rt_thread_resume k t;
          send_loop k s l' true
      | None => send_loop k s l' need
      end
  end.

Definition rt_event_send (k : kernel) (o set : Z) : result (kernel * Z) :=
  e ← get_event k o;
  if set =? 0 then Ok (k, - RT_ERROR)
  else
    let s := Z.lor (Kern.set e) set in
    '(k, s, need) ← send_loop k s (lst k (L_wait o)) false;
    let k := put_set k o e s in
    k ← (if need : bool then rt_schedule k else Ok k);
    Ok (k, RT_EOK).

(** Whether the events [set] are there, for a receiver with [option]. *)
Definition received (s set option : Z) : result bool :=
  if has option RT_EVENT_FLAG_AND then Ok (Z.land s set =? set)
  else if has option RT_EVENT_FLAG_OR then Ok (has s set)
  else Err F_assert.

(** The state, the outcome and what is stored in [*recved]. *)
Definition rt_event_recv (k : kernel) (o set option timeout : Z)
  : result (kernel * turn unit * Datatypes.option Z) :=
  _ ← in_thread_context k;
  e ← get_event k o;
  if set =? 0 then Ok (k, Ret (- RT_ERROR), None)
  else
    k ← set_error k RT_EOK;
    ok ← received (Kern.set e) set option;
    if (ok : bool) then
      let k := if has option RT_EVENT_FLAG_CLEAR
               then put_set k o e (Z.land (Kern.set e) (u32 (Z.lnot set))) else k in
      Ok (k, Ret RT_EOK, Some (Z.land (Kern.set e) set))
    else if timeout =? 0 then
      k ← set_error k (- RT_ETIMEOUT);
      Ok (k, Ret (- RT_ETIMEOUT), None)
    else
      k ← upd_thread k (rt_thread_self k) (fun x => with_event x set option);
      k ← wait_on k (L_wait o) (event_flag e) timeout;
      Ok (k, Blocked tt, None).

(** The return value and [*recved] for thread [t] that waited. *)
Definition rt_event_recv_wake (k : kernel) (t : Z) : result (Z * Datatypes.option Z) :=
  x ← thread_at k t;
  if negb (error x =? RT_EOK) then Ok (error x, None) else Ok (error x, Some (event_set x)).

Definition rt_event_control (k : kernel) (o cmd : Z) : result (kernel * Z) :=
  e ← get_event k o;
  if cmd =? RT_IPC_CMD_RESET then
    k ← rt_ipc_list_resume_all k (L_wait o);
    k ← rt_schedule (put_set k o e 0);
    Ok (k, RT_EOK)
  else Ok (k, - RT_ERROR).

End Event.

Module Mailbox.
Import Kern Sched Thread IpcList.

Definition get_mb (k : kernel) (o : Z) : result rt_mailbox :=
  match objs k !! o with Some (mk_object _ (O_mailbox b)) => Ok b | _ => Err F_assert end.

Definition put_mb (k : kernel) (o : Z) (b : rt_mailbox) : kernel := put_body k o (O_mailbox b).

(** The pool is an array of at least [size] words. *)
Definition rt_mb_init (k : kernel) (o : Z) (msgpool : list Z) (size flag : Z) : result kernel :=
  k ← rt_object_init k o (O_mailbox (mk_mailbox flag msgpool (u16 size) 0 0 0));
  Ok (put_list (rt_ipc_object_init k o) (L_send o) []).

Definition resume_both (k : kernel) (o : Z) : result kernel :=
  k ← rt_ipc_list_resume_all k (L_wait o);
  rt_ipc_list_resume_all k (L_send o).

Definition rt_mb_detach (k : kernel) (o : Z) : result kernel :=
  _ ← get_mb k o;
  st ← rt_object_is_systemobject k o;
  _ ← rt_assert st;
  k ← resume_both k o;
  Ok (rt_object_detach k o).

(** [pool] is the memory that the heap returned, if it did. *)
Definition rt_mb_create (k : kernel) (o size flag : Z) (pool : option (list Z)) : result kernel :=
  _ ← not_in_interrupt k;
  k ← rt_object_allocate k o (O_mailbox (mk_mailbox flag (default [] pool) (u16 size) 0 0 0));
  if o =? 0 then Ok k
  else
    let k := rt_ipc_object_init k o in
    match pool with
    | Some _ => Ok (put_list k (L_send o) [])
    | None => rt_object_delete k o
    end.

Definition rt_mb_delete (k : kernel) (o : Z) : result kernel :=
  _ ← not_in_interrupt k;
  _ ← get_mb k o;
  st ← rt_object_is_systemobject k o;
  _ ← rt_assert (negb st);
  k ← resume_both k o;
  rt_object_delete k o.

(** [++ offset; if (offset >= size) offset = 0]. *)
Definition next_offset (off size : Z) : Z :=
  let off := u16 (off + 1) in if size <=? off then 0 else off.

(** The changes that a send and a receive make to the mailbox. *)
Definition mb_put (b : rt_mailbox) (value : Z) : result rt_mailbox :=
  pool ← zset (mb_msg_pool b) (in_offset b) value;
  Ok (mk_mailbox (mb_flag b) pool (mb_size b) (u16 (mb_entry b + 1))
        (next_offset (in_offset b) (mb_size b)) (out_offset b)).

Definition mb_get (b : rt_mailbox) : result (rt_mailbox * Z) :=
  value ← zget (mb_msg_pool b) (out_offset b);
  Ok (mk_mailbox (mb_flag b) (mb_msg_pool b) (mb_size b) (u16 (mb_entry b - 1))
        (in_offset b) (next_offset (out_offset b) (mb_size b)), value).

(** The end of a send or receive: resume one thread of the other side. *)
Definition wake_other (k : kernel) (n : lname) : result kernel :=
  match lst k n with
  | _ :: _ => k ← rt_ipc_list_resume k n; rt_schedule k
  | [] => Ok k
  end.

(** [rt_mb_send_wait] from its [while] on; a thread that waits keeps its
    timeout and the tick it started to wait at. *)
Definition mb_send_turn (k : kernel) (o value timeout : Z) : result (kernel * turn (Z * Z)) :=
  b ← get_mb k o;
  if mb_entry b =? mb_size b then
    k ← set_error k RT_EOK;
    if timeout =? 0 then Ok (k, Ret (- RT_EFULL))
    else
      _ ← in_thread_context k;
      let tick_delta := if 0 <? timeout then TimerOps.rt_tick_get (tst k) else 0 in
      k ← wait_on k (L_send o) (mb_flag b) timeout;
      Ok (k, Blocked (timeout, tick_delta))
  else
    b ← mb_put b value;
    k ← wake_other (put_mb k o b) (L_wait o);
    Ok (k, Ret RT_EOK).

Definition rt_mb_send_wait (k : kernel) (o value timeout : Z) : result (kernel * turn (Z * Z)) :=
  b ← get_mb k o;
  if (mb_entry b =? mb_size b) && (timeout =? 0) then Ok (k, Ret (- RT_EFULL))
  else mb_send_turn k o value timeout.

Definition rt_mb_send_wait_wake (k : kernel) (o value timeout tick_delta : Z)
  : result (kernel * turn (Z * Z)) :=
  x ← thread_at k (rt_thread_self k);
  if negb (error x =? RT_EOK) then Ok (k, Ret (error x))
  else mb_send_turn k o value (remaining k timeout tick_delta).

Definition rt_mb_send (k : kernel) (o value : Z) : result (kernel * turn (Z * Z)) :=
  rt_mb_send_wait k o value 0.

(** [rt_mb_recv] from its [while] on, with the mail received. *)
Definition mb_recv_turn (k : kernel) (o timeout : Z) : result (kernel * turn (Z * Z) * option Z) :=
  b ← get_mb k o;
  if mb_entry b =? 0 then
    k ← set_error k RT_EOK;
    if timeout =? 0 then
      k ← set_error k (- RT_ETIMEOUT);
      Ok (k, Ret (- RT_ETIMEOUT), None)
    else
      _ ← in_thread_context k;
      let tick_delta := if 0 <? timeout then TimerOps.rt_tick_get (tst k) else 0 in
      k ← wait_on k (L_wait o) (mb_flag b) timeout;
      Ok (k, Blocked (timeout, tick_delta), None)
  else
    '(b, value) ← mb_get b;
    k ← wake_other (put_mb k o b) (L_send o);
    Ok (k, Ret RT_EOK, Some value).

Definition rt_mb_recv (k : kernel) (o timeout : Z) : result (kernel * turn (Z * Z) * option Z) :=
  b ← get_mb k o;
  if (mb_entry b =? 0) && (timeout =? 0) then Ok (k, Ret (- RT_ETIMEOUT), None)
  else mb_recv_turn k o timeout.

Definition rt_mb_recv_wake (k : kernel) (o timeout tick_delta : Z)
  : result (kernel * turn (Z * Z) * option Z) :=
  x ← thread_at k (rt_thread_self k);
  if negb (error x =? RT_EOK) then Ok (k, Ret (error x), None)
  else mb_recv_turn k o (remaining k timeout tick_delta).

Definition rt_mb_control (k : kernel) (o cmd : Z) : result (kernel * Z) :=
  b ← get_mb k o;
  if cmd =? RT_IPC_CMD_RESET then
    k ← resume_both k o;
    k ← rt_schedule (put_mb k o (mk_mailbox (mb_flag b) (mb_msg_pool b) (mb_size b) 0 0 0));
    Ok (k, RT_EOK)
  else Ok (k, - RT_ERROR).

End Mailbox.

(** ** Message queues

    [MqCore] is what the critical sections of a send or receive do to the
    queue; [Mq] the functions. *)
Module MqCore.
Import Kern.

Definition with_free (q : rt_messagequeue) (nx : gmap Z Z) (f : Z) : rt_messagequeue :=
  mk_mq (mq_flag q) nx (mq_data q) (msg_size q) (max_msgs q) (mq_entry q)
    (msg_queue_head q) (msg_queue_tail q) f.
Definition with_data (q : rt_messagequeue) (d : gmap Z (list Z)) : rt_messagequeue :=
  mk_mq (mq_flag q) (mq_next q) d (msg_size q) (max_msgs q) (mq_entry q)
    (msg_queue_head q) (msg_queue_tail q) (msg_queue_free q).
Definition with_queue (q : rt_messagequeue) (nx : gmap Z Z) (e h t : Z) : rt_messagequeue :=
  mk_mq (mq_flag q) nx (mq_data q) (msg_size q) (max_msgs q) e h t (msg_queue_free q).

(** The free list that [rt_mq_init] builds in [n] blocks from [head] on. *)
Fixpoint init_blocks (n : nat) (head step : Z) (nx : gmap Z Z) (free : Z) : gmap Z Z * Z :=
  match n with
  | O => (nx, free)
  | S n' => init_blocks n' (head + step) step (<[head := free]> nx) head
  end.

(** A queue over the pool at [pool], whose blocks hold [bytes]. *)
Definition mq_make (flag pool msg_sz max : Z) (bytes : gmap Z (list Z)) : rt_messagequeue :=
  let '(nx, free) := init_blocks (Z.to_nat max) pool (msg_sz + 4) ∅ 0 in
  mk_mq flag nx bytes msg_sz max 0 0 0 free.

(** [msg = mq->msg_queue_free; mq->msg_queue_free = msg->next]. *)
Definition mq_take_free (q : rt_messagequeue) : result (rt_messagequeue * Z) :=
  let msg := msg_queue_free q in
  nx ← deref (mq_next q !! msg);
  Ok (with_free q (mq_next q) nx, msg).

(** [rt_memcpy (msg + 1, buffer, size)]. *)
Definition mq_write (q : rt_messagequeue) (msg : Z) (buffer : list Z) : result rt_messagequeue :=
  d ← deref (mq_data q !! msg);
  d ← zblit d 0 buffer;
  Ok (with_data q (<[msg := d]> (mq_data q))).

(** [msg->next = RT_NULL] and the copy. *)
Definition mq_fill (q : rt_messagequeue) (msg : Z) (buffer : list Z) : result rt_messagequeue :=
  mq_write (with_free q (<[msg := 0]> (mq_next q)) (msg_queue_free q)) msg buffer.

(** The message becomes the last one of the queue ... *)
Definition mq_link (q : rt_messagequeue) (msg : Z) : rt_messagequeue :=
  let t := msg_queue_tail q in
  let nx := if negb (t =? 0) then <[t := msg]> (mq_next q) else mq_next q in
  let h := if msg_queue_head q =? 0 then msg else msg_queue_head q in
  with_queue q nx (u16 (mq_entry q + 1)) h msg.

(** ... or the first one. *)
Definition mq_link_first (q : rt_messagequeue) (msg : Z) : rt_messagequeue :=
  let nx := <[msg := msg_queue_head q]> (mq_next q) in
  let t := if msg_queue_tail q =? 0 then msg else msg_queue_tail q in
  with_queue q nx (u16 (mq_entry q + 1)) msg t.

(** The first message leaves the queue. *)
Definition mq_unlink (q : rt_messagequeue) : result (rt_messagequeue * Z) :=
  let msg := msg_queue_head q in
  h ← deref (mq_next q !! msg);
  let t := if msg_queue_tail q =? msg then 0 else msg_queue_tail q in
  Ok (with_queue q (mq_next q) (u16 (mq_entry q - 1)) h t, msg).

(** [rt_memcpy (buffer, msg + 1, size > mq->msg_size ? mq->msg_size : size)]. *)
Definition mq_read (q : rt_messagequeue) (msg size : Z) : result (list Z) :=
  d ← deref (mq_data q !! msg);
  zslice d 0 (if msg_size q <? size then msg_size q else size).

(** The block goes back to the free list. *)
Definition mq_put_free (q : rt_messagequeue) (msg : Z) : rt_messagequeue :=
  with_free q (<[msg := msg_queue_free q]> (mq_next q)) msg.

(** The loop of the reset command. *)
Fixpoint mq_flush (fuel : nat) (q : rt_messagequeue) : result rt_messagequeue :=
  if msg_queue_head q =? 0 then Ok q
  else match fuel with
       | O => Err F_fuel
       | S f =>
           let msg := msg_queue_head q in
           h ← deref (mq_next q !! msg);
           let t := if msg_queue_tail q =? msg then 0 else msg_queue_tail q in
           mq_flush f (mq_put_free (with_queue q (mq_next q) (mq_entry q) h t) msg)
       end.

End MqCore.

Module Mq.
Import Kern Sched Thread IpcList Mailbox MqCore.

Definition get_mq (k : kernel) (o : Z) : result rt_messagequeue :=
  match objs k !! o with Some (mk_object _ (O_mq q)) => Ok q | _ => Err F_assert end.

Definition put_mq (k : kernel) (o : Z) (q : rt_messagequeue) : kernel := put_body k o (O_mq q).

Definition rt_mq_init (k : kernel) (o pool : Z) (bytes : gmap Z (list Z))
    (msg_sz pool_size flag : Z) : result kernel :=
  let msg_sz := u16 (RT_ALIGN msg_sz RT_ALIGN_SIZE) in
  let max := u16 (pool_size / (msg_sz + 4)) in
  k ← rt_object_init k o (O_mq (mq_make flag pool msg_sz max bytes));
  Ok (put_list (rt_ipc_object_init k o) (L_send o) []).

Definition rt_mq_detach (k : kernel) (o : Z) : result kernel :=
  _ ← get_mq k o;
  st ← rt_object_is_systemobject k o;
  _ ← rt_assert st;
  k ← resume_both k o;
  Ok (rt_object_detach k o).

(** [pool] is the address that the heap returned, 0 if it had no memory. *)
Definition rt_mq_create (k : kernel) (o pool : Z) (bytes : gmap Z (list Z))
    (msg_sz max flag : Z) : result kernel :=
  _ ← not_in_interrupt k;
  let msg_sz := u16 (RT_ALIGN msg_sz RT_ALIGN_SIZE) in
  k ← rt_object_allocate k o (O_mq (mq_make flag pool msg_sz (u16 max) bytes));
  if o =? 0 then Ok k
  else
    let k := rt_ipc_object_init k o in
    if pool =? 0 then rt_object_delete k o else Ok (put_list k (L_send o) []).

Definition rt_mq_delete (k : kernel) (o : Z) : result kernel :=
  _ ← not_in_interrupt k;
  _ ← get_mq k o;
  st ← rt_object_is_systemobject k o;
  _ ← rt_assert (negb st);
  k ← resume_both k o;
  rt_object_delete k o.

(** The end of a send: the message [msg], taken off the free list of the queue
    [q], is filled and linked. *)
Definition mq_send_rest (k : kernel) (o : Z) (q : rt_messagequeue) (msg : Z) (buffer : list Z)
  : result kernel :=
  q ← mq_fill q msg buffer;
  wake_other (put_mq k o (mq_link q msg)) (L_wait o).

(** [rt_mq_send_wait] from its [while] on. *)
Definition mq_send_turn (k : kernel) (o : Z) (buffer : list Z) (timeout : Z)
  : result (kernel * turn (Z * Z)) :=
  q ← get_mq k o;
  if msg_queue_free q =? 0 then
    k ← set_error k RT_EOK;
    if timeout =? 0 then Ok (k, Ret (- RT_EFULL))
    else
      _ ← in_thread_context k;
      let tick_delta := if 0 <? timeout then TimerOps.rt_tick_get (tst k) else 0 in
      k ← wait_on k (L_send o) (mq_flag q) timeout;
      Ok (k, Blocked (timeout, tick_delta))
  else
    '(q, msg) ← mq_take_free q;
    k ← mq_send_rest k o q msg buffer;
    Ok (k, Ret RT_EOK).

Definition rt_mq_send_wait (k : kernel) (o : Z) (buffer : list Z) (timeout : Z)
  : result (kernel * turn (Z * Z)) :=
  q ← get_mq k o;
  _ ← rt_assert (negb (zlen buffer =? 0));
  if msg_size q <? zlen buffer then Ok (k, Ret (- RT_ERROR))
  else if (msg_queue_free q =? 0) && (timeout =? 0) then Ok (k, Ret (- RT_EFULL))
  else mq_send_turn k o buffer timeout.

Definition rt_mq_send_wait_wake (k : kernel) (o : Z) (buffer : list Z) (timeout tick_delta : Z)
  : result (kernel * turn (Z * Z)) :=
  x ← thread_at k (rt_thread_self k);
  if negb (error x =? RT_EOK) then Ok (k, Ret (error x))
  else mq_send_turn k o buffer (remaining k timeout tick_delta).

Definition rt_mq_send (k : kernel) (o : Z) (buffer : list Z) : result (kernel * turn (Z * Z)) :=
  rt_mq_send_wait k o buffer 0.

Definition rt_mq_urgent (k : kernel) (o : Z) (buffer : list Z) : result (kernel * Z) :=
  q ← get_mq k o;
  _ ← rt_assert (negb (zlen buffer =? 0));
  if msg_size q <? zlen buffer then Ok (k, - RT_ERROR)
  else if msg_queue_free q =? 0 then Ok (k, - RT_EFULL)
  else
    '(q, msg) ← mq_take_free q;
    q ← mq_write q msg buffer;
    k ← wake_other (put_mq k o (mq_link_first q msg)) (L_wait o);
    Ok (k, RT_EOK).

(** [rt_mq_recv] from its [while] on, with the bytes stored in the buffer. *)
Definition mq_recv_turn (k : kernel) (o size timeout : Z)
  : result (kernel * turn (Z * Z) * option (list Z)) :=
  q ← get_mq k o;
  if mq_entry q =? 0 then
    _ ← in_thread_context k;
    k ← set_error k RT_EOK;
    if timeout =? 0 then
      k ← set_error k (- RT_ETIMEOUT);
      Ok (k, Ret (- RT_ETIMEOUT), None)
    else
      let tick_delta := if 0 <? timeout then TimerOps.rt_tick_get (tst k) else 0 in
      k ← wait_on k (L_wait o) (mq_flag q) timeout;
      Ok (k, Blocked (timeout, tick_delta), None)
  else
    '(q, msg) ← mq_unlink q;
    buffer ← mq_read q msg size;
    k ← wake_other (put_mq k o (mq_put_free q msg)) (L_send o);
    Ok (k, Ret RT_EOK, Some buffer).

Definition rt_mq_recv (k : kernel) (o size timeout : Z)
  : result (kernel * turn (Z * Z) * option (list Z)) :=
  q ← get_mq k o;
  _ ← rt_assert (negb (size =? 0));
  if (mq_entry q =? 0) && (timeout =? 0) then Ok (k, Ret (- RT_ETIMEOUT), None)
  else mq_recv_turn k o size timeout.

Definition rt_mq_recv_wake (k : kernel) (o size timeout tick_delta : Z)
  : result (kernel * turn (Z * Z) * option (list Z)) :=
  x ← thread_at k (rt_thread_self k);
  if negb (error x =? RT_EOK) then Ok (k, Ret (error x), None)
  else mq_recv_turn k o size (remaining k timeout tick_delta).

(** A reset flushes at most all blocks of the pool. *)
Definition rt_mq_control (k : kernel) (o cmd : Z) : result (kernel * Z) :=
  q ← get_mq k o;
  if cmd =? RT_IPC_CMD_RESET then
    k ← resume_both k o;
    q ← mq_flush (size (mq_next q)) q;
    k ← rt_schedule (put_mq k o (with_queue q (mq_next q) 0 (msg_queue_head q) (msg_queue_tail q)));
    Ok (k, RT_EOK)
  else Ok (k, - RT_ERROR).

End Mq.
