(* ===== verification/IpcSpec.v ===== *)
(** * Waiting lists: what blocking and resuming do to a consistent kernel

    [IpcInv] extends the invariant lemmas of [KernelSpec] to the operations
    that ipc.c shares: suspending a thread in the list of an object, resuming
    its first thread, and calling the scheduler afterwards. *)
From S2P Require Import Prelude CTypes KService Timer Kernel KernelSpec Ipc.
From stdpp Require Import base list gmap sorting.
From Stdlib Require Import ZArith Lia.
Open Scope Z_scope.

Module IpcInv.
Import Kern Sched Thread KernInv KernOk IpcList.

(** The lists that hold suspended threads. *)
Definition wait_name (n : lname) : Prop := exists o, n = L_wait o \/ n = L_send o.

Lemma wait_not_ready n : wait_name n -> forall q, n <> L_ready q.
Proof. by intros [o [-> | ->]] q. Qed.

Lemma in_wait_list k n t : wait_name n -> t ∈ lst k n -> waiting k t.
Proof. intros [o [-> | ->]] H; exists o; [by left|by right]. Qed.

Lemma waiting_suspended k n t : kernel_ok k -> wait_name n -> t ∈ lst k n ->
  exists x, threads k !! t = Some x /\ stat_of x = RT_THREAD_SUSPEND.
Proof. intros K Hn Ht. by apply (si_wait _ _ (ko_sched _ K)), (in_wait_list k n). Qed.

Lemma active_not_waiting k n t x : kernel_ok k -> wait_name n -> threads k !! t = Some x -> active x ->
  t ∉ lst k n.
Proof.
  intros K Hn Ex Ha Hin. destruct (waiting_suspended k n t K Hn Hin) as (y & Ey & Hy).
  rewrite Ex in Ey. injection Ey as <-. by destruct Ha as [Ha|Ha]; rewrite Hy in Ha.
Qed.

(** Objects and error codes do not matter to the invariant. *)
Lemma put_body_ok k o b : kernel_ok k -> kernel_ok (put_body k o b).
Proof. intros K. constructor; [constructor|..]; apply K. Qed.

Lemma with_error_ok k t x e : kernel_ok k -> threads k !! t = Some x ->
  kernel_ok (put_thread k t (with_error x e)).
Proof. intros K Ex. by apply (relabel_ok k t x). Qed.

(** [rt_schedule] leaves the waiting lists alone. *)
Lemma schedule_waits k : kernel_ok k ->
  exists k', rt_schedule k = Ok k' /\ kernel_ok k' /\ threads_kept k k' /\ same_env k k' /\
    forall n, wait_name n -> lst k' n = lst k n.
Proof.
  intros K. destruct (schedule_ok k K) as (k' & E & K' & Hk & He).
  exists k'. split_and!; try done. intros n Hn.
  destruct (ko_current _ K) as (c & Ec & Hc).
  destruct (Z.eqb_spec (lock_nest k) 0) as [Hl|Hl].
  2:{ unfold rt_schedule in E. rewrite (proj2 (Z.eqb_neq (lock_nest k) 0)) in E by done.
      by injection E as <-. }
  destruct (Z.eqb_spec (ready_group k) 0) as [Hg|Hg].
  { unfold rt_schedule in E. rewrite Hl, Hg in E. by injection E as <-. }
  destruct (schedule_spec k c (ko_sched _ K) Ec (thread_nonnull _ _ _ K Ec))
    as (k2 & t & p & E2 & _ & _ & (_ & _ & _ & _ & _ & (r & Er & Hr) & Hw & _) & _);
    [by destruct Hc as [-> | ->]|by destruct Hc as [-> | ->]|done|done|].
  rewrite E in E2. injection E2 as <-. rewrite (Hw n) by by apply wait_not_ready.
  apply filter_absent. specialize (Hk (current k')).
  destruct (threads k !! current k') as [y|] eqn:Ey; [|congruence].
  destruct Hk as (r' & Er' & _ & Hst). rewrite Er in Er'. injection Er' as <-.
  apply (active_not_waiting k n (current k') y K Hn Ey).
  destruct Hst as [->|[Ha _]]; [by right|done].
Qed.

(** *** Suspending a thread in a list *)

(** The priority of a thread, for sorting. *)
Definition prio (k : kernel) (t : Z) : Z :=
  match threads k !! t with Some x => current_priority x | None => 0 end.

Lemma prio_insert_split k t p l : (forall u, u ∈ l -> is_Some (threads k !! u)) ->
  exists l1 l2, l = l1 ++ l2 /\ prio_insert k t p l = Ok (l1 ++ t :: l2) /\
    Forall (fun u => prio k u <= p) l1 /\ (forall u, head l2 = Some u -> p < prio k u).
Proof.
  induction l as [|s l IH]; intros H; [by exists [], []|].
  destruct (H s) as [y Ey]; [by left|]. cbn. rewrite (thread_at_Ok _ _ _ Ey). cbn [mbind result_bind].
  assert (Es : prio k s = current_priority y) by (unfold prio; by rewrite Ey).
  destruct (Z.ltb_spec p (current_priority y)) as [Hlt|Hge].
  - exists [], (s :: l). split_and!; [done|done|constructor|]. intros u [= <-]. lia.
  - destruct IH as (l1 & l2 & -> & E & H1 & H2); [intros u Hu; apply H; by right|].
    rewrite E. cbn [mbind result_bind]. exists (s :: l1), l2. split_and!; try done.
    constructor; [lia|done].
Qed.

Lemma prio_kept k k' u : threads_kept k k' -> prio k' u = prio k u.
Proof.
  intros H. specialize (H u). unfold prio. destruct (threads k !! u) as [x|]; [|by rewrite H].
  destruct H as (y & -> & E & _). by rewrite E.
Qed.

Lemma prio_insert_same k t x y u : threads k !! t = Some x ->
  current_priority y = current_priority x -> prio (put_thread k t y) u = prio k u.
Proof.
  intros Ex E. unfold prio. cbn. rewrite lookup_insert. case_decide as Hd; [|done].
  subst u. by rewrite Ex.
Qed.

(** The place a thread takes in a waiting list. *)
Definition placed (k : kernel) (flag t p : Z) (l1 l2 : list Z) : Prop :=
  (flag = RT_IPC_FLAG_FIFO /\ l2 = []) \/
  (flag = RT_IPC_FLAG_PRIO /\ Forall (fun u => prio k u <= p) l1 /\
   (forall u, head l2 = Some u -> p < prio k u)).

(** The state after [t] went to the list [n], to a place [P] between the
    threads before and after it. *)
Definition blocked_at (k k' : kernel) (n : lname) (t : Z) (x : rt_thread) (P : list Z -> list Z -> Prop) : Prop :=
  kernel_ok k' /\
  threads k' = <[t := set_stat RT_THREAD_SUSPEND x]> (threads k) /\
  current k' = current k /\ lock_nest k' = lock_nest k /\ interrupt_nest k' = interrupt_nest k /\
  objs k' = objs k /\ TimerOps.rt_tick (tst k') = TimerOps.rt_tick (tst k) /\
  TimerOps.rt_timer_list (tst k') = filter (.≠ thread_timer t) (TimerOps.rt_timer_list (tst k)) /\
  exists l1 l2, lst k n = l1 ++ l2 /\ lst k' n = l1 ++ t :: l2 /\ P l1 l2 /\
    forall m, m <> n -> lst k' m = filter (.≠ t) (lst k m).

Definition blocked (k k' : kernel) (n : lname) (t : Z) (x : rt_thread) (flag : Z) : Prop :=
  blocked_at k k' n t x (placed k flag t (current_priority x)).

(** The state with [t], suspended and in no list, put in the list [n]. *)
Lemma put_wait_ok k n t x l1 l2 : kernel_ok k -> wait_name n -> threads k !! t = Some x ->
  stat_of x = RT_THREAD_SUSPEND -> (forall m, t ∉ lst k m) -> lst k n = l1 ++ l2 ->
  kernel_ok (put_list k n (l1 ++ t :: l2)).
Proof.
  intros K Hn Ex Hx Hno El. pose proof (thread_nonnull _ _ _ K Ex) as Ht0. constructor.
  - apply (append_wait_inv k t x); try done. by apply (exempt_inv _ _ x); [apply K|..].
  - apply K.
  - apply K.
  - apply K.
Qed.

(** Suspending [t] takes it out of its list; it can then be put anywhere in
    the list [n]. *)
Lemma suspend_put_ok k n t x : kernel_ok k -> threads k !! t = Some x -> active x ->
  t <> IDLE_THREAD -> wait_name n ->
  exists k1, rt_thread_suspend k t = Ok (k1, RT_EOK) /\ kernel_ok k1 /\
    threads k1 = <[t := set_stat RT_THREAD_SUSPEND x]> (threads k) /\
    lst k1 n = lst k n /\ linked k1 t = false /\ (forall u, u ∈ lst k n -> u <> t) /\
    forall (P : list Z -> list Z -> Prop) l1 l2, lst k n = l1 ++ l2 -> P l1 l2 ->
      blocked_at k (put_list k1 n (l1 ++ t :: l2)) n t x P.
Proof.
  intros K Ex Ha Hi Hn.
  destruct (suspend_ok k t x K Ex Ha Hi)
    as (k1 & E1 & K1 & Et & Ec & El & Eni & Eo & Etl & Etick & Hl). exists k1.
  assert (Hno : forall m, t ∉ lst k1 m).
  { intros m. rewrite Hl. by intros [? _]%list_elem_of_filter. }
  assert (Hnt : t ∉ lst k n) by by apply (active_not_waiting k n t x).
  assert (Hn1 : lst k1 n = lst k n) by (rewrite Hl; by apply filter_absent).
  set (y := set_stat RT_THREAD_SUSPEND x) in *.
  assert (Ey : threads k1 !! t = Some y) by (by rewrite Et, lookup_insert_eq).
  assert (Hy : stat_of y = RT_THREAD_SUSPEND) by (apply stat_set; unfold RT_THREAD_SUSPEND; lia).
  split_and!; try done; [by apply unlinked|by intros u Hu ->|].
  intros P l1 l2 E Hp. unfold blocked_at. split_and!; try done.
  { apply (put_wait_ok k1 n t y); try done. by rewrite Hn1. }
  exists l1, l2. split_and!; try done.
  - rewrite lst_put_list. by rewrite decide_True.
  - intros m Hm. rewrite lst_put_list, decide_False by (by apply not_eq_sym). apply Hl.
Qed.

Lemma list_suspend_ok k n t x flag : kernel_ok k -> threads k !! t = Some x -> active x ->
  t <> IDLE_THREAD -> wait_name n -> flag = RT_IPC_FLAG_FIFO \/ flag = RT_IPC_FLAG_PRIO ->
  exists k', rt_ipc_list_suspend k n t flag = Ok k' /\ blocked k k' n t x flag.
Proof.
  intros K Ex Ha Hi Hn Hf. unfold rt_ipc_list_suspend.
  destruct (suspend_put_ok k n t x K Ex Ha Hi Hn) as (k1 & -> & K1 & Et & Hn1 & Hul & Hne & Hput).
  cbn [mbind result_bind].
  assert (Ey : threads k1 !! t = Some (set_stat RT_THREAD_SUSPEND x)) by (by rewrite Et, lookup_insert_eq).
  destruct Hf as [-> | ->]; cbn [Z.eqb].
  - change (RT_IPC_FLAG_FIFO =? RT_IPC_FLAG_FIFO) with true. cbv iota.
    unfold list_append. rewrite Hul, Hn1. eexists. split; [done|].
    apply (Hput _ (lst k n) []); [by rewrite app_nil_r|by left].
  - change (RT_IPC_FLAG_PRIO =? RT_IPC_FLAG_FIFO) with false.
    change (RT_IPC_FLAG_PRIO =? RT_IPC_FLAG_PRIO) with true. cbv iota.
    rewrite (thread_at_Ok _ _ _ Ey). cbn [mbind result_bind].
    destruct (prio_insert_split k1 t (current_priority (set_stat RT_THREAD_SUSPEND x)) (lst k1 n)) as (l1 & l2 & E & -> & H1 & H2).
    { intros u Hu. destruct (waiting_suspended k1 n u K1 Hn Hu) as (z & Ez & _). by exists z. }
    cbn [mbind result_bind]. rewrite Hul.
    assert (Hp : forall u, u ∈ lst k n -> prio k1 u = prio k u).
    { intros u Hu. unfold prio. rewrite Et, lookup_insert_ne; [done|]. by apply not_eq_sym, Hne. }
    rewrite Hn1 in E. eexists. split; [done|]. apply (Hput _ l1 l2 E). right. split; [done|].
    split.
    + rewrite Forall_forall in H1 |- *. intros u Hu. rewrite <- Hp by (rewrite E; apply elem_of_app; by left).
      by apply H1.
    + intros u Hu. rewrite <- Hp; [by apply H2|]. rewrite E. apply elem_of_app. right.
      destruct l2; [done|]. injection Hu as ->. by left.
Qed.

(** *** Blocking the running thread *)

(** The running thread [c] waits in the list [n], and another one runs. *)
Definition now_waits_at (k k' : kernel) (n : lname) (c : rt_thread) (P : list Z -> list Z -> Prop) (timeout : Z) : Prop :=
  kernel_ok k' /\ current k' <> current k /\ objs k' = objs k /\
  (exists y, threads k' !! current k = Some y /\ stat_of y = RT_THREAD_SUSPEND /\
     current_priority y = current_priority c /\ error y = error c /\
     event_set y = event_set c /\ event_info y = event_info c) /\
  (exists l1 l2, lst k n = l1 ++ l2 /\ lst k' n = l1 ++ current k :: l2 /\ P l1 l2) /\
  (forall m, wait_name m -> m <> n -> lst k' m = lst k m) /\
  (forall u, prio k' u = prio k u) /\
  (0 < timeout -> thread_timer (current k) ∈ TimerOps.rt_timer_list (tst k')) /\
  (timeout <= 0 -> thread_timer (current k) ∉ TimerOps.rt_timer_list (tst k')).

Definition now_waits (k k' : kernel) (n : lname) (c : rt_thread) (flag timeout : Z) : Prop :=
  now_waits_at k k' n c (placed k flag (current k) (current_priority c)) timeout.

(** The scheduler cannot keep a thread that is suspended. *)
Lemma idle_ready k : kernel_ok k -> current k <> IDLE_THREAD -> ready_group k <> 0.
Proof.
  intros K Hi E0. pose proof (ko_sched _ K) as I. destruct (ko_idle _ K) as (i & Ei & Ha).
  assert (Hready : stat_of i = RT_THREAD_READY).
  { destruct Ha as [|Ha]; [done|].
    destruct (si_running _ _ I IDLE_THREAD i ltac:(done) Ei Ha) as [H _]. by destruct Hi. }
  pose proof (si_listed _ _ I IDLE_THREAD i ltac:(done) Ei Hready) as Hin.
  pose proof (si_bits _ _ I (current_priority i) (proj1 (si_mask _ _ I _ i Ei))) as H.
  rewrite E0, Z.bits_0 in H. symmetry in H. apply negb_false_iff, bool_decide_eq_true in H.
  rewrite H in Hin. by apply elem_of_nil in Hin.
Qed.

Lemma switch_away k c : kernel_ok k -> threads k !! current k = Some c ->
  stat_of c = RT_THREAD_SUSPEND -> lock_nest k = 0 -> current k <> IDLE_THREAD ->
  exists k', rt_schedule k = Ok k' /\ kernel_ok k' /\ threads_kept k k' /\ same_env k k' /\
    current k' <> current k /\ forall n, wait_name n -> lst k' n = lst k n.
Proof.
  intros K Ec Hs Hl Hi. destruct (schedule_waits k K) as (k' & E & K' & Hk & He & Hw).
  exists k'. split_and!; try done.
  destruct (schedule_spec k c (ko_sched _ K) Ec (thread_nonnull _ _ _ K Ec))
    as (k2 & t & p & E2 & _ & _ & (_ & _ & _ & _ & _ & (r & Er & Hr) & _) & _);
    [by rewrite Hs|by rewrite Hs|done|by apply idle_ready|].
  rewrite E in E2. injection E2 as <-. intros Ecur. specialize (Hk (current k)). rewrite Ec in Hk.
  destruct Hk as (y & Ey & _ & [->|[[Ha|Ha] _]]); [|by rewrite Hs in Ha..].
  rewrite Ecur, Ey in Er. injection Er as <-. by rewrite Hs in Hr.
Qed.

(** The running thread is in the list: its timer, and the switch. *)
Lemma blocked_switch k k1 n c P timeout : kernel_ok k -> threads k !! current k = Some c ->
  stat_of c = RT_THREAD_RUNNING -> lock_nest k = 0 -> current k <> IDLE_THREAD -> wait_name n ->
  timeout < TimerOps.TICK_HALF -> blocked_at k k1 n (current k) c P ->
  exists k', (k2 ← (if 0 <? timeout then start_timer k1 (current k) timeout else Ok k1); rt_schedule k2) = Ok k' /\
    now_waits_at k k' n c P timeout.
Proof.
  intros K Ec Hr Hl Hi Hn Hto (K1 & Et & Ecur & Elock & _ & Eo & _ & Etl & l1 & l2 & E & El & Hp & Hm).
  set (y := set_stat RT_THREAD_SUSPEND c) in *.
  assert (Hy : stat_of y = RT_THREAD_SUSPEND) by (apply stat_set; unfold RT_THREAD_SUSPEND; lia).
  assert (Ey : threads k1 !! current k = Some y) by (by rewrite Et, lookup_insert_eq).
  assert (Hno : thread_timer (current k) ∉ TimerOps.rt_timer_list (tst k)).
  { by apply (active_no_timer k (current k) c (ko_timers _ K) Ec); right. }
  assert (Hstart : exists s', (if 0 <? timeout then start_timer k1 (current k) timeout else Ok k1) =
      Ok (with_tst k1 s') /\ timers_inv (threads k1) s' /\
      (0 < timeout -> thread_timer (current k) ∈ TimerOps.rt_timer_list s') /\
      (timeout <= 0 -> s' = tst k1)).
  { destruct (Z.ltb_spec 0 timeout).
    - destruct (start_timer_inv k1 (current k) y timeout (ko_timers _ K1) Ey Hy Hto)
        as (s' & E1 & T & Hs & _). exists s'. split_and!; try done; [|lia]. intros _. rewrite Hs. by left.
    - exists (tst k1). split_and!; try done; [by destruct k1|apply K1|lia]. }
  destruct Hstart as (s' & -> & T & Hpend & Hnp). cbn [mbind result_bind].
  assert (K2 : kernel_ok (with_tst k1 s')) by by apply with_tst_ok.
  destruct (switch_away (with_tst k1 s') y K2) as (k' & E' & K' & Hk & He & Hne & Hw).
  { cbn. by rewrite Ecur. }
  { done. }
  { cbn. by rewrite Elock. }
  { cbn. by rewrite Ecur. }
  cbn [current with_tst] in Hne. rewrite Ecur in Hne.
  exists k'. split; [done|]. pose proof (Hk (current k)) as Hkc. cbn in Hkc. rewrite Ey in Hkc.
  destruct Hkc as (y' & Ey' & Hyy & _). destruct He as (_ & _ & Ets & Eob). cbn in Ets, Eob.
  unfold now_waits_at. rewrite Ets, Eob. split_and!; try done.
  - destruct (waiting_suspended k' n (current k) K' Hn) as (z & Ez & Hz).
    { rewrite (Hw n Hn). change (lst (with_tst k1 s') n) with (lst k1 n). rewrite El.
      apply elem_of_app. right. by left. }
    rewrite Ey' in Ez. injection Ez as <-. exists y'. rewrite Hyy. split_and!; try done. by rewrite <- Hyy.
  - exists l1, l2. split_and!; try done. by rewrite (Hw n Hn).
  - intros m Hwm Hmn. rewrite (Hw m Hwm). change (lst (with_tst k1 s') m) with (lst k1 m).
    rewrite Hm by done. apply filter_absent. apply (active_not_waiting k m (current k) c K Hwm Ec). by right.
  - intros u. rewrite (prio_kept _ _ u Hk).
    transitivity (prio (put_thread k (current k) y) u); [|by apply (prio_insert_same k _ c)].
    unfold prio. cbn. by rewrite Et.
  - intros Hle. rewrite (Hnp Hle), Etl. by intros [? _]%list_elem_of_filter.
Qed.

Lemma wait_on_ok k n c flag timeout : kernel_ok k -> threads k !! current k = Some c ->
  stat_of c = RT_THREAD_RUNNING -> lock_nest k = 0 -> current k <> IDLE_THREAD -> wait_name n ->
  flag = RT_IPC_FLAG_FIFO \/ flag = RT_IPC_FLAG_PRIO -> timeout < TimerOps.TICK_HALF ->
  exists k', wait_on k n flag timeout = Ok k' /\ now_waits k k' n c flag timeout.
Proof.
  intros K Ec Hr Hl Hi Hn Hf Hto. unfold wait_on, rt_thread_self.
  destruct (list_suspend_ok k n (current k) c flag K Ec (or_intror Hr) Hi Hn Hf) as (k1 & -> & Hb).
  cbn [mbind result_bind]. by apply (blocked_switch k k1 n c _ timeout).
Qed.

(** *** Resuming the threads of a list *)

Lemma resume_first_ok k n t l : kernel_ok k -> wait_name n -> lst k n = t :: l ->
  exists k' x, rt_ipc_list_resume k n = Ok k' /\ threads k !! t = Some x /\
    stat_of x = RT_THREAD_SUSPEND /\ resumed k k' t x /\ lst k' n = l /\
    forall m, wait_name m -> m <> n -> lst k' m = lst k m.
Proof.
  intros K Hn El.
  destruct (waiting_suspended k n t K Hn) as (x & Ex & Hx); [rewrite El; by left|].
  destruct (resume_ok k t x K Ex Hx) as (k' & E & Hr).
  unfold rt_ipc_list_resume. rewrite El. cbn [head deref mbind option_bind result_bind]. rewrite E.
  cbn [mbind result_bind]. exists k', x. split_and!; try done.
  - destruct Hr as (_ & _ & _ & _ & _ & _ & Hl & _). rewrite Hl. unfold woken_list.
    rewrite decide_False by by apply wait_not_ready. rewrite El.
    pose proof (si_nodup _ _ (ko_sched _ K) n) as Hnd. rewrite El in Hnd.
    apply NoDup_cons in Hnd as [Hnt _]. rewrite filter_cons_False by (intros H; by apply H).
    rewrite (filter_absent t l Hnt). by destruct (_ =? _).
  - intros m Hm Hmn. destruct Hr as (_ & _ & _ & _ & _ & _ & Hl & _). rewrite Hl. unfold woken_list.
    rewrite decide_False by by apply wait_not_ready.
    rewrite filter_absent; [by destruct (_ =? _)|]. intros Hin. apply Hmn.
    apply (si_one _ _ (ko_sched _ K) m n t Hin). rewrite El. by left.
Qed.

(** The resumed thread and then the scheduler. *)
Lemma resume_schedule_ok k n t l : kernel_ok k -> wait_name n -> lst k n = t :: l ->
  exists k' x y, (k ← rt_ipc_list_resume k n; rt_schedule k) = Ok k' /\ kernel_ok k' /\
    objs k' = objs k /\ lst k' n = l /\ (forall m, wait_name m -> m <> n -> lst k' m = lst k m) /\
    threads k !! t = Some x /\ threads k' !! t = Some y /\ active y /\ y = with_stat x (stat y).
Proof.
  intros K Hn El. destruct (resume_first_ok k n t l K Hn El) as (k1 & x & -> & Ex & Hx & Hr & Hl & Hm).
  destruct Hr as (K1 & Et & _ & _ & _ & Eo & _). cbn [mbind result_bind].
  destruct (schedule_waits k1 K1) as (k' & E & K' & Hk & He & Hw).
  specialize (Hk t). rewrite Et, lookup_insert_eq in Hk. destruct Hk as (y & Ey & Hy & Hst).
  exists k', x, y. split_and!; try done.
  - by rewrite (proj2 (proj2 (proj2 He))).
  - by rewrite Hw.
  - intros m Hwm Hmn. rewrite Hw by done. by apply Hm.
  - destruct Hst as [->|[_ Ha]]; [apply woken_active|done].
Qed.

End IpcInv.
