(* ===== verification/IpcThms.v ===== *)
(** * Properties of semaphores, mutexes, events and mailboxes *)
From S2P Require Import Prelude CTypes KService Timer Kernel KernelSpec KernelThms Ipc IpcSpec.
From stdpp Require Import base list gmap sorting.
From Stdlib Require Import ZArith Lia.
Open Scope Z_scope.

Module IpcThms.
Import Kern Sched Thread KernInv KernOk IpcList IpcInv.

(** *** The order of waiting threads *)

Definition by_prio (k : kernel) (u v : Z) : Prop := prio k u <= prio k v.

Lemma sorted_head (f : Z -> Z) p l : StronglySorted (fun u v => f u <= f v) l ->
  (forall u, head l = Some u -> p < f u) -> Forall (fun u => p < f u) l.
Proof.
  intros Hs Hh. destruct l as [|u l]; [constructor|].
  apply StronglySorted_inv in Hs as [_ Hl]. specialize (Hh u eq_refl).
  constructor; [done|]. eapply Forall_impl; [exact Hl|]. cbn. lia.
Qed.

Lemma sorted_app (f : Z -> Z) l1 l2 : StronglySorted (fun u v => f u <= f v) (l1 ++ l2) ->
  StronglySorted (fun u v => f u <= f v) l1 /\ StronglySorted (fun u v => f u <= f v) l2.
Proof.
  induction l1 as [|u l1 IH]; cbn; [split; [constructor|done]|].
  intros [H1 H2]%StronglySorted_inv. destruct (IH H1) as [H3 H4]. split; [|done].
  constructor; [done|]. by apply Forall_app in H2 as [H2 _].
Qed.

Lemma sorted_insert (f : Z -> Z) t l1 l2 : StronglySorted (fun u v => f u <= f v) (l1 ++ l2) ->
  Forall (fun u => f u <= f t) l1 -> Forall (fun u => f t < f u) l2 ->
  StronglySorted (fun u v => f u <= f v) (l1 ++ t :: l2).
Proof.
  intros Hs H1 H2. induction l1 as [|u l1 IH]; cbn in *.
  - constructor; [done|]. eapply Forall_impl; [exact H2|]. cbn. lia.
  - apply StronglySorted_inv in Hs as [Hs Hu]. inversion H1 as [|?? Hut H1']; subst.
    constructor; [by apply IH|]. apply Forall_app in Hu as [Hu1 Hu2].
    apply Forall_app. split; [done|]. by constructor.
Qed.

(** a thread that blocks on an object goes to the end of the list of a FIFO
    object; in the list of a priority object it goes behind every thread of
    the same or a higher priority and before every thread of a lower one, so
    that the list stays sorted and equal priorities keep their order of
    arrival. *)
Theorem rt_ipc_list_suspend_orders k n t x :
  kernel_ok k -> threads k !! t = Some x -> active x -> t <> IDLE_THREAD -> wait_name n ->
  StronglySorted (by_prio k) (lst k n) ->
  (exists k', rt_ipc_list_suspend k n t RT_IPC_FLAG_FIFO = Ok k' /\ kernel_ok k' /\
     lst k' n = lst k n ++ [t]) /\
  (exists k' l1 l2, rt_ipc_list_suspend k n t RT_IPC_FLAG_PRIO = Ok k' /\ kernel_ok k' /\
     lst k n = l1 ++ l2 /\ lst k' n = l1 ++ t :: l2 /\
     Forall (fun u => prio k u <= current_priority x) l1 /\
     Forall (fun u => current_priority x < prio k u) l2 /\
     StronglySorted (by_prio k') (lst k' n)).
Proof.
  intros K Ex Ha Hi Hn Hs. split.
  - destruct (list_suspend_ok k n t x _ K Ex Ha Hi Hn (or_introl eq_refl))
      as (k' & E & (K' & _ & _ & _ & _ & _ & _ & _ & l1 & l2 & El & El' & [[_ ->]|[Hf _]] & _)); [|done].
    exists k'. split_and!; [done|done|]. by rewrite El', El, app_nil_r.
  - destruct (list_suspend_ok k n t x _ K Ex Ha Hi Hn (or_intror eq_refl))
      as (k' & E & (K' & Et & _ & _ & _ & _ & _ & _ & l1 & l2 & El & El' & [[Hf _]|(_ & H1 & H2)] & _)); [done|].
    exists k', l1, l2. rewrite El in Hs. destruct (sorted_app _ _ _ Hs) as [_ Hs2].
    pose proof (sorted_head _ _ _ Hs2 H2) as H2'. split_and!; try done.
    assert (Hp : forall u, prio k' u = prio k u).
    { intros u. transitivity (prio (put_thread k t (set_stat RT_THREAD_SUSPEND x)) u);
        [unfold prio; cbn; by rewrite Et|]. by apply (prio_insert_same k t x). }
    rewrite El'. assert (Hpt : prio k t = current_priority x) by (unfold prio; by rewrite Ex).
    assert (Hst : StronglySorted (by_prio k) (l1 ++ t :: l2)).
    { apply (sorted_insert (prio k)); [done|by rewrite Hpt|by rewrite Hpt]. }
    clear -Hst Hp. induction Hst as [|u l _ IH Hu]; constructor; [done|].
    eapply Forall_impl; [exact Hu|]. unfold by_prio. intros v. by rewrite !Hp.
Qed.

Lemma rt_ipc_list_suspend_orders_witness : exists k',
  rt_ipc_list_suspend KernThms.demo (L_wait 100) 3 RT_IPC_FLAG_PRIO = Ok k' /\
  lst k' (L_wait 100) = [5; 3].
Proof.
  destruct (rt_ipc_list_suspend_orders KernThms.demo (L_wait 100) 3
    (KernThms.demo_thread RT_THREAD_RUNNING 10 1) KernThms.demo_ok) as [_ (k' & l1 & l2 & E & _)];
    [reflexivity|by right|done|exists 100; by left| |].
  - repeat constructor.
  - exists k'. split; [exact E|]. vm_compute in E. by injection E as <-.
Defined.

(** *** What a call from the running thread needs *)

(** The thread that executes may block: it is a thread other than the idle one,
    outside interrupts and critical sections. *)
Record may_block (k : kernel) (c : rt_thread) : Prop := {
  mb_kernel : kernel_ok k;
  mb_current : threads k !! current k = Some c;
  mb_running : stat_of c = RT_THREAD_RUNNING;
  mb_unlocked : lock_nest k = 0;
  mb_thread : interrupt_nest k = 0;
  mb_not_idle : current k <> IDLE_THREAD
}.

Lemma may_block_context k c : may_block k c -> in_thread_context k = Ok tt.
Proof.
  intros H. unfold in_thread_context, not_in_interrupt.
  rewrite (proj2 (Z.eqb_neq (current k) 0)) by (eapply thread_nonnull; apply H).
  cbn. by rewrite (mb_thread _ _ H).
Qed.

Lemma set_error_Ok k c e : may_block k c ->
  set_error k e = Ok (put_thread k (current k) (with_error c e)).
Proof. intros H. unfold set_error, rt_thread_self. by rewrite (upd_thread_Ok _ _ c) by apply H. Qed.

Lemma set_error_may k c e : may_block k c ->
  may_block (put_thread k (current k) (with_error c e)) (with_error c e).
Proof.
  intros H. constructor; try apply H.
  - apply (with_error_ok k _ c); apply H.
  - apply lookup_insert_eq.
Qed.

Definition ipc_flag (f : Z) : Prop := f = RT_IPC_FLAG_FIFO \/ f = RT_IPC_FLAG_PRIO.

Lemma wait_on_may k c n flag timeout : may_block k c -> wait_name n -> ipc_flag flag ->
  timeout < TimerOps.TICK_HALF ->
  exists k', wait_on k n flag timeout = Ok k' /\ now_waits k k' n c flag timeout.
Proof. intros H Hn Hf Ht. apply wait_on_ok; try done; apply H. Qed.

Lemma set_error_prio k c e u : may_block k c ->
  prio (put_thread k (current k) (with_error c e)) u = prio k u.
Proof. intros H. apply (prio_insert_same k _ c); [apply H|done]. Qed.

(** *** Semaphores *)
Import Sem.

Definition has_sem (k : kernel) (o : Z) (s : rt_semaphore) : Prop :=
  exists st, objs k !! o = Some (mk_object st (O_sem s)).

Lemma has_sem_get k o s : has_sem k o s -> get_sem k o = Ok s.
Proof. intros [st E]. unfold get_sem. by rewrite E. Qed.

Lemma has_body_put k o st b b' : objs k !! o = Some (mk_object st b) ->
  objs (put_body k o b') !! o = Some (mk_object st b').
Proof. intros E. cbn. by rewrite lookup_alter_eq, E. Qed.

(** C28: [rt_sem_take] of an available semaphore takes one unit; of an empty one
    it fails at once when it may not wait, and otherwise suspends the running
    thread in the waiting list with its error code cleared, with its timer
    pending exactly if the time is limited, and lets another thread run. *)
Theorem rt_sem_take_spec k c o s time :
  may_block k c -> has_sem k o s -> 0 <= sem_value s < 65536 -> ipc_flag (sem_flag s) ->
  time < TimerOps.TICK_HALF ->
  exists k' r, rt_sem_take k o time = Ok (k', r) /\ kernel_ok k' /\
    if 0 <? sem_value s
    then r = Ret RT_EOK /\ has_sem k' o (set_value s (sem_value s - 1)) /\ current k' = current k /\
      (forall n, lst k' n = lst k n)
    else if time =? 0 then r = Ret (- RT_ETIMEOUT) /\ k' = k
    else r = Blocked tt /\ has_sem k' o s /\ current k' <> current k /\
      (exists l1 l2, lst k (L_wait o) = l1 ++ l2 /\ lst k' (L_wait o) = l1 ++ current k :: l2 /\
         placed k (sem_flag s) (current k) (current_priority c) l1 l2) /\
      (exists y, threads k' !! current k = Some y /\ stat_of y = RT_THREAD_SUSPEND /\ error y = RT_EOK) /\
      (thread_timer (current k) ∈ TimerOps.rt_timer_list (tst k') <-> 0 < time).
Proof.
  intros H Hs Hv Hf Ht. pose proof (mb_kernel _ _ H) as K. destruct Hs as [st Es].
  unfold rt_sem_take. rewrite (has_sem_get k o s) by by exists st. cbn [mbind result_bind].
  destruct (Z.ltb_spec 0 (sem_value s)) as [Hpos|Hzero].
  { eexists _, _. split; [reflexivity|]. split; [by apply put_body_ok|]. split_and!; try done.
    exists st. rewrite u16_small by lia. by apply (has_body_put _ _ _ (O_sem s)). }
  destruct (Z.eqb_spec time 0) as [Hz|Hz]; [by exists k, (Ret (- RT_ETIMEOUT))|].
  rewrite (may_block_context k c H). cbn [mbind result_bind]. rewrite (set_error_Ok k c _ H).
  cbn [mbind result_bind].
  destruct (wait_on_may _ _ (L_wait o) (sem_flag s) time (set_error_may k c RT_EOK H))
    as (k' & -> & (K' & Hne & Eo & (y & Ey & Hy & _ & He & _) & (l1 & l2 & El & El' & Hp) & _ & _ & Hp1 & Hp2));
    [exists o; by left|done|done|]. cbn [mbind result_bind].
  eexists _, _. split; [reflexivity|]. split; [done|]. split_and!; try done.
  - exists st. by rewrite Eo.
  - exists l1, l2. split_and!; try done. unfold placed in *.
    destruct Hp as [Hp|(Hp & H1 & H2)]; [by left|right]. split_and!; [done|..].
    + eapply Forall_impl; [exact H1|]. cbn. intros u. by rewrite set_error_prio.
    + intros u Hu. specialize (H2 u Hu). by rewrite set_error_prio in H2.
  - exists y. by split_and!.
  - split; [|by apply Hp1]. intros Hin. destruct (Z.lt_ge_cases 0 time); [done|].
    by destruct (Hp2 ltac:(lia) Hin).
Qed.

(** The demo with semaphore 100, on which thread 5 waits, and semaphore 200
    with two units; thread 3 is not in an interrupt. *)
Definition sem_demo : kernel :=
  with_objs KernThms.demo
    (<[100 := mk_object true (O_sem (mk_sem 1 0))]> (<[200 := mk_object true (O_sem (mk_sem 0 2))]> ∅)).

Lemma sem_demo_ok : kernel_ok sem_demo.
Proof. pose proof KernThms.demo_ok as K. constructor; [constructor|..]; apply K. Qed.

Lemma sem_demo_may : may_block sem_demo (KernThms.demo_thread RT_THREAD_RUNNING 10 1).
Proof. by constructor; [exact sem_demo_ok|..]. Qed.

Lemma rt_sem_take_spec_witness : exists k',
  rt_sem_take sem_demo 100 30 = Ok (k', Blocked tt) /\ lst k' (L_wait 100) = [5; 3].
Proof.
  destruct (rt_sem_take_spec sem_demo _ 100 (mk_sem 1 0) 30 sem_demo_may)
    as (k' & r & E & _ & -> & _); [by exists true|done|by right|reflexivity|].
  exists k'. split; [exact E|]. vm_compute in E. by injection E as <-.
Defined.

(** C29: [rt_sem_release] hands the unit to the first waiting thread, which is
    taken out of the list and made ready with its error code untouched while
    the value stays the same; when nobody waits the value grows by one, and
    wraps to 0 at 65535. *)
Theorem rt_sem_release_spec k o s :
  kernel_ok k -> has_sem k o s -> 0 <= sem_value s < 65536 ->
  exists k', rt_sem_release k o = Ok k' /\ kernel_ok k' /\
    match lst k (L_wait o) with
    | [] => has_sem k' o (set_value s (if sem_value s =? 65535 then 0 else sem_value s + 1)) /\
        current k' = current k /\ (forall n, lst k' n = lst k n)
    | t :: l => has_sem k' o s /\ lst k' (L_wait o) = l /\
        exists x y, threads k !! t = Some x /\ threads k' !! t = Some y /\ active y /\
          error y = error x
    end.
Proof.
  intros K [st Es] Hv. unfold rt_sem_release. rewrite (has_sem_get k o s) by by exists st.
  cbn [mbind result_bind]. destruct (lst k (L_wait o)) as [|t l] eqn:El.
  - eexists. split; [reflexivity|]. split; [by apply put_body_ok|]. split_and!; try done.
    exists st. rewrite (has_body_put _ _ st (O_sem s)) by done. do 4 f_equal.
    unfold u16. case_bool; dlia.
  - destruct (resume_schedule_ok k (L_wait o) t l K) as (k' & x & y & -> & K' & Eo & Hl & _ & Ex & Ey & Ha & Hy);
      [exists o; by left|done|].
    exists k'. split_and!; try done; [by exists st; rewrite Eo|]. exists x, y. split_and!; try done. by rewrite Hy.
Qed.

Lemma rt_sem_release_spec_witness : exists k',
  rt_sem_release sem_demo 100 = Ok k' /\ lst k' (L_wait 100) = [] /\ current k' = 5.
Proof.
  destruct (rt_sem_release_spec sem_demo 100 (mk_sem 1 0) sem_demo_ok) as (k' & E & _);
    [by exists true|done|].
  exists k'. split; [exact E|]. vm_compute in E. injection E as <-. by split.
Defined.

(** *** Mutexes *)
Import Mutex.

Definition has_mutex (k : kernel) (o : Z) (m : rt_mutex) : Prop :=
  exists st, objs k !! o = Some (mk_object st (O_mutex m)).

Lemma has_mutex_get k o m : has_mutex k o m -> get_mutex k o = Ok m.
Proof. intros [st E]. unfold get_mutex. by rewrite E. Qed.

Lemma has_mutex_put k o m m' : has_mutex k o m -> has_mutex (put_mutex k o m') o m'.
Proof. intros [st E]. exists st. by apply (has_body_put _ _ _ (O_mutex m)). Qed.

Lemma prio_of k t x : threads k !! t = Some x -> prio k t = current_priority x.
Proof. unfold prio. by intros ->. Qed.

(** Raising or restoring the priority of a thread, from a thread that may
    block. *)
Lemma control_priority k t x p : kernel_ok k -> threads k !! t = Some x ->
  stat_of x <> RT_THREAD_CLOSE -> 0 <= p < 32 ->
  exists k', rt_thread_control k t (RT_THREAD_CTRL_CHANGE_PRIORITY p) = Ok k' /\ kernel_ok k' /\
    same_env k k' /\ current k' = current k /\
    (exists y, threads k' = <[t := y]> (threads k) /\ stat_of y = stat_of x /\
       current_priority y = p /\ error y = error x) /\
    (forall n, wait_name n -> lst k' n = lst k n).
Proof.
  intros K Ex Hx Hp. unfold rt_thread_control. rewrite (typed_obj _ _ _ _ (ko_sched _ K) Ex Hx).
  cbn [mbind result_bind]. rewrite u8_small by lia.
  destruct (change_priority_ok k t x p K Ex Hx Hp) as (k' & -> & K' & He & Ec & Et & Hl).
  exists k'. split_and!; try done.
  - eexists. split; [exact Et|]. destruct (Z.eqb_spec (stat_of x) RT_THREAD_READY) as [E|E]; [|done].
    split_and!; [|done|done]. rewrite E. apply stat_set. unfold RT_THREAD_READY. lia.
  - intros n Hn. rewrite Hl. destruct (Z.eqb_spec (stat_of x) RT_THREAD_READY) as [E|E]; [|done].
    rewrite decide_False by by apply wait_not_ready.
    apply filter_absent. apply (active_not_waiting k n t x K Hn Ex). by left.
Qed.

(** The inheritance step of [mutex_again]. *)
Lemma inherit_ok k c w x : may_block k c -> threads k !! w = Some x -> w <> current k ->
  stat_of x <> RT_THREAD_CLOSE ->
  exists k', (if current_priority c <? current_priority x
              then rt_thread_control k w (RT_THREAD_CTRL_CHANGE_PRIORITY (current_priority c))
              else Ok k) = Ok k' /\ may_block k' c /\ current k' = current k /\ objs k' = objs k /\
    prio k' w = Z.min (prio k w) (current_priority c) /\
    (forall u, u <> w -> prio k' u = prio k u) /\ (forall n, wait_name n -> lst k' n = lst k n).
Proof.
  intros H Ex Hw Hx. pose proof (mb_kernel _ _ H) as K. rewrite (prio_of _ _ _ Ex).
  destruct (Z.ltb_spec (current_priority c) (current_priority x)) as [Hlt|Hge].
  2:{ exists k. split_and!; try done. rewrite (prio_of _ _ _ Ex). lia. }
  destruct (si_mask _ _ (ko_sched _ K) _ c (mb_current _ _ H)) as (Hp & _).
  destruct (control_priority k w x (current_priority c) K Ex Hx Hp)
    as (k' & E & K' & (He1 & He2 & _ & He4) & Ec & (y & Et & Hy & Hyp & _) & Hl).
  exists k'. split_and!; try done.
  - constructor; [done|..]; rewrite ?Ec, ?He1, ?He2; try apply H.
    rewrite Et, lookup_insert_ne by done. apply H.
  - unfold prio at 1. rewrite Et, lookup_insert_eq. lia.
  - intros u Hu. unfold prio. by rewrite Et, lookup_insert_ne.
Qed.

(** C22: [rt_mutex_take] by the owner only counts; a free mutex is given to the
    running thread, whose priority is recorded; a mutex of another thread is
    refused at once when the caller may not wait, and otherwise the owner
    inherits the caller's priority if that is higher, the caller waits in the
    list of the mutex and another thread runs. *)
Theorem rt_mutex_take_spec k c o m time :
  may_block k c -> has_mutex k o m -> 0 <= mutex_value m <= 1 -> 0 <= hold m < 255 ->
  ipc_flag (mutex_flag m) -> time < TimerOps.TICK_HALF ->
  (mutex_value m = 0 -> exists x, threads k !! owner m = Some x /\ stat_of x <> RT_THREAD_CLOSE) ->
  exists k' r, rt_mutex_take k o time = Ok (k', r) /\ kernel_ok k' /\
    if owner m =? current k
    then r = Ret RT_EOK /\ current k' = current k /\
      has_mutex k' o (mk_mutex (mutex_flag m) (mutex_value m) (original_priority m) (hold m + 1) (owner m))
    else if 0 <? mutex_value m
    then r = Ret RT_EOK /\ current k' = current k /\
      has_mutex k' o (mk_mutex (mutex_flag m) 0 (current_priority c) (hold m + 1) (current k))
    else has_mutex k' o m /\
      if time =? 0 then r = Ret (- RT_ETIMEOUT) /\ current k' = current k
      else r = Blocked tt /\ current k' <> current k /\
        (exists l1 l2, lst k (L_wait o) = l1 ++ l2 /\ lst k' (L_wait o) = l1 ++ current k :: l2) /\
        prio k' (owner m) = Z.min (prio k (owner m)) (current_priority c) /\
        (forall u, u <> owner m -> prio k' u = prio k u).
Proof.
  intros H Hm Hv Hh Hf Ht Hown. pose proof (set_error_may k c RT_EOK H) as H1.
  set (k1 := put_thread _ _ _) in *. set (c1 := with_error c RT_EOK) in *.
  assert (Hm1 : has_mutex k1 o m) by exact Hm.
  unfold rt_mutex_take. rewrite (may_block_context k c H). cbn [mbind result_bind].
  rewrite (has_mutex_get k o m Hm). cbn [mbind result_bind]. rewrite (set_error_Ok k c _ H).
  cbn [mbind result_bind]. fold c1. fold k1. change (rt_thread_self k1) with (current k).
  destruct (Z.eqb_spec (owner m) (current k)) as [Ho|Ho].
  { eexists _, _. split; [reflexivity|]. split; [apply put_body_ok, H1|]. split_and!; try done.
    rewrite u8_small by lia. by apply (has_mutex_put k1 o m). }
  unfold mutex_again. rewrite (has_mutex_get k1 o m Hm1). cbn [mbind result_bind].
  change (rt_thread_self k1) with (current k1).
  rewrite (thread_at_Ok _ _ _ (mb_current _ _ H1)). cbn [mbind result_bind].
  destruct (Z.ltb_spec 0 (mutex_value m)) as [Hpos|Hzero].
  { eexists _, _. split; [reflexivity|]. split; [apply put_body_ok, H1|]. split_and!; try done.
    rewrite u8_small, u16_small by lia. replace (mutex_value m - 1) with 0 by lia.
    by apply (has_mutex_put k1 o m). }
  destruct (Z.eqb_spec time 0) as [Hz|Hz].
  { rewrite (set_error_Ok k1 c1 _ H1). cbn [mbind result_bind].
    pose proof (set_error_may k1 c1 (- RT_ETIMEOUT) H1) as H2.
    eexists _, _. split; [reflexivity|]. split; [apply H2|]. by split_and!. }
  destruct Hown as (x & Ex & Hx); [lia|].
  assert (Ex1 : threads k1 !! owner m = Some x) by (cbn; by rewrite lookup_insert_ne by (by apply not_eq_sym)).
  rewrite (thread_at_Ok _ _ _ Ex1). cbn [mbind result_bind].
  destruct (inherit_ok k1 c1 (owner m) x H1 Ex1 Ho Hx)
    as (k2 & -> & H2 & Ec2 & Eo2 & Hpo & Hpu & Hl2). cbn [mbind result_bind].
  destruct (wait_on_may k2 c1 (L_wait o) (mutex_flag m) time H2)
    as (k' & -> & (K' & Hne & Eo & _ & (l1 & l2 & El & El' & _) & _ & Hpr & _));
    [exists o; by left|done|done|]. cbn [mbind result_bind]. rewrite Ec2 in Hne, El'.
  assert (Hp1 : forall u, prio k1 u = prio k u) by (intros u; by apply set_error_prio).
  eexists _, _. split; [reflexivity|]. split; [done|]. split.
  { destruct Hm1 as [st Em]. exists st. by rewrite Eo, Eo2. }
  split_and!; try done.
  - exists l1, l2. split; [|done]. rewrite <- El, Hl2 by (exists o; by left). done.
  - rewrite Hpr, Hpo, Hp1. done.
  - intros u Hu. by rewrite Hpr, Hpu, Hp1 by done.
Qed.

(** The demo with mutex 300 of thread 4 and mutex 400 of thread 3, on which
    thread 5 waits. *)
Definition mutex_demo : kernel :=
  with_objs KernThms.demo
    (<[300 := mk_object true (O_mutex (mk_mutex 1 0 10 1 4))]>
    (<[100 := mk_object true (O_mutex (mk_mutex 1 0 20 1 3))]> ∅)).

Lemma mutex_demo_may : may_block mutex_demo (KernThms.demo_thread RT_THREAD_RUNNING 10 1).
Proof. constructor; try done. pose proof KernThms.demo_ok as K. constructor; [constructor|..]; apply K. Qed.

Lemma rt_mutex_take_spec_witness : exists k',
  rt_mutex_take mutex_demo 300 (-1) = Ok (k', Blocked tt) /\ lst k' (L_wait 300) = [3] /\ current k' = 4.
Proof.
  destruct (rt_mutex_take_spec mutex_demo _ 300 (mk_mutex 1 0 10 1 4) (-1) mutex_demo_may)
    as (k' & r & E & _ & _ & -> & _); [by exists true|done|done|by right|reflexivity| |].
  - intros _. eexists. by split.
  - exists k'. split; [exact E|]. vm_compute in E. injection E as <-. by split.
Defined.

(** The end of a release: the priority is restored and the mutex goes to the
    first waiting thread or becomes free. *)
Lemma hand_over_ok k c o m m0 : may_block k c -> has_mutex k o m0 -> owner m = current k ->
  hold m = 0 -> mutex_value m = 0 -> 0 <= original_priority m < 32 ->
  exists k', mutex_hand_over k o m = Ok k' /\ kernel_ok k' /\
    prio k' (current k) = original_priority m /\
    match lst k (L_wait o) with
    | [] => has_mutex k' o (mk_mutex (mutex_flag m) 1 255 0 0) /\ current k' = current k
    | t :: l => has_mutex k' o (mk_mutex (mutex_flag m) 0 (prio k t) 1 t) /\ lst k' (L_wait o) = l /\
        exists y, threads k' !! t = Some y /\ active y
    end.
Proof.
  intros H Hm Ho Hh Hv Hp. pose proof (mb_kernel _ _ H) as K.
  unfold mutex_hand_over. rewrite Ho, (thread_at_Ok _ _ _ (mb_current _ _ H)). cbn [mbind result_bind].
  assert (Hr : exists k1 c1, (if negb (original_priority m =? current_priority c)
      then rt_thread_control k (current k) (RT_THREAD_CTRL_CHANGE_PRIORITY (original_priority m))
      else Ok k) = Ok k1 /\ kernel_ok k1 /\ current k1 = current k /\ objs k1 = objs k /\
      threads k1 = <[current k := c1]> (threads k) /\ current_priority c1 = original_priority m /\
      (forall n, wait_name n -> lst k1 n = lst k n)).
  { destruct (Z.eqb_spec (original_priority m) (current_priority c)) as [E|E].
    - exists k, c. split_and!; try done. symmetry. apply insert_id, H.
    - destruct (control_priority k (current k) c (original_priority m) K (mb_current _ _ H))
        as (k1 & E1 & K1 & (_ & _ & _ & Eo) & Ec & (y & Et & _ & Hy & _) & Hl); [|done|].
      { by rewrite (mb_running _ _ H). }
      exists k1, y. split_and!; done. }
  destruct Hr as (k1 & c1 & -> & K1 & Ec1 & Eo1 & Et1 & Hc1 & Hl1). cbn [mbind result_bind].
  assert (Hwo : wait_name (L_wait o)) by (exists o; by left). rewrite (Hl1 _ Hwo).
  assert (Hm1 : has_mutex k1 o m0) by (destruct Hm as [st Em]; exists st; by rewrite Eo1).
  assert (Hprio : prio k1 (current k) = original_priority m) by (unfold prio; by rewrite Et1, lookup_insert_eq).
  destruct (lst k (L_wait o)) as [|t l] eqn:El.
  { eexists. split; [reflexivity|]. split; [by apply put_body_ok|]. split; [exact Hprio|]. split; [|done].
    rewrite Hh, Hv. by apply (has_mutex_put k1 o m0). }
  destruct (waiting_suspended k (L_wait o) t K Hwo) as (x & Ex & Hx); [rewrite El; by left|].
  assert (Htc : t <> current k).
  { intros ->. rewrite (mb_current _ _ H) in Ex. injection Ex as <-. by rewrite (mb_running _ _ H) in Hx. }
  assert (Ex1 : threads k1 !! t = Some x) by (by rewrite Et1, lookup_insert_ne by (by apply not_eq_sym)).
  rewrite (thread_at_Ok _ _ _ Ex1). cbn [mbind result_bind]. set (k2 := put_mutex k1 o _).
  destruct (resume_first_ok k2 (L_wait o) t l) as (k3 & x' & -> & Ex' & _ & Hr3 & Hl3 & _);
    [by apply put_body_ok|done|by rewrite <- El, <- Hl1|]. cbn [mbind result_bind].
  destruct Hr3 as (K3 & Et3 & _ & _ & _ & Eo3 & _).
  destruct (schedule_waits k3 K3) as (k' & -> & K' & Hk & He & Hw).
  exists k'. split_and!; try done.
  - rewrite (prio_kept _ _ _ Hk), <- Hprio. unfold prio. rewrite Et3.
    change (threads k2) with (threads k1). by rewrite lookup_insert_ne.
  - pose proof (has_mutex_put k1 o m0 (mk_mutex (mutex_flag m) (mutex_value m) (current_priority x)
      (u8 (hold m + 1)) t) Hm1) as [st Em]. exists st.
    rewrite (proj2 (proj2 (proj2 He))), Eo3. unfold k2. rewrite Em, Hh, Hv, (prio_of _ _ _ Ex). done.
  - by rewrite Hw.
  - specialize (Hk t). rewrite Et3, lookup_insert_eq in Hk. destruct Hk as (y & Ey & _ & Hst).
    exists y. split; [done|]. destruct Hst as [->|[_ ?]]; [apply woken_active|done].
Qed.

(** C10: only the owner can release a mutex, once for every take.  The last
    release gives the caller the priority it had when it took this mutex -
    whatever it inherited since then through other mutexes it still holds -
    and hands the mutex to the first waiting thread, recording that thread's
    priority, or frees it when nobody waits. *)
Theorem rt_mutex_release_spec k c o m :
  may_block k c -> has_mutex k o m -> mutex_value m = 0 -> 0 < hold m < 256 ->
  0 <= original_priority m < 32 ->
  exists k' e, rt_mutex_release k o = Ok (k', e) /\ kernel_ok k' /\
    if negb (current k =? owner m) then e = - RT_ERROR /\ has_mutex k' o m
    else e = RT_EOK /\
      if negb (hold m =? 1)
      then has_mutex k' o (mk_mutex (mutex_flag m) 0 (original_priority m) (hold m - 1) (owner m)) /\
        prio k' (current k) = current_priority c
      else prio k' (current k) = original_priority m /\
        match lst k (L_wait o) with
        | [] => has_mutex k' o (mk_mutex (mutex_flag m) 1 255 0 0) /\ current k' = current k
        | t :: l => has_mutex k' o (mk_mutex (mutex_flag m) 0 (prio k t) 1 t) /\ lst k' (L_wait o) = l /\
            exists y, threads k' !! t = Some y /\ active y
        end.
Proof.
  intros H Hm Hv Hh Hp. unfold rt_mutex_release. rewrite (has_mutex_get k o m Hm). cbn [mbind result_bind].
  rewrite (may_block_context k c H). cbn [mbind result_bind]. unfold rt_thread_self.
  destruct (Z.eqb_spec (current k) (owner m)) as [Ho|Ho]; cbn [negb].
  2:{ rewrite (set_error_Ok k c _ H). cbn [mbind result_bind].
      eexists _, _. split; [reflexivity|]. split; [apply (set_error_may k c _ H)|]. done. }
  rewrite u8_small by lia. cbn [hold].
  destruct (Z.eqb_spec (hold m - 1) 0) as [E|E].
  - rewrite (proj2 (Z.eqb_eq (hold m) 1)) by lia. cbn [negb].
    destruct (hand_over_ok k c o (mk_mutex (mutex_flag m) (mutex_value m) (original_priority m)
      (hold m - 1) (owner m)) m H Hm) as (k' & -> & K' & Hpr & Hrest); [done..|].
    cbn [mbind result_bind]. by eexists _, _.
  - rewrite (proj2 (Z.eqb_neq (hold m) 1)) by lia. cbn [negb mbind result_bind].
    eexists _, _. split; [reflexivity|]. split; [apply put_body_ok, H|]. split_and!; try done.
    + rewrite Hv. by apply (has_mutex_put k o m).
    + exact (prio_of _ _ _ (mb_current _ _ H)).
Qed.

Lemma rt_mutex_release_spec_witness : exists k',
  rt_mutex_release mutex_demo 100 = Ok (k', RT_EOK) /\ prio k' 3 = 20 /\ current k' = 5.
Proof.
  destruct (rt_mutex_release_spec mutex_demo _ 100 (mk_mutex 1 0 20 1 3) mutex_demo_may)
    as (k' & e & E & _ & He & _); [by exists true|done|done|done|].
  cbn in He. subst e. exists k'. split; [exact E|]. vm_compute in E. injection E as <-. by split.
Defined.

(** *** Events *)
Import Event.

Definition has_event (k : kernel) (o : Z) (e : rt_event) : Prop :=
  exists st, objs k !! o = Some (mk_object st (O_event e)).

Lemma has_event_get k o e : has_event k o e -> get_event k o = Ok e.
Proof. intros [st E]. unfold get_event. by rewrite E. Qed.

Lemma has_event_put k o e e' s : has_event k o e -> has_event (put_set k o e' s) o (mk_event (event_flag e') s).
Proof. intros [st E]. exists st. by apply (has_body_put _ _ _ (O_event e)). Qed.

(** The events a thread that waits as [x] gets from the set [s]: what it waits
    for and is there, if that is all of it (AND) or some of it (OR). *)
Definition gets (x : rt_thread) (s : Z) : option Z :=
  let r := Z.land (event_set x) s in
  if Z.testbit (event_info x) 0 then (if r =? event_set x then Some r else None)
  else if Z.testbit (event_info x) 1 then (if r =? 0 then None else Some r)
  else None.

(** The set after a thread with options [info] received [r]. *)
Definition consumed (info s r : Z) : Z := if Z.testbit info 2 then Z.ldiff s r else s.

Lemma has_bit x i b : 0 <= i -> b = 2 ^ i -> Event.has x b = Z.testbit x i.
Proof.
  intros Hi ->. unfold Event.has. destruct (Z.testbit x i) eqn:E.
  - apply negb_true_iff, Z.eqb_neq. intros H. apply (f_equal (fun z => Z.testbit z i)) in H.
    rewrite Z.land_spec, Z.pow2_bits_true, E, Z.bits_0 in H by done. done.
  - apply negb_false_iff, Z.eqb_eq. apply Z.bits_inj'. intros j Hj.
    rewrite Z.land_spec, Z.bits_0, Z.pow2_bits_eqb by done.
    destruct (Z.eqb_spec i j) as [<-|]; [by rewrite E|apply andb_false_r].
Qed.

Lemma clear_bits s r : 0 <= s < 4294967296 -> Z.land s (u32 (Z.lnot r)) = Z.ldiff s r.
Proof.
  intros Hs. apply Z.bits_inj'. intros j Hj. rewrite Z.land_spec, Z.ldiff_spec. unfold u32.
  change 4294967296 with (2 ^ 32). destruct (Z.lt_ge_cases j 32) as [Hl|Hl].
  - rewrite Z.mod_pow2_bits_low by lia. by rewrite Z.lnot_spec.
  - rewrite Z.mod_pow2_bits_high by lia.
    assert (Z.testbit s j = false) as ->; [|done].
    destruct (Z.eq_dec s 0) as [->|]; [apply Z.bits_0|]. apply Z.bits_above_log2; [lia|].
    apply Z.log2_lt_pow2; [lia|]. apply (Z.lt_le_trans _ (2 ^ 32)); [apply Hs|].
    apply Z.pow_le_mono_r; lia.
Qed.

Lemma satisfied_spec x s : satisfied x s = (fun r => with_event x r (event_info x)) <$> gets x s.
Proof.
  unfold satisfied, gets. rewrite (has_bit _ 0), (has_bit _ 1) by done.
  destruct (Z.testbit (event_info x) 0).
  - destruct (Z.eqb_spec (Z.land (event_set x) s) (event_set x)) as [E|E]; [|done].
    cbn. rewrite E. by destruct x.
  - destruct (Z.testbit (event_info x) 1); [|done]. unfold Event.has.
    by destruct (Z.land (event_set x) s =? 0).
Qed.

(** Who is woken with which events, who is left, and the set that is left. *)
Fixpoint serve (th : gmap Z rt_thread) (s : Z) (l : list Z) : list (Z * Z) * list Z * Z :=
  match l with
  | [] => ([], [], s)
  | t :: l' =>
      match th !! t with
      | Some x =>
          match gets x s with
          | Some r => let '(w, rest, s') := serve th (consumed (event_info x) s r) l' in
                      ((t, r) :: w, rest, s')
          | None => let '(w, rest, s') := serve th s l' in (w, t :: rest, s')
          end
      | None => ([], t :: l', s)
      end
  end.

Lemma ldiff_range s r : 0 <= s < 4294967296 -> 0 <= Z.ldiff s r < 4294967296.
Proof. intros Hs. rewrite <- clear_bits by done. by apply group_and. Qed.

(** The loop of [rt_event_send] with the threads [pre] already passed over. *)
Lemma send_loop_ok n : wait_name n -> forall l k s need pre th,
  kernel_ok k -> lst k n = pre ++ l -> 0 <= s < 4294967296 ->
  (forall t, t ∈ l -> threads k !! t = th !! t) ->
  exists k' need', send_loop k s l need = Ok (k', (serve th s l).2, need') /\ kernel_ok k' /\
    lst k' n = pre ++ (serve th s l).1.2 /\ objs k' = objs k /\
    0 <= (serve th s l).2 < 4294967296 /\
    (forall t, t ∉ l -> threads k' !! t = threads k !! t) /\
    (forall t r, (t, r) ∈ (serve th s l).1.1 -> exists y, threads k' !! t = Some y /\ active y /\ event_set y = r).
Proof.
  intros Hn. induction l as [|t l IH]; intros k s need pre th K El Hs Hth.
  { exists k, need. cbn. split_and!; try done; [lia..|]. intros t r H. by apply elem_of_nil in H. }
  assert (Hin : t ∈ lst k n) by (rewrite El; apply elem_of_app; right; by left).
  destruct (waiting_suspended k n t K Hn Hin) as (x & Ex & Hx).
  assert (Et : th !! t = Some x) by (by rewrite <- Hth by by left).
  pose proof (si_nodup _ _ (ko_sched _ K) n) as Hnd. rewrite El in Hnd.
  apply NoDup_app in Hnd as (_ & Hpre & Hnd). apply NoDup_cons in Hnd as [Htl Hnd].
  assert (Htp : t ∉ pre) by (intros H; apply (Hpre t H); by left).
  cbn [send_loop serve]. rewrite (thread_at_Ok _ _ _ Ex). cbn [mbind result_bind].
  rewrite Et, satisfied_spec. destruct (gets x s) as [r|] eqn:Eg; cbn [fmap option_fmap option_map].
  2:{ destruct (IH k s need (pre ++ [t]) th K) as (k' & need' & E & K' & El' & Eo & Hs' & Hother & Hw);
        [by rewrite El, <- app_assoc|done|intros u Hu; apply Hth; by right|].
      rewrite E. exists k', need'. destruct (serve th s l) as [[w rest] s'] eqn:Es. cbn in *.
      split_and!; try done; [by rewrite El', <- app_assoc|lia..|].
      intros u Hu. apply Hother. intros Hul. apply Hu. by right. }
  set (y := with_event x r (event_info x)).
  assert (K1 : kernel_ok (put_thread k t y)) by by apply (relabel_ok k t x).
  change (event_info y) with (event_info x). change (event_set y) with r.
  replace (if Event.has (event_info x) RT_EVENT_FLAG_CLEAR then Z.land s (u32 (Z.lnot r)) else s)
    with (consumed (event_info x) s r)
    by (unfold consumed; rewrite (has_bit _ 2), clear_bits by done; done).
  destruct (resume_ok (put_thread k t y) t y K1) as (k2 & -> & Hr); [apply lookup_insert_eq|done|].
  cbn [mbind result_bind]. destruct Hr as (K2 & Et2 & _ & _ & _ & Eo2 & Hl2 & _).
  cbn [threads put_thread with_threads] in Et2. rewrite insert_insert_eq in Et2.
  assert (Hne : forall u, u <> t -> threads k2 !! u = threads k !! u).
  { intros u Hu. by rewrite Et2, lookup_insert_ne by by apply not_eq_sym. }
  assert (Eln : lst k2 n = pre ++ l).
  { rewrite Hl2. unfold woken_list. rewrite decide_False by by apply wait_not_ready.
    change (lst (put_thread k t y) n) with (lst k n). rewrite El, filter_app,
      filter_cons_False, (filter_absent t pre), (filter_absent t l) by first [done|intros H; by apply H].
    by destruct (_ =? _). }
  destruct (IH k2 (consumed (event_info x) s r) true pre th K2 Eln)
    as (k' & need' & E & K' & El' & Eo & Hs' & Hother & Hw).
  { unfold consumed. destruct (Z.testbit _ _); [by apply ldiff_range|done]. }
  { intros u Hu. rewrite Hne; [apply Hth; by right|]. by intros ->. }
  rewrite E. exists k', need'. destruct (serve th _ l) as [[w rest] s'] eqn:Es. cbn in *.
  split_and!; try done; [by rewrite Eo, Eo2|lia..| |].
  - intros u [Hut Hul]%not_elem_of_cons. rewrite Hother by done. by apply Hne.
  - intros u r' [[= -> ->]|Hu]%elem_of_cons; [|by apply Hw].
    exists (set_stat (woken (put_thread k t y) t) y). rewrite Hother, Et2 by done.
    split; [apply lookup_insert_eq|]. split; [apply woken_active|done].
Qed.

(** C27: [rt_event_send] adds the events to the set and serves the waiting
    threads in the order of the list: a thread that waits for all of its
    events (AND) or for one of them (OR) is woken with those that are there,
    which a waiter with CLEAR takes out of the set before the next thread is
    looked at; the others stay in the list in their order. *)
Theorem rt_event_send_spec k o e set :
  kernel_ok k -> has_event k o e -> 0 <= Kern.set e < 4294967296 -> 0 <= set < 4294967296 ->
  exists k' err, rt_event_send k o set = Ok (k', err) /\ kernel_ok k' /\
    if set =? 0 then err = - RT_ERROR /\ k' = k
    else let '(woken, kept, s) := serve (threads k) (Z.lor (Kern.set e) set) (lst k (L_wait o)) in
      err = RT_EOK /\ has_event k' o (mk_event (event_flag e) s) /\ lst k' (L_wait o) = kept /\
      forall t r, (t, r) ∈ woken -> exists y, threads k' !! t = Some y /\ active y /\ event_set y = r.
Proof.
  intros K He Hs Hset. unfold rt_event_send. rewrite (has_event_get k o e He). cbn [mbind result_bind].
  destruct (Z.eqb_spec set 0) as [E0|E0]; [by eexists _, _|].
  assert (Hwo : wait_name (L_wait o)) by (exists o; by left).
  assert (Hlor : 0 <= Z.lor (Kern.set e) set < 4294967296).
  { split; [apply Z.lor_nonneg; lia|]. change 4294967296 with (2 ^ 32).
    assert (0 < Z.lor (Kern.set e) set).
    { pose proof (proj2 (Z.lor_nonneg (Kern.set e) set) ltac:(lia)).
      enough (Z.lor (Kern.set e) set <> 0) by lia. intros Hz%Z.lor_eq_0_iff. lia. }
    apply Z.log2_lt_pow2; [done|]. rewrite Z.log2_lor by lia.
    assert (Z.log2 set < 32) by (apply Z.log2_lt_pow2; change (2 ^ 32) with 4294967296; lia).
    destruct (Z.eq_dec (Kern.set e) 0) as [->|]; [cbn; lia|].
    assert (Z.log2 (Kern.set e) < 32) by (apply Z.log2_lt_pow2; change (2 ^ 32) with 4294967296; lia). lia. }
  destruct (send_loop_ok _ Hwo (lst k (L_wait o)) k (Z.lor (Kern.set e) set) false [] (threads k) K)
    as (k1 & need & E & K1 & El & Eo & _ & _ & Hw); [done|done|done|].
  rewrite E. cbn [mbind result_bind]. destruct (serve _ _ _) as [[w rest] s'] eqn:Es. cbn in El, Hw.
  set (k2 := put_set k1 o e _).
  assert (K2 : kernel_ok k2) by by apply put_body_ok.
  assert (He2 : has_event k2 o (mk_event (event_flag e) s')).
  { apply (has_event_put k1 o e). destruct He as [st Est]. exists st. by rewrite Eo. }
  destruct need; cbn [mbind result_bind].
  - destruct (schedule_waits k2 K2) as (k' & -> & K' & Hk & He' & Hl). cbn [mbind result_bind].
    eexists _, _. split; [reflexivity|]. split; [done|]. split_and!; try done.
    + destruct He2 as [st Est]. exists st. by rewrite (proj2 (proj2 (proj2 He'))).
    + by rewrite Hl.
    + intros t r Htr. destruct (Hw t r Htr) as (y & Ey & Ha & Hy). specialize (Hk t).
      change (threads k2) with (threads k1) in Hk. rewrite Ey in Hk. destruct Hk as (z & Ez & Hz & Hst).
      exists z. split_and!; [done| |by rewrite Hz]. by destruct Hst as [->|[_ ?]].
  - eexists _, _. split; [reflexivity|]. by split_and!.
Qed.

(** Thread 5 waits for any of the events 3 and takes what it gets. *)
Definition event_demo : kernel :=
  with_objs (put_thread KernThms.demo 5 (with_event (KernThms.demo_thread RT_THREAD_SUSPEND 5 20) 3 6))
    (<[100 := mk_object true (O_event (mk_event 0 0))]> ∅).

Lemma event_demo_ok : kernel_ok event_demo.
Proof.
  pose proof (relabel_ok KernThms.demo 5 (KernThms.demo_thread RT_THREAD_SUSPEND 5 20)
    (with_event (KernThms.demo_thread RT_THREAD_SUSPEND 5 20) 3 6) KernThms.demo_ok
    eq_refl eq_refl eq_refl eq_refl eq_refl) as K.
  constructor; [constructor|..]; apply K.
Qed.

Lemma rt_event_send_spec_witness : exists k', rt_event_send event_demo 100 9 = Ok (k', RT_EOK) /\
  has_event k' 100 (mk_event 0 8) /\ lst k' (L_wait 100) = [] /\ current k' = 5.
Proof.
  destruct (rt_event_send_spec event_demo 100 (mk_event 0 0) 9 event_demo_ok)
    as (k' & err & E & _ & He & Hs & Hl & _); [by exists true|done|done|].
  subst err. exists k'. split_and!; [exact E|exact Hs|exact Hl|].
  vm_compute in E. by injection E as <-.
Defined.

(** [rt_event_recv] gets at once exactly what a thread that waited with the
    same options would be woken with, and takes it out of the set when CLEAR is
    given; otherwise it fails or waits, with what it waits for in the thread. *)
Theorem rt_event_recv_spec k c o e set option timeout :
  may_block k c -> has_event k o e -> 0 <= Kern.set e < 4294967296 ->
  ipc_flag (event_flag e) -> timeout < TimerOps.TICK_HALF ->
  Z.testbit option 0 = true \/ Z.testbit option 1 = true ->
  exists k' r v, rt_event_recv k o set option timeout = Ok (k', r, v) /\ kernel_ok k' /\
    if set =? 0 then r = Ret (- RT_ERROR) /\ v = None /\ k' = k
    else match gets (with_event c set option) (Kern.set e) with
      | Some got => r = Ret RT_EOK /\ v = Some got /\ current k' = current k /\
          has_event k' o (mk_event (event_flag e) (consumed option (Kern.set e) got))
      | None => v = None /\ has_event k' o e /\
          if timeout =? 0 then r = Ret (- RT_ETIMEOUT) /\ current k' = current k
          else r = Blocked tt /\ current k' <> current k /\ current k ∈ lst k' (L_wait o) /\
            exists y, threads k' !! current k = Some y /\ error y = RT_EOK /\
              event_set y = set /\ event_info y = option
      end.
Proof.
  intros H He Hs Hf Ht Hopt. pose proof (set_error_may k c RT_EOK H) as H1.
  unfold rt_event_recv. rewrite (may_block_context k c H). cbn [mbind result_bind].
  rewrite (has_event_get k o e He). cbn [mbind result_bind].
  destruct (Z.eqb_spec set 0) as [E0|E0].
  { eexists _, _, _. split; [reflexivity|]. split; [apply H|done]. }
  rewrite (set_error_Ok k c _ H). cbn [mbind result_bind].
  set (c1 := with_error c RT_EOK) in *. set (k1 := put_thread _ _ _) in *.
  assert (He1 : has_event k1 o e) by exact He.
  assert (Hrec : received (Kern.set e) set option =
    Ok (match gets (with_event c set option) (Kern.set e) with Some _ => true | None => false end) /\
    forall got, gets (with_event c set option) (Kern.set e) = Some got -> got = Z.land (Kern.set e) set).
  { unfold received, gets. cbn [event_info event_set with_event]. rewrite (has_bit _ 0), (has_bit _ 1) by done.
    rewrite (Z.land_comm set). unfold Event.has.
    destruct (Z.testbit option 0).
    - destruct (_ =? set); split; try done. by intros got [= <-].
    - destruct (Z.testbit option 1); [|by destruct Hopt].
      destruct (_ =? 0); split; try done. by intros got [= <-]. }
  destruct Hrec as [-> Hgot]. cbn [mbind result_bind].
  destruct (gets _ _) as [got|] eqn:Eg.
  { specialize (Hgot got eq_refl). subst got. eexists _, _, _. split; [reflexivity|].
    rewrite (has_bit _ 2) by done. unfold consumed. destruct (Z.testbit option 2).
    - split; [apply put_body_ok, H1|]. split_and!; try done. rewrite clear_bits by done.
      replace (Z.ldiff (Kern.set e) (Z.land (Kern.set e) set)) with (Z.ldiff (Kern.set e) set).
      + by apply (has_event_put k1 o e).
      + apply Z.bits_inj'. intros j _. rewrite !Z.ldiff_spec, Z.land_spec. by destruct (Z.testbit (Kern.set e) j), (Z.testbit set j).
    - split; [apply H1|]. split_and!; try done. by destruct e. }
  destruct (Z.eqb_spec timeout 0) as [Ez|Ez].
  { rewrite (set_error_Ok k1 c1 _ H1). cbn [mbind result_bind].
    eexists _, _, _. split; [reflexivity|]. split; [apply (set_error_may k1 c1 _ H1)|]. by split_and!. }
  rewrite (upd_thread_Ok k1 (current k1) c1) by apply H1. cbn [mbind result_bind].
  set (c2 := with_event c1 set option). set (k2 := put_thread k1 _ c2).
  assert (H2 : may_block k2 c2).
  { constructor; try apply H1; [|apply lookup_insert_eq]. apply (relabel_ok k1 _ c1); [apply H1|apply H1|done..]. }
  destruct (wait_on_may k2 c2 (L_wait o) (event_flag e) timeout H2)
    as (k' & E & (K' & Hne & Eo & (y & Ey & _ & _ & He' & Hys & Hyi) & (l1 & l2 & _ & El' & _) & _));
    [exists o; by left|done|done|]. change (rt_thread_self k1) with (current k1). fold c2. fold k2. rewrite E.
  cbn [mbind result_bind]. eexists _, _, _. split; [reflexivity|]. split; [done|]. split_and!; try done.
  - destruct He as [st Est]. exists st. by rewrite Eo.
  - rewrite El'. apply elem_of_app. right. by left.
  - exists y. by split_and!.
Qed.

Lemma rt_event_recv_spec_witness : exists k',
  rt_event_recv (put_set sem_demo 100 (mk_event 0 0) 7) 100 5 5 10 = Ok (k', Ret RT_EOK, Some 5) /\
  has_event k' 100 (mk_event 0 2).
Proof.
  destruct (rt_event_recv_spec (put_set sem_demo 100 (mk_event 0 0) 7)
    (KernThms.demo_thread RT_THREAD_RUNNING 10 1) 100 (mk_event 0 7) 5 5 10)
    as (k' & r & v & E & _ & -> & -> & _ & He);
    [|by exists true|done|by left|reflexivity|by left|].
  - constructor; try done. apply put_body_ok, sem_demo_ok.
  - exists k'. split; [exact E|exact He].
Defined.

(** *** Mailboxes *)
Import Mailbox.

Definition has_mb (k : kernel) (o : Z) (b : rt_mailbox) : Prop :=
  exists st, objs k !! o = Some (mk_object st (O_mailbox b)).

Lemma has_mb_get k o b : has_mb k o b -> get_mb k o = Ok b.
Proof. intros [st E]. unfold get_mb. by rewrite E. Qed.

Lemma has_mb_put k o b b' : has_mb k o b -> has_mb (put_mb k o b') o b'.
Proof. intros [st E]. exists st. by apply (has_body_put _ _ _ (O_mailbox b)). Qed.

(** A consistent mailbox and the mails in it, oldest first. *)
Record mb_ok (b : rt_mailbox) : Prop := {
  mo_size : 0 < mb_size b < 65536;
  mo_pool : mb_size b <= zlen (mb_msg_pool b);
  mo_entry : 0 <= mb_entry b <= mb_size b;
  mo_out : 0 <= out_offset b < mb_size b;
  mo_in : in_offset b = (out_offset b + mb_entry b) mod mb_size b
}.

Definition slot (b : rt_mailbox) (i : nat) : Z :=
  default 0 (mb_msg_pool b !! Z.to_nat ((out_offset b + Z.of_nat i) mod mb_size b)).

Definition mails (b : rt_mailbox) : list Z := map (slot b) (seq 0 (Z.to_nat (mb_entry b))).

Lemma next_offset_mod off size : 0 <= off < size -> size < 65536 ->
  next_offset off size = (off + 1) mod size.
Proof.
  intros Ho Hs. unfold next_offset. rewrite u16_small by lia. cbv zeta.
  destruct (Z.leb_spec size (off + 1)).
  - replace (off + 1) with size by lia. by rewrite Z.mod_same by lia.
  - by rewrite Z.mod_small by lia.
Qed.

Lemma mod_offset_ne o i n size : 0 < size -> 0 <= i -> i < n -> n < size ->
  (o + i) mod size <> (o + n) mod size.
Proof.
  intros Hs Hi Hin Hn E.
  pose proof (Z.div_mod (o + i) size ltac:(lia)) as E1. pose proof (Z.div_mod (o + n) size ltac:(lia)) as E2.
  assert (n - i = size * ((o + n) / size - (o + i) / size)) by lia.
  assert ((o + n) / size - (o + i) / size <> 0) by lia. nia.
Qed.

Lemma mb_put_spec b v : mb_ok b -> mb_entry b < mb_size b ->
  exists b', mb_put b v = Ok b' /\ mb_ok b' /\ mails b' = mails b ++ [v] /\ mb_flag b' = mb_flag b.
Proof.
  intros B Hf. pose proof (mo_size _ B) as Hs. pose proof (mo_pool _ B) as Hp.
  pose proof (mo_entry _ B) as He. pose proof (mo_out _ B) as Ho. pose proof (mo_in _ B) as Hin.
  pose proof (Z.mod_pos_bound (out_offset b + mb_entry b) (mb_size b) ltac:(lia)) as Hr.
  unfold mb_put. rewrite zset_Ok by lia. cbn [mbind result_bind].
  eexists. split; [reflexivity|]. rewrite u16_small by lia.
  rewrite next_offset_mod by lia. split; [|split; [|done]].
  - constructor; cbn; try lia; [|rewrite Hin].
    + unfold zlen in *. by rewrite length_insert.
    + rewrite Zplus_mod_idemp_l. f_equal. lia.
  - unfold mails. cbn [mb_entry]. replace (Z.to_nat (mb_entry b + 1)) with (S (Z.to_nat (mb_entry b))) by lia.
    rewrite seq_S, map_app. cbn [map Nat.add]. f_equal.
    + apply map_ext_in. intros i Hi%in_seq. unfold slot. cbn. f_equal.
      apply list_lookup_insert_ne. rewrite Hin.
      pose proof (Z.mod_pos_bound (out_offset b + Z.of_nat i) (mb_size b) ltac:(lia)).
      pose proof (mod_offset_ne (out_offset b) (Z.of_nat i) (mb_entry b) (mb_size b)). lia.
    + unfold slot. cbn. rewrite Z2Nat.id, <- Hin by lia. rewrite list_lookup_insert_eq; [done|].
      unfold zlen in *. lia.
Qed.

Lemma mb_get_spec b : mb_ok b -> 0 < mb_entry b ->
  exists b' v, mb_get b = Ok (b', v) /\ mb_ok b' /\ mails b = v :: mails b' /\ mb_flag b' = mb_flag b.
Proof.
  intros B Hf. pose proof (mo_size _ B) as Hs. pose proof (mo_pool _ B) as Hp.
  pose proof (mo_entry _ B) as He. pose proof (mo_out _ B) as Ho. pose proof (mo_in _ B) as Hin.
  destruct (lookup_lt_is_Some_2 (mb_msg_pool b) (Z.to_nat (out_offset b))) as [v Ev]; [unfold zlen in *; lia|].
  unfold mb_get. rewrite (zget_Ok _ _ v) by (done || lia). cbn [mbind result_bind].
  eexists _, v. split; [reflexivity|]. rewrite u16_small, next_offset_mod by lia.
  pose proof (Z.mod_pos_bound (out_offset b + 1) (mb_size b) ltac:(lia)) as Hr.
  split; [|split; [|done]].
  - constructor; cbn; try lia. rewrite Zplus_mod_idemp_l, Hin. f_equal. lia.
  - unfold mails. cbn [mb_entry].
    replace (Z.to_nat (mb_entry b)) with (S (Z.to_nat (mb_entry b - 1))) by lia.
    cbn [seq map]. f_equal.
    + unfold slot. rewrite Z.add_0_r, Z.mod_small by lia. by rewrite Ev.
    + rewrite <- seq_shift, map_map. apply map_ext. intros i. unfold slot. cbn [mb_msg_pool out_offset mb_size].
      do 3 f_equal. rewrite Zplus_mod_idemp_l. f_equal. lia.
Qed.

(** Waking the other side after the mailbox changed. *)
Lemma wake_other_ok k n : kernel_ok k -> wait_name n ->
  exists k', wake_other k n = Ok k' /\ kernel_ok k' /\ objs k' = objs k /\
    lst k' n = tail (lst k n) /\ forall m, wait_name m -> m <> n -> lst k' m = lst k m.
Proof.
  intros K Hn. unfold wake_other. destruct (lst k n) as [|t l] eqn:El.
  - exists k. by split_and!.
  - destruct (resume_schedule_ok k n t l K Hn El) as (k' & x & y & -> & K' & Eo & Hl & Hm & _).
    exists k'. by split_and!.
Qed.

(** C14: a mailbox is a bounded FIFO queue.  A send to a box with room puts the
    mail behind the others and wakes the first waiting receiver; to a full one
    it fails or makes the sender wait in the list of senders.  A receive takes
    the oldest mail and wakes the first waiting sender; from an empty box it
    fails or waits. *)
Theorem rt_mb_fifo k c o b value timeout :
  may_block k c -> has_mb k o b -> mb_ok b -> ipc_flag (mb_flag b) -> timeout < TimerOps.TICK_HALF ->
  (exists k' r, rt_mb_send_wait k o value timeout = Ok (k', r) /\ kernel_ok k' /\
     if mb_entry b =? mb_size b then has_mb k' o b /\
       if timeout =? 0 then r = Ret (- RT_EFULL) /\ k' = k
       else current k' <> current k /\ current k ∈ lst k' (L_send o) /\
         r = Blocked (timeout, if 0 <? timeout then TimerOps.rt_tick (tst k) else 0)
     else r = Ret RT_EOK /\ lst k' (L_wait o) = tail (lst k (L_wait o)) /\
       exists b', has_mb k' o b' /\ mb_ok b' /\ mails b' = mails b ++ [value]) /\
  (exists k' r v, rt_mb_recv k o timeout = Ok (k', r, v) /\ kernel_ok k' /\
     if mb_entry b =? 0 then has_mb k' o b /\ v = None /\
       if timeout =? 0 then r = Ret (- RT_ETIMEOUT) /\ k' = k
       else current k' <> current k /\ current k ∈ lst k' (L_wait o) /\
         r = Blocked (timeout, if 0 <? timeout then TimerOps.rt_tick (tst k) else 0)
     else r = Ret RT_EOK /\ lst k' (L_send o) = tail (lst k (L_send o)) /\
       exists b' mail, v = Some mail /\ has_mb k' o b' /\ mb_ok b' /\ mails b = mail :: mails b').
Proof.
  intros H Hb B Hf Ht. pose proof (mb_kernel _ _ H) as K. pose proof (set_error_may k c RT_EOK H) as H1.
  pose proof (mo_entry _ B) as He.
  assert (Hw : wait_name (L_wait o)) by (exists o; by left).
  assert (Hs : wait_name (L_send o)) by (exists o; by right).
  assert (Hblock : forall n, wait_name n -> exists k',
    wait_on (put_thread k (current k) (with_error c RT_EOK)) n (mb_flag b) timeout = Ok k' /\ kernel_ok k' /\
    has_mb k' o b /\ current k' <> current k /\ current k ∈ lst k' n).
  { intros n Hn. destruct (wait_on_may _ _ n (mb_flag b) timeout H1 Hn Hf Ht)
      as (k' & E & (K' & Hne & Eo & _ & (l1 & l2 & _ & El & _) & _)).
    exists k'. split_and!; try done; [destruct Hb as [st Est]; exists st; by rewrite Eo|].
    rewrite El. apply elem_of_app. right. by left. }
  split.
  - unfold rt_mb_send_wait. rewrite (has_mb_get k o b Hb). cbn [mbind result_bind].
    destruct (Z.eqb_spec (mb_entry b) (mb_size b)) as [E|E]; cbn [andb].
    + destruct (Z.eqb_spec timeout 0) as [Ez|Ez]; [by eexists k, _|].
      unfold mb_send_turn. rewrite (has_mb_get k o b Hb). cbn [mbind result_bind].
      rewrite E, Z.eqb_refl, (set_error_Ok k c _ H). cbn [mbind result_bind].
      rewrite (proj2 (Z.eqb_neq timeout 0)) by done.
      rewrite (may_block_context _ _ H1). cbn [mbind result_bind].
      destruct (Hblock _ Hs) as (k' & -> & K' & Hb' & Hne & Hin). cbn [mbind result_bind].
      by eexists _, _.
    + unfold mb_send_turn. rewrite (has_mb_get k o b Hb). cbn [mbind result_bind].
      rewrite (proj2 (Z.eqb_neq (mb_entry b) _)) by done.
      destruct (mb_put_spec b value B) as (b' & -> & B' & Em & _); [lia|]. cbn [mbind result_bind].
      destruct (wake_other_ok (put_mb k o b') (L_wait o)) as (k' & -> & K' & Eo & Hl & _);
        [by apply put_body_ok|done|]. cbn [mbind result_bind].
      eexists _, _. split; [reflexivity|]. split_and!; try done. exists b'. split_and!; try done.
      destruct (has_mb_put k o b b' Hb) as [st Est]. exists st. by rewrite Eo.
  - unfold rt_mb_recv. rewrite (has_mb_get k o b Hb). cbn [mbind result_bind].
    destruct (Z.eqb_spec (mb_entry b) 0) as [E|E]; cbn [andb].
    + destruct (Z.eqb_spec timeout 0) as [Ez|Ez]; [by eexists k, _, _|].
      unfold mb_recv_turn. rewrite (has_mb_get k o b Hb). cbn [mbind result_bind].
      rewrite E. change (0 =? 0) with true. cbv iota. rewrite (set_error_Ok k c _ H). cbn [mbind result_bind].
      rewrite (proj2 (Z.eqb_neq timeout 0)) by done.
      rewrite (may_block_context _ _ H1). cbn [mbind result_bind].
      destruct (Hblock _ Hw) as (k' & -> & K' & Hb' & Hne & Hin). cbn [mbind result_bind].
      by eexists _, _, _.
    + unfold mb_recv_turn. rewrite (has_mb_get k o b Hb). cbn [mbind result_bind].
      rewrite (proj2 (Z.eqb_neq (mb_entry b) _)) by done.
      destruct (mb_get_spec b B) as (b' & v & -> & B' & Em & _); [lia|]. cbn [mbind result_bind].
      destruct (wake_other_ok (put_mb k o b') (L_send o)) as (k' & -> & K' & Eo & Hl & _);
        [by apply put_body_ok|done|]. cbn [mbind result_bind].
      eexists _, _, _. split; [reflexivity|]. split_and!; try done. exists b', v. split_and!; try done.
      destruct (has_mb_put k o b b' Hb) as [st Est]. exists st. by rewrite Eo.
Qed.

(** Mailbox 100 with one mail, 7, in the second of its two slots. *)
Definition mb_demo : kernel :=
  with_objs KernThms.demo (<[100 := mk_object true (O_mailbox (mk_mailbox 0 [0; 7] 2 1 0 1))]> ∅).

Lemma mb_demo_may : may_block mb_demo (KernThms.demo_thread RT_THREAD_RUNNING 10 1).
Proof. constructor; try done. pose proof KernThms.demo_ok as K. constructor; [constructor|..]; apply K. Qed.

Lemma rt_mb_fifo_witness : exists k' b', rt_mb_send_wait mb_demo 100 9 0 = Ok (k', Ret RT_EOK) /\
  has_mb k' 100 b' /\ mails b' = [7; 9].
Proof.
  destruct (rt_mb_fifo mb_demo _ 100 (mk_mailbox 0 [0; 7] 2 1 0 1) 9 0 mb_demo_may)
    as [(k' & r & E & _ & -> & _ & b' & Hb & _ & Em) _]; [by exists true| |by left|reflexivity|].
  - constructor; cbn; try lia; done.
  - exists k', b'. split_and!; [exact E|exact Hb|exact Em].
Defined.

End IpcThms.
