(* ===== verification/MqThms.v ===== *)
(** * Message queues under interleaving

    A send or receive of ipc.c enters two critical sections and copies the
    message between them with interrupts enabled, so that the sections of
    different threads interleave.  [MqSys] is that interleaving: the blocks
    that are out of the queue are in flight, in the hands of one thread each;
    [MqThms] shows that no order of the sections loses a block or a message. *)
From S2P Require Import Prelude CTypes KService Timer Kernel Ipc.
From stdpp Require Import base list gmap.
From Stdlib Require Import ZArith Lia.
Open Scope Z_scope.

Module MqSys.
Import Kern MqCore.

(** What the thread that holds a block did with it. *)
Inductive flight : Type :=
  | F_taken
  | F_filled (buffer : list Z)
  | F_filled_first (buffer : list Z)
  | F_received (buffer : list Z).

(** The queue, the blocks in flight and the messages sent and not received. *)
Record sys : Type := mk_sys {
  mq : rt_messagequeue;
  flights : gmap Z flight;
  queue : list (list Z)
}.

(** The critical sections and copies of [rt_mq_send_wait], [rt_mq_urgent],
    [rt_mq_recv] and [rt_mq_control]. *)
Inductive mop : Type :=
  | M_take
  | M_fill (msg : Z) (buffer : list Z)
  | M_fill_first (msg : Z) (buffer : list Z)
  | M_link (msg : Z)
  | M_link_first (msg : Z)
  | M_unlink
  | M_put_free (msg : Z)
  | M_reset.

Definition run_mop (o : mop) (s : sys) : result sys :=
  let q := mq s in
  let fl := flights s in
  match o with
  | M_take => '(q, m) ← mq_take_free q; Ok (mk_sys q (<[m := F_taken]> fl) (queue s))
  | M_fill m b => q ← mq_fill q m b; Ok (mk_sys q (<[m := F_filled b]> fl) (queue s))
  | M_fill_first m b => q ← mq_write q m b; Ok (mk_sys q (<[m := F_filled_first b]> fl) (queue s))
  | M_link m =>
      match fl !! m with
      | Some (F_filled b) => Ok (mk_sys (mq_link q m) (delete m fl) (queue s ++ [b]))
      | _ => Err F_wild
      end
  | M_link_first m =>
      match fl !! m with
      | Some (F_filled_first b) => Ok (mk_sys (mq_link_first q m) (delete m fl) (b :: queue s))
      | _ => Err F_wild
      end
  | M_unlink =>
      '(q, m) ← mq_unlink q;
      match queue s with
      | b :: r => Ok (mk_sys q (<[m := F_received b]> fl) r)
      | [] => Err F_wild
      end
  | M_put_free m => Ok (mk_sys (mq_put_free q m) (delete m fl) (queue s))
  | M_reset =>
      q ← mq_flush (size (mq_next q)) q;
      Ok (mk_sys (with_queue q (mq_next q) 0 (msg_queue_head q) (msg_queue_tail q)) fl [])
  end.

(** The tests of the code, and each thread going on with its own block. *)
Definition enabled (s : sys) (o : mop) : Prop :=
  match o with
  | M_take => msg_queue_free (mq s) <> 0
  | M_fill m b | M_fill_first m b => flights s !! m = Some F_taken /\ zlen b <= msg_size (mq s)
  | M_link m => exists b, flights s !! m = Some (F_filled b)
  | M_link_first m => exists b, flights s !! m = Some (F_filled_first b)
  | M_unlink => mq_entry (mq s) <> 0
  | M_put_free m => exists b, flights s !! m = Some (F_received b)
  | M_reset => True
  end.

Inductive reaches : sys -> sys -> Prop :=
  | reaches_refl s : reaches s s
  | reaches_step s o s1 s2 : reaches s s1 -> enabled s1 o -> run_mop o s1 = Ok s2 -> reaches s s2.

(** The blocks of a list linked from [h]. *)
Fixpoint chain (nx : gmap Z Z) (h : Z) (l : list Z) : Prop :=
  match l with
  | [] => h = 0
  | m :: l' => h = m /\ m <> 0 /\ exists n, nx !! m = Some n /\ chain nx n l'
  end.

(** Block [m] holds a message that starts with [b]. *)
Definition holds (q : rt_messagequeue) (m : Z) (b : list Z) : Prop :=
  exists d, mq_data q !! m = Some d /\ take (length b) d = b.

(** With [l] the blocks of the queue and [f] those of the free list. *)
Record mq_inv (s : sys) (l f : list Z) : Prop := {
  mi_queue : chain (mq_next (mq s)) (msg_queue_head (mq s)) l;
  mi_tail : msg_queue_tail (mq s) = default 0 (last l);
  mi_free : chain (mq_next (mq s)) (msg_queue_free (mq s)) f;
  mi_nodup : NoDup (l ++ f);
  mi_apart : forall m, m ∈ l ++ f -> flights s !! m = None;
  mi_total : Z.of_nat (length l + length f + size (flights s)) = max_msgs (mq s);
  mi_max : max_msgs (mq s) < 65536;
  mi_entry : mq_entry (mq s) = Z.of_nat (length l);
  mi_size : forall m d, mq_data (mq s) !! m = Some d -> zlen d = msg_size (mq s);
  mi_known : forall m, m ∈ l ++ f \/ is_Some (flights s !! m) ->
    m <> 0 /\ is_Some (mq_data (mq s) !! m) /\ is_Some (mq_next (mq s) !! m);
  mi_held : Forall2 (holds (mq s)) l (queue s);
  mi_flights : forall m, match flights s !! m with
    | Some (F_filled b) => holds (mq s) m b /\ mq_next (mq s) !! m = Some 0
    | Some (F_filled_first b) | Some (F_received b) => holds (mq s) m b
    | _ => True
    end
}.

(** *** Chains *)

Lemma chain_insert nx h l m n : m ∉ l -> chain nx h l -> chain (<[m := n]> nx) h l.
Proof.
  revert h. induction l as [|x l IH]; intros h Hm; cbn; [done|].
  apply not_elem_of_cons in Hm as [Hmx Hm]. intros (-> & Hx & n' & En & Hc).
  split_and!; try done. exists n'. rewrite lookup_insert_ne by done. split; [done|]. by apply IH.
Qed.

Lemma chain_snoc nx h l m : m ∉ l -> m <> 0 -> NoDup l -> nx !! m = Some 0 -> chain nx h l ->
  chain (if default 0 (last l) =? 0 then nx else <[default 0 (last l) := m]> nx)
        (if h =? 0 then m else h) (l ++ [m]).
Proof.
  revert h. induction l as [|x l IH]; intros h Hm Hm0 Hnd Em; cbn.
  - intros ->. cbn. split_and!; try done. by exists 0.
  - apply not_elem_of_cons in Hm as [Hmx Hm]. apply NoDup_cons in Hnd as [Hxl Hnd].
    intros (-> & Hx & n & En & Hc). rewrite (proj2 (Z.eqb_neq x 0)) by done.
    split_and!; try done. destruct l as [|y l].
    + cbn in Hc |- *. subst n. rewrite (proj2 (Z.eqb_neq x 0)) by done. exists m.
      rewrite lookup_insert_eq. split; [done|]. split_and!; try done. exists 0.
      by rewrite lookup_insert_ne by by apply not_eq_sym.
    + specialize (IH n Hm Hm0 Hnd Em Hc).
      assert (Hlast : last (x :: y :: l) = last (y :: l)) by done. rewrite Hlast.
      destruct Hc as (-> & Hy & Hc). rewrite (proj2 (Z.eqb_neq y 0)) in IH by done.
      exists y. split; [|exact IH]. destruct (default 0 (last (y :: l)) =? 0); [done|].
      rewrite lookup_insert_ne; [done|]. intros E. apply Hxl. rewrite <- E.
      destruct (last (y :: l)) as [z|] eqn:Ez; [|by apply last_None in Ez].
      apply last_Some in Ez as [l' Ez]. rewrite Ez. apply elem_of_app. right. by left.
Qed.

Lemma chain_head nx h l : chain nx h l -> h <> 0 ->
  exists l', l = h :: l' /\ exists n, nx !! h = Some n /\ chain nx n l'.
Proof. destruct l as [|m l]; cbn; [done|]. intros (-> & _ & H) _. by exists l. Qed.

Lemma chain_nil nx l : chain nx 0 l -> l = [].
Proof. destruct l; [done|]. by intros (<- & ? & _). Qed.

Lemma chain_nonnull nx h l m : chain nx h l -> m ∈ l -> m <> 0.
Proof.
  revert h. induction l as [|x l IH]; intros h; [intros _ H; by apply elem_of_nil in H|].
  intros (_ & Hx & n & _ & Hc) [->|Hm]%elem_of_cons; [done|by apply (IH n)].
Qed.

Lemma chain_known nx h l m : chain nx h l -> m ∈ l -> is_Some (nx !! m).
Proof.
  revert h. induction l as [|x l IH]; intros h; [intros _ H; by apply elem_of_nil in H|].
  intros (_ & Hx & n & En & Hc) [->|Hm]%elem_of_cons; [by exists n|by apply (IH n)].
Qed.

(** *** The free list of a new queue *)

Lemma init_blocks_chain n : forall head step nx free f, 0 < head -> 0 < step ->
  chain nx free f -> NoDup f -> (forall m, m ∈ f -> m < head) ->
  exists f', chain (init_blocks n head step nx free).1 (init_blocks n head step nx free).2 f' /\
    NoDup f' /\ length f' = (length f + n)%nat /\
    (forall m, m ∈ f' -> m ∈ f \/ exists i, (i < n)%nat /\ m = head + Z.of_nat i * step).
Proof.
  induction n as [|n IH]; intros head step nx free f Hh Hs Hc Hnd Hlt; cbn [init_blocks].
  - exists f. split; [exact Hc|]. split; [done|]. split; [lia|]. intros m Hm. by left.
  - assert (Hno : head ∉ f) by (intros Hin; specialize (Hlt _ Hin); lia).
    destruct (IH (head + step) step (<[head := free]> nx) head (head :: f)) as (f' & Hc' & Hnd' & Hl & Hin);
      try lia.
    + cbn. split_and!; [done|lia|]. exists free. rewrite lookup_insert_eq. split; [done|].
      by apply chain_insert.
    + by constructor.
    + intros m [->|Hm]%elem_of_cons; [lia|]. specialize (Hlt m Hm). lia.
    + exists f'. split_and!; try done; [rewrite Hl; cbn; lia|]. intros m Hm.
      destruct (Hin m Hm) as [[->|Hf]%elem_of_cons|(i & Hi & ->)]; [right; exists 0%nat; lia|by left|].
      right. exists (S i). lia.
Qed.

(** A pool of [max] blocks with room for [msg_sz] bytes each. *)
Definition pool_ok (pool msg_sz max : Z) (bytes : gmap Z (list Z)) : Prop :=
  0 < pool /\ 0 <= msg_sz /\ 0 <= max < 65536 /\
  (forall m d, bytes !! m = Some d -> zlen d = msg_sz) /\
  (forall i, 0 <= i < max -> is_Some (bytes !! (pool + i * (msg_sz + 4)))).

Lemma mq_make_inv flag pool msg_sz max bytes : pool_ok pool msg_sz max bytes ->
  exists f, mq_inv (mk_sys (mq_make flag pool msg_sz max bytes) ∅ []) [] f.
Proof.
  intros (Hp & Hs & Hm & Hsize & Hbytes). unfold mq_make.
  destruct (init_blocks_chain (Z.to_nat max) pool (msg_sz + 4) ∅ 0 [] Hp ltac:(lia) eq_refl (NoDup_nil_2))
    as (f & Hc & Hnd & Hl & Hin); [intros m H; by apply elem_of_nil in H|].
  destruct (init_blocks _ _ _ _ _) as [nx free]. cbn in Hc. exists f. constructor; cbn; try done.
  - rewrite Hl, map_size_empty. cbn. lia.
  - lia.
  - intros m [Hf|[? Hx]]; [|by rewrite lookup_empty in Hx]. split; [by apply (chain_nonnull nx free f)|].
    split; [|by apply (chain_known nx free f)].
    destruct (Hin m Hf) as [H|(i & Hi & ->)]; [by apply elem_of_nil in H|]. apply Hbytes. lia.
Qed.

(** *** The steps *)

Lemma inv_in_flight s l f m x : mq_inv s l f -> flights s !! m = Some x -> m ∉ l ++ f.
Proof. intros I E Hm. by rewrite (mi_apart _ _ _ I m Hm) in E. Qed.

Lemma holds_ext q q' m b : mq_data q' !! m = mq_data q !! m -> holds q m b -> holds q' m b.
Proof. intros E (d & Ed & Hd). exists d. by rewrite E. Qed.

Lemma held_ext q q' l k : mq_data q' = mq_data q -> Forall2 (holds q) l k -> Forall2 (holds q') l k.
Proof. intros E H. eapply Forall2_impl; [exact H|]. intros m b. apply holds_ext. by rewrite E. Qed.

Lemma size_insert_new (fl : gmap Z flight) m x : fl !! m = None -> size (<[m := x]> fl) = S (size fl).
Proof. intros E. by rewrite map_size_insert, E. Qed.

Lemma size_insert_old (fl : gmap Z flight) m x y : fl !! m = Some y -> size (<[m := x]> fl) = size fl.
Proof. intros E. by rewrite map_size_insert, E. Qed.

Lemma size_delete_old (fl : gmap Z flight) m y : fl !! m = Some y -> S (size (delete m fl)) = size fl.
Proof.
  intros E. rewrite map_size_delete, E. cbn. assert (size fl <> 0%nat); [|lia].
  intros H. apply map_size_empty_iff in H. by rewrite H, lookup_empty in E.
Qed.

Lemma Forall2_impl_in {A B} (P Q : A -> B -> Prop) l k :
  Forall2 P l k -> (forall x y, x ∈ l -> P x y -> Q x y) -> Forall2 Q l k.
Proof.
  induction 1 as [|x y l k Hxy _ IH]; intros H; constructor.
  - apply H; [by left|done].
  - apply IH. intros u v Hu. apply H. by right.
Qed.

(** Other blocks in flight do not notice. *)
Lemma flights_insert s q m x :
  (forall m, match flights s !! m with
    | Some (F_filled b) => holds (mq s) m b /\ mq_next (mq s) !! m = Some 0
    | Some (F_filled_first b) | Some (F_received b) => holds (mq s) m b
    | _ => True end) ->
  (forall u, u <> m -> is_Some (flights s !! u) ->
     mq_data q !! u = mq_data (mq s) !! u /\ mq_next q !! u = mq_next (mq s) !! u) ->
  match x with
  | F_filled b => holds q m b /\ mq_next q !! m = Some 0
  | F_filled_first b | F_received b => holds q m b
  | F_taken => True
  end ->
  forall u, match <[m := x]> (flights s) !! u with
    | Some (F_filled b) => holds q u b /\ mq_next q !! u = Some 0
    | Some (F_filled_first b) | Some (F_received b) => holds q u b
    | _ => True end.
Proof.
  intros H Hq Hx u. rewrite lookup_insert. case_decide as Hd; [subst u; by destruct x|].
  specialize (H u). specialize (Hq u (not_eq_sym Hd)).
  destruct (flights s !! u) as [[|b|b|b]|]; try done; destruct Hq as [E1 E2]; try by eexists.
  - destruct H as [H1 H2]. split; [by apply (holds_ext (mq s))|by rewrite E2].
  - by apply (holds_ext (mq s)).
  - by apply (holds_ext (mq s)).
Qed.

Lemma flights_delete s q m :
  (forall m, match flights s !! m with
    | Some (F_filled b) => holds (mq s) m b /\ mq_next (mq s) !! m = Some 0
    | Some (F_filled_first b) | Some (F_received b) => holds (mq s) m b
    | _ => True end) ->
  (forall u, u <> m -> is_Some (flights s !! u) ->
     mq_data q !! u = mq_data (mq s) !! u /\ mq_next q !! u = mq_next (mq s) !! u) ->
  forall u, match delete m (flights s) !! u with
    | Some (F_filled b) => holds q u b /\ mq_next q !! u = Some 0
    | Some (F_filled_first b) | Some (F_received b) => holds q u b
    | _ => True end.
Proof.
  intros H Hq u. rewrite lookup_delete. case_decide as Hd; [done|].
  specialize (H u). specialize (Hq u (not_eq_sym Hd)).
  destruct (flights s !! u) as [[|b|b|b]|]; try done; destruct Hq as [E1 E2]; try by eexists.
  - destruct H as [H1 H2]. split; [by apply (holds_ext (mq s))|by rewrite E2].
  - by apply (holds_ext (mq s)).
  - by apply (holds_ext (mq s)).
Qed.

Lemma take_ok s l f : mq_inv s l f -> enabled s M_take ->
  exists s' l' f', run_mop M_take s = Ok s' /\ mq_inv s' l' f'.
Proof.
  intros I Hf. cbn in *. destruct (chain_head _ _ _ (mi_free _ _ _ I) Hf) as (f' & -> & n & En & Hc).
  set (m := msg_queue_free (mq s)) in *. unfold mq_take_free. fold m. rewrite En. cbn [deref mbind result_bind].
  pose proof (mi_nodup _ _ _ I) as Hnd.
  assert (Hm : m ∉ l ++ f').
  { rewrite <- Permutation_middle in Hnd. by apply NoDup_cons in Hnd as [? _]. }
  assert (Hm' : m ∈ l ++ m :: f') by (apply elem_of_app; right; by left).
  eexists _, l, f'. split; [reflexivity|]. constructor; cbn; try apply I.
  - exact Hc.
  - rewrite <- Permutation_middle in Hnd. by apply NoDup_cons in Hnd as [_ ?].
  - intros u Hu. rewrite lookup_insert_ne by by intros <-. apply (mi_apart _ _ _ I).
    apply elem_of_app in Hu as [Hu|Hu]; apply elem_of_app; [by left|right; by right].
  - rewrite size_insert_new by by apply (mi_apart _ _ _ I). pose proof (mi_total _ _ _ I) as H. cbn in H. lia.
  - intros u Hu. apply (mi_known _ _ _ I). destruct (decide (u = m)) as [->|Hum]; [by left|].
    destruct Hu as [Hu|Hu]; [left|right; by rewrite lookup_insert_ne in Hu by by apply not_eq_sym].
    apply elem_of_app in Hu as [Hu|Hu]; apply elem_of_app; [by left|right; by right].
  - by apply (flights_insert s (with_free (mq s) (mq_next (mq s)) n)); [apply (mi_flights _ _ _ I)| |].
Qed.

(** Writing a message into a block in flight. *)
Lemma write_data s l f m b : mq_inv s l f -> flights s !! m = Some F_taken -> zlen b <= msg_size (mq s) ->
  exists d, mq_write (mq s) m b = Ok (with_data (mq s) (<[m := b ++ drop (length b) d]> (mq_data (mq s)))) /\
    mq_data (mq s) !! m = Some d /\ zlen (b ++ drop (length b) d) = msg_size (mq s).
Proof.
  intros I Em Hb. destruct (mi_known _ _ _ I m) as (_ & [d Ed] & _); [right; by rewrite Em|].
  pose proof (mi_size _ _ _ I m d Ed) as Hd. exists d. unfold mq_write. rewrite Ed. cbn [deref mbind result_bind].
  rewrite zblit_Ok by lia. cbn [mbind result_bind take app Nat.add Z.to_nat]. split_and!; try done.
  unfold zlen in *. rewrite length_app, length_drop. lia.
Qed.

Lemma fill_ok s l f m b x nx : mq_inv s l f -> flights s !! m = Some F_taken -> zlen b <= msg_size (mq s) ->
  (nx = mq_next (mq s) \/ nx = <[m := 0]> (mq_next (mq s))) ->
  (x = F_filled b /\ nx !! m = Some 0) \/ x = F_filled_first b ->
  exists q, mq_write (with_free (mq s) nx (msg_queue_free (mq s))) m b = Ok q /\
    mq_inv (mk_sys q (<[m := x]> (flights s)) (queue s)) l f.
Proof.
  intros I Em Hb Hnx Hx. destruct (write_data s l f m b I Em Hb) as (d & Ew & Ed & Hlen).
  pose proof (inv_in_flight _ _ _ _ _ I Em) as Hm.
  unfold mq_write in *. cbn [with_free mq_data]. rewrite Ed in *. cbn [deref mbind result_bind] in *.
  destruct (zblit d 0 b) as [d'|]; [|done]. cbn [mbind result_bind] in *. injection Ew as Ew.
  assert (Ed' : d' = b ++ drop (length b) d).
  { apply (f_equal (fun g => g !! m)) in Ew. rewrite !lookup_insert_eq in Ew. by injection Ew. }
  subst d'. eexists. split; [reflexivity|].
  assert (Hsame : forall u, u <> m -> nx !! u = mq_next (mq s) !! u).
  { intros u Hu. destruct Hnx as [->| ->]; [done|]. by rewrite lookup_insert_ne by by apply not_eq_sym. }
  assert (Hch : forall h k, m ∉ k -> chain (mq_next (mq s)) h k -> chain nx h k).
  { intros h k Hk Hc. destruct Hnx as [->| ->]; [done|by apply chain_insert]. }
  assert (Hml : (m ∉ l) /\ (m ∉ f)) by (split; intros H; apply Hm, elem_of_app; auto). destruct Hml as [Hml Hmf].
  constructor; cbn; try apply I.
  - apply Hch; [done|apply I].
  - apply Hch; [done|apply I].
  - intros u Hu. rewrite lookup_insert_ne by by intros <-. by apply (mi_apart _ _ _ I).
  - rewrite (size_insert_old _ _ _ F_taken) by done. apply I.
  - intros u e. rewrite lookup_insert. case_decide; [by intros [= <-]|apply I].
  - intros u Hu. assert (Hu' : (u ∈ l ++ f) \/ is_Some (flights s !! u)).
    { destruct (decide (u = m)) as [->|Hum]; [right; by rewrite Em|].
      destruct Hu as [?|Hu]; [by left|right]. by rewrite lookup_insert_ne in Hu by by apply not_eq_sym. }
    destruct (mi_known _ _ _ I u Hu') as (H0 & H1 & H2). split; [done|]. split.
    + rewrite lookup_insert. by case_decide.
    + destruct Hnx as [->| ->]; [done|]. rewrite lookup_insert. by case_decide.
  - eapply Forall2_impl_in; [apply (mi_held _ _ _ I)|]. cbn.
    intros u e Hul. apply holds_ext. cbn. by rewrite lookup_insert_ne by by intros <-.
  - apply (flights_insert s); [apply (mi_flights _ _ _ I)| |]; cbn.
    + intros u Hu _. rewrite lookup_insert_ne by by apply not_eq_sym. split; [done|by apply Hsame].
    + assert (Hh : holds (with_data (with_free (mq s) nx (msg_queue_free (mq s)))
        (<[m := b ++ drop (length b) d]> (mq_data (mq s)))) m b).
      { eexists. cbn. rewrite lookup_insert_eq. split; [done|]. by rewrite take_app_length. }
      by destruct Hx as [[-> Hx]| ->].
Qed.

(** A block in flight is none of the linked ones. *)
Lemma flight_apart s l f m x : mq_inv s l f -> flights s !! m = Some x -> m <> 0 /\ (m ∉ l) /\ (m ∉ f).
Proof.
  intros I Em. pose proof (inv_in_flight _ _ _ _ _ I Em) as Hm.
  split; [apply (mi_known _ _ _ I); right; by rewrite Em|].
  split; intros H; apply Hm, elem_of_app; auto.
Qed.

(** The block [m] leaves the flight and becomes linked. *)
Lemma land_known s l f l' f' q m x : mq_inv s l f -> flights s !! m = Some x ->
  l' ++ f' ≡ₚ m :: l ++ f -> mq_data q = mq_data (mq s) ->
  (forall u, is_Some (mq_next (mq s) !! u) -> is_Some (mq_next q !! u)) ->
  (NoDup (l' ++ f')) /\
  (forall u, u ∈ l' ++ f' -> delete m (flights s) !! u = None) /\
  Z.of_nat (length l' + length f' + size (delete m (flights s))) = max_msgs (mq s) /\
  (forall u, (u ∈ l' ++ f') \/ is_Some (delete m (flights s) !! u) ->
    u <> 0 /\ is_Some (mq_data q !! u) /\ is_Some (mq_next q !! u)).
Proof.
  intros I Em Hp Hd Hn. pose proof (inv_in_flight _ _ _ _ _ I Em) as Hm. split_and!.
  - rewrite Hp. constructor; [done|apply I].
  - intros u. rewrite Hp. intros [->|Hu]%elem_of_cons; [apply lookup_delete_eq|].
    rewrite lookup_delete_ne by by intros <-. by apply (mi_apart _ _ _ I).
  - pose proof (mi_total _ _ _ I) as H. pose proof (size_delete_old _ _ _ Em) as Hs.
    apply Permutation_length in Hp. cbn in Hp. rewrite !length_app in Hp. lia.
  - intros u Hu. rewrite Hd.
    assert (Hu' : (u ∈ l ++ f) \/ is_Some (flights s !! u)).
    { destruct (decide (u = m)) as [->|Hum]; [right; by rewrite Em|]. rewrite Hp in Hu.
      destruct Hu as [[?|?]%elem_of_cons|Hu]; [done|by left|right].
      by rewrite lookup_delete_ne in Hu by by apply not_eq_sym. }
    destruct (mi_known _ _ _ I u Hu') as (H0 & H1 & H2). split_and!; auto.
Qed.

Lemma insert_known (nx : gmap Z Z) t m u : is_Some (nx !! u) -> is_Some (<[t := m]> nx !! u).
Proof. intros H. rewrite lookup_insert. by case_decide. Qed.

(** The last block of the queue, if there is one. *)
Lemma tail_elem s l f : mq_inv s l f -> msg_queue_tail (mq s) <> 0 -> msg_queue_tail (mq s) ∈ l.
Proof.
  intros I. rewrite (mi_tail _ _ _ I). destruct (last l) as [z|] eqn:E; [|done]. intros _.
  apply last_Some in E as [l' ->]. apply elem_of_app. right. by left.
Qed.

Lemma link_ok s l f m b : mq_inv s l f -> flights s !! m = Some (F_filled b) ->
  mq_inv (mk_sys (mq_link (mq s) m) (delete m (flights s)) (queue s ++ [b])) (l ++ [m]) f.
Proof.
  intros I Em. destruct (flight_apart _ _ _ _ _ I Em) as (Hm0 & Hml & Hmf).
  pose proof (mi_flights _ _ _ I m) as Hh. rewrite Em in Hh. destruct Hh as [Hh En].
  pose proof (mi_nodup _ _ _ I) as Hnd. apply NoDup_app in Hnd as (Hndl & Hlf & Hndf).
  assert (Hp : (l ++ [m]) ++ f ≡ₚ m :: l ++ f).
  { rewrite <- app_assoc. cbn. by rewrite <- Permutation_middle. }
  assert (Hnx : forall u, u <> m -> u ∉ l -> mq_next (mq_link (mq s) m) !! u = mq_next (mq s) !! u).
  { intros u Hum Hul. unfold mq_link. cbn. destruct (Z.eqb_spec (msg_queue_tail (mq s)) 0) as [E|E]; [done|].
    cbn [negb]. rewrite lookup_insert_ne; [done|]. intros <-. by apply Hul, (tail_elem s l f). }
  destruct (land_known s l f (l ++ [m]) f (mq_link (mq s) m) m _ I Em Hp eq_refl) as (H1 & H2 & H3 & H4).
  { intros u Hu. unfold mq_link. cbn. destruct (negb _); [by apply insert_known|done]. }
  pose proof (mi_total _ _ _ I) as Ht. pose proof (mi_max _ _ _ I) as Hmax. pose proof (size_delete_old _ _ _ Em).
  constructor; try done; try apply I.
  - pose proof (chain_snoc _ _ _ _ Hml Hm0 Hndl En (mi_queue _ _ _ I)) as Hc.
    unfold mq_link. cbn. rewrite <- (mi_tail _ _ _ I) in Hc.
    by destruct (msg_queue_tail (mq s) =? 0).
  - cbn. by rewrite last_snoc.
  - unfold mq_link. cbn. destruct (Z.eqb_spec (msg_queue_tail (mq s)) 0) as [E|E]; [apply I|].
    cbn [negb]. apply chain_insert; [|apply I]. intros Hin. by apply (Hlf _ (tail_elem s l f I E)).
  - cbn. rewrite (mi_entry _ _ _ I), length_app, u16_small by lia. cbn. lia.
  - cbn [mq queue]. apply Forall2_app; [apply (held_ext (mq s)); [done|apply I]|].
    constructor; [exact Hh|constructor].
  - apply (flights_delete s); [apply (mi_flights _ _ _ I)|]. intros u Hu Hs. split; [done|].
    apply Hnx; [done|]. destruct Hs as [x Hs]. by destruct (flight_apart _ _ _ _ _ I Hs) as (_ & ? & _).
Qed.

Lemma link_first_ok s l f m b : mq_inv s l f -> flights s !! m = Some (F_filled_first b) ->
  mq_inv (mk_sys (mq_link_first (mq s) m) (delete m (flights s)) (b :: queue s)) (m :: l) f.
Proof.
  intros I Em. destruct (flight_apart _ _ _ _ _ I Em) as (Hm0 & Hml & Hmf).
  pose proof (mi_flights _ _ _ I m) as Hh. rewrite Em in Hh.
  destruct (land_known s l f (m :: l) f (mq_link_first (mq s) m) m _ I Em) as (H1 & H2 & H3 & H4); [done|done| |].
  { intros u Hu. by apply insert_known. }
  pose proof (mi_total _ _ _ I) as Ht. pose proof (mi_max _ _ _ I) as Hmax. pose proof (size_delete_old _ _ _ Em).
  constructor; try done; try apply I.
  - cbn. split_and!; try done. exists (msg_queue_head (mq s)). rewrite lookup_insert_eq. split; [done|].
    apply chain_insert; [done|apply I].
  - cbn [mq mq_link_first with_queue msg_queue_tail]. rewrite (mi_tail _ _ _ I).
    destruct l as [|y l]; [done|]. destruct (last (y :: l)) as [z|] eqn:E; [|by apply last_None in E].
    cbn [default option_map id]. rewrite last_cons, E. cbn.
    rewrite (proj2 (Z.eqb_neq z 0)); [done|]. apply (chain_nonnull _ _ _ _ (mi_queue _ _ _ I)).
    apply last_Some in E as [l' ->]. apply elem_of_app. right. by left.
  - cbn. apply chain_insert; [done|apply I].
  - cbn. rewrite (mi_entry _ _ _ I), u16_small by lia. lia.
  - constructor; [exact Hh|]. apply (held_ext (mq s)); [done|apply I].
  - apply (flights_delete s); [apply (mi_flights _ _ _ I)|]. intros u Hu _. split; [done|].
    cbn. by rewrite lookup_insert_ne by by apply not_eq_sym.
Qed.

Lemma put_free_ok s l f m b : mq_inv s l f -> flights s !! m = Some (F_received b) ->
  mq_inv (mk_sys (mq_put_free (mq s) m) (delete m (flights s)) (queue s)) l (m :: f).
Proof.
  intros I Em. destruct (flight_apart _ _ _ _ _ I Em) as (Hm0 & Hml & Hmf).
  destruct (land_known s l f l (m :: f) (mq_put_free (mq s) m) m _ I Em) as (H1 & H2 & H3 & H4).
  { by rewrite <- Permutation_middle. }
  { done. }
  { intros u Hu. by apply insert_known. }
  constructor; try done; try apply I.
  - cbn. apply chain_insert; [done|apply I].
  - cbn. split_and!; try done. exists (msg_queue_free (mq s)). rewrite lookup_insert_eq. split; [done|].
    apply chain_insert; [done|apply I].
  - apply (flights_delete s); [apply (mi_flights _ _ _ I)|]. intros u Hu _. split; [done|].
    cbn. by rewrite lookup_insert_ne by by apply not_eq_sym.
Qed.

Lemma unlink_ok s l f : mq_inv s l f -> enabled s M_unlink ->
  exists s' l', run_mop M_unlink s = Ok s' /\ mq_inv s' l' f.
Proof.
  intros I He. cbn in He. rewrite (mi_entry _ _ _ I) in He. destruct l as [|m l]; [done|].
  pose proof (mi_queue _ _ _ I) as Hq. cbn in Hq. destruct Hq as (Eh & Hm0 & n & En & Hc).
  pose proof (mi_held _ _ _ I) as Hheld. apply Forall2_cons_inv_l in Hheld as (b & r & Hh & Hheld & Eq).
  pose proof (mi_nodup _ _ _ I) as Hnd. cbn in Hnd. apply NoDup_cons in Hnd as [Hm Hnd].
  assert (Hno : flights s !! m = None) by (apply (mi_apart _ _ _ I); by left).
  pose proof (mi_total _ _ _ I) as Ht. pose proof (mi_max _ _ _ I) as Hmax. cbn in Ht.
  cbn [run_mop]. unfold mq_unlink. rewrite Eh, En. cbn [deref mbind result_bind]. rewrite Eq.
  eexists _, l. split; [reflexivity|]. constructor; cbn; try done; try apply I.
  - rewrite (mi_tail _ _ _ I). rewrite last_cons. destruct (last l) as [z|] eqn:E; cbn.
    + rewrite (proj2 (Z.eqb_neq z m)); [done|]. intros ->. apply Hm, elem_of_app. left.
      apply last_Some in E as [l' ->]. apply elem_of_app. right. by left.
    + by rewrite Z.eqb_refl.
  - intros u Hu. rewrite lookup_insert_ne by by intros <-. apply (mi_apart _ _ _ I). by right.
  - rewrite size_insert_new by done. lia.
  - rewrite (mi_entry _ _ _ I), u16_small; cbn; lia.
  - intros u Hu. apply (mi_known _ _ _ I). destruct (decide (u = m)) as [->|Hum]; [left; by left|].
    destruct Hu as [Hu|Hu]; [left; by right|right]. by rewrite lookup_insert_ne in Hu by by apply not_eq_sym.
  - apply (flights_insert s (with_queue (mq s) (mq_next (mq s)) (u16 (mq_entry (mq s) - 1)) n
      (if msg_queue_tail (mq s) =? m then 0 else msg_queue_tail (mq s))));
      [apply (mi_flights _ _ _ I)|done|exact Hh].
Qed.

(** The loop of the reset command does not look at the number of messages. *)
Lemma flush_entry fuel e : forall q,
  mq_flush fuel (with_queue q (mq_next q) e (msg_queue_head q) (msg_queue_tail q)) =
  x ← mq_flush fuel q; Ok (with_queue x (mq_next x) e (msg_queue_head x) (msg_queue_tail x)).
Proof.
  induction fuel as [|k IH]; intros q; cbn [mq_flush with_queue msg_queue_head msg_queue_tail mq_next].
  - by destruct (msg_queue_head q =? 0).
  - destruct (msg_queue_head q =? 0); [done|].
    destruct (mq_next q !! msg_queue_head q) as [h|]; [|done]. cbn [deref mbind result_bind].
    exact (IH (mq_put_free (with_queue q (mq_next q) (mq_entry q) h
      (if msg_queue_tail q =? msg_queue_head q then 0 else msg_queue_tail q)) (msg_queue_head q))).
Qed.

(** It moves the queue to the free list. *)
Lemma flush_ok fuel : forall s l f, mq_inv s l f -> (length l <= fuel)%nat ->
  exists q f', mq_flush fuel (mq s) = Ok q /\ msg_queue_head q = 0 /\ msg_queue_tail q = 0 /\
    mq_inv (mk_sys (with_queue q (mq_next q) 0 0 0) (flights s) []) [] f'.
Proof.
  induction fuel as [|fuel IH]; intros s l f I Hl; cbn [mq_flush].
  all: destruct l as [|m l].
  1,3: pose proof (mi_queue _ _ _ I) as Hq; pose proof (mi_tail _ _ _ I) as Htl; cbn in Hq, Htl;
    rewrite Hq; exists (mq s), f; split_and!; try done;
    (constructor; cbn; try done; try apply I; apply (mi_flights _ _ _ I)).
  { cbn in Hl. lia. }
  pose proof (mi_queue _ _ _ I) as Hq. cbn in Hq. destruct Hq as (Eh & Hm0 & n & En & Hc).
  rewrite Eh, (proj2 (Z.eqb_neq m 0)) by done. rewrite En. cbn [deref mbind result_bind].
  pose proof (mi_nodup _ _ _ I) as Hnd. cbn in Hnd. apply NoDup_cons in Hnd as [Hm Hnd].
  assert (Hml : (m ∉ l) /\ (m ∉ f)) by (split; intros H; apply Hm, elem_of_app; auto). destruct Hml as [Hml Hmf].
  pose proof (mi_held _ _ _ I) as Hheld. apply Forall2_cons_inv_l in Hheld as (b & r & Hh & Hheld & Eq).
  pose proof (mi_total _ _ _ I) as Ht. pose proof (mi_max _ _ _ I) as Hmax. cbn in Ht.
  set (q1 := mq_put_free _ m).
  set (s1 := mk_sys (with_queue q1 (mq_next q1) (mq_entry (mq s) - 1) (msg_queue_head q1) (msg_queue_tail q1))
                    (flights s) r).
  assert (I1 : mq_inv s1 l (m :: f)).
  { constructor; cbn; try apply I.
    - by apply chain_insert.
    - rewrite (mi_tail _ _ _ I). rewrite last_cons. destruct (last l) as [z|] eqn:E; cbn.
      + rewrite (proj2 (Z.eqb_neq z m)); [done|]. intros ->. apply Hml.
        apply last_Some in E as [l' ->]. apply elem_of_app. right. by left.
      + by rewrite Z.eqb_refl.
    - split_and!; try done. exists (msg_queue_free (mq s)). rewrite lookup_insert_eq. split; [done|].
      apply chain_insert; [done|apply I].
    - rewrite <- Permutation_middle. by constructor.
    - intros u. rewrite <- Permutation_middle. intros Hu. by apply (mi_apart _ _ _ I).
    - lia.
    - rewrite (mi_entry _ _ _ I). cbn. lia.
    - intros u. rewrite <- Permutation_middle. intros Hu.
      destruct (mi_known _ _ _ I u Hu) as (H0 & H1 & H2). split_and!; try done. by apply insert_known.
    - done.
    - intros u. pose proof (mi_flights _ _ _ I u) as Hu. destruct (flights s !! u) as [x|] eqn:Ex; [|done].
      assert (u <> m) by (intros ->; rewrite (mi_apart _ _ _ I m) in Ex; [done|by left]).
      by rewrite lookup_insert_ne by by apply not_eq_sym. }
  destruct (IH s1 l (m :: f) I1) as (q & f' & E & H1 & H2 & I'); [cbn in Hl; lia|].
  assert (Es1 : mq s1 = with_queue q1 (mq_next q1) (mq_entry q1 - 1) (msg_queue_head q1) (msg_queue_tail q1))
    by done.
  rewrite Es1, flush_entry in E. destruct (mq_flush fuel q1) as [q0|] eqn:E0; [|done]. cbn in E. injection E as <-.
  exists q0, f'. split_and!; done.
Qed.

Lemma chain_size nx h l : chain nx h l -> NoDup l -> (length l <= size nx)%nat.
Proof.
  intros Hc Hnd. rewrite <- size_dom, <- (size_list_to_set (C := gset Z) l) by done.
  apply subseteq_size. intros m Hm. apply elem_of_list_to_set in Hm. apply elem_of_dom.
  by apply (chain_known nx h l).
Qed.

(** One operation. *)
Lemma mop_ok s l f o : mq_inv s l f -> enabled s o ->
  exists s' l' f', run_mop o s = Ok s' /\ mq_inv s' l' f'.
Proof.
  intros I He. destruct o as [|m b|m b|m|m| |m|]; cbn [enabled] in He.
  - by apply (take_ok s l f).
  - destruct He as [Em Hb]. cbn [run_mop]. unfold mq_fill.
    destruct (fill_ok s l f m b (F_filled b) (<[m := 0]> (mq_next (mq s))) I Em Hb) as (q & -> & I');
      [by right|left; by rewrite lookup_insert_eq|]. by eexists _, l, f.
  - destruct He as [Em Hb]. cbn [run_mop].
    destruct (fill_ok s l f m b (F_filled_first b) (mq_next (mq s)) I Em Hb) as (q & E & I');
      [by left|by right|].
    replace (with_free (mq s) (mq_next (mq s)) (msg_queue_free (mq s))) with (mq s) in E by by destruct (mq s).
    rewrite E. by eexists _, l, f.
  - destruct He as [b Em]. cbn [run_mop]. rewrite Em. eexists _, (l ++ [m]), f. split; [done|].
    by apply link_ok.
  - destruct He as [b Em]. cbn [run_mop]. rewrite Em. eexists _, (m :: l), f. split; [done|].
    by apply link_first_ok.
  - destruct (unlink_ok s l f I He) as (s' & l' & E & I'). by exists s', l', f.
  - destruct He as [b Em]. cbn [run_mop]. eexists _, l, (m :: f). split; [done|]. by apply (put_free_ok s l f m b).
  - cbn [run_mop]. destruct (flush_ok (size (mq_next (mq s))) s l f I) as (q & f' & -> & H1 & H2 & I').
    { apply (chain_size _ (msg_queue_head (mq s))); [apply I|]. pose proof (mi_nodup _ _ _ I) as Hnd.
      by apply NoDup_app in Hnd as [? _]. }
    cbn [mbind result_bind]. eexists _, [], f'. split; [done|]. by rewrite H1, H2.
Qed.

End MqSys.

Module MqThms.
Import Kern MqCore MqSys.

(** C3: whatever the order in which senders, urgent senders, receivers and
    resets enter their critical sections, no step of theirs faults, and the
    blocks of the pool stay divided between the queue, the free list and the
    threads that hold one.  The queue holds the messages that were sent and not
    received, in the order of the links, urgent ones in front; a receiver
    copies the message it unlinked, followed by what an older message left in
    the block when it asks for more. *)
Theorem mq_interleavings flag pool msg_sz max bytes s :
  pool_ok pool msg_sz max bytes ->
  reaches (mk_sys (mq_make flag pool msg_sz max bytes) ∅ []) s ->
  (exists l f, mq_inv s l f) /\
  (forall o, enabled s o -> exists s', run_mop o s = Ok s') /\
  (forall m b size, flights s !! m = Some (F_received b) -> 0 <= size ->
     exists copy, mq_read (mq s) m size = Ok copy /\
       take (length b) copy = take (Z.to_nat size) b /\ zlen copy = Z.min size (msg_size (mq s))).
Proof.
  intros Hpool R.
  assert (Hinv : exists l f, mq_inv s l f).
  { remember (mk_sys (mq_make flag pool msg_sz max bytes) ∅ []) as s0 eqn:Es0.
    induction R as [s|s o s1 s2 R IH He E]; subst.
    - destruct (mq_make_inv flag pool msg_sz max bytes Hpool) as [f I]. by exists [], f.
    - destruct (IH eq_refl) as (l & f & I). destruct (mop_ok s1 l f o I He) as (s' & l' & f' & E' & I').
      rewrite E in E'. injection E' as <-. by exists l', f'. }
  destruct Hinv as (l & f & I). split_and!; [by exists l, f| |].
  - intros o He. destruct (mop_ok s l f o I He) as (s' & _ & _ & E & _). by exists s'.
  - intros m b sz Em Hsz. pose proof (mi_flights _ _ _ I m) as Hh. rewrite Em in Hh.
    destruct Hh as (d & Ed & Hd). pose proof (mi_size _ _ _ I m d Ed) as Hlen. pose proof (zlen_nonneg d).
    unfold mq_read. rewrite Ed. cbn [deref mbind result_bind].
    replace (if msg_size (mq s) <? sz then msg_size (mq s) else sz) with (Z.min sz (msg_size (mq s)))
      by (case_bool; lia).
    rewrite zslice_Ok by lia. eexists. split; [reflexivity|]. cbn [Z.to_nat drop]. rewrite drop_0.
    split; [|apply zlen_take; lia].
    rewrite <- Hd at 2. rewrite !take_take. f_equal.
    assert (length b <= length d)%nat; [|unfold zlen in *; lia].
    rewrite <- Hd, length_take. lia.
Qed.

(** A pool of two blocks for messages of four bytes. *)
Definition demo_bytes : gmap Z (list Z) := <[1000 := [9; 9; 9; 9]]> (<[1008 := [8; 8; 8; 8]]> ∅).

Definition demo_init : sys := mk_sys (mq_make 0 1000 4 2 demo_bytes) ∅ [].

Definition run_all (ops : list mop) (s : sys) : result sys :=
  foldr (fun o k s => x ← run_mop o s; k x) Ok ops s.

Lemma reaches_cons s o s1 s2 : enabled s o -> run_mop o s = Ok s1 -> reaches s1 s2 -> reaches s s2.
Proof.
  intros He E R. induction R as [s1|s1 o' s3 s4 R IH He' E'].
  - eapply reaches_step; [apply reaches_refl|exact He|exact E].
  - eapply reaches_step; [by apply IH|exact He'|exact E'].
Qed.

Lemma reaches_run ops : forall s s', run_all ops s = Ok s' ->
  (fix ok l s := match l with
                 | [] => True
                 | o :: l' => enabled s o /\ match run_mop o s with Ok s1 => ok l' s1 | Err _ => False end
                 end) ops s -> reaches s s'.
Proof.
  induction ops as [|o ops IH]; intros s s' E H; cbn in E.
  - injection E as <-. apply reaches_refl.
  - destruct H as [He H]. destruct (run_mop o s) as [s1|] eqn:E1; [|done].
    apply (reaches_cons s o s1); [done|done|]. by apply IH.
Qed.

(** Two senders whose sections interleave, and a receiver. *)
Definition demo_ops : list mop :=
  [M_take; M_take; M_fill 1000 [1; 2]; M_fill_first 1008 [3]; M_link 1000; M_link_first 1008; M_unlink].

Lemma demo_pool_ok : pool_ok 1000 4 2 demo_bytes.
Proof.
  split_and!; try lia.
  - intros m d. unfold demo_bytes. rewrite !lookup_insert, lookup_empty.
    repeat case_decide; by intros [= <-].
  - intros i Hi. assert (i = 0 \/ i = 1) as [->| ->] by lia; by eexists.
Qed.

Lemma mq_interleavings_witness : exists s, run_all demo_ops demo_init = Ok s /\
  queue s = [[1; 2]] /\ mq_read (mq s) 1008 9 = Ok [3; 8; 8; 8].
Proof.
  assert (H : exists s, run_all demo_ops demo_init = Ok s /\ reaches demo_init s /\
    flights s !! 1008 = Some (F_received [3]) /\ queue s = [[1; 2]]).
  { eexists. split; [vm_compute; reflexivity|]. split; [|by split].
    apply (reaches_run demo_ops); [vm_compute; reflexivity|].
    vm_compute. split_and!; try done; by eexists. }
  destruct H as (s & E & R & Em & Eq).
  destruct (mq_interleavings 0 1000 4 2 demo_bytes s demo_pool_ok R) as (_ & _ & Hr).
  destruct (Hr 1008 [3] 9 Em ltac:(lia)) as (copy & Er & _).
  exists s. split_and!; [exact E|exact Eq|]. vm_compute in E. injection E as <-. reflexivity.
Defined.

End MqThms.
