(* ===== verification/MemPool.v ===== *)
(** * Memory pools (rt-thread/src/mempool.c)

    [Pool] is the code on the kernel state and a store of the words that lead
    the blocks: the link of a free block, the pool's address in a block that
    is handed out.  [PoolSpec] describes a consistent pool, [PoolThms] holds
    the properties.

    [rt_mp_alloc] is split at its [rt_schedule] as the functions of [Ipc] are.
    The heap is a parameter: [malloc] gives the address of a block of the
    size asked for, or 0. *)
From S2P Require Import Prelude CTypes KService Timer Kernel KernelSpec KernelThms Ipc IpcSpec IpcThms.
From stdpp Require Import base list gmap.
From Stdlib Require Import ZArith Lia.
Open Scope Z_scope.

Module Pool.
Import Kern Sched Thread IpcList.

Record mps : Type := mk_mps { kern : kernel; words : gmap Z Z }.

(** [mp->...] without a check of the object's type, and with one. *)
Definition get_mp (k : kernel) (o : Z) : result rt_mempool :=
  match objs k !! o with Some (mk_object _ (O_mempool p)) => Ok p | _ => Err F_wild end.
Definition mp_obj (k : kernel) (o : Z) : result rt_mempool :=
  match objs k !! o with Some (mk_object _ (O_mempool p)) => Ok p | _ => Err F_assert end.

Definition put_mp (k : kernel) (o : Z) (p : rt_mempool) : kernel := put_body k o (O_mempool p).

(** [block_size + sizeof (rt_uint8_t * )]. *)
Definition stride (block_size : Z) : Z := u32 (block_size + 4).

(** [*(rt_uint8_t ** )(block_ptr + off) = v], inside the memory of the pool. *)
Definition store_word (ws : gmap Z Z) (start limit off v : Z) : result (gmap Z Z) :=
  if in_range off 4 limit then Ok (<[start + off := v]> ws) else Err F_wild.

Fixpoint link_loop (n : nat) (start limit offset st : Z) (ws : gmap Z Z) : result (gmap Z Z) :=
  match n with
  | O => Ok ws
  | S n =>
      ws ← store_word ws start limit (offset * st) (start + (offset + 1) * st);
      link_loop n start limit (offset + 1) st ws
  end.

(** The free block list of [count] blocks; after the loop [offset] is
    [count]. *)
Definition link_blocks (start limit st count : Z) (ws : gmap Z Z) : result (gmap Z Z) :=
  ws ← link_loop (Z.to_nat count) start limit 0 st ws;
  store_word ws start limit ((count - 1) * st) 0.

Definition rt_mp_init (s : mps) (o start size block_size : Z) : result mps :=
  _ ← rt_assert (negb (start =? 0));
  _ ← rt_assert ((0 <? size) && (0 <? block_size));
  let sz := RT_ALIGN_DOWN size RT_ALIGN_SIZE in
  let bs := RT_ALIGN block_size RT_ALIGN_SIZE in
  let count := sz / stride bs in
  k ← rt_object_init (kern s) o (O_mempool (mk_mempool start sz bs start count count));
  let k := rt_ipc_object_init k o in
  ws ← link_blocks start size (stride bs) count (words s);
  Ok (mk_mps k ws).

Definition rt_mp_detach (s : mps) (o : Z) : result mps :=
  _ ← mp_obj (kern s) o;
  st ← rt_object_is_systemobject (kern s) o;
  _ ← rt_assert st;
  k ← rt_ipc_list_resume_all (kern s) (L_wait o);
  Ok (mk_mps (rt_object_detach k o) (words s)).

(** [o] is the address that the heap returns for the object, or 0; the
    result is the pool or 0. *)
Definition rt_mp_create (malloc : Z -> Z) (s : mps) (o block_count block_size : Z) : result (mps * Z) :=
  _ ← not_in_interrupt (kern s);
  _ ← rt_assert ((0 <? block_count) && (0 <? block_size));
  let bs := RT_ALIGN block_size RT_ALIGN_SIZE in
  let size := u32 (stride bs * block_count) in
  let start := malloc size in
  k ← rt_object_allocate (kern s) o (O_mempool (mk_mempool start size bs start block_count block_count));
  if o =? 0 then Ok (mk_mps k (words s), 0)
  else if start =? 0 then k ← rt_object_delete k o; Ok (mk_mps k (words s), 0)
  else
    let k := rt_ipc_object_init k o in
    ws ← link_blocks start size (stride bs) block_count (words s);
    Ok (mk_mps k ws, o).

(** The heap takes back the memory of the pool; that is all it does to it. *)
Definition rt_mp_delete (s : mps) (o : Z) : result mps :=
  _ ← not_in_interrupt (kern s);
  _ ← mp_obj (kern s) o;
  st ← rt_object_is_systemobject (kern s) o;
  _ ← rt_assert (negb st);
  k ← rt_ipc_list_resume_all (kern s) (L_wait o);
  k ← rt_object_delete k o;
  Ok (mk_mps k (words s)).

(** Suspend the current thread at the front of the list, start its timer, and
    give up the processor. *)
Definition mp_wait (k : kernel) (o time : Z) : result kernel :=
  let t := rt_thread_self k in
  '(k, _) ← rt_thread_suspend k t;
  k ← list_prepend k (L_wait o) t;
  k ← (if 0 <? time then start_timer k t time else Ok k);
  rt_schedule k.

(** A block is available. *)
Definition mp_take (s : mps) (o : Z) (p : rt_mempool) : result (mps * Z) :=
  let block := block_list p in
  _ ← rt_assert (negb (block =? 0));
  next ← deref (words s !! block);
  let p := mk_mempool (start_address p) (mp_size p) (block_size p) next
             (block_total_count p) (u32 (block_free_count p - 1)) in
  Ok (mk_mps (put_mp (kern s) o p) (<[block := o]> (words s)), block + 4).

(** [rt_set_errno] of kservice.c; [__rt_errno], where the error goes in an
    interrupt, is not part of the model. *)
Definition rt_set_errno (k : kernel) (e : Z) : result kernel :=
  if negb (interrupt_nest k =? 0) then Ok k
  else if rt_thread_self k =? 0 then Ok k
  else set_error k e.

(** One turn of the loop.  [Ret] has the block, or 0; [Blocked] what [time]
    and [before_sleep] are. *)
Definition mp_alloc_turn (s : mps) (o time : Z) : result (mps * turn (Z * Z)) :=
  p ← get_mp (kern s) o;
  if block_free_count p =? 0 then
    if time =? 0 then k ← rt_set_errno (kern s) (- RT_ETIMEOUT); Ok (mk_mps k (words s), Ret 0)
    else
      _ ← not_in_interrupt (kern s);
      k ← set_error (kern s) RT_EOK;
      let before := if 0 <? time then TimerOps.rt_tick_get (tst k) else 0 in
      k ← mp_wait k o time;
      Ok (mk_mps k (words s), Blocked (time, before))
  else r ← mp_take s o p; Ok (r.1, Ret r.2).

Definition rt_mp_alloc (s : mps) (o time : Z) : result (mps * turn (Z * Z)) :=
  _ ← rt_assert (negb (o =? 0));
  mp_alloc_turn s o time.

(** The current thread executes again after it waited. *)
Definition rt_mp_alloc_wake (s : mps) (o time before : Z) : result (mps * turn (Z * Z)) :=
  x ← thread_at (kern s) (rt_thread_self (kern s));
  if negb (error x =? RT_EOK) then Ok (s, Ret 0)
  else mp_alloc_turn s o (remaining (kern s) time before).

Definition rt_mp_free (s : mps) (block : Z) : result mps :=
  if block =? 0 then Ok s else
  let b := block - 4 in
  o ← deref (words s !! b);
  p ← get_mp (kern s) o;
  let q := mk_mempool (start_address p) (mp_size p) (block_size p) b
             (block_total_count p) (u32 (block_free_count p + 1)) in
  let ws := <[b := block_list p]> (words s) in
  let k := put_mp (kern s) o q in
  match lst k (L_wait o) with
  | t :: _ =>
      k ← upd_thread k t (fun x => with_error x RT_EOK);
      '(k, _) ← rt_thread_resume k t;
      k ← rt_schedule k;
      Ok (mk_mps k ws)
  | [] => Ok (mk_mps k ws)
  end.

End Pool.

(** ** Consistent pools *)
Module PoolSpec.
Import Kern IpcList Pool.

Definition block_at (p : rt_mempool) (i : nat) : Z := start_address p + Z.of_nat i * stride (block_size p).
Definition blocks (p : rt_mempool) : list Z := block_at p <$> seq 0 (Z.to_nat (block_total_count p)).

(** The list of free blocks from [a] on. *)
Fixpoint chain (ws : gmap Z Z) (a : Z) (l : list Z) : Prop :=
  match l with
  | [] => a = 0
  | b :: l => a = b /\ b <> 0 /\ exists next, ws !! b = Some next /\ chain ws next l
  end.

(** The pool [p] at [o], of whose blocks [free] are free and [used] are
    handed out. *)
Record pool_ok (ws : gmap Z Z) (o : Z) (p : rt_mempool) (free used : list Z) : Prop := {
  po_start : 0 < start_address p;
  po_stride : 0 < stride (block_size p);
  po_total : 0 <= block_total_count p < 4294967296;
  po_blocks : free ++ used ≡ₚ blocks p;
  po_chain : chain ws (block_list p) free;
  po_count : block_free_count p = zlen free;
  po_used : forall b, b ∈ used -> ws !! b = Some o
}.

Lemma block_at_inj p i j : 0 < stride (block_size p) -> block_at p i = block_at p j -> i = j.
Proof. unfold block_at. intros. nia. Qed.

Lemma blocks_nodup p : 0 < stride (block_size p) -> NoDup (blocks p).
Proof.
  intros H. apply NoDup_fmap_2_strong; [|apply NoDup_seq]. intros i j _ _. by apply block_at_inj.
Qed.

Lemma pool_nodup ws o p free used : pool_ok ws o p free used -> NoDup (free ++ used).
Proof. intros P. rewrite (po_blocks _ _ _ _ _ P). apply blocks_nodup, P. Qed.

Lemma free_chain_insert ws a l b v : b ∉ l -> chain ws a l -> chain (<[b := v]> ws) a l.
Proof.
  revert a. induction l as [|c l IH]; intros a Hb; [done|]. apply not_elem_of_cons in Hb as [Hc Hl].
  intros (-> & H0 & next & E & H). split; [done|]. split; [done|]. exists next.
  rewrite lookup_insert_ne by done. split; [done|]. by apply IH.
Qed.

Lemma pool_block_nonnull ws o p free used b : pool_ok ws o p free used -> b ∈ free ++ used -> b <> 0.
Proof.
  intros P Hb. rewrite (po_blocks _ _ _ _ _ P) in Hb. apply list_elem_of_fmap in Hb as (i & -> & _).
  unfold block_at. pose proof (po_start _ _ _ _ _ P). pose proof (po_stride _ _ _ _ _ P). nia.
Qed.

Lemma pool_total ws o p free used : pool_ok ws o p free used -> zlen free + zlen used = block_total_count p.
Proof.
  intros P. rewrite <- zlen_app. unfold zlen. rewrite (po_blocks _ _ _ _ _ P). unfold blocks.
  rewrite length_fmap, length_seq. pose proof (po_total _ _ _ _ _ P). lia.
Qed.

(** The pool after a block was taken, and after one came back. *)
Definition taken (p : rt_mempool) (next : Z) : rt_mempool :=
  mk_mempool (start_address p) (mp_size p) (block_size p) next (block_total_count p) (u32 (block_free_count p - 1)).
Definition returned (p : rt_mempool) (b : Z) : rt_mempool :=
  mk_mempool (start_address p) (mp_size p) (block_size p) b (block_total_count p) (u32 (block_free_count p + 1)).

Lemma mp_take_ok k ws o p b free used : pool_ok ws o p (b :: free) used ->
  exists next, mp_take (mk_mps k ws) o p = Ok (mk_mps (put_mp k o (taken p next)) (<[b := o]> ws), b + 4) /\
    pool_ok (<[b := o]> ws) o (taken p next) free (b :: used).
Proof.
  intros P. destruct (po_chain _ _ _ _ _ P) as (Eb & H0 & next & En & Hc). exists next.
  pose proof (pool_nodup _ _ _ _ _ P) as Hnd. cbn in Hnd. apply NoDup_cons in Hnd as [Hb Hnd].
  rewrite elem_of_app in Hb. pose proof (pool_total _ _ _ _ _ P) as Ht.
  pose proof (po_total _ _ _ _ _ P). pose proof (zlen_nonneg used). pose proof (zlen_nonneg free).
  assert (Hz : zlen (b :: free) = zlen free + 1) by (unfold zlen; cbn [length]; lia).
  split.
  - unfold mp_take. rewrite Eb, (proj2 (Z.eqb_neq b 0)) by done. cbn [negb rt_assert]. red_bind. cbn [words].
    rewrite En. reflexivity.
  - constructor; try apply P; cbn [taken block_list block_free_count start_address block_size block_total_count].
    + rewrite <- (po_blocks _ _ _ _ _ P). cbn. symmetry. apply Permutation_middle.
    + apply free_chain_insert; [by intros ?; apply Hb; left|done].
    + rewrite (po_count _ _ _ _ _ P), Hz, u32_small by lia. lia.
    + intros c [->|Hc']%elem_of_cons; [by rewrite lookup_insert_eq|].
      rewrite lookup_insert_ne; [by apply P|]. intros <-. by apply Hb; right.
Qed.

Lemma free_ok ws o p free used1 used2 b : pool_ok ws o p free (used1 ++ b :: used2) ->
  pool_ok (<[b := block_list p]> ws) o (returned p b) (b :: free) (used1 ++ used2).
Proof.
  intros P. pose proof (pool_nodup _ _ _ _ _ P) as Hnd.
  rewrite <- Permutation_middle, <- Permutation_middle in Hnd. apply NoDup_cons in Hnd as [Hb Hnd].
  rewrite !elem_of_app in Hb. pose proof (pool_total _ _ _ _ _ P) as Ht.
  pose proof (po_total _ _ _ _ _ P).
  rewrite zlen_app in Ht. pose proof (zlen_nonneg used1).
  assert (Hz : zlen (b :: used2) = zlen used2 + 1) by (unfold zlen; cbn [length]; lia).
  pose proof (zlen_nonneg free). pose proof (zlen_nonneg used2).
  constructor; try apply P; cbn [returned block_list block_free_count start_address block_size block_total_count].
  - rewrite <- (po_blocks _ _ _ _ _ P). cbn. by rewrite <- Permutation_middle, <- Permutation_middle.
  - split; [done|]. split; [apply (pool_block_nonnull _ _ _ _ _ b P); rewrite elem_of_app, elem_of_app; right; right; by left|].
    exists (block_list p). split; [by rewrite lookup_insert_eq|].
    apply free_chain_insert; [by intros ?; apply Hb; left|apply P].
  - rewrite (po_count _ _ _ _ _ P). unfold zlen at 2. cbn [length]. rewrite u32_small by lia. unfold zlen. lia.
  - intros c Hc. rewrite lookup_insert_ne.
    + apply P. apply elem_of_app in Hc as [Hc|Hc]; apply elem_of_app; [by left|right; by right].
    + intros <-. apply Hb. right. by apply elem_of_app.
Qed.

(** *** The list that [rt_mp_init] builds *)

Lemma store_word_Ok ws start limit off v : 0 <= off -> off + 4 <= limit ->
  store_word ws start limit off v = Ok (<[start + off := v]> ws).
Proof. intros. unfold store_word. by rewrite (proj2 (in_range_spec off 4 limit)) by lia. Qed.

Lemma link_loop_ok n start limit st : 4 <= st -> forall offset ws, 0 <= offset ->
  (offset + Z.of_nat n) * st <= limit ->
  exists ws', link_loop n start limit offset st ws = Ok ws' /\
    (forall i, offset <= i < offset + Z.of_nat n -> ws' !! (start + i * st) = Some (start + (i + 1) * st)) /\
    (forall a, a < start + offset * st -> ws' !! a = ws !! a).
Proof.
  intros Hst. induction n as [|n IH]; intros offset ws Ho Hl; cbn [link_loop].
  { exists ws. split_and!; try done. lia. }
  rewrite store_word_Ok by nia. red_bind.
  destruct (IH (offset + 1) (<[start + offset * st := start + (offset + 1) * st]> ws)) as (ws' & -> & H1 & H2); [lia|lia|].
  exists ws'. split; [done|]. split.
  - intros i Hi. destruct (decide (i = offset)) as [->|]; [|apply H1; lia].
    rewrite H2 by lia. by rewrite lookup_insert_eq.
  - intros a Ha. rewrite H2 by lia. by rewrite lookup_insert_ne by lia.
Qed.

Lemma link_blocks_ok start limit st count ws : 4 <= st -> 0 < count -> count * st <= limit ->
  exists ws', link_blocks start limit st count ws = Ok ws' /\
    forall i, 0 <= i < count ->
      ws' !! (start + i * st) = Some (if i =? count - 1 then 0 else start + (i + 1) * st).
Proof.
  intros Hst Hc Hl. unfold link_blocks.
  destruct (link_loop_ok (Z.to_nat count) start limit st Hst 0 ws) as (ws1 & -> & H1 & _); [done|lia|].
  red_bind. rewrite store_word_Ok by nia. eexists. split; [done|]. intros i Hi.
  destruct (Z.eqb_spec i (count - 1)) as [->|]; [by rewrite lookup_insert_eq|].
  rewrite lookup_insert_ne by nia. apply H1. lia.
Qed.

Lemma chain_blocks ws p n : 0 < start_address p -> 0 < stride (block_size p) ->
  (forall i, 0 <= i < block_total_count p -> ws !! (start_address p + i * stride (block_size p)) =
     Some (if i =? block_total_count p - 1 then 0 else start_address p + (i + 1) * stride (block_size p))) ->
  forall i, Z.of_nat (i + n) = block_total_count p ->
  chain ws (if (n =? 0)%nat then 0 else block_at p i) (block_at p <$> seq i n).
Proof.
  intros Hs Hst Hw. induction n as [|n IH]; intros i Hi; [done|].
  cbn [Nat.eqb seq fmap list_fmap chain]. split; [done|]. split; [unfold block_at; nia|].
  eexists. split; [apply Hw; lia|]. specialize (IH (S i) ltac:(lia)).
  destruct n as [|n]; cbn [Nat.eqb] in IH.
  - by rewrite (proj2 (Z.eqb_eq _ _)) by lia.
  - rewrite (proj2 (Z.eqb_neq _ _)) by lia. unfold block_at in IH at 1. rewrite Nat2Z.inj_succ in IH.
    by replace (Z.succ (Z.of_nat i)) with (Z.of_nat i + 1) in IH by lia.
Qed.

Lemma linked_pool_ok ws ws' o start sz limit bs count :
  link_blocks start limit (stride bs) count ws = Ok ws' -> 0 < start -> 4 <= stride bs -> 0 < count < 4294967296 ->
  count * stride bs <= limit ->
  let p := mk_mempool start sz bs start count count in pool_ok ws' o p (blocks p) [].
Proof.
  intros E Hs Hst Hc Hl p. destruct (link_blocks_ok start limit (stride bs) count ws Hst) as (ws2 & E2 & Hw); [lia|done|].
  rewrite E in E2. injection E2 as <-. constructor; cbn [p start_address block_size block_total_count block_list block_free_count]; try lia.
  - by rewrite app_nil_r.
  - pose proof (chain_blocks ws' p (Z.to_nat count) Hs ltac:(cbn; lia) Hw 0%nat) as H. cbn [p block_total_count] in H.
    unfold blocks. cbn [p block_total_count]. specialize (H ltac:(lia)).
    rewrite (proj2 (Nat.eqb_neq (Z.to_nat count) 0)) in H by lia. unfold block_at at 1 in H. cbn [p start_address] in H.
    by rewrite Z.add_0_r in H.
  - unfold zlen, blocks. rewrite length_fmap, length_seq. cbn. lia.
  - intros b Hb. by apply elem_of_nil in Hb.
Qed.

End PoolSpec.

Module PoolThms.
Import Kern Sched Thread KernInv KernOk IpcList IpcInv IpcThms Pool PoolSpec.

Definition has_mp (k : kernel) (o : Z) (p : rt_mempool) : Prop :=
  exists st, objs k !! o = Some (mk_object st (O_mempool p)).

Lemma has_mp_get k o p : has_mp k o p -> get_mp k o = Ok p.
Proof. intros [st E]. unfold get_mp. by rewrite E. Qed.

Lemma has_mp_put k o p p' : has_mp k o p -> has_mp (put_mp k o p') o p'.
Proof. intros [st E]. exists st. by apply (has_body_put _ _ _ (O_mempool p)). Qed.

Lemma has_mp_objs k k' o p : objs k' = objs k -> has_mp k o p -> has_mp k' o p.
Proof. intros E [st H]. exists st. by rewrite E. Qed.

(** *** Initialisation *)

Lemma exit_critical_waits k : kernel_ok k ->
  exists k', rt_exit_critical k = Ok k' /\ kernel_ok k' /\ objs k' = objs k /\
    forall n, wait_name n -> lst k' n = lst k n.
Proof.
  intros K. unfold rt_exit_critical. set (k1 := with_lock k _).
  assert (K1 : kernel_ok (with_lock k1 0)) by by apply KernThms.with_lock_ok, KernThms.with_lock_ok.
  destruct (lock_nest k1 <=? 0); [|exists k1; split_and!; [done|by apply KernThms.with_lock_ok|done..]].
  destruct (negb _); [|by eexists].
  destruct (schedule_waits _ K1) as (k' & -> & K' & _ & (_ & _ & _ & Eo) & Hw). exists k'. by split_and!.
Qed.

Lemma put_empty_ok k n : kernel_ok k -> lst k n = [] -> kernel_ok (put_list k n []).
Proof.
  intros K E. assert (Hl : forall m, lst (put_list k n []) m = lst k m).
  { intros m. rewrite lst_put_list. case_decide as H; [by rewrite <- H, E|done]. }
  constructor; try apply K. pose proof (ko_sched _ K) as I.
  constructor; [apply (si_group _ _ I)|..|apply (si_mask _ _ I)|].
  - intros p. rewrite Hl. apply (si_bits _ _ I).
  - intros p t. rewrite Hl. apply (si_ready _ _ I).
  - intros m. rewrite Hl. apply (si_nodup _ _ I).
  - intros m1 m2 t. rewrite !Hl. apply (si_one _ _ I).
  - intros m. rewrite Hl. apply (si_ex _ _ I).
  - split; [apply (si_null _ _ I)|]. intros m. rewrite Hl. apply (si_null _ _ I).
  - intros t x. rewrite Hl. apply (si_listed _ _ I).
  - intros t x Ht Ex Hx. destruct (si_running _ _ I t x Ht Ex Hx) as [H1 H2]. split; [done|]. intros m. by rewrite Hl.
  - intros t (m & Ht). apply (si_wait _ _ I). exists m. by rewrite <- !Hl.
Qed.

Lemma object_init_ok k o b : kernel_ok k -> objs k !! o = None -> lst k (L_wait o) = [] ->
  exists k', rt_object_init k o b = Ok k' /\
    let k' := rt_ipc_object_init k' o in
    kernel_ok k' /\ objs k' = <[o := mk_object true b]> (objs k) /\ lst k' (L_wait o) = [].
Proof.
  intros K Eo El. unfold rt_object_init. change (objs (rt_enter_critical k)) with (objs k). rewrite Eo. red_bind.
  destruct (exit_critical_waits _ (KernThms.enter_critical_ok k K)) as (k1 & -> & K1 & Eo1 & Hw). red_bind.
  eexists. split; [done|]. cbv zeta. assert (Hl : lst k1 (L_wait o) = []) by (rewrite Hw by (exists o; by left); exact El).
  split; [apply put_empty_ok; [constructor; [constructor|..]; apply K1|exact Hl]|]. split; [|unfold rt_ipc_object_init; rewrite lst_put_list; by rewrite decide_True].
  unfold rt_ipc_object_init, attach. cbn. by rewrite Eo1.
Qed.

(** An aligned size that holds a block makes a pool with all its blocks free;
    the list of blocks fits the memory. *)
Lemma rt_mp_init_ok s o start size block_size :
  kernel_ok (kern s) -> objs (kern s) !! o = None -> lst (kern s) (L_wait o) = [] ->
  0 < start -> 0 < size < 4294967296 -> 0 < block_size < 4294967288 ->
  stride (RT_ALIGN block_size RT_ALIGN_SIZE) <= RT_ALIGN_DOWN size RT_ALIGN_SIZE ->
  exists s' p, rt_mp_init s o start size block_size = Ok s' /\ kernel_ok (kern s') /\
    has_mp (kern s') o p /\ pool_ok (words s') o p (blocks p) [] /\
    block_total_count p = RT_ALIGN_DOWN size RT_ALIGN_SIZE / stride (RT_ALIGN block_size RT_ALIGN_SIZE) /\
    lst (kern s') (L_wait o) = [].
Proof.
  intros K Eo El Hs Hz Hb Hfit. unfold rt_mp_init.
  rewrite (proj2 (Z.eqb_neq start 0)), (proj2 (Z.ltb_lt 0 size)), (proj2 (Z.ltb_lt 0 block_size)) by lia.
  red_bind. cbv zeta. set (bs := RT_ALIGN block_size RT_ALIGN_SIZE) in *. set (sz := RT_ALIGN_DOWN size RT_ALIGN_SIZE) in *.
  destruct (object_init_ok (kern s) o (O_mempool (mk_mempool start sz bs start (sz / stride bs) (sz / stride bs))) K Eo El)
    as (k1 & -> & K1 & Eo1 & El1). red_bind.
  assert (Hbs : 4 <= bs /\ stride bs = bs + 4).
  { unfold bs, RT_ALIGN_SIZE, stride. rewrite RT_ALIGN_4 by lia. rewrite u32_small by dlia. dlia. }
  assert (Hsz : sz <= size) by (unfold sz, RT_ALIGN_SIZE; rewrite RT_ALIGN_DOWN_4; dlia).
  set (count := sz / stride bs) in *.
  assert (Hc : 0 < count /\ count * stride bs <= size /\ count < 4294967296) by (unfold count; split_and!; dlia).
  destruct (link_blocks_ok start size (stride bs) count (words s)) as (ws & E & _); [lia..|]. rewrite E. red_bind.
  eexists _, (mk_mempool start sz bs start count count). split; [done|]. cbn [kern words]. split; [done|].
  split; [exists true; rewrite Eo1; by rewrite lookup_insert_eq|]. split; [|done].
  apply (linked_pool_ok (words s) ws o start sz size bs count E); lia.
Qed.

(** The running thread waits at the front of the list. *)
Lemma mp_wait_ok k c o time : may_block k c -> time < TimerOps.TICK_HALF ->
  exists k', mp_wait k o time = Ok k' /\ now_waits_at k k' (L_wait o) c (fun l1 _ => l1 = []) time.
Proof.
  intros H Ht. assert (Hn : wait_name (L_wait o)) by (exists o; by left).
  unfold mp_wait, rt_thread_self.
  destruct (suspend_put_ok k (L_wait o) (current k) c (mb_kernel _ _ H) (mb_current _ _ H)
    (or_intror (mb_running _ _ H)) (mb_not_idle _ _ H) Hn) as (k1 & -> & K1 & _ & Hl & Hul & _ & Hput).
  red_bind. unfold list_prepend. rewrite Hul. red_bind. rewrite Hl.
  apply (blocked_switch k _ (L_wait o) c (fun l1 _ => l1 = []) time); try apply H; try done.
  by apply (Hput _ [] (lst k (L_wait o))).
Qed.

Lemma rt_set_errno_Ok k c e : may_block k c -> rt_set_errno k e = Ok (put_thread k (current k) (with_error c e)).
Proof.
  intros H. unfold rt_set_errno, rt_thread_self. rewrite (mb_thread _ _ H).
  rewrite (proj2 (Z.eqb_neq (current k) 0)) by (eapply thread_nonnull; apply H). by apply set_error_Ok.
Qed.

(** A call takes the first free block, or fails with the error of the thread
    set, or waits in front of the threads that wait already. *)
Lemma mp_alloc_turn_spec s o p c free used time :
  may_block (kern s) c -> has_mp (kern s) o p -> pool_ok (words s) o p free used -> time < TimerOps.TICK_HALF ->
  exists s' r, mp_alloc_turn s o time = Ok (s', r) /\ kernel_ok (kern s') /\
    match free with
    | b :: free' => r = Ret (b + 4) /\ current (kern s') = current (kern s) /\
        exists p', has_mp (kern s') o p' /\ pool_ok (words s') o p' free' (b :: used) /\ blocks p' = blocks p
    | [] => words s' = words s /\ has_mp (kern s') o p /\
        if time =? 0 then r = Ret 0 /\ kern s' = put_thread (kern s) (current (kern s)) (with_error c (- RT_ETIMEOUT))
        else (exists w, r = Blocked w) /\ current (kern s') <> current (kern s) /\
          lst (kern s') (L_wait o) = current (kern s) :: lst (kern s) (L_wait o)
    end.
Proof.
  intros H Hp P Ht. unfold mp_alloc_turn. rewrite (has_mp_get _ _ _ Hp). red_bind.
  rewrite (po_count _ _ _ _ _ P). destruct free as [|b free].
  - change (zlen [] =? 0) with true. cbv iota. destruct (time =? 0) eqn:Et.
    { rewrite (rt_set_errno_Ok _ _ _ H). red_bind. eexists _, _. split; [done|]. split; [apply (set_error_may _ _ _ H)|].
      split; [done|]. split; [by apply (has_mp_objs (kern s))|done]. }
    pose proof (may_block_context _ _ H) as Hctx. unfold in_thread_context in Hctx.
    apply bind_Ok_inv in Hctx as (u & _ & Hctx). rewrite Hctx. red_bind.
    rewrite (set_error_Ok _ _ _ H). red_bind.
    destruct (mp_wait_ok _ _ o time (set_error_may _ _ RT_EOK H) Ht) as (k' & -> & K' & Hc & Eo & _ & (l1 & l2 & El & El' & ->) & _).
    red_bind. eexists _, _. split; [done|]. split; [done|]. split; [done|]. split; [by apply (has_mp_objs (kern s))|].
    split; [by eexists|]. split; [exact Hc|]. cbn [kern Datatypes.app] in El, El' |- *. rewrite El'. f_equal. symmetry. exact El.
  - replace (zlen (b :: free) =? 0) with false by (symmetry; apply Z.eqb_neq; unfold zlen; cbn [length]; lia). cbv iota.
    destruct s as [k ws]. destruct (mp_take_ok k ws o p b free used P) as (next & -> & P'). red_bind.
    eexists _, _. split; [done|]. split; [apply put_body_ok, H|]. split; [done|]. split; [done|].
    exists (taken p next). split; [by apply (has_mp_put k o p)|]. by split.
Qed.

(** A block comes back to the front of the free list, and the thread at the
    front of the waiting list becomes ready. *)
Lemma rt_mp_free_spec s o p free used1 used2 b :
  kernel_ok (kern s) -> has_mp (kern s) o p -> pool_ok (words s) o p free (used1 ++ b :: used2) -> b + 4 <> 0 ->
  exists s' p', rt_mp_free s (b + 4) = Ok s' /\ kernel_ok (kern s') /\ has_mp (kern s') o p' /\
    pool_ok (words s') o p' (b :: free) (used1 ++ used2) /\ blocks p' = blocks p /\
    lst (kern s') (L_wait o) = tail (lst (kern s) (L_wait o)) /\
    forall t, head (lst (kern s) (L_wait o)) = Some t ->
      exists y, threads (kern s') !! t = Some y /\ active y /\ error y = RT_EOK.
Proof.
  intros K Hp P Hb. assert (Hn : wait_name (L_wait o)) by (exists o; by left).
  unfold rt_mp_free. rewrite (proj2 (Z.eqb_neq _ _)) by done. replace (b + 4 - 4) with b by lia. cbv zeta.
  rewrite (po_used _ _ _ _ _ P b) by (apply elem_of_app; right; by left). cbn [deref]. red_bind.
  rewrite (has_mp_get _ _ _ Hp). red_bind. fold (returned p b).
  pose proof (free_ok _ _ _ _ _ _ _ P) as P'. set (k1 := put_mp (kern s) o (returned p b)).
  assert (K1 : kernel_ok k1) by by apply put_body_ok.
  assert (Hp1 : has_mp k1 o (returned p b)) by by apply (has_mp_put (kern s) o p).
  change (lst (kern s) (L_wait o)) with (lst k1 (L_wait o)).
  destruct (lst k1 (L_wait o)) as [|t l] eqn:El.
  { eexists _, (returned p b). split; [done|]. split_and!; try done. }
  destruct (waiting_suspended k1 (L_wait o) t K1 Hn) as (x & Ex & Hx); [rewrite El; by left|].
  rewrite (upd_thread_Ok k1 t x) by done. red_bind. set (k2 := put_thread k1 t (with_error x RT_EOK)).
  assert (K2 : kernel_ok k2) by by apply (with_error_ok k1).
  assert (Hp2 : has_mp k2 o (returned p b)) by exact Hp1.
  destruct (resume_schedule_ok k2 (L_wait o) t l K2 Hn El) as (k' & z & y & E & K' & Eo & Hl & _ & Ez & Ey & Ha & Hy).
  unfold rt_ipc_list_resume in E. rewrite (El : lst k2 (L_wait o) = t :: l) in E. cbn [head deref] in E. 
  cbn [mbind result_bind] in E.
  destruct (rt_thread_resume k2 t) as [[k3 e]|]; [|done]. red_bind. cbn [mbind result_bind] in E. rewrite E. red_bind.
  eexists _, (returned p b). split; [done|]. split; [done|].
  split; [by apply (has_mp_objs k2)|]. split; [done|]. split; [done|]. split; [done|].
  intros t' [= <-]. exists y. split; [done|]. split; [done|].
  rewrite Hy. cbn [with_stat error]. cbn in Ez. rewrite lookup_insert_eq in Ez. by injection Ez as <-.
Qed.

(** *** Clients of a pool *)

(** The calls on the pool, in whichever thread (or, for a free, interrupt)
    runs; a block is named by the address of its first word. *)
Inductive mpop : Type :=
  | P_alloc (time : Z)
  | P_wake (time before : Z)
  | P_free (b : Z).

Definition got (r : turn (Z * Z)) (used : list Z) : list Z :=
  match r with Ret a => if a =? 0 then used else a - 4 :: used | Blocked _ => used end.

Definition mp_do (o : Z) (s : mps) (used : list Z) (op : mpop) : result (mps * list Z) :=
  match op with
  | P_alloc time => r ← rt_mp_alloc s o time; Ok (r.1, got r.2 used)
  | P_wake time before => r ← rt_mp_alloc_wake s o time before; Ok (r.1, got r.2 used)
  | P_free b => s ← rt_mp_free s (b + 4); Ok (s, filter (.≠ b) used)
  end.

(** A thread allocates where it may block, with a time below half the tick
    range, and frees only what it was given. *)
Definition enabled (s : mps) (used : list Z) (op : mpop) : Prop :=
  match op with
  | P_alloc time => time < TimerOps.TICK_HALF /\ exists c, may_block (kern s) c
  | P_wake time before => remaining (kern s) time before < TimerOps.TICK_HALF /\ exists c, may_block (kern s) c
  | P_free b => b ∈ used
  end.

(** What can come of the state [s0]: calls on the pool, and anything else
    that the kernel does meanwhile. *)
Inductive reaches (o : Z) (s0 : mps) : mps -> list Z -> Prop :=
  | reach_start : reaches o s0 s0 []
  | reach_call s used op s' used' : reaches o s0 s used -> enabled s used op ->
      mp_do o s used op = Ok (s', used') -> reaches o s0 s' used'
  | reach_kernel s used k' : reaches o s0 s used -> kernel_ok k' -> objs k' = objs (kern s) ->
      reaches o s0 (mk_mps k' (words s)) used.

(** The pool is consistent, and its blocks are those of [p0]. *)
Definition mp_inv (o : Z) (p0 : rt_mempool) (s : mps) (used : list Z) : Prop :=
  kernel_ok (kern s) /\ exists p free, has_mp (kern s) o p /\ pool_ok (words s) o p free used /\ blocks p = blocks p0.

Lemma turn_inv o p0 s used time c : mp_inv o p0 s used -> may_block (kern s) c -> time < TimerOps.TICK_HALF ->
  exists s' r, mp_alloc_turn s o time = Ok (s', r) /\ mp_inv o p0 s' (got r used).
Proof.
  intros (K & p & free & Hp & P & Eb) H Ht.
  destruct (mp_alloc_turn_spec s o p c free used time H Hp P Ht) as (s' & r & E & K' & Hr).
  exists s', r. split; [done|]. split; [done|]. destruct free as [|b free].
  - destruct Hr as (Hw & Hp' & Hr). exists p, []. rewrite Hw. split; [done|].
    destruct (time =? 0); [destruct Hr as [-> _]; done|]. by destruct Hr as ([w ->] & _).
  - destruct Hr as (-> & _ & p' & Hp' & P' & Eb'). exists p', free. split; [done|].
    assert (Hb : 0 < b).
    { assert (Hin : b ∈ blocks p) by (rewrite <- (po_blocks _ _ _ _ _ P); by left).
      apply list_elem_of_fmap in Hin as (i & -> & _). unfold block_at.
      pose proof (po_start _ _ _ _ _ P). pose proof (po_stride _ _ _ _ _ P). nia. }
    unfold got. rewrite (proj2 (Z.eqb_neq (b + 4) 0)) by lia. replace (b + 4 - 4) with b by lia.
    split; [done|]. by rewrite Eb'.
Qed.

Lemma mp_do_inv o p0 s used op : o <> 0 -> mp_inv o p0 s used -> enabled s used op ->
  exists s' used', mp_do o s used op = Ok (s', used') /\ mp_inv o p0 s' used'.
Proof.
  intros Ho I He. destruct op as [time|time before|b]; cbn [enabled mp_do] in *.
  - destruct He as (Ht & c & H). unfold rt_mp_alloc. rewrite (proj2 (Z.eqb_neq o 0)) by done. cbn [negb rt_assert]. red_bind.
    destruct (turn_inv o p0 s used time c I H Ht) as (s' & r & -> & I'). red_bind. by eexists _, _.
  - destruct He as (Ht & c & H). unfold rt_mp_alloc_wake, rt_thread_self.
    rewrite (thread_at_Ok _ _ c) by apply H. red_bind. destruct (negb (error c =? RT_EOK)).
    { red_bind. eexists _, _. split; [done|exact I]. }
    destruct (turn_inv o p0 s used _ c I H Ht) as (s' & r & -> & I'). red_bind. by eexists _, _.
  - destruct I as (K & p & free & Hp & P & Eb). apply list_elem_of_split in He as (l1 & l2 & ->).
    assert (Hb : b + 4 <> 0).
    { assert (Hin : b ∈ blocks p) by (rewrite <- (po_blocks _ _ _ _ _ P), !elem_of_app; right; right; by left).
      apply list_elem_of_fmap in Hin as (i & -> & _). unfold block_at.
      pose proof (po_start _ _ _ _ _ P). pose proof (po_stride _ _ _ _ _ P). nia. }
    destruct (rt_mp_free_spec s o p free l1 l2 b K Hp P Hb) as (s' & p' & -> & K' & Hp' & P' & Eb' & _). red_bind.
    eexists _, _. split; [done|]. split; [done|]. exists p', (b :: free).
    pose proof (pool_nodup _ _ _ _ _ P) as Hnd. apply NoDup_app in Hnd as (_ & _ & Hnd).
    rewrite <- Permutation_middle in Hnd. apply NoDup_cons in Hnd as [Hn _]. rewrite elem_of_app in Hn.
    rewrite filter_app, filter_cons_False by (by intros []).
    rewrite !filter_absent by (intros ?; apply Hn; auto). split; [done|]. split; [done|by rewrite Eb'].
Qed.

Lemma reaches_inv o p0 s0 s used : o <> 0 -> mp_inv o p0 s0 [] -> reaches o s0 s used -> mp_inv o p0 s used.
Proof.
  intros Ho I0 R. induction R as [|s used op s' used' R IH He E|s used k' R IH K' Eo]; [done| |].
  - destruct (mp_do_inv o p0 s used op Ho IH He) as (s2 & u2 & E2 & I'). rewrite E in E2. by injection E2 as <- <-.
  - destruct IH as (_ & p & free & Hp & P & Eb). split; [done|]. exists p, free. split; [by apply (has_mp_objs (kern s))|done].
Qed.

(** C4: clients that free only what they were given are safe on a pool.  After
    any interleaving of calls from any threads, and whatever the rest of the
    kernel does in between, every call that may be made returns (no
    assertion fails and no word outside the blocks is read or written); the
    blocks that are handed out are different blocks of the pool, none of
    them is free, and the free count is right. *)
Theorem mp_clients_safe o p s0 s used :
  o <> 0 -> kernel_ok (kern s0) -> has_mp (kern s0) o p -> pool_ok (words s0) o p (blocks p) [] ->
  reaches o s0 s used ->
  (forall op, enabled s used op -> exists s' used', mp_do o s used op = Ok (s', used')) /\
  kernel_ok (kern s) /\ NoDup used /\ (forall b, b ∈ used -> b ∈ blocks p) /\
  exists q free, has_mp (kern s) o q /\ free ++ used ≡ₚ blocks p /\
    block_free_count q = zlen free /\ chain (words s) (block_list q) free.
Proof.
  intros Ho K Hp P R.
  assert (I : mp_inv o p s used).
  { apply (reaches_inv o p s0); [done| |done]. split; [done|]. by exists p, (blocks p). }
  split; [intros op He; destruct (mp_do_inv o p s used op Ho I He) as (s' & u' & E & _); by exists s', u'|].
  destruct I as (K' & q & free & Hq & Q & Eb). split; [done|].
  pose proof (pool_nodup _ _ _ _ _ Q) as Hnd. pose proof (po_blocks _ _ _ _ _ Q) as Hperm. rewrite Eb in Hperm.
  split; [by apply NoDup_app in Hnd as (_ & _ & Hnd)|].
  split; [intros b Hb; rewrite <- Hperm; apply elem_of_app; by right|].
  exists q, free. split_and!; try done; apply Q.
Qed.

(** A pool of two blocks of 8 bytes, from which thread 3 takes one. *)
Definition mp_demo : mps :=
  mk_mps (with_objs KernThms.demo (<[100 := mk_object true (O_mempool (mk_mempool 1000 24 8 1000 2 2))]> ∅))
    (<[1000 := 1012]> (<[1012 := 0]> ∅)).

Lemma mp_clients_safe_witness : exists s, rt_mp_alloc mp_demo 100 0 = Ok (s, Ret 1004) /\
  exists s' used', mp_do 100 s [1000] (P_free 1000) = Ok (s', used').
Proof.
  assert (K : kernel_ok (kern mp_demo)) by (constructor; [constructor|..]; apply KernThms.demo_ok).
  eexists. split; [reflexivity|].
  refine (proj1 (mp_clients_safe 100 (mk_mempool 1000 24 8 1000 2 2) mp_demo _ [1000] _ K _ _ _) (P_free 1000) _);
    [done|by exists true| | |by left].
  - constructor; try done; [|intros b Hb; by apply elem_of_nil in Hb].
    split; [done|]. split; [done|]. exists 1012. split; [done|]. split; [done|]. split; [done|]. by exists 0.
  - apply (reach_call _ _ mp_demo [] (P_alloc 0)); [constructor| |reflexivity].
    split; [done|]. exists (KernThms.demo_thread RT_THREAD_RUNNING 10 1). by constructor; [exact K|..].
Defined.

End PoolThms.
