(* ===== verification/DevIpc.v ===== *)
(** * Completions and data queues of the device drivers
      (components/drivers/src/completion.c, dataqueue.c)

    [Completion] and [DataQueue] are the code, on the kernel state and the
    object's own fields; a function that may block is split at its
    [rt_schedule] as those of [Ipc] are.  [DevIpcThms] holds the properties:
    what a completion promises to its one waiter, and that a data queue is a
    bounded FIFO of buffers until its 16-bit indices wrap. *)
From S2P Require Import Prelude CTypes KService Timer Kernel KernelSpec KernelThms Ipc IpcSpec IpcThms.
From stdpp Require Import base list gmap.
From Stdlib Require Import ZArith Lia.
Open Scope Z_scope.

(** ** Completions *)
Module Completion.
Import Kern Sched Thread IpcList.

Definition RT_COMPLETED : Z := 1.
Definition RT_UNCOMPLETED : Z := 0.

(** [struct rt_completion]; [suspended_list] is the list [L_wait o] of the
    kernel, [o] being the address of the completion. *)
Record rt_completion : Type := mk_completion { c_flag : Z }.

Definition rt_completion_init (k : kernel) (o : Z) : kernel * rt_completion :=
  (put_list k (L_wait o) [], mk_completion RT_UNCOMPLETED).

Definition rt_completion_wait (k : kernel) (o : Z) (c : rt_completion) (timeout : Z)
  : result (kernel * rt_completion * turn unit) :=
  let t := rt_thread_self k in
  if negb (c_flag c =? RT_COMPLETED) then
    _ ← rt_assert (bool_decide (lst k (L_wait o) = []));
    if timeout =? 0 then Ok (k, c, Ret (- RT_ETIMEOUT))
    else
      k ← set_error k RT_EOK;
      '(k, _) ← rt_thread_suspend k t;
      k ← list_append k (L_wait o) t;
      _ ← not_in_interrupt k;
      k ← (if 0 <? timeout then start_timer k t timeout else Ok k);
      k ← rt_schedule k;
      Ok (k, c, Blocked tt)
  else Ok (k, mk_completion RT_UNCOMPLETED, Ret RT_EOK).

(** The thread executes again after it waited. *)
Definition rt_completion_wait_wake (k : kernel) (c : rt_completion) : result (rt_completion * Z) :=
  x ← thread_at k (rt_thread_self k);
  Ok (mk_completion RT_UNCOMPLETED, error x).

Definition rt_completion_done (k : kernel) (o : Z) (c : rt_completion) : result (kernel * rt_completion) :=
  if c_flag c =? RT_COMPLETED then Ok (k, c)
  else k ← Mailbox.wake_other k (L_wait o); Ok (k, mk_completion RT_COMPLETED).

End Completion.

(** ** Data queues *)
Module DataQueue.
Import Kern Sched Thread IpcList.

(** [rt_data_item]: the address and the size of a buffer. *)
Record rt_data_item : Type := mk_item { data_ptr : Z; data_size : Z }.

(** [struct rt_data_queue]; the list of the threads that wait to push is
    [L_send o], of those that wait to pop [L_wait o]. *)
Record rt_data_queue : Type := mk_dq {
  dq_size : Z;
  dq_lwm : Z;
  get_index : Z;
  put_index : Z;
  queue : list rt_data_item
}.

Definition with_put (q : rt_data_queue) (l : list rt_data_item) (i : Z) : rt_data_queue :=
  mk_dq (dq_size q) (dq_lwm q) (get_index q) (u16 i) l.
Definition with_get (q : rt_data_queue) (i : Z) : rt_data_queue :=
  mk_dq (dq_size q) (dq_lwm q) (u16 i) (put_index q) (queue q).

(** The events that [evt_notify] is called with, when there is one. *)
Definition RT_DATAQUEUE_EVENT_POP : Z := 1.
Definition RT_DATAQUEUE_EVENT_PUSH : Z := 2.
Definition RT_DATAQUEUE_EVENT_LWM : Z := 3.

(** [heap] is the array that [rt_malloc] returned, if it had memory. *)
Definition rt_data_queue_init (k : kernel) (o size lwm : Z) (heap : option (list rt_data_item))
  : kernel * rt_data_queue * Z :=
  let k := put_list (put_list k (L_send o) []) (L_wait o) [] in
  match heap with
  | Some l => (k, mk_dq (u16 size) (u16 lwm) 0 0 l, RT_EOK)
  | None => (k, mk_dq (u16 size) (u16 lwm) 0 0 [], - RT_ENOMEM)
  end.

(** [put_index - get_index]: the operands are promoted to [int], so that the
    difference of two 16-bit indices does not wrap. *)
Definition index_difference (q : rt_data_queue) : Z := put_index q - get_index q.

Definition dq_put (q : rt_data_queue) (x : rt_data_item) : result rt_data_queue :=
  l ← zset (queue q) (put_index q mod dq_size q) x;
  Ok (with_put q l (put_index q + 1)).

Definition dq_get (q : rt_data_queue) : result (rt_data_queue * rt_data_item) :=
  x ← zget (queue q) (get_index q mod dq_size q);
  Ok (with_get q (get_index q + 1), x).

(** One turn of the loop of [rt_data_queue_push], with the event at its end.
    A thread that waits starts over with the same timeout. *)
Definition rt_data_queue_push (k : kernel) (o : Z) (q : rt_data_queue) (x : rt_data_item) (timeout : Z)
  : result (kernel * rt_data_queue * turn unit * option Z) :=
  if index_difference q =? dq_size q then
    if timeout =? 0 then Ok (k, q, Ret (- RT_ETIMEOUT), None)
    else
      _ ← not_in_interrupt k;
      k ← set_error k RT_EOK;
      k ← wait_on k (L_send o) RT_IPC_FLAG_FIFO timeout;
      Ok (k, q, Blocked tt, None)
  else
    q ← dq_put q x;
    match lst k (L_wait o) with
    | _ :: _ => k ← Mailbox.wake_other k (L_wait o); Ok (k, q, Ret RT_EOK, None)
    | [] => Ok (k, q, Ret RT_EOK, Some RT_DATAQUEUE_EVENT_PUSH)
    end.

Definition rt_data_queue_push_wake (k : kernel) (o : Z) (q : rt_data_queue) (x : rt_data_item) (timeout : Z)
  : result (kernel * rt_data_queue * turn unit * option Z) :=
  y ← thread_at k (rt_thread_self k);
  if negb (error y =? RT_EOK) then Ok (k, q, Ret (error y), None)
  else rt_data_queue_push k o q x timeout.

Definition rt_data_queue_pop (k : kernel) (o : Z) (q : rt_data_queue) (timeout : Z)
  : result (kernel * rt_data_queue * turn unit * option rt_data_item * option Z) :=
  if get_index q =? put_index q then
    if timeout =? 0 then Ok (k, q, Ret (- RT_ETIMEOUT), None, None)
    else
      _ ← not_in_interrupt k;
      k ← set_error k RT_EOK;
      k ← wait_on k (L_wait o) RT_IPC_FLAG_FIFO timeout;
      Ok (k, q, Blocked tt, None, None)
  else
    '(q, x) ← dq_get q;
    if index_difference q <=? dq_lwm q then
      k ← Mailbox.wake_other k (L_send o);
      Ok (k, q, Ret RT_EOK, Some x, Some RT_DATAQUEUE_EVENT_LWM)
    else Ok (k, q, Ret RT_EOK, Some x, Some RT_DATAQUEUE_EVENT_POP).

Definition rt_data_queue_pop_wake (k : kernel) (o : Z) (q : rt_data_queue) (timeout : Z)
  : result (kernel * rt_data_queue * turn unit * option rt_data_item * option Z) :=
  y ← thread_at k (rt_thread_self k);
  if negb (error y =? RT_EOK) then Ok (k, q, Ret (error y), None, None)
  else rt_data_queue_pop k o q timeout.

Definition rt_data_queue_peak (q : rt_data_queue) : result (option rt_data_item * Z) :=
  if get_index q =? put_index q then Ok (None, - RT_EEMPTY)
  else x ← zget (queue q) (get_index q mod dq_size q); Ok (Some x, RT_EOK).

(** The items stay in the queue. *)
Definition rt_data_queue_reset (k : kernel) (o : Z) : result kernel :=
  let k := rt_enter_critical k in
  k ← rt_ipc_list_resume_all k (L_wait o);
  k ← rt_ipc_list_resume_all k (L_send o);
  k ← rt_exit_critical k;
  rt_schedule k.

End DataQueue.

(** ** Properties *)
Module DevIpcThms.
Import Kern Sched Thread KernInv KernOk IpcList IpcInv IpcThms Completion DataQueue.

(** *** Completions *)

(** The kernel after a wait: the running thread is the one thread in the list
    of the completion, with its error cleared. *)
Definition waits_alone (k k' : kernel) (o : Z) (timeout : Z) : Prop :=
  kernel_ok k' /\ current k' <> current k /\ lst k' (L_wait o) = [current k] /\
  (exists y, threads k' !! current k = Some y /\ stat_of y = RT_THREAD_SUSPEND /\ error y = RT_EOK) /\
  (0 < timeout <-> thread_timer (current k) ∈ TimerOps.rt_timer_list (tst k')).

Lemma completion_blocks k o c x timeout : may_block k x -> lst k (L_wait o) = [] -> timeout <> 0 ->
  timeout < TimerOps.TICK_HALF -> c_flag c <> RT_COMPLETED ->
  exists k', rt_completion_wait k o c timeout = Ok (k', c, Blocked tt) /\ waits_alone k k' o timeout.
Proof.
  intros H El H0 Ht Hc. assert (Hn : wait_name (L_wait o)) by (exists o; by left).
  unfold rt_completion_wait. rewrite (proj2 (Z.eqb_neq _ _) Hc), El, (proj2 (Z.eqb_neq _ _) H0). cbn [negb].
  rewrite bool_decide_true by done. cbn [rt_assert]. red_bind. rewrite (set_error_Ok k x _ H). red_bind.
  pose proof (set_error_may k x RT_EOK H) as H1. set (k1 := put_thread k _ _) in *. unfold rt_thread_self.
  change (current k) with (current k1).
  destruct (suspend_put_ok k1 (L_wait o) (current k1) _ (mb_kernel _ _ H1) (mb_current _ _ H1)
    (or_intror (mb_running _ _ H1)) (mb_not_idle _ _ H1) Hn) as (k2 & -> & K2 & _ & Hl & Hul & _ & Hput).
  red_bind. unfold list_append. rewrite Hul. red_bind.
  specialize (Hput (fun _ l2 => l2 = []) (lst k1 (L_wait o)) [] (eq_sym (app_nil_r _)) eq_refl).
  rewrite Hl. set (k3 := put_list k2 _ _) in *.
  assert (Hni : not_in_interrupt k3 = Ok tt).
  { destruct Hput as (_ & _ & _ & _ & E & _). unfold not_in_interrupt. rewrite E.
    pose proof (may_block_context _ _ H1) as Hc1. unfold in_thread_context in Hc1.
    by apply bind_Ok_inv in Hc1 as ([] & _ & Hc1). }
  rewrite Hni. red_bind.
  destruct (blocked_switch k1 k3 (L_wait o) _ _ timeout (mb_kernel _ _ H1) (mb_current _ _ H1) (mb_running _ _ H1)
    (mb_unlocked _ _ H1) (mb_not_idle _ _ H1) Hn Ht Hput) as (k' & E & Hw).
  destruct (if 0 <? timeout then start_timer k3 (current k1) timeout else Ok k3) as [k4|]; [|done].
  cbn [mbind result_bind] in E |- *. rewrite E. red_bind. exists k'. split; [done|].
  destruct Hw as (K' & Hcur & _ & (y & Ey & Hy & _ & Hye & _) & (l1 & l2 & E1 & E2 & ->) & _ & _ & Hp1 & Hp2).
  split; [done|]. split; [done|]. rewrite app_nil_r in E1. split; [rewrite E2, <- E1; exact (f_equal (.++ [_]) El)|].
  split; [exists y; split; [exact Ey|]; by rewrite Hye|]. split; [exact Hp1|]. intros Hin.
  destruct (Z.ltb_spec 0 timeout); [done|]. by destruct (Hp2 ltac:(lia)).
Qed.

(** C18: a completion is a flag that one thread can wait for.  A wait returns at
    once when the flag is set, fails without a timeout, and otherwise leaves
    the thread alone in the list; a signal sets the flag and makes the thread
    ready, which returns RT_EOK when it runs again, and the flag is clear
    then.  A second signal before that changes nothing. *)
Theorem rt_completion_spec k o c x timeout :
  may_block k x -> lst k (L_wait o) = [] -> timeout < TimerOps.TICK_HALF ->
  exists k1 c1 r, rt_completion_wait k o c timeout = Ok (k1, c1, r) /\
    if c_flag c =? RT_COMPLETED then k1 = k /\ c_flag c1 = RT_UNCOMPLETED /\ r = Ret RT_EOK
    else if timeout =? 0 then k1 = k /\ c1 = c /\ r = Ret (- RT_ETIMEOUT)
    else r = Blocked tt /\ c1 = c /\ waits_alone k k1 o timeout /\
      exists k2 c2, rt_completion_done k1 o c1 = Ok (k2, c2) /\ kernel_ok k2 /\
        c_flag c2 = RT_COMPLETED /\ lst k2 (L_wait o) = [] /\ rt_completion_done k2 o c2 = Ok (k2, c2) /\
        exists y, threads k2 !! current k = Some y /\ active y /\ error y = RT_EOK /\
          forall k3, current k3 = current k -> threads k3 !! current k = Some y ->
            rt_completion_wait_wake k3 c2 = Ok (mk_completion RT_UNCOMPLETED, RT_EOK).
Proof.
  intros H El Ht. destruct (Z.eqb_spec (c_flag c) RT_COMPLETED) as [Hc|Hc].
  { unfold rt_completion_wait. rewrite (proj2 (Z.eqb_eq _ _) Hc). by eexists _, _, _. }
  destruct (Z.eqb_spec timeout 0) as [->|H0].
  { unfold rt_completion_wait. rewrite (proj2 (Z.eqb_neq _ _) Hc), El. by eexists _, _, _. }
  destruct (completion_blocks k o c x timeout H El H0 Ht Hc) as (k1 & -> & Hw). exists k1, c, (Blocked tt).
  split; [done|]. split; [done|]. split; [done|]. split; [done|].
  destruct Hw as (K1 & _ & El1 & (z & Ez & _ & Hz) & _). unfold rt_completion_done at 1.
  rewrite (proj2 (Z.eqb_neq _ _) Hc). unfold Mailbox.wake_other. rewrite El1.
  destruct (resume_schedule_ok k1 (L_wait o) (current k) [] K1) as (k2 & x2 & y & -> & K2 & _ & El2 & _ & Ex & Ey & Ha & Hy);
    [exists o; by left|done|].
  red_bind. exists k2, (mk_completion RT_COMPLETED). split; [done|]. split; [done|]. split; [done|]. split; [done|].
  split; [done|]. exists y. split; [done|]. split; [done|]. rewrite Ez in Ex. injection Ex as <-.
  assert (He : error y = RT_EOK) by (by rewrite Hy). split; [done|]. intros k3 Ec E3.
  unfold rt_completion_wait_wake, rt_thread_self. rewrite Ec, (thread_at_Ok _ _ y) by done. red_bind. by rewrite He.
Qed.

Lemma rt_completion_spec_witness : exists k1, rt_completion_wait sem_demo 300 (mk_completion RT_UNCOMPLETED) 20 =
  Ok (k1, mk_completion RT_UNCOMPLETED, Blocked tt) /\ lst k1 (L_wait 300) = [3].
Proof.
  destruct (rt_completion_spec sem_demo 300 (mk_completion RT_UNCOMPLETED) _ 20 sem_demo_may)
    as (k1 & c1 & r & E & -> & -> & (_ & _ & El & _) & _); [reflexivity..|].
  exists k1. split; [exact E|exact El].
Defined.

(** A thread whose wait timed out clears the flag when it runs again, also
    when the signal came in between: the next wait blocks. *)
Lemma completion_timeout_loses k o c y :
  threads k !! current k = Some y -> error y = - RT_ETIMEOUT -> lst k (L_wait o) = [] ->
  exists c1, rt_completion_done k o c = Ok (k, c1) /\ c_flag c1 = RT_COMPLETED /\
    rt_completion_wait_wake k c1 = Ok (mk_completion RT_UNCOMPLETED, - RT_ETIMEOUT).
Proof.
  intros Ey He El. unfold rt_completion_done, Mailbox.wake_other. rewrite El. red_bind.
  assert (Hw : forall c, rt_completion_wait_wake k c = Ok (mk_completion RT_UNCOMPLETED, - RT_ETIMEOUT)).
  { intros c'. unfold rt_completion_wait_wake, rt_thread_self. rewrite (thread_at_Ok _ _ y) by done. red_bind. by rewrite He. }
  destruct (Z.eqb_spec (c_flag c) RT_COMPLETED); eexists; (split; [done|]); (split; [done|apply Hw]).
Qed.

(** *** Data queues *)

(** The queue after the items [pushed] were pushed and the first [popped] of
    them popped, while the put index has not wrapped. *)
Record dq_ok (q : rt_data_queue) (pushed : list rt_data_item) (popped : nat) : Prop := {
  dq_bounds : 0 < dq_size q < 65536;
  dq_array : zlen (queue q) = dq_size q;
  dq_put_index : put_index q = zlen pushed;
  dq_get_index : get_index q = Z.of_nat popped;
  dq_short : zlen pushed < 65536;
  dq_held : 0 <= zlen pushed - Z.of_nat popped <= dq_size q;
  dq_items : forall i, Z.of_nat popped <= i < zlen pushed ->
    queue q !! Z.to_nat (i mod dq_size q) = pushed !! Z.to_nat i
}.

Lemma mod_apart i j n : 0 < n -> 0 < j - i < n -> i mod n <> j mod n.
Proof.
  intros Hn Hd E. assert (H : (j - i) mod n = 0) by (rewrite Zminus_mod, E, Z.sub_diag; by apply Z.mod_0_l; lia).
  rewrite Z.mod_small in H by lia. lia.
Qed.

Lemma dq_put_ok q pushed popped x : dq_ok q pushed popped -> zlen pushed < 65535 ->
  index_difference q <> dq_size q ->
  exists q', dq_put q x = Ok q' /\ dq_size q' = dq_size q /\ dq_ok q' (pushed ++ [x]) popped.
Proof.
  intros [Hb Ha Hp Hg Hs Hh Hi] Hl Hd. unfold index_difference in Hd. unfold dq_put.
  pose proof (Z.mod_pos_bound (zlen pushed) (dq_size q) ltac:(lia)) as Hm.
  rewrite Hp, zset_Ok by lia. red_bind. eexists. split; [done|]. split; [done|].
  constructor; cbn [with_put dq_size queue put_index get_index]; rewrite ?zlen_app; try done.
  - unfold zlen in *. by rewrite length_insert.
  - rewrite u16_small; unfold zlen in *; cbn [length]; lia.
  - unfold zlen in *; cbn [length]; lia.
  - unfold zlen in *; cbn [length]; lia.
  - intros i Hr. destruct (decide (i = zlen pushed)) as [->|].
    + rewrite list_lookup_insert_eq by (unfold zlen in *; lia).
      unfold zlen. rewrite Nat2Z.id, lookup_app_r, Nat.sub_diag by lia. done.
    + assert (Hlt : Z.of_nat popped <= i < zlen pushed) by (unfold zlen in *; cbn [length] in *; lia).
      rewrite list_lookup_insert_ne.
      * rewrite lookup_app_l by (unfold zlen in *; lia). by apply Hi.
      * intros E. apply (mod_apart i (zlen pushed) (dq_size q)); [lia|unfold zlen in *; lia|].
        apply Z2Nat.inj in E; [done|apply Z.mod_pos_bound; lia|apply Z.mod_pos_bound; lia].
Qed.

Lemma dq_get_ok q pushed popped : dq_ok q pushed popped -> get_index q <> put_index q ->
  exists q' x, dq_get q = Ok (q', x) /\ pushed !! popped = Some x /\ dq_size q' = dq_size q /\
    dq_ok q' pushed (S popped).
Proof.
  intros [Hb Ha Hp Hg Hs Hh Hi] Hne. unfold dq_get.
  pose proof (Z.mod_pos_bound (get_index q) (dq_size q) ltac:(lia)) as Hm.
  assert (Hx : is_Some (pushed !! popped)) by (apply lookup_lt_is_Some; unfold zlen in *; lia).
  destruct Hx as [x Ex].
  rewrite (zget_Ok _ _ x); [|lia|rewrite Hi by lia; by rewrite Hg, Nat2Z.id].
  red_bind. eexists _, x. split; [done|]. split; [done|]. split; [done|].
  constructor; cbn [with_get dq_size queue put_index get_index]; try done.
  - rewrite Hg, u16_small; lia.
  - lia.
  - intros i Hr. apply Hi. lia.
Qed.

(** The calls on a queue, by whichever thread runs, and what was pushed and
    popped so far. *)
Inductive dqop : Type :=
  | D_push (x : rt_data_item) (timeout : Z)
  | D_push_wake (x : rt_data_item) (timeout : Z)
  | D_pop (timeout : Z)
  | D_pop_wake (timeout : Z).

Record dqs : Type := mk_dqs {
  dq_kern : kernel;
  dq_q : rt_data_queue;
  pushed : list rt_data_item;
  popped : list rt_data_item
}.

Definition after_push (s : dqs) (x : rt_data_item) (r : kernel * rt_data_queue * turn unit * option Z) : dqs :=
  let '(k, q, r, _) := r in
  mk_dqs k q (match r with Ret 0 => pushed s ++ [x] | _ => pushed s end) (popped s).

Definition after_pop (s : dqs) (r : kernel * rt_data_queue * turn unit * option rt_data_item * option Z) : dqs :=
  let '(k, q, _, x, _) := r in
  mk_dqs k q (pushed s) (match x with Some x => popped s ++ [x] | None => popped s end).

Definition dq_do (o : Z) (s : dqs) (op : dqop) : result dqs :=
  match op with
  | D_push x timeout => r ← rt_data_queue_push (dq_kern s) o (dq_q s) x timeout; Ok (after_push s x r)
  | D_push_wake x timeout => r ← rt_data_queue_push_wake (dq_kern s) o (dq_q s) x timeout; Ok (after_push s x r)
  | D_pop timeout => r ← rt_data_queue_pop (dq_kern s) o (dq_q s) timeout; Ok (after_pop s r)
  | D_pop_wake timeout => r ← rt_data_queue_pop_wake (dq_kern s) o (dq_q s) timeout; Ok (after_pop s r)
  end.

Definition dq_enabled (s : dqs) (op : dqop) : Prop :=
  (exists c, may_block (dq_kern s) c) /\
  match op with
  | D_push _ timeout | D_push_wake _ timeout => timeout < TimerOps.TICK_HALF /\ zlen (pushed s) < 65535
  | D_pop timeout | D_pop_wake timeout => timeout < TimerOps.TICK_HALF
  end.

Inductive dq_reaches (o : Z) (s0 : dqs) : dqs -> Prop :=
  | dq_start : dq_reaches o s0 s0
  | dq_call s op s' : dq_reaches o s0 s -> dq_enabled s op -> dq_do o s op = Ok s' -> dq_reaches o s0 s'
  | dq_other s k' : dq_reaches o s0 s -> kernel_ok k' ->
      dq_reaches o s0 (mk_dqs k' (dq_q s) (pushed s) (popped s)).

Definition dq_inv (n : Z) (s : dqs) : Prop :=
  kernel_ok (dq_kern s) /\ dq_ok (dq_q s) (pushed s) (length (popped s)) /\ popped s `prefix_of` pushed s /\
  dq_size (dq_q s) = n.

Lemma wait_names o : wait_name (L_wait o) /\ wait_name (L_send o).
Proof. split; exists o; [by left|by right]. Qed.

(** What both calls do when they cannot go on. *)
Lemma dq_block k n c timeout : may_block k c -> wait_name n -> timeout < TimerOps.TICK_HALF ->
  not_in_interrupt k = Ok tt /\
  exists k', (k ← set_error k RT_EOK; wait_on k n RT_IPC_FLAG_FIFO timeout) = Ok k' /\ kernel_ok k'.
Proof.
  intros H Hn Ht. split.
  { pose proof (may_block_context k c H) as Hc. unfold in_thread_context in Hc.
    by apply bind_Ok_inv in Hc as ([] & _ & Hc). }
  rewrite (set_error_Ok k c _ H). red_bind.
  destruct (wait_on_may _ _ n RT_IPC_FLAG_FIFO timeout (set_error_may k c RT_EOK H) Hn (or_introl eq_refl) Ht)
    as (k' & -> & K' & _). by exists k'.
Qed.

Lemma held_difference q P n : dq_ok q P n -> index_difference q = zlen P - Z.of_nat n.
Proof. intros D. unfold index_difference. by rewrite (dq_put_index _ _ _ D), (dq_get_index _ _ _ D). Qed.

Lemma push_full k o q x timeout c : may_block k c -> index_difference q = dq_size q ->
  timeout <> 0 -> timeout < TimerOps.TICK_HALF ->
  exists k', rt_data_queue_push k o q x timeout = Ok (k', q, Blocked tt, None) /\ kernel_ok k'.
Proof.
  intros H E H0 Ht. unfold rt_data_queue_push. rewrite (proj2 (Z.eqb_eq _ _) E), (proj2 (Z.eqb_neq _ _) H0).
  destruct (dq_block k (L_send o) c timeout H (proj2 (wait_names o)) Ht) as (-> & k' & Ek & K'). red_bind.
  destruct (set_error k RT_EOK) as [k1|]; [|done]. cbn [mbind result_bind] in Ek |- *. rewrite Ek. red_bind.
  by exists k'.
Qed.

Lemma push_room k o q x timeout P n : kernel_ok k -> dq_ok q P n -> zlen P < 65535 -> index_difference q <> dq_size q ->
  exists k' q' e, rt_data_queue_push k o q x timeout = Ok (k', q', Ret RT_EOK, e) /\ kernel_ok k' /\
    dq_size q' = dq_size q /\ dq_ok q' (P ++ [x]) n.
Proof.
  intros K D Hl E. unfold rt_data_queue_push. rewrite (proj2 (Z.eqb_neq _ _) E).
  destruct (dq_put_ok _ _ _ x D Hl E) as (q' & -> & Hsz & D'). red_bind.
  destruct (lst k (L_wait o)) eqn:El; [by eexists k, q', _|].
  destruct (wake_other_ok k (L_wait o) K (proj1 (wait_names o))) as (k' & -> & K' & _). red_bind. by eexists k', q', _.
Qed.

Lemma pop_empty k o q timeout c : may_block k c -> get_index q = put_index q ->
  timeout < TimerOps.TICK_HALF ->
  exists k' r, rt_data_queue_pop k o q timeout = Ok (k', q, r, None, None) /\ kernel_ok k'.
Proof.
  intros H E Ht. unfold rt_data_queue_pop. rewrite (proj2 (Z.eqb_eq _ _) E).
  destruct (timeout =? 0); [eexists k, _; split; [done|apply H]|].
  destruct (dq_block k (L_wait o) c timeout H (proj1 (wait_names o)) Ht) as (-> & k' & Ek & K'). red_bind.
  destruct (set_error k RT_EOK) as [k1|]; [|done]. cbn [mbind result_bind] in Ek |- *. rewrite Ek. red_bind.
  by eexists k', _.
Qed.

Lemma pop_item k o q timeout P n : kernel_ok k -> dq_ok q P n -> get_index q <> put_index q ->
  exists k' q' x e, rt_data_queue_pop k o q timeout = Ok (k', q', Ret RT_EOK, Some x, Some e) /\ kernel_ok k' /\
    P !! n = Some x /\ dq_size q' = dq_size q /\ dq_ok q' P (S n).
Proof.
  intros K D E. unfold rt_data_queue_pop. rewrite (proj2 (Z.eqb_neq _ _) E).
  destruct (dq_get_ok _ _ _ D E) as (q' & x & -> & Ex & Hsz & D'). red_bind.
  destruct (index_difference q' <=? dq_lwm q'); [|by eexists k, q', x, _].
  destruct (wake_other_ok k (L_send o) K (proj2 (wait_names o))) as (k' & -> & K' & _). red_bind.
  by eexists k', q', x, _.
Qed.

Lemma peak_ok q P n : dq_ok q P n -> exists e, rt_data_queue_peak q = Ok (P !! n, e).
Proof.
  intros [Hb Ha Hp Hg Hs Hh Hi]. unfold rt_data_queue_peak.
  destruct (Z.eqb_spec (get_index q) (put_index q)) as [E|E].
  - rewrite (proj2 (lookup_ge_None P n)) by (unfold zlen in *; lia). by eexists.
  - assert (Hx : is_Some (P !! n)) by (apply lookup_lt_is_Some; unfold zlen in *; lia). destruct Hx as [x Ex].
    rewrite (zget_Ok _ _ x); [|apply Z.mod_pos_bound; lia|rewrite Hi by lia; by rewrite Hg, Nat2Z.id].
    red_bind. rewrite Ex. by eexists.
Qed.

Lemma push_inv n o s c x timeout : dq_inv n s -> may_block (dq_kern s) c -> timeout < TimerOps.TICK_HALF ->
  zlen (pushed s) < 65535 ->
  exists r, rt_data_queue_push (dq_kern s) o (dq_q s) x timeout = Ok r /\ dq_inv n (after_push s x r) /\
    (zlen (pushed s) - zlen (popped s) < n ->
       exists k' q' e, r = (k', q', Ret RT_EOK, e) /\ pushed (after_push s x r) = pushed s ++ [x]).
Proof.
  intros (K & D & Hpre & Hn) H Ht Hl. pose proof (held_difference _ _ _ D) as Hd.
  destruct (Z.eqb_spec (index_difference (dq_q s)) (dq_size (dq_q s))) as [E|E].
  - destruct (Z.eq_dec timeout 0) as [->|H0].
    + unfold rt_data_queue_push. rewrite (proj2 (Z.eqb_eq _ _) E). eexists. split; [done|]. split; [done|].
      unfold zlen in *. lia.
    + destruct (push_full _ o _ x timeout c H E H0 Ht) as (k' & -> & K'). eexists. split; [done|]. split; [done|].
      unfold zlen in *. lia.
  - destruct (push_room _ o _ x timeout _ _ K D Hl E) as (k' & q' & e & -> & K' & Hsz & D').
    eexists. split; [done|]. split; [|intros _; by exists k', q', e]. split; [done|]. split; [done|].
    split; [by apply prefix_app_r|by rewrite Hn in Hsz].
Qed.

Lemma pop_inv n o s c timeout : dq_inv n s -> may_block (dq_kern s) c -> timeout < TimerOps.TICK_HALF ->
  exists r, rt_data_queue_pop (dq_kern s) o (dq_q s) timeout = Ok r /\ dq_inv n (after_pop s r) /\
    (forall x, pushed s !! length (popped s) = Some x ->
       exists k' q' e, r = (k', q', Ret RT_EOK, Some x, Some e)).
Proof.
  intros (K & D & Hpre & Hn) H Ht.
  destruct (Z.eqb_spec (get_index (dq_q s)) (put_index (dq_q s))) as [E|E].
  - destruct (pop_empty _ o _ timeout c H E Ht) as (k' & r & -> & K'). eexists. split; [done|]. split; [done|].
    rewrite (proj2 (lookup_ge_None _ _)); [done|].
    rewrite (dq_put_index _ _ _ D), (dq_get_index _ _ _ D) in E. unfold zlen in E. lia.
  - destruct (pop_item _ o _ timeout _ _ K D E) as (k' & q' & x & e & -> & K' & Ex & Hsz & D').
    eexists. split; [done|]. split; [|rewrite Ex; intros y [= <-]; by eexists _, _, _].
    split; [done|]. cbn. split; [by rewrite length_app, Nat.add_1_r|]. split; [|by rewrite Hn in Hsz].
    destruct Hpre as [rest Hr]. rewrite Hr, lookup_app_r, Nat.sub_diag in Ex by lia.
    destruct rest as [|y rest]; [done|]. injection Ex as ->. exists rest. by rewrite Hr, <- app_assoc.
Qed.

Lemma dq_do_inv n o s op : dq_inv n s -> dq_enabled s op -> exists s', dq_do o s op = Ok s' /\ dq_inv n s'.
Proof.
  intros I [[c H] He]. destruct op as [x timeout|x timeout|timeout|timeout]; cbn [dq_enabled dq_do] in *.
  - destruct He as [Ht Hl]. destruct (push_inv n o s c x timeout I H Ht Hl) as (r & -> & I' & _). red_bind. by eexists.
  - destruct He as [Ht Hl]. unfold rt_data_queue_push_wake, rt_thread_self. rewrite (thread_at_Ok _ _ c) by apply H. red_bind.
    destruct (Z.eqb_spec (error c) RT_EOK) as [Ec|Ec]; cbn [negb].
    + destruct (push_inv n o s c x timeout I H Ht Hl) as (r & -> & I' & _). red_bind. by eexists.
    + red_bind. eexists. split; [done|]. unfold after_push. by destruct (error c).
  - destruct (pop_inv n o s c timeout I H He) as (r & -> & I' & _). red_bind. by eexists.
  - unfold rt_data_queue_pop_wake, rt_thread_self. rewrite (thread_at_Ok _ _ c) by apply H. red_bind.
    destruct (negb _); [red_bind; by eexists|].
    destruct (pop_inv n o s c timeout I H He) as (r & -> & I' & _). red_bind. by eexists.
Qed.

Lemma dq_reaches_inv n o s0 s : dq_inv n s0 -> dq_reaches o s0 s -> dq_inv n s.
Proof.
  intros I0 R. induction R as [|s op s' R IH He E|s k' R IH K']; [done| |].
  - destruct (dq_do_inv n o s op IH He) as (s2 & E2 & I'). rewrite E in E2. by injection E2 as <-.
  - by destruct IH as (_ & D & Hp).
Qed.

(** C8: a data queue is a bounded FIFO of buffers for the first 65535 pushes.
    In any interleaving of calls by any threads, and whatever the kernel does
    between them, every call that may be made returns, what was popped is a
    prefix of what was pushed, and the queue holds no more than its size; a
    push succeeds when there is room, and a pop takes the oldest item. *)
Theorem data_queue_fifo o k0 k size lwm heap :
  kernel_ok k -> 0 < size < 65536 -> zlen heap = size ->
  let q := (rt_data_queue_init k0 o size lwm (Some heap)).1.2 in
  forall s, dq_reaches o (mk_dqs k q [] []) s ->
  popped s `prefix_of` pushed s /\ zlen (pushed s) - zlen (popped s) <= size /\
  (forall op, dq_enabled s op -> exists s', dq_do o s op = Ok s') /\
  (forall x timeout s', dq_enabled s (D_push x timeout) -> dq_do o s (D_push x timeout) = Ok s' ->
     zlen (pushed s) - zlen (popped s) < size -> pushed s' = pushed s ++ [x]) /\
  (forall x timeout s', dq_enabled s (D_pop timeout) -> dq_do o s (D_pop timeout) = Ok s' ->
     pushed s !! length (popped s) = Some x -> popped s' = popped s ++ [x]).
Proof.
  intros K Hs Hh q s R.
  assert (I : dq_inv size s).
  { apply (dq_reaches_inv size o (mk_dqs k q [] [])); [|done]. split; [done|]. cbn [dq_q pushed popped]. unfold q. cbn.
    rewrite u16_small by lia. split; [|by split]. constructor; cbn; try done; [unfold zlen; cbn; lia|].
    intros i Hi. unfold zlen in Hi. cbn in Hi. lia. }
  pose proof I as (_ & D & Hpre & Hn). split; [done|].
  split; [rewrite <- Hn; apply (dq_held _ _ _ D)|].
  split; [intros op He; destruct (dq_do_inv size o s op I He) as (s' & E & _); by exists s'|]. split.
  - intros x timeout s' [[c H] [Ht Hl]] E Hroom.
    destruct (push_inv size o s c x timeout I H Ht Hl) as (r & Er & _ & Hr).
    destruct (Hr Hroom) as (k' & q' & e & _ & Hp). cbn [dq_do] in E. rewrite Er in E. by injection E as <-.
  - intros x timeout s' [[c H] Ht] E Hx.
    destruct (pop_inv size o s c timeout I H Ht) as (r & Er & _ & Hr).
    destruct (Hr x Hx) as (k' & q' & e & ->). cbn [dq_do] in E. rewrite Er in E. by injection E as <-.
Qed.

Definition dq_demo : dqs :=
  mk_dqs sem_demo (rt_data_queue_init sem_demo 300 4 1 (Some (replicate 4 (mk_item 0 0)))).1.2 [] [].

Lemma data_queue_fifo_witness : exists s1 s2, dq_do 300 dq_demo (D_push (mk_item 5000 16) 0) = Ok s1 /\
  dq_do 300 s1 (D_pop 0) = Ok s2 /\ popped s2 = [mk_item 5000 16].
Proof.
  eexists _, _. split; [reflexivity|]. split; [reflexivity|].
  destruct (data_queue_fifo 300 sem_demo sem_demo 4 1 (replicate 4 (mk_item 0 0)) sem_demo_ok ltac:(done) eq_refl
    (mk_dqs sem_demo (mk_dq 4 1 0 1 (mk_item 5000 16 :: replicate 3 (mk_item 0 0))) [mk_item 5000 16] []))
    as (_ & _ & _ & _ & Hpop).
  - apply (dq_call _ _ dq_demo (D_push (mk_item 5000 16) 0)); [constructor| |reflexivity].
    split; [|done]. eexists. exact sem_demo_may.
  - apply (Hpop (mk_item 5000 16) 0); [|reflexivity..]. split; [|done]. eexists. exact sem_demo_may.
Defined.

(** Once the put index has wrapped, and until the get index wraps too, the
    queue never counts as full: a push overwrites the item that is there. *)
Theorem push_after_wrap k o q x timeout :
  0 <= put_index q < get_index q -> 0 < dq_size q -> zlen (queue q) = dq_size q -> lst k (L_wait o) = [] ->
  rt_data_queue_push k o q x timeout =
    Ok (k, with_put q (<[Z.to_nat (put_index q mod dq_size q) := x]> (queue q)) (put_index q + 1), Ret RT_EOK,
        Some RT_DATAQUEUE_EVENT_PUSH).
Proof.
  intros Hw Hs Ha El. unfold rt_data_queue_push, index_difference.
  rewrite (proj2 (Z.eqb_neq _ _)) by lia. unfold dq_put.
  pose proof (Z.mod_pos_bound (put_index q) (dq_size q) Hs). rewrite zset_Ok by lia. red_bind. by rewrite El.
Qed.

(** A queue of the size that the serial framework uses, after 65531 buffers
    went through it. *)
Fixpoint dq_churn (n : nat) (q : rt_data_queue) : result rt_data_queue :=
  match n with
  | O => Ok q
  | S n => q ← dq_put q (mk_item 0 0); '(q, _) ← dq_get q; dq_churn n q
  end.

Fixpoint push_all (k : kernel) (o : Z) (q : rt_data_queue) (l : list Z) : result (kernel * rt_data_queue) :=
  match l with
  | [] => Ok (k, q)
  | a :: l =>
      r ← rt_data_queue_push k o q (mk_item a 1) 0;
      match r with (k, q, Ret 0, _) => push_all k o q l | _ => Err F_assert end
  end.

(** It takes ten buffers, and the first that comes out is the ninth. *)
Definition dq_overrun : result (turn unit * option rt_data_item) :=
  q ← dq_churn (Z.to_nat 65531) (rt_data_queue_init sem_demo 300 8 4 (Some (replicate 8 (mk_item 0 0)))).1.2;
  r ← push_all sem_demo 300 q [1; 2; 3; 4; 5; 6; 7; 8; 9; 10];
  r ← rt_data_queue_pop r.1 300 r.2 0;
  let '(_, _, e, x, _) := r in Ok (e, x).

Lemma data_queue_overwrites : dq_overrun = Ok (Ret RT_EOK, Some (mk_item 9 1)).
Proof. vm_compute. reflexivity. Qed.

End DevIpcThms.
