(* ===== verification/CString.v ===== *)
(** * Memory and string routines (rt-thread/src/kservice.c)

    [CMem] holds the routines that write memory, on a memory that is the list
    of its bytes with addresses as indices; [CStr] those that only read
    strings, where a pointer is the list of the bytes from it to the end of
    its object.  [CMemThms] and [CStrThms] hold the properties.  Characters
    are unsigned, as the ARM compilers have them. *)
From S2P Require Import Prelude CTypes.
From stdpp Require Import base list.
From Stdlib Require Import ZArith Lia.
Open Scope Z_scope.

Module CMem.

Definition LBLOCKSIZE : Z := 4. (* sizeof (long) *)

(** A store of a byte, and of an aligned little-endian [unsigned long]. *)
Definition store8 (mem : list Z) (a v : Z) : result (list Z) := zset mem a (u8 v).

Definition le_bytes (v : Z) : list Z :=
  [u8 v; u8 (Z.shiftr v 8); u8 (Z.shiftr v 16); u8 (Z.shiftr v 24)].

Definition store32 (mem : list Z) (a v : Z) : result (list Z) := zblit mem a (le_bytes v).

(** [*dst = *src] for a byte and for a word. *)
Definition copy8 (mem : list Z) (dst src : Z) : result (list Z) :=
  v ← zget mem src; zset mem dst v.

Definition copy32 (mem : list Z) (dst src : Z) : result (list Z) :=
  w ← zslice mem src LBLOCKSIZE; zblit mem dst w.

(** *** [rt_memset] *)

(** [buffer = (d << 8) | d; buffer |= (buffer << 16)]. *)
Definition repeated (d : Z) : Z :=
  let buffer := Z.lor (Z.shiftl d 8) d in Z.lor buffer (Z.shiftl buffer 16).

(** [while (count >= 16)]: four words a turn. *)
Definition set_block (buffer : Z) (s : list Z * Z * Z)
  : result ((list Z * Z * Z) + (list Z * Z * Z)) :=
  let '(mem, a, count) := s in
  if LBLOCKSIZE * 4 <=? count then
    mem ← store32 mem a buffer;
    mem ← store32 mem (a + 4) buffer;
    mem ← store32 mem (a + 8) buffer;
    mem ← store32 mem (a + 12) buffer;
    Ok (inl (mem, a + 16, count - 4 * LBLOCKSIZE))
  else Ok (inr s).

(** [while (count >= 4)]. *)
Definition set_word (buffer : Z) (s : list Z * Z * Z)
  : result ((list Z * Z * Z) + (list Z * Z * Z)) :=
  let '(mem, a, count) := s in
  if LBLOCKSIZE <=? count then
    mem ← store32 mem a buffer;
    Ok (inl (mem, a + 4, count - LBLOCKSIZE))
  else Ok (inr s).

(** [while (count--)]. *)
Fixpoint set_bytes (mem : list Z) (a d : Z) (count : nat) : result (list Z) :=
  match count with
  | O => Ok mem
  | S n => mem ← store8 mem a d; set_bytes mem (a + 1) d n
  end.

Definition rt_memset (mem : list Z) (s c count : Z) : result (list Z) :=
  let d := Z.land c 255 in
  r ← (if negb (count <? LBLOCKSIZE) && (Z.land s (LBLOCKSIZE - 1) =? 0) then
         r ← iterate (S (Z.to_nat count)) (set_block (repeated d)) (mem, s, count);
         iterate (S (Z.to_nat count)) (set_word (repeated d)) r
       else Ok (mem, s, count));
  let '(mem, m, count) := r in
  set_bytes mem m d (Z.to_nat count).

(** *** [rt_memcpy] *)

Definition copy_block (s : list Z * Z * Z * Z)
  : result ((list Z * Z * Z * Z) + (list Z * Z * Z * Z)) :=
  let '(mem, d, a, len) := s in
  if LBLOCKSIZE * 4 <=? len then
    mem ← copy32 mem d a;
    mem ← copy32 mem (d + 4) (a + 4);
    mem ← copy32 mem (d + 8) (a + 8);
    mem ← copy32 mem (d + 12) (a + 12);
    Ok (inl (mem, d + 16, a + 16, len - LBLOCKSIZE * 4))
  else Ok (inr s).

Definition copy_word (s : list Z * Z * Z * Z)
  : result ((list Z * Z * Z * Z) + (list Z * Z * Z * Z)) :=
  let '(mem, d, a, len) := s in
  if LBLOCKSIZE <=? len then
    mem ← copy32 mem d a;
    Ok (inl (mem, d + 4, a + 4, len - LBLOCKSIZE))
  else Ok (inr s).

Fixpoint copy_up (mem : list Z) (d a : Z) (len : nat) : result (list Z) :=
  match len with
  | O => Ok mem
  | S n => mem ← copy8 mem d a; copy_up mem (d + 1) (a + 1) n
  end.

Definition rt_memcpy (mem : list Z) (dst src count : Z) : result (list Z) :=
  r ← (if negb (count <? LBLOCKSIZE * 4) &&
          (Z.lor (Z.land src (LBLOCKSIZE - 1)) (Z.land dst (LBLOCKSIZE - 1)) =? 0) then
         r ← iterate (S (Z.to_nat count)) copy_block (mem, dst, src, count);
         iterate (S (Z.to_nat count)) copy_word r
       else Ok (mem, dst, src, count));
  let '(mem, d, a, len) := r in
  copy_up mem d a (Z.to_nat len).

(** *** [rt_memmove] *)

Fixpoint copy_down (mem : list Z) (d a : Z) (n : nat) : result (list Z) :=
  match n with
  | O => Ok mem
  | S n => mem ← copy8 mem (d - 1) (a - 1); copy_down mem (d - 1) (a - 1) n
  end.

Definition rt_memmove (mem : list Z) (dest src n : Z) : result (list Z) :=
  if (src <? dest) && (dest <? src + n)
  then copy_down mem (dest + n) (src + n) (Z.to_nat n)
  else copy_up mem dest src (Z.to_nat n).

(** *** [rt_strncpy] *)

(** The characters from [s]; [n] is the room left, not 0. *)
Fixpoint strncpy_loop (mem : list Z) (d s : Z) (n : nat) : result (list Z) :=
  match n with
  | O => Ok mem
  | S m =>
      c ← zget mem s;
      mem ← zset mem d c;
      if c =? 0 then set_bytes mem (d + 1) 0 m
      else strncpy_loop mem (d + 1) (s + 1) m
  end.

Definition rt_strncpy (mem : list Z) (dst src n : Z) : result (list Z) :=
  if negb (n =? 0) then strncpy_loop mem dst src (Z.to_nat n) else Ok mem.

End CMem.

Module CStr.

(** [rt_memcmp]: the pointers as the bytes from them on. *)
Fixpoint rt_memcmp (su1 su2 : list Z) (count : nat) : result Z :=
  match count with
  | O => Ok 0
  | S n =>
      a ← deref (head su1);
      b ← deref (head su2);
      if negb (a - b =? 0) then Ok (a - b) else rt_memcmp (tail su1) (tail su2) n
  end.

Fixpoint rt_strlen (s : list Z) : result Z :=
  match s with
  | [] => Err F_wild
  | c :: s' => if c =? 0 then Ok 0 else n ← rt_strlen s'; Ok (n + 1)
  end.

(** [rt_strnlen] tests the character before the length. *)
Fixpoint strnlen_loop (sc : list Z) (i maxlen : Z) : result Z :=
  match sc with
  | [] => Err F_wild
  | c :: sc' =>
      if negb (c =? 0) && (i <? maxlen) then strnlen_loop sc' (i + 1) maxlen else Ok i
  end.
Definition rt_strnlen (s : list Z) (maxlen : Z) : result Z := strnlen_loop s 0 maxlen.

(** [__res] is a [signed char]. *)
Definition s8 (x : Z) : Z := let y := u8 x in if y <? 128 then y else y - 256.

Fixpoint rt_strncmp (cs ct : list Z) (count : nat) : result Z :=
  match count with
  | O => Ok 0
  | S n =>
      a ← deref (head cs);
      b ← deref (head ct);
      let __res := s8 (a - b) in
      if negb (__res =? 0) || (a =? 0) then Ok __res
      else rt_strncmp (tail cs) (tail ct) n
  end.

Fixpoint rt_strcmp (cs ct : list Z) : result Z :=
  match cs with
  | [] => Err F_wild
  | a :: cs' =>
      b ← deref (head ct);
      if negb (a =? 0) && (a =? b) then rt_strcmp cs' (tail ct) else Ok (a - b)
  end.

Definition to_lower (c : Z) : Z := if (65 <=? c) && (c <=? 90) then c + 32 else c.

(** The difference is returned as [rt_uint32_t]. *)
Fixpoint rt_strcasecmp (a b : list Z) : result Z :=
  match a with
  | [] => Err F_wild
  | x :: a' =>
      y ← deref (head b);
      let ca := to_lower (Z.land x 255) in
      let cb := to_lower (Z.land y 255) in
      if (ca =? cb) && negb (ca =? 0) then rt_strcasecmp a' (tail b) else Ok (u32 (ca - cb))
  end.

(** [while (l1 >= l2)]; the result is the offset of the occurrence in the
    string that the search started from. *)
Fixpoint strstr_loop (fuel : nat) (s1 s2 : list Z) (i l1 l2 : Z) : result (option Z) :=
  match fuel with
  | O => Err F_fuel
  | S n =>
      if l2 <=? l1 then
        r ← rt_memcmp s1 s2 (Z.to_nat l2);
        if r =? 0 then Ok (Some i) else strstr_loop n (tail s1) s2 (i + 1) (l1 - 1) l2
      else Ok None
  end.

Definition rt_strstr (s1 s2 : list Z) : result (option Z) :=
  l2 ← rt_strlen s2;
  if l2 =? 0 then Ok (Some 0) else
  l1 ← rt_strlen s1;
  strstr_loop (S (Z.to_nat (l1 + 1))) s1 s2 0 l1 l2.

End CStr.

(** ** Memory contents, address by address *)
Module CMemSpec.
Import CMem.

(** [m'] is [m] with [n] bytes from [a] on replaced by the values of [f]. *)
Definition writes (m m' : list Z) (a n : Z) (f : Z -> result Z) : Prop :=
  zlen m' = zlen m /\
  forall i, zget m' i = if (a <=? i) && (i <? a + n) then f i else zget m i.

Definition moved (m m' : list Z) (d a n : Z) : Prop :=
  writes m m' d n (fun i => zget m (i - d + a)).
Definition filled (m m' : list Z) (a n v : Z) : Prop := writes m m' a n (fun _ => Ok v).

Ltac ranges :=
  repeat match goal with
  | |- context [ ?a <=? ?b ] => destruct (Z.leb_spec a b)
  | |- context [ ?a <? ?b ] => destruct (Z.ltb_spec a b)
  end; cbn [andb]; try lia; try done.

Lemma zget_neg {A} (l : list A) i : i < 0 -> zget l i = Err F_wild.
Proof. intros. unfold zget. by rewrite (proj2 (Z.leb_gt _ _)) by lia. Qed.

Lemma zget_nonneg {A} (l : list A) i : 0 <= i -> zget l i = deref (l !! Z.to_nat i).
Proof. intros. unfold zget. by rewrite (proj2 (Z.leb_le _ _)) by lia. Qed.

Lemma zget_range {A} (l : list A) i : 0 <= i < zlen l -> exists x, zget l i = Ok x.
Proof.
  unfold zlen. intros. rewrite zget_nonneg by lia.
  destruct (lookup_lt_is_Some_2 l (Z.to_nat i)) as [x ->]; [lia|]. by exists x.
Qed.

Lemma zget_ext {A} (l k : list A) : (forall i, zget l i = zget k i) -> l = k.
Proof.
  intros H. apply list_eq. intros i. specialize (H (Z.of_nat i)).
  rewrite !zget_nonneg, Nat2Z.id in H by lia.
  by destruct (l !! i), (k !! i); inversion H.
Qed.

Lemma zset_writes m a v : 0 <= a < zlen m ->
  exists m', zset m a v = Ok m' /\ writes m m' a 1 (fun _ => Ok v).
Proof.
  intros Ha. exists (<[Z.to_nat a := v]> m). split; [by apply zset_Ok|].
  split; [unfold zlen; by rewrite length_insert|]. intros i. unfold zlen in Ha.
  destruct (Z.lt_ge_cases i 0); [rewrite !zget_neg by lia; by ranges|].
  rewrite !zget_nonneg by lia. destruct (decide (i = a)) as [->|].
  - rewrite list_lookup_insert_eq by lia. by ranges.
  - rewrite list_lookup_insert_ne by lia. by ranges.
Qed.

Lemma zblit_writes m a src : 0 <= a -> a + zlen src <= zlen m ->
  exists m', zblit m a src = Ok m' /\ writes m m' a (zlen src) (fun i => zget src (i - a)).
Proof.
  intros Ha Hl. eexists. split; [by apply zblit_Ok|]. unfold zlen in *. split.
  { unfold zlen. rewrite !length_app, length_take, length_drop. lia. }
  intros i. destruct (Z.lt_ge_cases i 0); [rewrite !(zget_neg _ i) by lia; by ranges|].
  rewrite !(zget_nonneg _ i) by lia. destruct (Z.lt_ge_cases i a).
  { rewrite lookup_app_l, lookup_take by (rewrite ?length_take; lia).
    rewrite decide_True by lia. by ranges. }
  rewrite lookup_app_r by (rewrite length_take; lia).
  rewrite length_take, Nat.min_l by lia. destruct (Z.lt_ge_cases i (a + Z.of_nat (length src))).
  - rewrite lookup_app_l by lia. rewrite zget_nonneg by lia. ranges. do 2 f_equal. lia.
  - rewrite lookup_app_r by lia. rewrite lookup_drop. ranges. do 2 f_equal. lia.
Qed.

Lemma copy8_moved m d a : 0 <= d < zlen m -> 0 <= a < zlen m ->
  exists m', copy8 m d a = Ok m' /\ moved m m' d a 1.
Proof.
  intros Hd Ha. unfold copy8. destruct (zget_range m a Ha) as [v Ev]. rewrite Ev. red_bind.
  destruct (zset_writes m d v Hd) as (m' & -> & Hl & Hm). exists m'. split; [done|].
  split; [done|]. intros i. rewrite Hm. ranges. by replace (i - d + a) with a by lia.
Qed.

Lemma zget_slice {A} (l s : list A) off n i : zslice l off n = Ok s -> 0 <= i < n ->
  zget s i = zget l (i + off).
Proof.
  unfold zslice. destruct (in_range _ _ _) eqn:E; [|done].
  apply in_range_spec in E as (?&?&?). intros [= <-] Hi.
  rewrite !zget_nonneg by lia. rewrite lookup_take, decide_True by lia.
  rewrite lookup_drop. do 2 f_equal. lia.
Qed.

Lemma copy32_moved m d a : 0 <= d -> d + 4 <= zlen m -> 0 <= a -> a + 4 <= zlen m ->
  exists m', copy32 m d a = Ok m' /\ moved m m' d a 4.
Proof.
  intros Hd Hd4 Ha Ha4. unfold copy32, LBLOCKSIZE.
  destruct (zslice m a 4) as [w|f] eqn:E; [|by rewrite zslice_Ok in E by lia]. red_bind.
  assert (Hw : zlen w = 4).
  { rewrite zslice_Ok in E by lia. injection E as <-.
    rewrite zlen_take; [done|]. rewrite zlen_drop by lia. lia. }
  destruct (zblit_writes m d w) as (m' & -> & Hl & Hm); [lia..|]. exists m'. split; [done|].
  split; [done|]. rewrite Hw in Hm. intros i. rewrite Hm. ranges. apply (zget_slice m w a 4); [done|lia].
Qed.

(** *** Composition *)

Lemma moved_nil m d a : moved m m d a 0.
Proof. split; [done|]. intros i. ranges. Qed.

Lemma moved_up m m1 m2 d a k n : 0 <= k -> 0 <= n -> d <= a \/ a + k + n <= d ->
  moved m m1 d a k -> moved m1 m2 (d + k) (a + k) n -> moved m m2 d a (k + n).
Proof.
  intros Hk Hn Hsep (L1 & H1) (L2 & H2). split; [congruence|]. intros i.
  rewrite H2, !H1. replace (i - (d + k) + (a + k)) with (i - d + a) by lia. ranges.
Qed.

Lemma moved_down m m1 m2 d a n : 0 <= n -> a < d ->
  moved m m1 (d + n) (a + n) 1 -> moved m1 m2 d a n -> moved m m2 d a (n + 1).
Proof.
  intros Hn Hsep (L1 & H1) (L2 & H2). split; [congruence|]. intros i.
  rewrite H2, !H1. ranges. f_equal. lia.
Qed.

Lemma filled_nil m a v : filled m m a 0 v.
Proof. split; [done|]. intros i. ranges. Qed.

Lemma filled_up m m1 m2 a k n v : 0 <= k -> 0 <= n ->
  filled m m1 a k v -> filled m1 m2 (a + k) n v -> filled m m2 a (k + n) v.
Proof.
  intros Hk Hn (L1 & H1) (L2 & H2). split; [congruence|]. intros i.
  rewrite H2, !H1. ranges.
Qed.

End CMemSpec.

(** ** The routines that write memory *)
Module CMemThms.
Import CMem CMemSpec.

Lemma copy_up_moved n : forall m d a, 0 <= d -> 0 <= a ->
  d + Z.of_nat n <= zlen m -> a + Z.of_nat n <= zlen m -> d <= a \/ a + Z.of_nat n <= d ->
  exists m', copy_up m d a n = Ok m' /\ moved m m' d a (Z.of_nat n).
Proof.
  induction n as [|n IH]; intros m d a Hd Ha Ld La Hsep; cbn [copy_up].
  { exists m. split; [done|]. apply moved_nil. }
  destruct (copy8_moved m d a) as (m1 & -> & M1); [lia..|]. red_bind.
  destruct (IH m1 (d + 1) (a + 1)) as (m2 & -> & M2); [rewrite ?(proj1 M1); lia..|].
  exists m2. split; [done|]. replace (Z.of_nat (S n)) with (1 + Z.of_nat n) by lia.
  apply (moved_up m m1); try done; lia.
Qed.

Lemma copy_down_moved n : forall m d a, 0 <= a -> a < d ->
  d + Z.of_nat n <= zlen m ->
  exists m', copy_down m (d + Z.of_nat n) (a + Z.of_nat n) n = Ok m' /\
    moved m m' d a (Z.of_nat n).
Proof.
  induction n as [|n IH]; intros m d a Ha Hlt Ld; cbn [copy_down].
  { exists m. split; [done|]. apply moved_nil. }
  replace (d + Z.of_nat (S n) - 1) with (d + Z.of_nat n) by lia.
  replace (a + Z.of_nat (S n) - 1) with (a + Z.of_nat n) by lia.
  destruct (copy8_moved m (d + Z.of_nat n) (a + Z.of_nat n)) as (m1 & -> & M1); [lia..|]. red_bind.
  destruct (IH m1 d a) as (m2 & -> & M2); [rewrite ?(proj1 M1); lia..|].
  exists m2. split; [done|]. replace (Z.of_nat (S n)) with (Z.of_nat n + 1) by lia.
  apply (moved_down m m1); try done; lia.
Qed.

(** A copy loop that moves [step] bytes a turn while at least that many are left. *)
Section copy_loop.
Context (step : Z) (body : list Z * Z * Z * Z -> result ((list Z * Z * Z * Z) + (list Z * Z * Z * Z))).
Hypothesis step_pos : 0 < step.
Hypothesis body_turn : forall m d a len, 0 <= d -> 0 <= a -> step <= len ->
  d + len <= zlen m -> a + len <= zlen m -> d <= a \/ a + len <= d ->
  exists m', body (m, d, a, len) = Ok (inl (m', d + step, a + step, len - step)) /\
    moved m m' d a step.
Hypothesis body_end : forall m d a len, len < step -> body (m, d, a, len) = Ok (inr (m, d, a, len)).

Lemma copy_loop_moved fuel : forall m d a len, 0 <= d -> 0 <= a -> 0 <= len < Z.of_nat fuel ->
  d + len <= zlen m -> a + len <= zlen m -> d <= a \/ a + len <= d ->
  exists m' k, iterate fuel body (m, d, a, len) = Ok (m', d + k, a + k, len - k) /\
    0 <= k <= len /\ moved m m' d a k.
Proof.
  induction fuel as [|fuel IH]; intros m d a len Hd Ha Hlen Ld La Hsep; [lia|].
  rewrite iterate_step. destruct (Z.lt_ge_cases len step).
  - rewrite body_end by done. red_bind. exists m, 0. rewrite !Z.add_0_r, Z.sub_0_r.
    split; [done|]. split; [lia|]. apply moved_nil.
  - destruct (body_turn m d a len) as (m1 & -> & M1); [lia..|]. red_bind.
    destruct (IH m1 (d + step) (a + step) (len - step)) as (m2 & k & -> & Hk & M2);
      [rewrite ?(proj1 M1); lia..|].
    exists m2, (step + k). split; [by rewrite !Z.add_assoc, Z.sub_add_distr|]. split; [lia|].
    apply (moved_up m m1); try done; lia.
Qed.
End copy_loop.

Lemma copy_word_turn m d a len : 0 <= d -> 0 <= a -> 4 <= len ->
  d + len <= zlen m -> a + len <= zlen m -> d <= a \/ a + len <= d ->
  exists m', copy_word (m, d, a, len) = Ok (inl (m', d + 4, a + 4, len - 4)) /\ moved m m' d a 4.
Proof.
  intros. cbn [copy_word]. unfold LBLOCKSIZE. rewrite (proj2 (Z.leb_le _ _)) by lia.
  destruct (copy32_moved m d a) as (m' & -> & M); [lia..|]. by exists m'.
Qed.

Lemma copy_block_turn m d a len : 0 <= d -> 0 <= a -> 16 <= len ->
  d + len <= zlen m -> a + len <= zlen m -> d <= a \/ a + len <= d ->
  exists m', copy_block (m, d, a, len) = Ok (inl (m', d + 16, a + 16, len - 16)) /\ moved m m' d a 16.
Proof.
  intros. cbn [copy_block]. change (LBLOCKSIZE * 4) with 16. rewrite (proj2 (Z.leb_le _ _)) by lia.
  destruct (copy32_moved m d a) as (m1 & -> & M1); [lia..|]. red_bind.
  destruct (copy32_moved m1 (d + 4) (a + 4)) as (m2 & -> & M2); [rewrite ?(proj1 M1); lia..|]. red_bind.
  destruct (copy32_moved m2 (d + 8) (a + 8)) as (m3 & -> & M3);
    [rewrite ?(proj1 M2), ?(proj1 M1); lia..|]. red_bind.
  destruct (copy32_moved m3 (d + 12) (a + 12)) as (m4 & -> & M4);
    [rewrite ?(proj1 M3), ?(proj1 M2), ?(proj1 M1); lia..|]. red_bind.
  exists m4. split; [done|].
  assert (M12 : moved m m2 d a (4 + 4)) by (apply (moved_up m m1); try done; lia).
  assert (M13 : moved m m3 d a (4 + 4 + 4)) by (apply (moved_up m m2); try done; lia).
  apply (moved_up m m3 m4 d a 12 4); try done; lia.
Qed.

Lemma word_end m d a len : len < 4 -> copy_word (m, d, a, len) = Ok (inr (m, d, a, len)).
Proof. intros. cbn. by rewrite (proj2 (Z.leb_gt _ _)) by done. Qed.
Lemma block_end m d a len : len < 16 -> copy_block (m, d, a, len) = Ok (inr (m, d, a, len)).
Proof. intros. cbn [copy_block]. by rewrite (proj2 (Z.leb_gt _ _)) by done. Qed.

(** [rt_memcpy] copies word by word what a byte loop would copy. *)
Lemma rt_memcpy_copies m dst src count : 0 <= dst -> 0 <= src -> 0 <= count ->
  dst + count <= zlen m -> src + count <= zlen m -> dst <= src \/ src + count <= dst ->
  exists m', rt_memcpy m dst src count = Ok m' /\ moved m m' dst src count.
Proof.
  intros Hd Hs Hc Ld Ls Hsep. unfold rt_memcpy.
  assert (exists m1 k, (if negb (count <? LBLOCKSIZE * 4) &&
      (Z.lor (Z.land src (LBLOCKSIZE - 1)) (Z.land dst (LBLOCKSIZE - 1)) =? 0)
    then r ← iterate (S (Z.to_nat count)) copy_block (m, dst, src, count);
         iterate (S (Z.to_nat count)) copy_word r
    else Ok (m, dst, src, count)) = Ok (m1, dst + k, src + k, count - k) /\
    0 <= k <= count /\ moved m m1 dst src k) as (m1 & k & -> & Hk & M1).
  { destruct (_ && _); [|exists m, 0; rewrite !Z.add_0_r, Z.sub_0_r; split; [done|]; split; [lia|apply moved_nil]].
    destruct (copy_loop_moved 16 copy_block ltac:(lia) copy_block_turn block_end
      (S (Z.to_nat count)) m dst src count) as (m1 & k & -> & Hk & M1); [lia..|]. red_bind.
    destruct (copy_loop_moved 4 copy_word ltac:(lia) copy_word_turn word_end
      (S (Z.to_nat count)) m1 (dst + k) (src + k) (count - k)) as (m2 & j & -> & Hj & M2);
      [rewrite ?(proj1 M1); lia..|].
    exists m2, (k + j). split; [by rewrite !Z.add_assoc, Z.sub_add_distr|]. split; [lia|].
    apply (moved_up m m1); try done; lia. }
  red_bind. destruct (copy_up_moved (Z.to_nat (count - k)) m1 (dst + k) (src + k)) as (m2 & -> & M2);
    [rewrite ?(proj1 M1); lia..|].
  exists m2. split; [done|]. replace count with (k + (count - k)) by lia.
  rewrite Z2Nat.id in M2 by lia. apply (moved_up m m1); try done; lia.
Qed.

(** *** [rt_memset] *)

Lemma set_bytes_filled n d : forall m a, 0 <= a -> a + Z.of_nat n <= zlen m ->
  exists m', set_bytes m a d n = Ok m' /\ filled m m' a (Z.of_nat n) (u8 d).
Proof.
  induction n as [|n IH]; intros m a Ha Hl; cbn [set_bytes].
  { exists m. split; [done|]. apply filled_nil. }
  unfold store8. destruct (zset_writes m a (u8 d)) as (m1 & -> & M1); [lia|]. red_bind.
  destruct (IH m1 (a + 1)) as (m2 & -> & M2); [rewrite ?(proj1 M1); lia..|].
  exists m2. split; [done|]. replace (Z.of_nat (S n)) with (1 + Z.of_nat n) by lia.
  apply (filled_up m m1); try done; lia.
Qed.

Lemma le_bytes_repeated d : 0 <= d < 256 -> le_bytes (repeated d) = [d; d; d; d].
Proof.
  intros Hd.
  assert (H : forallb (fun x => bool_decide (le_bytes (repeated x) = [x; x; x; x]))
    (Z.of_nat <$> seq 0 256) = true) by (vm_compute; reflexivity).
  rewrite forallb_forall in H. specialize (H d). rewrite bool_decide_eq_true in H. apply H.
  apply list_elem_of_In, list_elem_of_fmap. exists (Z.to_nat d). split; [lia|].
  apply elem_of_seq. lia.
Qed.

Lemma store32_filled m a d : 0 <= d < 256 -> 0 <= a -> a + 4 <= zlen m ->
  exists m', store32 m a (repeated d) = Ok m' /\ filled m m' a 4 d.
Proof.
  intros Hd Ha Hl. unfold store32. rewrite le_bytes_repeated by done.
  destruct (zblit_writes m a [d; d; d; d]) as (m' & -> & L & M); [by change (zlen [d; d; d; d]) with 4..|].
  exists m'. split; [done|]. split; [done|]. intros i. rewrite M. change (zlen [d; d; d; d]) with 4.
  ranges. rewrite zget_nonneg by lia.
  assert (i - a = 0 \/ i - a = 1 \/ i - a = 2 \/ i - a = 3) as [-> | [-> | [-> | ->]]] by lia; done.
Qed.

Section set_loop.
Context (d step : Z) (body : list Z * Z * Z -> result ((list Z * Z * Z) + (list Z * Z * Z))).
Hypothesis step_pos : 0 < step.
Hypothesis body_turn : forall m a len, 0 <= a -> step <= len -> a + len <= zlen m ->
  exists m', body (m, a, len) = Ok (inl (m', a + step, len - step)) /\ filled m m' a step d.
Hypothesis body_end : forall m a len, len < step -> body (m, a, len) = Ok (inr (m, a, len)).

Lemma set_loop_filled fuel : forall m a len, 0 <= a -> 0 <= len < Z.of_nat fuel -> a + len <= zlen m ->
  exists m' k, iterate fuel body (m, a, len) = Ok (m', a + k, len - k) /\
    0 <= k <= len /\ filled m m' a k d.
Proof.
  induction fuel as [|fuel IH]; intros m a len Ha Hlen La; [lia|].
  rewrite iterate_step. destruct (Z.lt_ge_cases len step).
  - rewrite body_end by done. red_bind. exists m, 0. rewrite !Z.add_0_r, Z.sub_0_r.
    split; [done|]. split; [lia|]. apply filled_nil.
  - destruct (body_turn m a len) as (m1 & -> & M1); [lia..|]. red_bind.
    destruct (IH m1 (a + step) (len - step)) as (m2 & k & -> & Hk & M2);
      [rewrite ?(proj1 M1); lia..|].
    exists m2, (step + k). split; [by rewrite !Z.add_assoc, Z.sub_add_distr|]. split; [lia|].
    apply (filled_up m m1); try done; lia.
Qed.
End set_loop.

Lemma set_word_turn d m a len : 0 <= d < 256 -> 0 <= a -> 4 <= len -> a + len <= zlen m ->
  exists m', set_word (repeated d) (m, a, len) = Ok (inl (m', a + 4, len - 4)) /\ filled m m' a 4 d.
Proof.
  intros. cbn [set_word]. unfold LBLOCKSIZE. rewrite (proj2 (Z.leb_le _ _)) by lia.
  destruct (store32_filled m a d) as (m' & -> & M); [lia..|]. by exists m'.
Qed.

Lemma set_block_turn d m a len : 0 <= d < 256 -> 0 <= a -> 16 <= len -> a + len <= zlen m ->
  exists m', set_block (repeated d) (m, a, len) = Ok (inl (m', a + 16, len - 16)) /\ filled m m' a 16 d.
Proof.
  intros. cbn [set_block]. change (LBLOCKSIZE * 4) with 16. rewrite (proj2 (Z.leb_le _ _)) by lia.
  destruct (store32_filled m a d) as (m1 & -> & M1); [lia..|]. red_bind.
  destruct (store32_filled m1 (a + 4) d) as (m2 & -> & M2); [rewrite ?(proj1 M1); lia..|]. red_bind.
  destruct (store32_filled m2 (a + 8) d) as (m3 & -> & M3);
    [rewrite ?(proj1 M2), ?(proj1 M1); lia..|]. red_bind.
  destruct (store32_filled m3 (a + 12) d) as (m4 & -> & M4);
    [rewrite ?(proj1 M3), ?(proj1 M2), ?(proj1 M1); lia..|]. red_bind.
  exists m4. split; [done|].
  assert (M12 : filled m m2 a (4 + 4) d) by (apply (filled_up m m1); try done; lia).
  assert (M13 : filled m m3 a (4 + 4 + 4) d) by (apply (filled_up m m2); try done; lia).
  apply (filled_up m m3 m4 a 12 4); try done; lia.
Qed.

Lemma set_word_end b m a len : len < 4 -> set_word b (m, a, len) = Ok (inr (m, a, len)).
Proof. intros. cbn. by rewrite (proj2 (Z.leb_gt _ _)) by done. Qed.
Lemma set_block_end b m a len : len < 16 -> set_block b (m, a, len) = Ok (inr (m, a, len)).
Proof. intros. cbn [set_block]. by rewrite (proj2 (Z.leb_gt _ _)) by done. Qed.

(** [rt_memset], word stores and all, fills exactly its range with [(char) c]. *)
Lemma rt_memset_fills m s c count : 0 <= s -> 0 <= count -> s + count <= zlen m ->
  exists m', rt_memset m s c count = Ok m' /\ filled m m' s count (u8 c).
Proof.
  intros Hs Hc Hl. unfold rt_memset.
  assert (Hd : Z.land c 255 = u8 c) by exact (Z.land_ones c 8 ltac:(lia)).
  pose proof (u8_range c) as Hr. rewrite Hd.
  assert (exists m1 k, (if negb (count <? LBLOCKSIZE) && (Z.land s (LBLOCKSIZE - 1) =? 0)
    then r ← iterate (S (Z.to_nat count)) (set_block (repeated (u8 c))) (m, s, count);
         iterate (S (Z.to_nat count)) (set_word (repeated (u8 c))) r
    else Ok (m, s, count)) = Ok (m1, s + k, count - k) /\
    0 <= k <= count /\ filled m m1 s k (u8 c)) as (m1 & k & E & Hk & M1).
  { destruct (_ && _); [|exists m, 0; rewrite !Z.add_0_r, Z.sub_0_r; split; [done|]; split; [lia|apply filled_nil]].
    destruct (set_loop_filled (u8 c) 16 (set_block (repeated (u8 c))) ltac:(lia)
      (fun m a len => set_block_turn (u8 c) m a len Hr) (set_block_end _)
      (S (Z.to_nat count)) m s count) as (m1 & k & -> & Hk & M1); [lia..|]. red_bind.
    destruct (set_loop_filled (u8 c) 4 (set_word (repeated (u8 c))) ltac:(lia)
      (fun m a len => set_word_turn (u8 c) m a len Hr) (set_word_end _)
      (S (Z.to_nat count)) m1 (s + k) (count - k)) as (m2 & j & -> & Hj & M2);
      [rewrite ?(proj1 M1); lia..|].
    exists m2, (k + j). split; [by rewrite !Z.add_assoc, Z.sub_add_distr|]. split; [lia|].
    apply (filled_up m m1); try done; lia. }
  cbv zeta. rewrite E. red_bind.
  destruct (set_bytes_filled (Z.to_nat (count - k)) (u8 c) m1 (s + k)) as (m2 & -> & M2);
    [rewrite ?(proj1 M1); lia..|].
  rewrite (u8_small (u8 c)) in M2 by done.
  exists m2. split; [done|]. replace count with (k + (count - k)) by lia.
  rewrite Z2Nat.id in M2 by lia. apply (filled_up m m1); try done; lia.
Qed.

(** [rt_memmove] copies [n] bytes between any two ranges of the memory,
    overlapping or not: every byte of the destination is the byte that the
    source held before the call, and nothing else changes. *)
Theorem rt_memmove_moves m dest src n :
  0 <= dest -> 0 <= src -> 0 <= n -> dest + n <= zlen m -> src + n <= zlen m ->
  exists m', rt_memmove m dest src n = Ok m' /\ zlen m' = zlen m /\
    (forall i, 0 <= i < n -> zget m' (dest + i) = zget m (src + i)) /\
    (forall i, i < dest \/ dest + n <= i -> zget m' i = zget m i).
Proof.
  intros Hd Hs Hn Ld Ls.
  assert (exists m', rt_memmove m dest src n = Ok m' /\ moved m m' dest src n) as (m' & E & L & M).
  { unfold rt_memmove. destruct (Z.ltb_spec src dest), (Z.ltb_spec dest (src + n)); cbn [andb].
    1: destruct (copy_down_moved (Z.to_nat n) m dest src) as (m' & E & M); [lia..|].
    2-4: destruct (copy_up_moved (Z.to_nat n) m dest src) as (m' & E & M); [lia..|].
    all: rewrite Z2Nat.id in * by lia; by exists m'. }
  exists m'. split; [done|]. split; [done|]. split; intros i Hi; rewrite M; ranges.
  f_equal. lia.
Qed.

Lemma rt_memmove_moves_witness :
  rt_memmove [1; 2; 3; 4; 5] 1 0 4 = Ok [1; 1; 2; 3; 4] /\
  exists m', rt_memmove [1; 2; 3; 4; 5] 1 0 4 = Ok m' /\ zget m' (1 + 3) = zget [1; 2; 3; 4; 5] (0 + 3).
Proof.
  split; [reflexivity|].
  destruct (rt_memmove_moves [1; 2; 3; 4; 5] 1 0 4) as (m' & E & _ & H & _); [zdec..|].
  exists m'. split; [exact E|]. apply H. lia.
Defined.

(** *** [rt_strncpy] *)

(** The memory holds the string [s] at [a]. *)
Definition string_at (m : list Z) (a : Z) (s : list Z) : Prop :=
  (0 ∉ s) /\ forall i : nat, (i <= length s)%nat -> zget m (a + Z.of_nat i) = Ok (default 0 (s !! i)).

Lemma string_at_tail m m1 d v a c s : string_at m a (c :: s) -> d <= a \/ a + zlen (c :: s) < d ->
  writes m m1 d 1 v -> string_at m1 (a + 1) s.
Proof.
  intros [Hz Hs] Hd (_ & H1). apply not_elem_of_cons in Hz as [_ Hz]. split; [done|]. intros i Hi.
  rewrite H1. unfold zlen in Hd. cbn in Hd. specialize (Hs (S i) ltac:(cbn; lia)).
  change ((c :: s) !! S i) with (s !! i) in Hs.
  ranges; (rewrite <- Hs; f_equal; lia).
Qed.

Lemma strncpy_loop_writes n : forall m d a s, string_at m a s -> 0 <= d ->
  d + Z.of_nat n <= zlen m -> d + Z.of_nat n <= a \/ a + zlen s < d ->
  exists m', strncpy_loop m d a n = Ok m' /\
    writes m m' d (Z.of_nat n) (fun i => Ok (default 0 (s !! Z.to_nat (i - d)))).
Proof.
  induction n as [|n IH]; intros m d a s Hs Hd Hl Hsep; cbn [strncpy_loop].
  { exists m. split; [done|]. split; [done|]. intros i. ranges. }
  pose proof (proj2 Hs 0%nat ltac:(lia)) as H0. rewrite Z.add_0_r in H0. rewrite H0. red_bind.
  destruct (zset_writes m d (default 0 (s !! 0%nat))) as (m1 & -> & M1); [lia|]. red_bind.
  destruct s as [|c s]; cbn [lookup list_lookup default].
  - destruct (set_bytes_filled n 0 m1 (d + 1)) as (m2 & -> & M2); [lia|rewrite (proj1 M1); lia|].
    exists m2. split; [done|]. split; [rewrite (proj1 M2); apply M1|]. intros i.
    rewrite (proj2 M2), (proj2 M1). change (u8 0) with 0. ranges.
  - destruct Hs as [Hz Hs]. pose proof Hz as [Hc _]%not_elem_of_cons.
    cbn [from_option id]. rewrite (proj2 (Z.eqb_neq c 0)) by done.
    assert (Hs1 : string_at m1 (a + 1) s).
    { eapply (string_at_tail m); [by split| |exact M1]. lia. }
    destruct (IH m1 (d + 1) (a + 1) s Hs1) as (m2 & -> & M2); [lia|rewrite (proj1 M1); lia| |].
    { unfold zlen in *. cbn in Hsep. lia. }
    exists m2. split; [done|]. split; [rewrite (proj1 M2); apply M1|]. intros i.
    rewrite (proj2 M2), (proj2 M1). ranges.
    + by replace (Z.to_nat (i - d)) with (S (Z.to_nat (i - (d + 1)))) by lia.
    + by replace (i - d) with 0 by lia.
Qed.

(** [rt_strncpy] copies the string, or its first [n] characters, and fills
    the rest of the [n] bytes with zeros. *)
Lemma rt_strncpy_writes m dst src n s : string_at m src s -> 0 <= dst -> 0 <= n ->
  dst + n <= zlen m -> dst + n <= src \/ src + zlen s < dst ->
  exists m', rt_strncpy m dst src n = Ok m' /\
    writes m m' dst n (fun i => Ok (default 0 (s !! Z.to_nat (i - dst)))).
Proof.
  intros. unfold rt_strncpy. destruct (Z.eqb_spec n 0) as [->|]; cbn [negb].
  { exists m. split; [done|]. split; [done|]. intros i. ranges. }
  destruct (strncpy_loop_writes (Z.to_nat n) m dst src s) as (m' & E & M); [done|lia..|].
  rewrite Z2Nat.id in M by lia. by exists m'.
Qed.

End CMemThms.

(** ** The routines that read strings *)
Module CStrThms.
Import CStr.

(** [p] points to the string [s]. *)
Definition is_str (p s : list Z) : Prop := (0 ∉ s) /\ exists rest, p = s ++ 0 :: rest.

Lemma is_str_cons p c s : is_str p (c :: s) -> c <> 0 /\ head p = Some c /\ is_str (tail p) s.
Proof.
  intros [Hs [rest ->]]. apply not_elem_of_cons in Hs as [Hc Hs].
  split; [done|]. split; [done|]. split; [done|]. by exists rest.
Qed.

Lemma is_str_nil p : is_str p [] -> head p = Some 0.
Proof. by intros [_ [rest ->]]. Qed.

Lemma rt_strlen_spec s : forall p, is_str p s -> rt_strlen p = Ok (zlen s).
Proof.
  induction s as [|c s IH]; intros p Hp.
  - destruct p as [|a p]; [by apply is_str_nil in Hp|]. apply is_str_nil in Hp as [= ->]. done.
  - apply is_str_cons in Hp as (Hc & Hh & Ht). destruct p as [|a p]; [done|].
    injection Hh as ->. cbn in Ht |- *. rewrite (proj2 (Z.eqb_neq c 0)) by done.
    rewrite (IH p Ht). red_bind. f_equal. unfold zlen. cbn. lia.
Qed.

(** [rt_strnlen] agrees with [rt_strlen] up to the bound; it reads the
    character at the bound. *)
Lemma rt_strnlen_spec s : forall p maxlen i, is_str p s ->
  strnlen_loop p i maxlen = Ok (if i <? maxlen then i + Z.min (zlen s) (maxlen - i) else i).
Proof.
  induction s as [|c s IH]; intros p maxlen i Hp.
  - destruct p as [|a p]; [by apply is_str_nil in Hp|]. apply is_str_nil in Hp as [= ->].
    cbn. unfold zlen. cbn. f_equal. case_bool; lia.
  - apply is_str_cons in Hp as (Hc & Hh & Ht). destruct p as [|a p]; [done|].
    injection Hh as ->. cbn in Ht |- *. rewrite (proj2 (Z.eqb_neq c 0)) by done. cbn [negb andb].
    destruct (Z.ltb_spec i maxlen); [|done]. rewrite (IH p maxlen (i + 1) Ht). f_equal.
    unfold zlen. cbn [length]. case_bool; lia.
Qed.

Lemma rt_strnlen_reads_past_bound : rt_strnlen [1; 2] 2 = Err F_wild.
Proof. reflexivity. Qed.

Lemma s8_zero a b : 0 <= a < 256 -> 0 <= b < 256 -> s8 (a - b) = 0 <-> a = b.
Proof. intros. unfold s8, u8. case_bool; dlia. Qed.

Definition chars (l : list Z) : Prop := Forall (fun c => 0 <= c < 256) l.

Lemma head_char p c : chars p -> head p = Some c -> 0 <= c < 256.
Proof. destruct 1; [done|]. by intros [= <-]. Qed.

Lemma tail_chars p : chars p -> chars (tail p).
Proof. destruct 1; [constructor|done]. Qed.

(** A string begins with [c], which is 0 when it is empty. *)
Lemma is_str_head p s : is_str p s -> head p = Some (default 0 (head s)).
Proof. destruct s; intros Hp; [by apply is_str_nil|]. by apply is_str_cons in Hp as (_ & ? & _). Qed.

(** [rt_strncmp] finds two strings equal when their first [n] characters are. *)
Lemma rt_strncmp_eq n : forall p q s t, chars p -> chars q -> is_str p s -> is_str q t ->
  exists r, rt_strncmp p q n = Ok r /\ (r = 0 <-> take n s = take n t).
Proof.
  induction n as [|n IH]; intros p q s t Cp Cq Hp Hq; cbn [rt_strncmp].
  { by exists 0. }
  pose proof (is_str_head p s Hp) as Ep. pose proof (is_str_head q t Hq) as Eq.
  pose proof (head_char _ _ Cp Ep) as Ra. pose proof (head_char _ _ Cq Eq) as Rb.
  rewrite Ep, Eq. cbn [deref]. red_bind. cbv zeta.
  pose proof (s8_zero _ _ Ra Rb) as Hs8.
  destruct (Z.eqb_spec (s8 (default 0 (head s) - default 0 (head t))) 0) as [Ez|Ez]; cbn [negb orb].
  2:{ eexists. split; [done|]. split; [by intros ?|]. intros E. exfalso. apply Ez, Hs8.
      destruct s, t; cbn in E |- *; try done. by injection E as ->. }
  apply Hs8 in Ez. destruct (Z.eqb_spec (default 0 (head s)) 0) as [E0|E0].
  - eexists. split; [done|]. rewrite (proj2 Hs8) by done. split; [intros _|done].
    destruct s as [|a s]; [|by apply is_str_cons in Hp as (? & _)].
    destruct t as [|b t]; [done|]. apply is_str_cons in Hq as (Hb & _). by cbn in Ez; subst.
  - destruct s as [|a s]; [done|]. destruct t as [|b t].
    { cbn in Ez, E0. lia. }
    apply is_str_cons in Hp as (_ & _ & Hp). apply is_str_cons in Hq as (_ & _ & Hq).
    destruct (IH (tail p) (tail q) s t) as (r & -> & Hr); [by apply tail_chars..|done|done|].
    exists r. split; [done|]. cbn in Ez. subst b. cbn. rewrite Hr. split; [by intros ->|by intros [= ->]].
Qed.

(** The order is wrong where the characters differ by 128 or more. *)
Lemma rt_strncmp_order : rt_strncmp [200; 0] [65; 0] 1 = Ok (-121).
Proof. reflexivity. Qed.

Lemma rt_memcmp_eq n : forall l k, (n <= length l)%nat -> (n <= length k)%nat ->
  exists r, rt_memcmp l k n = Ok r /\ (r = 0 <-> take n l = take n k).
Proof.
  induction n as [|n IH]; intros l k Hl Hk; cbn [rt_memcmp]; [by exists 0|].
  destruct l as [|a l]; [cbn in Hl; lia|]. destruct k as [|b k]; [cbn in Hk; lia|].
  cbn in *. destruct (Z.eqb_spec (a - b) 0); cbn [negb].
  - destruct (IH l k) as (r & -> & Hr); [lia..|]. exists r. split; [done|].
    replace b with a by lia. rewrite Hr. split; [by intros ->|by intros [= ->]].
  - eexists. split; [done|]. split; [done|]. intros [= Hab]. lia.
Qed.

Definition occurs (t s : list Z) (i : Z) : Prop :=
  exists pre post, s = pre ++ t ++ post /\ zlen pre = i.

Lemma occurs_0 t s : occurs t s 0 <-> take (length t) s = t.
Proof.
  split.
  - intros (pre & post & -> & Hl). destruct pre; [|unfold zlen in Hl; cbn in Hl; lia].
    cbn. by rewrite take_app_length.
  - intros E. exists [], (drop (length t) s). split; [|done]. cbn. rewrite <- E at 1.
    by rewrite take_drop.
Qed.

Lemma occurs_cons t c s i : 0 < i -> occurs t (c :: s) i <-> occurs t s (i - 1).
Proof.
  intros Hi. split.
  - intros (pre & post & E & Hl). destruct pre as [|a pre]; [unfold zlen in Hl; cbn in Hl; lia|].
    injection E as -> ->. exists pre, post. split; [done|]. unfold zlen in *. cbn in Hl. lia.
  - intros (pre & post & -> & Hl). exists (c :: pre), post. split; [done|].
    unfold zlen in *. cbn. lia.
Qed.

Lemma occurs_range t s i : occurs t s i -> 0 <= i <= zlen s - zlen t.
Proof. intros (pre & post & -> & <-). rewrite !zlen_app. pose proof (zlen_nonneg pre). pose proof (zlen_nonneg post). lia. Qed.

(** What the search finds: the first occurrence, or none. *)
Definition found (t s : list Z) (o : option Z) : Prop :=
  match o with
  | Some i => occurs t s i /\ forall j, j < i -> ~ occurs t s j
  | None => forall j, ~ occurs t s j
  end.

Lemma strstr_loop_finds t q fuel : is_str q t -> forall p s i, is_str p s -> zlen s < Z.of_nat fuel -> t <> [] ->
  exists o, strstr_loop fuel p q i (zlen s) (zlen t) = Ok ((fun k => i + k) <$> o) /\ found t s o.
Proof.
  intros Hq. induction fuel as [|fuel IH]; intros p s i Hp Hf Ht; [pose proof (zlen_nonneg s); lia|].
  cbn [strstr_loop]. destruct (Z.leb_spec (zlen t) (zlen s)) as [Hle|Hle].
  2:{ exists None. split; [done|]. intros j Hj%occurs_range. pose proof (zlen_nonneg t). lia. }
  unfold zlen in Hle. replace (Z.to_nat (zlen t)) with (length t) by (unfold zlen; lia).
  pose proof Hp as [_ [rp Ep]]. pose proof Hq as [_ [rq Eq]].
  destruct (rt_memcmp_eq (length t) p q) as (r & -> & Hr); [rewrite ?Ep, ?Eq, length_app; cbn; lia..|].
  red_bind. rewrite Ep, Eq, take_app_length, take_app_le in Hr by lia.
  rewrite <- occurs_0 in Hr.
  destruct (Z.eqb_spec r 0) as [E0|E0].
  - exists (Some 0). split; [cbn; by rewrite Z.add_0_r|]. split; [by apply Hr|].
    intros j Hj Ho%occurs_range. lia.
  - destruct s as [|c s]; [destruct t; [done|cbn in Hle; lia]|].
    apply is_str_cons in Hp as (_ & _ & Hp).
    destruct (IH (tail p) s (i + 1) Hp) as (o & E & Ho); [unfold zlen in *; cbn in Hf; lia|done|].
    exists ((fun k => 1 + k) <$> o). replace (zlen (c :: s) - 1) with (zlen s) by (unfold zlen; cbn; lia).
    rewrite E. split; [destruct o; cbn; [by rewrite Z.add_assoc|done]|].
    assert (H0 : ~ occurs t (c :: s) 0) by (by rewrite <- Hr).
    assert (Hstep : forall j, occurs t (c :: s) j -> occurs t s (j - 1)).
    { intros j Hj. pose proof (occurs_range _ _ _ Hj). destruct (decide (j = 0)) as [->|]; [done|].
      apply (occurs_cons t c s j); [lia|done]. }
    destruct o as [k|]; cbn in Ho |- *.
    + destruct Ho as [Hk Hmin]. pose proof (occurs_range _ _ _ Hk). split.
      * apply occurs_cons; [lia|]. by replace (1 + k - 1) with k by lia.
      * intros j Hj Hoj%Hstep. apply (Hmin (j - 1)); [lia|done].
    + intros j Hoj%Hstep. by apply (Ho (j - 1)).
Qed.

(** [rt_strstr] terminates on any two strings and returns the place of
    the first occurrence of the second string in the first one, the start
    for an empty string, and no place exactly when there is no occurrence. *)
Theorem rt_strstr_finds_first p q s t : is_str p s -> is_str q t ->
  exists o, rt_strstr p q = Ok o /\ found t s o.
Proof.
  intros Hp Hq. unfold rt_strstr. rewrite (rt_strlen_spec t q Hq). red_bind.
  destruct (Z.eqb_spec (zlen t) 0) as [E|E].
  - exists (Some 0). split; [done|]. destruct t; [|unfold zlen in E; cbn in E; lia].
    split; [by apply occurs_0|]. intros j Hj Ho%occurs_range. lia.
  - rewrite (rt_strlen_spec s p Hp). red_bind. pose proof (zlen_nonneg s).
    destruct (strstr_loop_finds t q (S (Z.to_nat (zlen s + 1))) Hq p s 0 Hp) as (o & -> & Ho);
      [lia|by intros ->|].
    exists o. split; [|done]. by destruct o.
Qed.

Lemma rt_strstr_finds_first_witness :
  rt_strstr [97; 98; 97; 99; 0] [97; 99; 0] = Ok (Some 2) /\
  exists o, rt_strstr [97; 98; 97; 99; 0] [97; 99; 0] = Ok o /\ found [97; 99] [97; 98; 97; 99] o.
Proof.
  split; [reflexivity|].
  apply (rt_strstr_finds_first [97; 98; 97; 99; 0] [97; 99; 0]); (split; [not_in|by exists []]).
Defined.

End CStrThms.
