(* ===== verification/Printf.v ===== *)
(** * Formatted output (rt-thread/src/kservice.c)

    [Printf] is [print_number] and [rt_vsnprintf] over any sink of characters
    (class [Sink]): the C code handles its buffer only through
    "if (str < end) *str = c; ++str", which is the sink [buffer].  [str] and
    [end] are 32-bit pointers: [++str] wraps, and then [str < end] holds
    again.  The sink [text] collects all characters.  [PrintfSpec] relates the
    two, and [PrintfThms] holds the properties.

    RT_PRINTF_PRECISION is defined, RT_PRINTF_LONGLONG and RT_PRINTF_SPECIAL
    are not.  The fields, widths and lengths are [int]s, and signed overflow
    wraps, as the compiled code does. *)
From S2P Require Import Prelude CTypes CString.
From stdpp Require Import base list.
From Stdlib Require Import ZArith Lia.
Open Scope Z_scope.

Module Printf.
Import CMem CStr.

(** The variable arguments: a word, or a pointer with the bytes it points to. *)
Inductive arg : Type :=
  | VInt (v : Z)
  | VPtr (p : Z) (s : list Z).

Definition ZEROPAD : Z := 1.
Definition SIGN : Z := 2.
Definition PLUS : Z := 4.
Definition SPACE : Z := 8.
Definition LEFT : Z := 16.
Definition SPECIAL : Z := 32.
Definition LARGE : Z := 64.

Definition is_set (type bit : Z) : bool := negb (Z.land type bit =? 0).

Definition isdigit (c : Z) : bool := u32 (c - 48) <? 10.

(** The remainder, and the new value of [*n]. *)
Definition divide (n base : Z) : Z * Z :=
  if base =? 10 then (u32 n mod 10, s32 (u32 n / 10)) else (u32 n mod 16, s32 (u32 n / 16)).

(** The number, and the pointer behind it. *)
Fixpoint skip_atoi (s : list Z) (i : Z) : result (Z * list Z) :=
  match s with
  | [] => Err F_wild
  | c :: s' => if isdigit c then skip_atoi s' (s32 (i * 10 + c - 48)) else Ok (i, s)
  end.

Definition small_digits : list Z := [48; 49; 50; 51; 52; 53; 54; 55; 56; 57; 97; 98; 99; 100; 101; 102].
Definition large_digits : list Z := [48; 49; 50; 51; 52; 53; 54; 55; 56; 57; 65; 66; 67; 68; 69; 70].

(** [while (num != 0) tmp[i++] = digits[divide (&num, base)]]; [room] is what
    is left of the array [tmp]. *)
Fixpoint number_loop (room : nat) (num base : Z) (digits tmp : list Z) : result (list Z) :=
  if num =? 0 then Ok tmp else
  match room with
  | O => Err F_wild
  | S room =>
      let '(r, num) := divide num base in
      d ← zget digits r;
      number_loop room num base digits (tmp ++ [d])
  end.

(** The digits, the lowest one first. *)
Definition number_digits (num base : Z) (digits : list Z) : result (list Z) :=
  if num =? 0 then Ok [48] else number_loop 16 num base digits [].

(** The sign character, 0 for none, and the number without its sign. *)
Definition number_sign (num type : Z) : Z * Z :=
  if is_set type SIGN then
    if num <? 0 then (45, s32 (- num))
    else if is_set type PLUS then (43, num)
    else if is_set type SPACE then (32, num) else (0, num)
  else (0, num).

(** What receives the characters. *)
Class Sink (T : Type) : Type := put : Z -> T -> result T.

(** Code that writes to a sink and returns a value. *)
Definition M (T A : Type) : Type := T -> result (T * A).
Definition ret {T A} (a : A) : M T A := fun o => Ok (o, a).
Definition bind {T A B} (m : M T A) (k : A -> M T B) : M T B := fun o => r ← m o; k r.2 r.1.
Definition lift {T A} (m : result A) : M T A := fun o => a ← m; Ok (o, a).
Definition emit {T} `{Sink T} (c : Z) : M T unit := fun o => o ← put c o; Ok (o, tt).

Notation "x <~ m ; k" := (bind m (fun x => k)) (at level 20, m at level 100, k at level 200, only parsing).
Notation "' x <~ m ; k" := (bind m (fun x => k)) (at level 20, x pattern, m at level 100, k at level 200, only parsing).

Section Sink.
Context {T : Type} `{Sink T}.

Fixpoint emit_all (cs : list Z) : M T unit :=
  match cs with [] => ret tt | c :: cs => _ <~ emit c; emit_all cs end.

(** [while (size-- > 0) ...]: [size] copies of [c]; the result is what
    becomes of [size]. *)
Definition pad (c size : Z) : M T Z :=
  _ <~ emit_all (replicate (Z.to_nat size) c);
  ret (if 0 <? size then -1 else s32 (size - 1)).

(** [while (--size > 0) ...]. *)
Definition pad_before (c size : Z) : M T Z :=
  let size := s32 (size - 1) in
  _ <~ emit_all (replicate (Z.to_nat size) c);
  ret (if 0 <? size then 0 else size).

(** [while (len < size--) ...]. *)
Definition pad_above (c len size : Z) : M T Z :=
  _ <~ emit_all (replicate (Z.to_nat (size - len)) c);
  ret (s32 ((if len <? size then len else size) - 1)).

Definition print_number (num base s precision type : Z) : M T unit :=
  let digits := if is_set type LARGE then large_digits else small_digits in
  let type := if is_set type LEFT then Z.land type (Z.lnot ZEROPAD) else type in
  let c := if is_set type ZEROPAD then 48 else 32 in
  let '(sign, num) := number_sign num type in
  tmp <~ lift (number_digits num base digits);
  let i := zlen tmp in
  let precision_bak := precision in
  let precision := if precision <? i then i else precision in
  let size := s32 (s - precision) in
  size <~ (if negb (is_set type (Z.lor ZEROPAD LEFT))
           then pad 32 (if negb (sign =? 0) && (0 <? size) then size - 1 else size)
           else ret size);
  size <~ (if negb (sign =? 0) then _ <~ emit sign; ret (s32 (size - 1)) else ret size);
  size <~ (if negb (is_set type LEFT) then pad c size else ret size);
  _ <~ emit_all (replicate (Z.to_nat (precision - i)) 48);
  _ <~ (if negb (precision_bak =? 0) then emit_all (rev tmp) else ret tt);
  _ <~ pad 32 size;
  ret tt.

(** *** The parts of a conversion *)

Fixpoint get_flags (fmt : list Z) (flags : Z) : result (list Z * Z) :=
  match fmt with
  | [] => Err F_wild
  | c :: fmt' =>
      if c =? 45 then get_flags fmt' (Z.lor flags LEFT)
      else if c =? 43 then get_flags fmt' (Z.lor flags PLUS)
      else if c =? 32 then get_flags fmt' (Z.lor flags SPACE)
      else if c =? 35 then get_flags fmt' (Z.lor flags SPECIAL)
      else if c =? 48 then get_flags fmt' (Z.lor flags ZEROPAD)
      else Ok (fmt, flags)
  end.

Definition va_int (args : list arg) : result (Z * list arg) :=
  match args with VInt v :: args => Ok (v, args) | _ => Err F_wild end.
Definition va_ptr (args : list arg) : result (Z * list Z * list arg) :=
  match args with VPtr p s :: args => Ok (p, s, args) | _ => Err F_wild end.

(** The field width, -1 if there is none. *)
Definition get_width (fmt : list Z) (args : list arg) (flags : Z) : result (list Z * list arg * Z * Z) :=
  c ← deref (head fmt);
  if isdigit c then r ← skip_atoi fmt 0; Ok (r.2, args, flags, r.1)
  else if c =? 42 then
    r ← va_int args;
    let w := s32 r.1 in
    if w <? 0 then Ok (tail fmt, r.2, Z.lor flags LEFT, s32 (- w)) else Ok (tail fmt, r.2, flags, w)
  else Ok (fmt, args, flags, -1).

(** The precision, -1 if there is none. *)
Definition get_precision (fmt : list Z) (args : list arg) : result (list Z * list arg * Z) :=
  c ← deref (head fmt);
  if c =? 46 then
    let fmt := tail fmt in
    c ← deref (head fmt);
    r ← (if isdigit c then r ← skip_atoi fmt 0; Ok (r.2, args, r.1)
         else if c =? 42 then r ← va_int args; Ok (tail fmt, r.2, s32 r.1)
         else Ok (fmt, args, -1));
    let '(fmt, args, precision) := r in
    Ok (fmt, args, if precision <? 0 then 0 else precision)
  else Ok (fmt, args, -1).

Definition get_qualifier (fmt : list Z) : result (list Z * Z) :=
  c ← deref (head fmt);
  if (c =? 104) || (c =? 108) then Ok (tail fmt, c) else Ok (fmt, 0).

(** [case 'c']. *)
Definition print_char (v flags width : Z) : M T unit :=
  width <~ (if negb (is_set flags LEFT) then pad_before 32 width else ret width);
  _ <~ emit (u8 v);
  _ <~ pad_before 32 width;
  ret tt.

(** "(NULL)". *)
Definition null_text : list Z := [40; 78; 85; 76; 76; 41; 0].

(** [case 's']. *)
Definition print_string (p : Z) (s : list Z) (flags width precision : Z) : M T unit :=
  let s := if p =? 0 then null_text else s in
  len <~ lift (rt_strlen s);
  let len := s32 len in
  let len := if (0 <? precision) && (precision <? len) then precision else len in
  width <~ (if negb (is_set flags LEFT) then pad_above 32 len width else ret width);
  _ <~ emit_all (take (Z.to_nat len) s);
  _ <~ pad_above 32 len width;
  ret tt.

(** [num], as [print_number] gets it. *)
Definition get_num (v qualifier flags : Z) : Z :=
  if qualifier =? 104 then s32 (if is_set flags SIGN then s16 v else u16 v) else s32 v.

Definition print_int (args : list arg) (base flags width precision qualifier : Z) : M T (list arg) :=
  r <~ lift (va_int args);
  _ <~ print_number (get_num r.1 qualifier flags) base width precision flags;
  ret r.2.

(** The conversion character is the head of [fmt]; the result has the pointer
    after the [++fmt] of the loop. *)
Definition convert (fmt : list Z) (args : list arg) (flags width precision qualifier : Z)
  : M T (list Z * list arg) :=
  c <~ lift (deref (head fmt));
  if c =? 99 then
    r <~ lift (va_int args); _ <~ print_char r.1 flags width; ret (tail fmt, r.2)
  else if c =? 115 then
    '(p, s, args) <~ lift (va_ptr args);
    _ <~ print_string p s flags width precision; ret (tail fmt, args)
  else if c =? 112 then
    '(p, _, args) <~ lift (va_ptr args);
    _ <~ (if width =? -1 then print_number (s32 p) 16 8 precision (Z.lor flags ZEROPAD)
          else print_number (s32 p) 16 width precision flags);
    ret (tail fmt, args)
  else if c =? 37 then _ <~ emit 37; ret (tail fmt, args)
  else if c =? 111 then
    args <~ print_int args 8 flags width precision qualifier; ret (tail fmt, args)
  else if c =? 88 then
    args <~ print_int args 16 (Z.lor flags LARGE) width precision qualifier; ret (tail fmt, args)
  else if c =? 120 then
    args <~ print_int args 16 flags width precision qualifier; ret (tail fmt, args)
  else if (c =? 100) || (c =? 105) then
    args <~ print_int args 10 (Z.lor flags SIGN) width precision qualifier; ret (tail fmt, args)
  else if c =? 117 then
    args <~ print_int args 10 flags width precision qualifier; ret (tail fmt, args)
  else
    _ <~ emit 37;
    if negb (c =? 0) then _ <~ emit c; ret (tail fmt, args) else ret (fmt, args).

(** What stands between the '%' and the conversion character. *)
Definition conversion (fmt : list Z) (args : list arg) : result (list Z * list arg * Z * Z * Z * Z) :=
  r ← get_flags fmt 0;
  let '(fmt, flags) := r in
  r ← get_width fmt args flags;
  let '(fmt, args, flags, width) := r in
  r ← get_precision fmt args;
  let '(fmt, args, precision) := r in
  r ← get_qualifier fmt;
  let '(fmt, qualifier) := r in
  Ok (fmt, args, flags, width, precision, qualifier).

(** One turn of the loop; [c] is [*fmt], not 0. *)
Definition vstep (c : Z) (fmt : list Z) (args : list arg) : M T (list Z * list arg) :=
  if negb (c =? 37) then _ <~ emit c; ret (tail fmt, args) else
  '(fmt, args, flags, width, precision, qualifier) <~ lift (conversion (tail fmt) args);
  convert fmt args flags width precision qualifier.

(** The loop over the format. *)
Fixpoint vloop (fuel : nat) (fmt : list Z) (args : list arg) : M T unit :=
  match fuel with
  | O => lift (Err F_fuel)
  | S fuel =>
      c <~ lift (deref (head fmt));
      if c =? 0 then ret tt else
      '(fmt, args) <~ vstep c fmt args;
      vloop fuel fmt args
  end.

(** Every turn moves [fmt] on. *)
Definition format (fmt : list Z) (args : list arg) : M T unit := vloop (S (length fmt)) fmt args.

End Sink.

(** The sink of the C code: the object that begins at [buf], and [str]; [e]
    is [end].  A write in front of the object or behind it is [F_wild]. *)
Definition buffer (buf e : Z) : Sink (list Z * Z) := fun c o =>
  let '(m, str) := o in
  m ← (if str <? e then store8 m (str - buf) c else Ok m); Ok (m, u32 (str + 1)).

#[export] Instance text : Sink (list Z) := fun c t => Ok (t ++ [u8 c]).

(** [end] and [size]. *)
Definition clamp (buf size : Z) : Z * Z :=
  let e := u32 (buf + size) in
  if e <? buf then (4294967295, u32 (4294967295 - buf)) else (e, size).

(** [m] is the object that begins at [buf]; the result is what becomes of it,
    and the value that is returned. *)
Definition rt_vsnprintf (buf : Z) (m : list Z) (size : Z) (fmt : list Z) (args : list arg)
  : result (list Z * Z) :=
  let '(e, size) := clamp buf size in
  r ← format (H := buffer buf e) fmt args (m, buf);
  let '(m, str) := r.1 in
  m ← (if 0 <? size then store8 m ((if str <? e then str else u32 (e - 1)) - buf) 0 else Ok m);
  Ok (m, s32 (str - buf)).

Definition rt_snprintf (a : Z) (m : list Z) (size : Z) (fmt : list Z) (args : list arg) : result (list Z * Z) :=
  rt_vsnprintf a m size fmt args.
Definition rt_vsprintf (a : Z) (m : list Z) (fmt : list Z) (args : list arg) : result (list Z * Z) :=
  rt_vsnprintf a m (u32 (-1)) fmt args.
Definition rt_sprintf (a : Z) (m : list Z) (fmt : list Z) (args : list arg) : result (list Z * Z) :=
  rt_vsprintf a m fmt args.

(** *** Tests *)

(** "%5d|%-4x|%05d", with 42, 255 and -7. *)
Example text_fields : format (H := text) [37; 53; 100; 124; 37; 45; 52; 120; 124; 37; 48; 53; 100; 0]
    [VInt 42; VInt 255; VInt (-7)] [] =
  Ok ([32; 32; 32; 52; 50; 124; 102; 102; 32; 32; 124; 45; 48; 48; 48; 55], tt).
Proof. reflexivity. Qed.

(** "%o" prints 16 in base 16: [divide] knows the bases 10 and 16 only. *)
Example text_octal : format (H := text) [37; 111; 0] [VInt 16] [] = Ok ([49; 48], tt).
Proof. reflexivity. Qed.

(** "%.0d" prints nothing of 5. *)
Example text_precision_0 : format (H := text) [37; 46; 48; 100; 0] [VInt 5] [] = Ok ([], tt).
Proof. reflexivity. Qed.

End Printf.

(** ** What is written depends on the sink only through its characters *)
Module PrintfSpec.
Import CMem CStr Printf.

Definition bytes (cs : list Z) : list Z := u8 <$> cs.

Section Emits.
Context {T : Type} `{Sink T}.

(** Where the text sink gets through, any other sink is sent the characters
    that the text has got. *)
Definition emits {A} (mt : M (list Z) A) (mo : M T A) : Prop :=
  forall t t' a, mt t = Ok (t', a) ->
    exists cs, t' = t ++ bytes cs /\ forall o, mo o = bind (emit_all cs) (fun _ => ret a) o.

Lemma emits_ret {A} (a : A) : emits (ret a) (ret a).
Proof. intros t t' b [= <- <-]. exists []. split; [by rewrite app_nil_r|done]. Qed.

Lemma emits_lift {A} (m : result A) : emits (lift m) (lift m).
Proof. intros t t' b E. unfold lift in E. destruct m as [a|]; [|done]. injection E as <- <-.
  exists []. split; [by rewrite app_nil_r|done]. Qed.

Lemma emits_emit c : emits (emit c) (emit c).
Proof.
  intros t t' [] [= <-]. exists [c]. split; [done|]. intros o. cbn [emit_all]. unfold bind, ret, emit.
  by destruct (put c o).
Qed.

Lemma emit_all_app cs ds (o : T) :
  emit_all (cs ++ ds) o = bind (emit_all cs) (fun _ => emit_all ds) o.
Proof.
  revert o. induction cs as [|c cs IH]; intros o; [done|]. cbn [emit_all Datatypes.app]. unfold bind, emit in *.
  destruct (put c o) as [o'|]; [|done]. red_bind. cbn [fst snd]. by rewrite IH.
Qed.

Lemma emits_bind {A B} (mt : M (list Z) A) (mo : M T A) (kt : A -> M (list Z) B) (ko : A -> M T B) :
  emits mt mo -> (forall a, emits (kt a) (ko a)) -> emits (bind mt kt) (bind mo ko).
Proof.
  intros Hm Hk t t' b E. unfold bind in E. apply bind_Ok_inv in E as ([t1 a] & E1 & E2). cbn in E2.
  destruct (Hm _ _ _ E1) as (cs & -> & Ho). destruct (Hk a _ _ _ E2) as (ds & -> & Ho').
  exists (cs ++ ds). split; [unfold bytes; by rewrite fmap_app, (assoc_L (++))|]. intros o.
  unfold bind at 1. rewrite Ho. unfold bind, ret. rewrite emit_all_app. unfold bind.
  destruct (emit_all cs o) as [[o' []]|]; [|done]. red_bind. cbn [fst snd].
  rewrite Ho'. unfold bind, ret. by destruct (emit_all ds o') as [[? []]|].
Qed.

Lemma emits_if {A} (b : bool) (mt nt : M (list Z) A) (mo no : M T A) :
  emits mt mo -> emits nt no -> emits (if b then mt else nt) (if b then mo else no).
Proof. by destruct b. Qed.

#[local] Hint Resolve emits_ret emits_lift emits_emit : rtt.

Ltac emits_tac :=
  repeat first
    [ progress eauto 1 with rtt
    | apply emits_bind; [|intros ?]
    | apply emits_if
    | case_match ].

Lemma emits_emit_all cs : emits (emit_all cs) (emit_all cs).
Proof. induction cs as [|c cs IH]; cbn [emit_all]; emits_tac. Qed.
#[local] Hint Resolve emits_emit_all : rtt.

Lemma emits_pad c size : emits (pad c size) (pad c size).
Proof. unfold pad. emits_tac. Qed.
#[local] Hint Resolve emits_pad : rtt.

Lemma emits_pad_before c size : emits (pad_before c size) (pad_before c size).
Proof. unfold pad_before. emits_tac. Qed.
Lemma emits_pad_above c len size : emits (pad_above c len size) (pad_above c len size).
Proof. unfold pad_above. emits_tac. Qed.
#[local] Hint Resolve emits_pad_before emits_pad_above : rtt.

Lemma emits_print_number num base s precision type :
  emits (print_number num base s precision type) (print_number num base s precision type).
Proof. unfold print_number. destruct (number_sign _ _) as [sign n]. emits_tac. Qed.
#[local] Hint Resolve emits_print_number : rtt.

Lemma emits_convert fmt args flags width precision qualifier :
  emits (convert fmt args flags width precision qualifier) (convert fmt args flags width precision qualifier).
Proof.
  unfold convert, print_char, print_string, print_int.
  apply emits_bind; [auto with rtt|intros c]. repeat (apply emits_if); emits_tac.
Qed.
#[local] Hint Resolve emits_convert : rtt.

Lemma emits_vloop fuel : forall fmt args, emits (vloop fuel fmt args) (vloop fuel fmt args).
Proof.
  induction fuel as [|fuel IH]; intros fmt args; cbn [vloop]; [auto with rtt|].
  unfold vstep. emits_tac.
Qed.

Lemma format_emits fmt args t : format fmt args [] = Ok (t, tt) ->
  exists cs, t = bytes cs /\ forall o : T, format fmt args o = emit_all cs o.
Proof.
  intros E. destruct (emits_vloop _ _ _ _ _ _ E) as (cs & -> & Ho). exists cs. split; [done|].
  intros o. unfold format. rewrite Ho. unfold bind, ret. by destruct (emit_all cs o) as [[? []]|].
Qed.

End Emits.

(** *** The buffer *)

Lemma store8_app pre x suf c : store8 (pre ++ x :: suf) (zlen pre) c = Ok ((pre ++ [u8 c]) ++ suf).
Proof.
  unfold store8. rewrite zset_Ok by (rewrite zlen_app; unfold zlen; cbn; lia).
  unfold zlen. rewrite Nat2Z.id, insert_app_r_alt, Nat.sub_diag by lia. cbn. by rewrite <- (assoc_L (++)).
Qed.

Lemma zlen_bytes cs : zlen (bytes cs) = zlen cs.
Proof. unfold zlen, bytes. by rewrite length_fmap. Qed.

Lemma zlen_cons {A} (x : A) l : zlen (x :: l) = zlen l + 1.
Proof. unfold zlen. cbn [length]. lia. Qed.

Section Buffer.
Context (buf e : Z) (buf_ok : 0 <= buf) (e_ok : e < 4294967296).

Lemma emit_all_fits cs : forall pre suf, zlen cs <= zlen suf -> buf + zlen pre + zlen cs <= e ->
  emit_all (H := buffer buf e) cs (pre ++ suf, buf + zlen pre) =
    Ok ((pre ++ bytes cs ++ drop (length cs) suf, buf + zlen pre + zlen cs), tt).
Proof.
  induction cs as [|c cs IH]; intros pre suf Hs He; cbn [emit_all].
  { unfold ret. change (zlen []) with 0. by rewrite Z.add_0_r. }
  destruct suf as [|x suf]; [unfold zlen in Hs; cbn in Hs; lia|].
  rewrite !zlen_cons in *.
  assert (zlen (pre ++ [u8 c]) = zlen pre + 1) by (rewrite zlen_app; done).
  pose proof (zlen_nonneg cs). pose proof (zlen_nonneg pre).
  unfold bind, emit, put, buffer.
  rewrite (proj2 (Z.ltb_lt _ _)) by lia. replace (buf + zlen pre - buf) with (zlen pre) by lia.
  rewrite store8_app. red_bind. cbn [fst snd]. rewrite u32_small by lia.
  replace (buf + zlen pre + 1) with (buf + zlen (pre ++ [u8 c])) by lia.
  fold (buffer buf e). rewrite IH by lia.
  replace (buf + zlen (pre ++ [u8 c]) + zlen cs) with (buf + zlen pre + (zlen cs + 1)) by lia.
  by rewrite <- (assoc_L (++)).
Qed.

Lemma emit_all_past cs : forall m str, e <= str -> 0 <= str -> str + zlen cs < 4294967296 ->
  emit_all (H := buffer buf e) cs (m, str) = Ok ((m, str + zlen cs), tt).
Proof.
  induction cs as [|c cs IH]; intros m str He H0 Hw; cbn [emit_all].
  { unfold ret. change (zlen []) with 0. by rewrite Z.add_0_r. }
  rewrite zlen_cons in *. pose proof (zlen_nonneg cs).
  unfold bind, emit, put, buffer. rewrite (proj2 (Z.ltb_ge _ _)) by lia. red_bind. cbn [fst snd].
  rewrite u32_small by lia. fold (buffer buf e). rewrite IH by lia.
  by replace (str + 1 + zlen cs) with (str + (zlen cs + 1)) by lia.
Qed.

Lemma emit_all_overflow cs m : zlen m < zlen cs -> buf + zlen m < e ->
  emit_all (H := buffer buf e) cs (m, buf) = Err F_wild.
Proof.
  intros Hc He. rewrite <- (take_drop (length m) cs), emit_all_app. unfold bind.
  assert (Hl : length (take (length m) cs) = length m) by (rewrite length_take; unfold zlen in *; lia).
  assert (Hz : zlen (take (length m) cs) = zlen m) by (unfold zlen; by rewrite Hl).
  pose proof (emit_all_fits (take (length m) cs) [] m) as E. rewrite Hz, Hl in E.
  cbn [Datatypes.app] in E. change (zlen []) with 0 in E. rewrite Z.add_0_r in E.
  rewrite E by lia. red_bind. cbn [fst snd].
  destruct (drop (length m) cs) as [|c ds] eqn:Ed.
  { apply (f_equal length) in Ed. rewrite length_drop in Ed. unfold zlen in *. cbn in Ed. lia. }
  cbn [emit_all]. unfold bind, emit, put, buffer, store8.
  rewrite (proj2 (Z.ltb_lt _ _)) by lia.
  rewrite drop_ge by done. rewrite app_nil_r. unfold zset, in_range. rewrite zlen_bytes, Hz.
  rewrite (proj2 (Z.leb_gt _ (zlen m))) by lia. by rewrite andb_false_r.
Qed.

End Buffer.

End PrintfSpec.

Module PrintfThms.
Import CMem CStr CStrThms Printf PrintfSpec.

(** *** The buffer holds a prefix of the text *)

Lemma format_length fmt args t : format fmt args [] = Ok (t, tt) ->
  Forall (fun c => 0 <= c < 256) t.
Proof.
  intros E. destruct (format_emits (T := list Z) fmt args t E) as (cs & -> & _).
  apply Forall_fmap, Forall_forall. intros c _. apply u8_range.
Qed.

Lemma emit_all_buffer buf e cs m : 0 <= buf <= e -> e < 4294967296 -> buf + zlen cs < 4294967296 ->
  Z.min (zlen cs) (e - buf) <= zlen m ->
  let n := Nat.min (length cs) (Z.to_nat (e - buf)) in
  emit_all (H := buffer buf e) cs (m, buf) = Ok ((take n (bytes cs) ++ drop n m, buf + zlen cs), tt).
Proof.
  intros Hs He Hw Hm n.
  assert (Hl : length (take n cs) = n) by (rewrite length_take; lia).
  assert (Hz : zlen (take n cs) = Z.of_nat n) by (unfold zlen; by rewrite Hl).
  pose proof (emit_all_fits buf e ltac:(lia) ltac:(lia) (take n cs) [] m) as Ef.
  change (zlen []) with 0 in Ef. rewrite Z.add_0_r in Ef.
  cbn [Datatypes.app] in Ef. rewrite <- (take_drop n cs) at 1. rewrite emit_all_app. unfold bind.
  rewrite Ef by (unfold zlen in *; lia). red_bind. cbn [fst snd]. rewrite Hl.
  replace (bytes (take n cs)) with (take n (bytes cs)) by (symmetry; apply fmap_take).
  assert (Hsum : buf + zlen (take n cs) + zlen (drop n cs) = buf + zlen cs).
  { rewrite <- (take_drop n cs) at 3. rewrite zlen_app. lia. }
  destruct (Nat.le_ge_cases (length cs) (Z.to_nat (e - buf))).
  - rewrite (drop_ge cs n) in * by lia. cbn [emit_all]. unfold ret. rewrite <- Hsum. change (zlen []) with 0.
    by rewrite Z.add_0_r.
  - rewrite emit_all_past by (unfold zlen in *; rewrite ?length_drop; lia). by rewrite Hsum.
Qed.

Lemma store8_zero m k : 0 <= k < zlen m ->
  store8 m k 0 = Ok (take (Z.to_nat k) m ++ 0 :: drop (S (Z.to_nat k)) m).
Proof.
  intros Hk. unfold store8. rewrite zset_Ok by done. f_equal.
  rewrite insert_take_drop by (unfold zlen in Hk; lia). done.
Qed.

(** C24: where the object has the [size] bytes it is said to have and neither
    its end nor the text passes the end of the address space (behind it [str]
    wraps and [str < end] holds again), [rt_vsnprintf] writes the text as far
    as it fits into [size] - 1 bytes, and a zero behind it; it touches no
    other byte of the object, it writes nothing at all when the size is 0, and
    it returns the length of the whole text. *)
Theorem rt_vsnprintf_truncates buf m size fmt args t :
  format fmt args [] = Ok (t, tt) -> 0 <= buf -> 0 <= size <= zlen m -> buf + size < 4294967296 ->
  buf + zlen t < 4294967296 ->
  rt_vsnprintf buf m size fmt args =
    Ok (if size =? 0 then m
        else let n := Z.to_nat (Z.min (zlen t) (size - 1)) in take n t ++ 0 :: drop (S n) m,
        s32 (zlen t)).
Proof.
  intros E Ha Hs Hw Ht. unfold rt_vsnprintf, clamp. rewrite u32_small by lia.
  rewrite (proj2 (Z.ltb_ge (buf + size) buf)) by lia. cbv zeta iota.
  destruct (format_emits (H := buffer buf (buf + size)) fmt args t E) as (cs & -> & ->).
  rewrite zlen_bytes in *. rewrite emit_all_buffer by lia. red_bind. cbn [fst].
  replace (buf + size - buf) with size by lia.
  set (n := Nat.min _ _). pose proof (zlen_nonneg cs).
  replace (buf + zlen cs - buf) with (zlen cs) by lia.
  destruct (Z.eqb_spec size 0) as [->|Hne]; [by replace n with 0%nat by lia|].
  rewrite (proj2 (Z.ltb_lt 0 size)) by lia. rewrite u32_small by lia.
  replace ((if buf + zlen cs <? buf + size then buf + zlen cs else buf + size - 1) - buf)
    with (Z.min (zlen cs) (size - 1)) by (destruct (Z.ltb_spec (buf + zlen cs) (buf + size)); lia).
  set (k := Z.min _ _). assert (Hk : 0 <= k < size) by lia.
  assert (Hn : (Z.to_nat k <= n <= S (Z.to_nat k))%nat) by (unfold zlen in *; lia).
  assert (Hl : length (take n (bytes cs)) = n) by (rewrite length_take; unfold bytes; rewrite length_fmap; lia).
  rewrite store8_zero; [|rewrite zlen_app; unfold zlen; rewrite Hl, length_drop; unfold zlen in Hs; lia].
  red_bind. do 2 f_equal. rewrite take_app_le, take_take, Nat.min_l by lia. do 2 f_equal.
  rewrite drop_app_ge, drop_drop, Hl by lia. f_equal. lia.
Qed.

Lemma rt_vsnprintf_truncates_witness :
  rt_vsnprintf 536870912 [7; 7; 7; 7; 7; 7] 4 [37; 100; 0] [VInt (-1234)] = Ok ([45; 49; 50; 0; 7; 7], 5).
Proof.
  apply (rt_vsnprintf_truncates 536870912 [7; 7; 7; 7; 7; 7] 4 [37; 100; 0] [VInt (-1234)] [45; 49; 50; 51; 52]);
    [reflexivity|lia|unfold zlen; cbn; lia|lia|unfold zlen; cbn; lia].
Defined.

(** Behind the end of the address space the size no longer bounds the writes:
    a buffer of one byte at the last address but one, a text of four
    characters. *)
Lemma rt_vsnprintf_wraps : rt_vsnprintf 4294967294 [7] 1 [97; 98; 99; 100; 0] [] = Err F_wild.
Proof. reflexivity. Qed.

(** [rt_sprintf] knows no size: the text and its zero have to fit the object,
    or the write leaves it. *)
Lemma rt_sprintf_writes a m fmt args t :
  format fmt args [] = Ok (t, tt) -> 0 < a -> a + zlen m < 4294967295 ->
  rt_sprintf a m fmt args =
    if zlen t <? zlen m then Ok (t ++ 0 :: drop (S (length t)) m, s32 (zlen t)) else Err F_wild.
Proof.
  intros E Ha Hw. pose proof (zlen_nonneg m). pose proof (zlen_nonneg t).
  assert (Hc : clamp a (u32 (-1)) = (4294967295, 4294967295 - a)).
  { unfold clamp. change (u32 (-1)) with 4294967295. replace (u32 (a + 4294967295)) with (a - 1) by (unfold u32; dlia).
    rewrite (proj2 (Z.ltb_lt (a - 1) a)) by lia. by rewrite u32_small by lia. }
  unfold rt_sprintf, rt_vsprintf, rt_vsnprintf. rewrite Hc. set (e := 4294967295) in *.
  assert (He : e = 4294967295) by done.
  destruct (format_emits (H := buffer a e) fmt args t E) as (cs & -> & ->). rewrite zlen_bytes in *.
  destruct (Z.ltb_spec (zlen cs) (zlen m)).
  - rewrite emit_all_buffer by lia. red_bind. cbn [fst].
    rewrite (proj2 (Z.ltb_lt 0 (e - a))), (proj2 (Z.ltb_lt (a + zlen cs) e)) by lia.
    replace (a + zlen cs - a) with (zlen cs) by lia.
    rewrite Nat.min_l by (unfold zlen in *; lia). rewrite take_ge by (unfold bytes; rewrite length_fmap; lia).
    rewrite <- (zlen_bytes cs) at 1. destruct (drop (length cs) m) as [|x suf] eqn:Ed.
    { apply (f_equal length) in Ed. rewrite length_drop in Ed. unfold zlen in *. cbn in Ed. lia. }
    rewrite store8_app. red_bind. do 2 f_equal. rewrite <- (assoc_L (++)). cbn [Datatypes.app]. do 2 f_equal.
    unfold bytes. rewrite length_fmap. replace (S (length cs)) with (length cs + 1)%nat by lia.
    by rewrite <- drop_drop, Ed.
  - destruct (Z.eq_dec (zlen cs) (zlen m)) as [Heq|]; [|by rewrite emit_all_overflow by lia].
    rewrite emit_all_buffer by lia. red_bind. cbn [fst].
    rewrite (proj2 (Z.ltb_lt 0 (e - a))), (proj2 (Z.ltb_lt (a + zlen cs) e)) by lia.
    replace (a + zlen cs - a) with (zlen cs) by lia.
    unfold store8, zset. rewrite zlen_app. unfold zlen. rewrite length_take, length_drop. unfold bytes. rewrite length_fmap.
    replace (in_range _ _ _) with false; [done|]. symmetry. apply not_true_iff_false.
    rewrite in_range_spec. unfold zlen in *. lia.
Qed.

(** *** Every format is read to its end *)

Lemma head_cons {A} (l : list A) x : deref (head l) = Ok x -> exists l', l = x :: l'.
Proof. destruct l as [|y l]; [done|]. intros [= ->]. by exists l. Qed.

Lemma skip_atoi_length s : forall i n s', skip_atoi s i = Ok (n, s') -> (length s' <= length s)%nat.
Proof.
  induction s as [|c s IH]; intros i n s' E; [done|]. cbn in E. destruct (isdigit c).
  - apply IH in E. cbn. lia.
  - by injection E as <- <-.
Qed.

Lemma get_flags_length fmt : forall f fmt' f', get_flags fmt f = Ok (fmt', f') -> (length fmt' <= length fmt)%nat.
Proof.
  induction fmt as [|c fmt IH]; intros f fmt' f' E; [done|]. cbn in E.
  repeat case_match; try (apply IH in E; cbn; lia). by injection E as <- <-.
Qed.

Lemma get_width_length fmt args f fmt' args' f' w : get_width fmt args f = Ok (fmt', args', f', w) ->
  (length fmt' <= length fmt)%nat.
Proof.
  unfold get_width. intros E. apply bind_Ok_inv in E as (c & [l ->]%head_cons & E).
  destruct (isdigit c); [|destruct (c =? 42)].
  - apply bind_Ok_inv in E as ([n s'] & Es & E). apply skip_atoi_length in Es. by injection E as <- <- <- <-.
  - apply bind_Ok_inv in E as (r & _ & E). destruct (_ <? 0); injection E as <- <- <- <-; cbn; lia.
  - by injection E as <- <- <- <-.
Qed.

Lemma get_precision_length fmt args fmt' args' p : get_precision fmt args = Ok (fmt', args', p) ->
  (length fmt' <= length fmt)%nat.
Proof.
  unfold get_precision. intros E. apply bind_Ok_inv in E as (c & [l ->]%head_cons & E).
  destruct (c =? 46); [|by injection E as <- <- <-].
  cbv zeta in E. apply bind_Ok_inv in E as (d & [l' Hl]%head_cons & E). cbn [tail] in Hl. subst l. cbn [tail] in E.
  apply bind_Ok_inv in E as ([[f2 a2] p2] & E2 & E). injection E as <- <- <-.
  destruct (isdigit d); [|destruct (d =? 42)].
  - apply bind_Ok_inv in E2 as ([n s'] & Es & E2). apply skip_atoi_length in Es. injection E2 as <- <- <-. cbn in *. lia.
  - apply bind_Ok_inv in E2 as (r & _ & E2). injection E2 as <- <- <-. cbn. lia.
  - injection E2 as <- <- <-. cbn. lia.
Qed.

Lemma get_qualifier_length fmt fmt' q : get_qualifier fmt = Ok (fmt', q) -> (length fmt' <= length fmt)%nat.
Proof.
  unfold get_qualifier. intros E. apply bind_Ok_inv in E as (c & [l ->]%head_cons & E).
  destruct (_ || _); injection E as <- <-; cbn; lia.
Qed.

Lemma conversion_length fmt args r : conversion fmt args = Ok r ->
  (length r.1.1.1.1.1 <= length fmt)%nat.
Proof.
  unfold conversion. intros E.
  apply bind_Ok_inv in E as ([f1 g1] & E1%get_flags_length & E).
  apply bind_Ok_inv in E as ([[[f2 a2] g2] w] & E2%get_width_length & E).
  apply bind_Ok_inv in E as ([[f3 a3] p] & E3%get_precision_length & E).
  apply bind_Ok_inv in E as ([f4 q] & E4%get_qualifier_length & E). injection E as <-. cbn. lia.
Qed.

(** The computation does not run out of fuel. *)
Definition fueled {A} (m : result A) : Prop := m <> Err F_fuel.

Lemma fueled_Ok {A} (a : A) : fueled (Ok a).
Proof. done. Qed.
Lemma fueled_wild {A} : fueled (@Err A F_wild).
Proof. done. Qed.
Lemma fueled_bind {A B} (m : result A) (k : A -> result B) :
  fueled m -> (forall a, m = Ok a -> fueled (k a)) -> fueled (mbind k m).
Proof. destruct m as [a|f]; intros Hm Hk; [by apply Hk|]. intros [= ->]. by apply Hm. Qed.
Lemma fueled_deref {A} (o : option A) : fueled (deref o).
Proof. by destruct o. Qed.
#[local] Hint Resolve fueled_Ok fueled_wild fueled_deref : rtt.

Ltac fueled_tac :=
  repeat first
    [ progress eauto 1 with rtt
    | apply fueled_bind; [|intros ? ?]
    | case_match ].

Lemma fueled_zget (l : list Z) i : fueled (zget l i).
Proof. unfold zget. fueled_tac. Qed.
Lemma fueled_strlen s : fueled (rt_strlen s).
Proof. induction s as [|c s IH]; cbn [rt_strlen]; fueled_tac. Qed.
Lemma fueled_skip_atoi s : forall i, fueled (skip_atoi s i).
Proof. induction s as [|c s IH]; intros i; cbn [skip_atoi]; fueled_tac. Qed.
Lemma fueled_get_flags fmt : forall f, fueled (get_flags fmt f).
Proof. induction fmt as [|c fmt IH]; intros f; cbn [get_flags]; fueled_tac. Qed.
#[local] Hint Resolve fueled_zget fueled_strlen fueled_skip_atoi fueled_get_flags : rtt.

Lemma fueled_va_int args : fueled (va_int args).
Proof. unfold va_int. fueled_tac. Qed.
Lemma fueled_va_ptr args : fueled (va_ptr args).
Proof. unfold va_ptr. fueled_tac. Qed.
#[local] Hint Resolve fueled_va_int fueled_va_ptr : rtt.

Lemma fueled_conversion fmt args : fueled (conversion fmt args).
Proof. unfold conversion, get_width, get_precision, get_qualifier. fueled_tac. Qed.
Lemma fueled_number_loop room : forall num base digits tmp, fueled (number_loop room num base digits tmp).
Proof. induction room as [|room IH]; intros; cbn [number_loop]; fueled_tac. Qed.
Lemma fueled_number_digits num base digits : fueled (number_digits num base digits).
Proof. unfold number_digits. case_match; [done|]. apply fueled_number_loop. Qed.
#[local] Hint Resolve fueled_conversion fueled_number_digits : rtt.

Section Fuel.
Context {T : Type} `{Sink T} (put_fueled : forall c (o : T), fueled (put c o)).

Definition runs {A} (m : M T A) : Prop := forall o, fueled (m o).

Lemma runs_ret {A} (a : A) : runs (ret a).
Proof. done. Qed.
Lemma runs_lift {A} (m : result A) : fueled m -> runs (lift m).
Proof. intros Hm o. unfold lift. by apply fueled_bind. Qed.
Lemma runs_emit c : runs (emit c).
Proof. intros o. unfold emit. apply fueled_bind; [apply put_fueled|done]. Qed.
Lemma runs_bind {A B} (m : M T A) (k : A -> M T B) : runs m -> (forall a, runs (k a)) -> runs (bind m k).
Proof. intros Hm Hk o. unfold bind. apply fueled_bind; [apply Hm|intros [o' a] _; apply Hk]. Qed.
#[local] Hint Resolve runs_ret runs_emit : rtt.

Ltac runs_tac :=
  repeat first
    [ progress eauto 1 with rtt
    | apply runs_lift; solve [eauto with rtt]
    | apply runs_bind; [|intros ?]
    | case_match ].

Lemma runs_emit_all cs : runs (emit_all cs).
Proof. induction cs as [|c cs IH]; cbn [emit_all]; runs_tac. Qed.
Lemma runs_pad c size : runs (pad c size).
Proof. unfold pad. apply runs_bind; [apply runs_emit_all|intros []; apply runs_ret]. Qed.
Lemma runs_pad_before c size : runs (pad_before c size).
Proof. unfold pad_before. apply runs_bind; [apply runs_emit_all|intros []; apply runs_ret]. Qed.
Lemma runs_pad_above c len size : runs (pad_above c len size).
Proof. unfold pad_above. apply runs_bind; [apply runs_emit_all|intros []; apply runs_ret]. Qed.
#[local] Hint Resolve runs_emit_all runs_pad runs_pad_before runs_pad_above : rtt.

Lemma runs_print_number num base s precision type : runs (print_number num base s precision type).
Proof. unfold print_number. destruct (number_sign _ _). runs_tac. Qed.
#[local] Hint Resolve runs_print_number : rtt.

Lemma runs_convert fmt args flags width precision qualifier :
  runs (convert fmt args flags width precision qualifier).
Proof. unfold convert, print_char, print_string, print_int. runs_tac. Qed.

Ltac destruct_pairs :=
  match goal with p : (_ * _)%type |- _ => destruct p end.

Lemma convert_moves fmt args flags width precision qualifier o r :
  convert fmt args flags width precision qualifier o = Ok r ->
  exists c l, fmt = c :: l /\ (r.2.1 = l \/ r.2.1 = fmt /\ c = 0).
Proof.
  unfold convert, bind, lift, print_int, emit, ret. intros E.
  apply bind_Ok_inv in E as ([o1 c] & E1 & E). apply bind_Ok_inv in E1 as (c' & [l ->]%head_cons & E1).
  injection E1 as <- <-. exists c', l. split; [done|]. cbn [fst snd tail] in E.
  repeat match type of E with (if ?b then _ else _) _ = _ => destruct b;
    [repeat (apply bind_Ok_inv in E as ([? ?] & _ & E); cbn [fst snd] in E; repeat destruct_pairs);
     injection E as <-; by left|] end.
  apply bind_Ok_inv in E as ([o2 []] & _ & E). cbn [fst snd] in E. destruct (Z.eqb_spec c' 0); cbn [negb] in E.
  - injection E as <-. by right.
  - apply bind_Ok_inv in E as ([o3 []] & _ & E). injection E as <-. by left.
Qed.

Lemma vloop_fueled fuel : forall fmt args, (length fmt < fuel)%nat -> runs (vloop fuel fmt args).
Proof.
  induction fuel as [|fuel IH]; intros fmt args Hf o; [lia|]. cbn [vloop]. unfold bind, lift at 1.
  apply fueled_bind; [apply fueled_bind; [apply fueled_deref|done]|]. intros [o1 c] E1.
  apply bind_Ok_inv in E1 as (c' & [l ->]%head_cons & E1). injection E1 as <- <-. cbn [fst snd].
  destruct (c' =? 0); [done|]. apply fueled_bind.
  { unfold vstep. case_match; [runs_tac; apply runs_bind; runs_tac|]. apply runs_bind.
    - apply runs_lift. auto with rtt.
    - intros [[[[[f a] g] w] p] q]. apply runs_convert. }
  intros [o2 [fmt' args']] Es. cbn [fst snd]. unfold vstep in Es. destruct (c' =? 37); cbn [negb] in Es.
  - unfold bind, lift in Es. apply bind_Ok_inv in Es as ([o3 cv] & Ec & Es).
    apply bind_Ok_inv in Ec as (cv' & Ecv%conversion_length & Ec). injection Ec as <- <-. cbn [fst snd tail] in Es, Ecv.
    destruct cv' as [[[[[f a] g] w] p] q]. cbn [fst] in Ecv. cbn [length] in Hf.
    destruct fuel as [|fuel]; [lia|].
    apply convert_moves in Es as (c & l' & -> & [Hl|[Hl ->]]); cbn [fst snd] in Hl; subst fmt'; cbn [length] in Ecv.
    + apply IH. lia.
    + apply IH. cbn [length]. lia.
  - unfold bind, emit, ret in Es. apply bind_Ok_inv in Es as ([o3 []] & _ & Es). injection Es as <- <- <-.
    cbn [length] in Hf. cbn [tail]. apply IH. lia.
Qed.

(** The fuel of [format] is enough for every format and every arguments. *)
Lemma format_fueled fmt args o : format fmt args o <> Err F_fuel.
Proof. apply vloop_fueled. lia. Qed.

End Fuel.

(** *** Numbers *)

(** The value of digits, the lowest one first. *)
Fixpoint low_value (b : Z) (ds : list Z) : Z :=
  match ds with [] => 0 | d :: ds => d + b * low_value b ds end.

(** [ds] is the representation of [v]: no leading zero, but for zero itself. *)
Definition represents (b : Z) (ds : list Z) (v : Z) : Prop :=
  low_value b ds = v /\ Forall (fun d => 0 <= d < b) ds /\ ds <> [] /\ (last ds = Some 0 -> ds = [0]).

Definition radix (base : Z) : Z := if base =? 10 then 10 else 16.
Definition digit_char (digits : list Z) (d : Z) : Z := default 0 (digits !! Z.to_nat d).

Definition good_digits (digits : list Z) : Prop := digits = small_digits \/ digits = large_digits.

Lemma zget_digit digits d b : good_digits digits -> 0 <= d < b -> b <= 16 ->
  zget digits d = Ok (digit_char digits d).
Proof.
  intros Hd Hr Hb. unfold digit_char.
  assert (Hl : length digits = 16%nat) by (by destruct Hd as [-> | ->]).
  destruct (lookup_lt_is_Some_2 digits (Z.to_nat d)) as [x Hx]; [lia|].
  rewrite Hx. apply zget_Ok; [lia|done].
Qed.

Lemma radix_cases base : radix base = 10 \/ radix base = 16.
Proof. unfold radix. destruct (base =? 10); auto. Qed.

Lemma u32_s32 x : u32 (s32 x) = u32 x.
Proof. unfold s32, u32. cbv zeta. case_match; dlia. Qed.

Lemma divide_spec n base :
  divide n base = (u32 n mod radix base, s32 (u32 n / radix base)) /\
  u32 (s32 (u32 n / radix base)) = u32 n / radix base.
Proof.
  pose proof (u32_range n). rewrite u32_s32. unfold divide, radix.
  destruct (base =? 10); (split; [done|]; apply u32_small; dlia).
Qed.

Lemma s32_zero n : -2147483648 <= n < 2147483648 -> u32 n = 0 -> n = 0.
Proof. unfold u32. intros. dlia. Qed.

Lemma s32_range x : -2147483648 <= s32 x < 2147483648.
Proof. unfold s32. cbv zeta. pose proof (u32_range x). case_match; lia. Qed.

Lemma number_loop_spec digits base room : good_digits digits -> forall num tmp,
  -2147483648 <= num < 2147483648 -> u32 num < radix base ^ Z.of_nat room ->
  exists ds, number_loop room num base digits tmp = Ok (tmp ++ (digit_char digits <$> ds)) /\
    low_value (radix base) ds = u32 num /\ Forall (fun d => 0 <= d < radix base) ds /\
    (num = 0 -> ds = []) /\ (num <> 0 -> last ds <> Some 0 /\ ds <> []).
Proof.
  intros Hd. pose proof (radix_cases base) as Hr.
  induction room as [|room IH]; intros num tmp Hn Hb; cbn [number_loop];
    (destruct (Z.eqb_spec num 0) as [->|Hne];
     [exists []; cbn; rewrite app_nil_r; by repeat split|]).
  { assert (u32 num = 0) by (pose proof (u32_range num); cbn in Hb; lia). by apply s32_zero in H. }
  destruct (divide_spec num base) as [-> Hq]. pose proof (u32_range num).
  set (b := radix base) in *.
  rewrite (zget_digit digits (u32 num mod b) b Hd) by (try apply Z.mod_pos_bound; lia). red_bind.
  destruct (IH (s32 (u32 num / b)) (tmp ++ [digit_char digits (u32 num mod b)])) as (ds & E & Hv & Hf & H0 & H1).
  - apply s32_range.
  - rewrite Hq. rewrite Nat2Z.inj_succ, Z.pow_succ_r in Hb by lia. apply Z.div_lt_upper_bound; lia.
  - rewrite E. exists (u32 num mod b :: ds). split; [by rewrite <- (assoc_L (++))|].
    assert (Hm : 0 <= u32 num mod b < b) by (apply Z.mod_pos_bound; lia).
    split; [cbn [low_value]; rewrite Hv, Hq; pose proof (Z.div_mod (u32 num) b); lia|].
    split; [by constructor|]. split; [done|]. intros _. split; [|done].
    destruct (Z.eq_dec (s32 (u32 num / b)) 0) as [Ez|Enz].
    + rewrite (H0 Ez). cbn. intros [= Hmod]. apply Hne, s32_zero; [done|].
      rewrite Ez in Hq. change (u32 0) with 0 in Hq. pose proof (Z.div_mod (u32 num) b). lia.
    + destruct (H1 Enz) as [Hl Hnil]. destruct ds as [|d ds]; [done|]. exact Hl.
Qed.

Lemma number_digits_spec digits base num : good_digits digits ->
  -2147483648 <= num < 2147483648 ->
  exists ds, number_digits num base digits = Ok (digit_char digits <$> ds) /\ represents (radix base) ds (u32 num).
Proof.
  intros Hd Hn. unfold number_digits. pose proof (radix_cases base) as Hr.
  destruct (Z.eqb_spec num 0) as [->|Hne].
  - exists [0]. split; [by destruct Hd as [-> | ->]|]. split_and!; try done; [cbn [low_value]; change (u32 0) with 0; lia|]. constructor; [lia|done].
  - destruct (number_loop_spec digits base 16 Hd num [] Hn) as (ds & E & Hv & Hf & _ & H1).
    { pose proof (u32_range num). change (Z.of_nat 16) with 16. destruct Hr as [-> | ->]; lia. }
    exists ds. split; [done|]. destruct (H1 Hne). by split_and!.
Qed.

(** What [print_number] makes of the number and its flags. *)
Definition magnitude (num type : Z) : Z := if is_set type SIGN then Z.abs num else u32 num.
Definition sign_text (num type : Z) : list Z :=
  if is_set type SIGN then
    if num <? 0 then [45] else if is_set type PLUS then [43] else if is_set type SPACE then [32] else []
  else [].

Lemma number_sign_spec num type : -2147483648 <= num < 2147483648 ->
  exists sg n, number_sign num type = (sg, n) /\ u32 n = magnitude num type /\ -2147483648 <= n < 2147483648 /\
    sign_text num type = (if sg =? 0 then [] else [sg]) /\ 0 <= sg < 256.
Proof.
  intros Hn. unfold number_sign, magnitude, sign_text.
  destruct (is_set type SIGN); [|exists 0, num; by split_and!; try lia].
  destruct (Z.ltb_spec num 0).
  { exists 45, (s32 (- num)). rewrite u32_s32, u32_small by lia. pose proof (s32_range (- num)).
    split_and!; try done; lia. }
  destruct (is_set type PLUS); [exists 43|destruct (is_set type SPACE); [exists 32|exists 0]];
    exists num; rewrite u32_small by lia; split_and!; try done; lia.
Qed.

Lemma low_value_length b ds : 1 < b -> Forall (fun d => 0 <= d < b) ds -> ds <> [] -> last ds <> Some 0 ->
  b ^ (zlen ds - 1) <= low_value b ds.
Proof.
  intros Hb Hf. induction Hf as [|d ds Hd Hds IH]; [done|]. intros _ Hl. destruct ds as [|e ds].
  - cbn [low_value]. assert (d <> 0) by (intros ->; by apply Hl). change (zlen [d] - 1) with 0. lia.
  - cbn [low_value] in *. specialize (IH ltac:(done) Hl).
    replace (zlen (d :: e :: ds) - 1) with (Z.succ (zlen (e :: ds) - 1)) by (unfold zlen; cbn [length]; lia).
    rewrite Z.pow_succ_r by (unfold zlen; cbn [length]; lia). nia.
Qed.

Lemma represents_length b ds v k : 1 < b -> represents b ds v -> 0 < k -> v < b ^ k -> zlen ds <= k.
Proof.
  intros Hb (Hv & Hf & Hne & Hl) Hk Hlt. destruct (decide (last ds = Some 0)) as [E|E].
  { rewrite (Hl E). unfold zlen. cbn. lia. }
  pose proof (low_value_length b ds Hb Hf Hne E) as Hge. rewrite Hv in Hge.
  destruct (Z.le_gt_cases (zlen ds) k); [done|]. exfalso.
  pose proof (Z.pow_le_mono_r b k (zlen ds - 1)). lia.
Qed.

(** *** The fields of numbers *)

Lemma is_set_testbit x k : 0 <= k -> is_set x (2 ^ k) = Z.testbit x k.
Proof.
  intros Hk. unfold is_set. destruct (Z.testbit x k) eqn:E.
  - apply negb_true_iff, Z.eqb_neq. intros H. apply (f_equal (fun z => Z.testbit z k)) in H.
    rewrite Z.land_spec, E, Z.pow2_bits_true, Z.bits_0 in H by done. done.
  - apply negb_false_iff, Z.eqb_eq, Z.bits_inj'. intros j Hj.
    rewrite Z.land_spec, Z.bits_0, Z.pow2_bits_eqb by done.
    destruct (Z.eqb_spec k j) as [<-|]; [by rewrite E|by rewrite andb_false_r].
Qed.

Lemma is_set_lor x a b : is_set x (Z.lor a b) = is_set x a || is_set x b.
Proof.
  unfold is_set. rewrite Z.land_lor_distr_r.
  destruct (Z.eqb_spec (Z.land x a) 0) as [->|Ha]; [done|]. cbn. apply negb_true_iff, Z.eqb_neq.
  intros [? _]%Z.lor_eq_0_iff. done.
Qed.

(** Without zero padding the other flags are as they were. *)
Lemma is_set_no_zeropad x k : 0 <= k ->
  is_set (Z.land x (Z.lnot ZEROPAD)) (2 ^ k) = if k =? 0 then false else is_set x (2 ^ k).
Proof.
  intros Hk. rewrite !is_set_testbit by done. rewrite Z.land_spec, Z.lnot_spec by done.
  change ZEROPAD with (2 ^ 0). rewrite Z.pow2_bits_eqb by done. rewrite (Z.eqb_sym 0 k).
  destruct (k =? 0); cbn; [by rewrite andb_false_r|by rewrite andb_true_r].
Qed.

Lemma emit_all_text cs (t : list Z) : emit_all cs t = Ok (t ++ bytes cs, tt).
Proof.
  revert t. induction cs as [|c cs IH]; intros t; cbn [emit_all]; [by unfold ret; rewrite app_nil_r|].
  unfold bind, emit, put, text. red_bind. cbn [fst snd]. rewrite IH. by rewrite <- (assoc_L (++)).
Qed.

Lemma bytes_chars cs : chars cs -> bytes cs = cs.
Proof. induction 1 as [|c cs Hc _ IH]; [done|]. unfold bytes in *. cbn [fmap list_fmap]. by rewrite u8_small, IH by done. Qed.

Lemma chars_replicate n c : 0 <= c < 256 -> chars (replicate n c).
Proof. intros. by apply Forall_replicate. Qed.

Lemma digit_char_range digits d : good_digits digits -> 0 <= digit_char digits d < 256.
Proof.
  intros Hd. unfold digit_char. destruct (digits !! Z.to_nat d) as [x|] eqn:E; cbn; [|lia].
  assert (Hc : Forall (fun c => 0 <= c < 256) digits) by (destruct Hd as [-> | ->]; repeat constructor; lia).
  by eapply Forall_lookup_1 in Hc.
Qed.

Definition digits_for (type : Z) : list Z := if is_set type LARGE then large_digits else small_digits.

Lemma good_digits_for type : good_digits (digits_for type).
Proof. unfold digits_for, good_digits. case_match; auto. Qed.

(** The field of a number: sign, digits and padding. *)
Definition field (sg ds : list Z) (s precision type : Z) : list Z :=
  let i := zlen ds in
  let p := Z.max precision i in
  let body := replicate (Z.to_nat (p - i)) 48 ++ (if precision =? 0 then [] else rev (digit_char (digits_for type) <$> ds)) in
  let n := Z.to_nat (s - p - zlen sg) in
  if is_set type LEFT then sg ++ body ++ replicate n 32
  else if is_set type ZEROPAD then sg ++ replicate n 48 ++ body
  else replicate n 32 ++ sg ++ body.

Lemma pad_text c size (t : list Z) : 0 <= c < 256 ->
  pad c size t = Ok (t ++ replicate (Z.to_nat size) c, if 0 <? size then -1 else s32 (size - 1)).
Proof.
  intros Hc. unfold pad, bind, ret. rewrite emit_all_text. by rewrite bytes_chars by by apply chars_replicate.
Qed.

(** What the loop of [pad] leaves in [size]. *)
Definition after_pad (size : Z) : Z := if 0 <? size then -1 else s32 (size - 1).

Lemma s32_small x : -2147483648 <= x < 2147483648 -> s32 x = x.
Proof. intros. unfold s32, u32. cbv zeta. case_match; bool_prop; dlia. Qed.

Lemma to_nat_neg x : x < 0 -> Z.to_nat x = 0%nat.
Proof. lia. Qed.

Lemma after_pad_min size : -2147483648 < size < 2147483648 -> after_pad size = Z.min (-1) (size - 1).
Proof. intros. unfold after_pad. destruct (Z.ltb_spec 0 size); [lia|]. rewrite s32_small; lia. Qed.

Section BindText.
Context {A : Type} (t : list Z).

Lemma bind_ret_text {B} (a : B) (k : B -> M (list Z) A) : bind (ret a) k t = k a t.
Proof. done. Qed.
Lemma bind_emit_text c (k : unit -> M (list Z) A) : 0 <= c < 256 -> bind (emit c) k t = k tt (t ++ [c]).
Proof. intros. unfold bind, emit, put, text. red_bind. by rewrite u8_small by done. Qed.
Lemma bind_emit_all_text cs (k : unit -> M (list Z) A) : chars cs -> bind (emit_all cs) k t = k tt (t ++ cs).
Proof. intros. unfold bind. rewrite emit_all_text. red_bind. by rewrite bytes_chars by done. Qed.
Lemma bind_pad_text c size (k : Z -> M (list Z) A) : 0 <= c < 256 ->
  bind (pad c size) k t = k (after_pad size) (t ++ replicate (Z.to_nat size) c).
Proof. intros. unfold bind. by rewrite pad_text by done. Qed.
Lemma bind_pad_none c size (k : Z -> M (list Z) A) : size <= 0 -> 0 <= c < 256 ->
  bind (pad c size) k t = k (after_pad size) t.
Proof. intros. rewrite bind_pad_text by done. replace (Z.to_nat size) with 0%nat by lia. cbn. by rewrite app_nil_r. Qed.
End BindText.

Lemma bind_bind_text {A B C} (m : M (list Z) A) (k : A -> M (list Z) B) (l : B -> M (list Z) C) t :
  bind (bind m k) l t = bind m (fun a => bind (k a) l) t.
Proof. unfold bind. by destruct (m t) as [[? ?]|]. Qed.

(** The end of [print_number]: what is left of the precision, and the
    digits. *)
Lemma print_digits_text n precision tmp size (t : list Z) : chars tmp ->
  bind (emit_all (replicate n 48)) (fun _ =>
    bind (if negb (precision =? 0) then emit_all tmp else ret tt) (fun _ => bind (pad 32 size) (fun _ => ret tt))) t =
  Ok (t ++ (replicate n 48 ++ (if precision =? 0 then [] else tmp)) ++ replicate (Z.to_nat size) 32, tt).
Proof.
  intros Ht. rewrite bind_emit_all_text by by apply chars_replicate.
  destruct (precision =? 0); cbn [negb]; [rewrite bind_ret_text|rewrite bind_emit_all_text by done];
    rewrite bind_pad_text by lia; unfold ret; by rewrite ?app_nil_r, <- ?(assoc_L (++)).
Qed.

(** A number is printed as its sign and the digits of its magnitude in base
    10 or 16, filled up to the precision with zeros and to the width on the
    side that the flags name; a precision of 0 suppresses the digits.  (Of a
    precision next to 2^31 the room for the padding overflows.) *)
Lemma print_number_field num base s precision type (t : list Z) :
  -2147483648 <= num < 2147483648 -> -1 <= s < 2147483648 -> -1 <= precision < 2147483640 ->
  exists ds, represents (radix base) ds (magnitude num type) /\
    print_number num base s precision type t = Ok (t ++ field (sign_text num type) ds s precision type, tt).
Proof.
  intros Hn Hs32 Hp32. unfold print_number.
  set (type' := if is_set type LEFT then _ else type).
  assert (Hk : forall k, 0 < k -> is_set type' (2 ^ k) = is_set type (2 ^ k)).
  { intros k Hk. unfold type'. destruct (is_set type LEFT); [|done]. rewrite is_set_no_zeropad by lia.
    by rewrite (proj2 (Z.eqb_neq k 0)) by lia. }
  assert (Hz : is_set type' ZEROPAD = negb (is_set type LEFT) && is_set type ZEROPAD).
  { unfold type'. destruct (is_set type LEFT); [|done]. by rewrite (is_set_no_zeropad _ 0). }
  assert (Hl : is_set type' LEFT = is_set type LEFT) by apply (Hk 4 eq_refl).
  assert (Hs : sign_text num type' = sign_text num type /\ magnitude num type' = magnitude num type).
  { unfold sign_text, magnitude. pose proof (Hk 1 eq_refl) as H1. pose proof (Hk 2 eq_refl) as H2.
    pose proof (Hk 3 eq_refl) as H3. change (2 ^ 1) with SIGN in H1. change (2 ^ 2) with PLUS in H2.
    change (2 ^ 3) with SPACE in H3. by rewrite H1, H2, H3. }
  destruct Hs as [Hs Hm].
  destruct (number_sign_spec num type' Hn) as (sg & n & -> & Hu & Hr & Hsg & Hsr). rewrite Hs in Hsg. rewrite Hm in Hu.
  destruct (number_digits_spec (digits_for type) base n (good_digits_for type) Hr) as (ds & E & Hrep).
  rewrite Hu in Hrep. exists ds. split; [done|]. cbv zeta. fold (digits_for type). unfold bind at 1, lift at 1. rewrite E. red_bind.
  cbn [fst snd]. rewrite is_set_lor, Hz, Hl. unfold field. rewrite Hsg. clear Hsg E.
  set (tmp := digit_char (digits_for type) <$> ds). replace (zlen tmp) with (zlen ds) by (unfold zlen, tmp; by rewrite length_fmap).
  replace (if precision <? zlen ds then zlen ds else precision) with (Z.max precision (zlen ds))
    by (destruct (Z.ltb_spec precision (zlen ds)); lia).
  set (p := Z.max precision (zlen ds)).
  assert (Hp : 0 <= p < 2147483640).
  { pose proof (zlen_nonneg ds). pose proof (u32_range n). rewrite Hu in *.
    assert (zlen ds <= 32); [|lia]. apply (represents_length (radix base) ds (magnitude num type)); [|done|lia|].
    - destruct (radix_cases base); lia.
    - destruct (radix_cases base) as [-> | ->]; lia. }
  rewrite (s32_small (s - p)) by lia.
  assert (Hb : chars (rev tmp)).
  { apply Forall_rev, Forall_fmap, Forall_forall. intros d _. apply digit_char_range, good_digits_for. }
  assert (Hsign : forall size (k : Z -> M (list Z) unit) (t : list Z), -2147483648 < size < 2147483648 ->
    bind (if negb (sg =? 0) then bind (emit sg) (fun _ => ret (s32 (size - 1))) else ret size) k t =
    k (size - zlen (if sg =? 0 then [] else [sg])) (t ++ if sg =? 0 then [] else [sg])).
  { intros size k t0 Hsz. destruct (sg =? 0); cbn [negb]; [by rewrite bind_ret_text, app_nil_r, Z.sub_0_r|].
    by rewrite bind_bind_text, bind_emit_text, bind_ret_text, s32_small by lia. }
  set (sgl := if sg =? 0 then [] else [sg]) in *.
  assert (Hsl : 0 <= zlen sgl <= 1) by (unfold sgl, zlen; destruct (sg =? 0); cbn; lia).
  destruct (is_set type LEFT); [|destruct (is_set type ZEROPAD)]; cbn [negb andb orb].
  - rewrite bind_ret_text, Hsign, bind_ret_text, print_digits_text by (done || lia). by rewrite <- !(assoc_L (++)).
  - rewrite bind_ret_text, Hsign, bind_pad_text, print_digits_text by (done || lia).
    rewrite after_pad_min, (to_nat_neg (Z.min _ _)) by lia. cbn [replicate].
    by rewrite app_nil_r, <- !(assoc_L (++)).
  - set (x := if negb (sg =? 0) && (0 <? s - p) then _ else _).
    assert (Hx : x <= s - p /\ s - p - 1 <= x /\ Z.to_nat x = Z.to_nat (s - p - zlen sgl)).
    { unfold x, sgl. destruct (sg =? 0); cbn [negb andb]; [change (zlen []) with 0; lia|].
      change (zlen [sg]) with 1. destruct (Z.ltb_spec 0 (s - p)); lia. }
    destruct Hx as (Hx1 & Hx2 & Hx).
    rewrite bind_pad_text, after_pad_min, Hsign by lia.
    rewrite bind_pad_none, print_digits_text by (done || lia).
    rewrite after_pad_min, (to_nat_neg (Z.min _ _)) by lia. rewrite Hx.
    cbn [replicate]. by rewrite app_nil_r, <- !(assoc_L (++)).
Qed.

(** *** Reading back *)

Definition high_value (acc : Z) (ds : list Z) : Z := foldl (fun i d => i * 10 + d) acc ds.

Lemma high_value_rev ds : high_value 0 (rev ds) = low_value 10 ds.
Proof.
  induction ds as [|d ds IH]; [done|]. unfold high_value in *. cbn [rev low_value]. rewrite foldl_app, IH. cbn [foldl]. lia.
Qed.

Lemma high_value_ge ds : Forall (fun d => 0 <= d < 10) ds -> forall acc, 0 <= acc -> acc <= high_value acc ds.
Proof.
  induction 1 as [|d ds Hd _ IH]; intros acc Ha; unfold high_value in *; cbn [foldl]; [lia|].
  specialize (IH (acc * 10 + d)). lia.
Qed.

Lemma rev_fmap {A B} (f : A -> B) (l : list A) : rev (f <$> l) = f <$> rev l.
Proof. symmetry. apply map_rev. Qed.

Lemma small_digit d : 0 <= d < 10 -> digit_char small_digits d = 48 + d /\ isdigit (48 + d) = true.
Proof.
  intros Hd. split.
  - assert (Hc : d = 0 \/ d = 1 \/ d = 2 \/ d = 3 \/ d = 4 \/ d = 5 \/ d = 6 \/ d = 7 \/ d = 8 \/ d = 9) by lia.
    by repeat destruct Hc as [-> | Hc]; subst.
  - unfold isdigit. replace (48 + d - 48) with d by lia. rewrite u32_small by lia. by apply Z.ltb_lt; lia.
Qed.

Lemma skip_atoi_digits ds : Forall (fun d => 0 <= d < 10) ds -> forall acc rest,
  0 <= acc -> high_value acc ds < 2147483648 -> from_option isdigit true (head rest) = false ->
  skip_atoi ((digit_char small_digits <$> ds) ++ rest) acc = Ok (high_value acc ds, rest).
Proof.
  induction 1 as [|d ds Hd Hds IH]; intros acc rest Ha Hv Hr; cbn [fmap list_fmap Datatypes.app].
  - destruct rest as [|c rest]; [done|]. cbn in Hr |- *. by rewrite Hr.
  - destruct (small_digit d Hd) as [-> Hdig]. cbn [skip_atoi]. rewrite Hdig.
    unfold high_value in Hv |- *. cbn [foldl] in Hv |- *.
    replace (acc * 10 + (48 + d) - 48) with (acc * 10 + d) by lia.
    pose proof (high_value_ge ds Hds (acc * 10 + d)) as Hge. unfold high_value in Hge.
    replace (s32 (acc * 10 + d)) with (acc * 10 + d); [apply IH; (done || lia)|].
    unfold s32. rewrite u32_small by lia. cbv zeta. by rewrite (proj2 (Z.ltb_lt (acc * 10 + d) 2147483648)) by lia.
Qed.

(** "%d". *)
Definition fmt_d : list Z := [37; 100; 0].

Lemma vloop_S {T} `{Sink T} fuel c l args (o : T) :
  vloop (S fuel) (c :: l) args o =
    if c =? 0 then Ok (o, tt) else r ← vstep c (c :: l) args o; vloop fuel r.2.1 r.2.2 r.1.
Proof.
  cbn [vloop]. unfold bind at 1, lift. cbn [head deref]. red_bind. cbn [fst snd].
  destruct (c =? 0); [done|]. unfold bind. by destruct (vstep c (c :: l) args o) as [[? [? ?]]|].
Qed.

Lemma vstep_literal {T} `{Sink T} c l args (o : T) : c <> 37 ->
  vstep c (c :: l) args o = o ← put c o; Ok (o, (l, args)).
Proof.
  intros Hc. unfold vstep. rewrite (proj2 (Z.eqb_neq c 37)) by done. cbn [negb]. unfold bind, emit.
  by destruct (put c o).
Qed.

Lemma vstep_d {T} `{Sink T} l v args (o : T) :
  vstep 37 (37 :: 100 :: l) (VInt v :: args) o =
    r ← print_number (s32 v) 10 (-1) (-1) SIGN o; Ok (r.1, (l, args)).
Proof.
  unfold vstep. cbn [Z.eqb Pos.eqb negb tail].
  change (conversion (100 :: l) (VInt v :: args)) with (Ok (100 :: l, VInt v :: args, 0, -1, -1, 0)).
  unfold bind at 1, lift. red_bind. cbn [fst snd]. unfold convert, bind at 1, lift. cbn [head deref]. red_bind. cbn [fst snd].
  change (100 =? 99) with false. change (100 =? 115) with false. change (100 =? 112) with false.
  change (100 =? 37) with false. change (100 =? 111) with false. change (100 =? 88) with false.
  change (100 =? 120) with false. change (100 =? 100) with true. cbv iota. cbn [orb].
  unfold print_int. change (Z.lor 0 SIGN) with SIGN. unfold bind, lift, ret. cbn [va_int]. red_bind. cbn [fst snd].
  change (get_num v 0 SIGN) with (s32 v).
  by destruct (print_number (s32 v) 10 (-1) (-1) SIGN o) as [[? []]|].
Qed.

Lemma format_d n (t : list Z) :
  format fmt_d [VInt n] t = r ← print_number (s32 n) 10 (-1) (-1) SIGN t; Ok (r.1, tt).
Proof.
  unfold format, fmt_d. cbn [length]. rewrite vloop_S, vstep_d. change (37 =? 0) with false. cbv iota.
  by destruct (print_number (s32 n) 10 (-1) (-1) SIGN t) as [[? []]|].
Qed.

Lemma field_plain sg ds : field sg ds (-1) (-1) SIGN = sg ++ rev (digit_char small_digits <$> ds).
Proof.
  unfold field. cbv zeta. pose proof (zlen_nonneg sg). pose proof (zlen_nonneg ds).
  rewrite Z.max_r by lia. rewrite Z.sub_diag. change (is_set SIGN LEFT) with false. change (is_set SIGN ZEROPAD) with false.
  replace (Z.to_nat (-1 - zlen ds - zlen sg)) with 0%nat by lia. done.
Qed.

(** The text of "%d". *)
Lemma text_of_int n : -2147483648 <= n < 2147483648 ->
  exists ds, represents 10 ds (Z.abs n) /\
    format fmt_d [VInt n] [] = Ok ((if n <? 0 then [45] else []) ++ rev (digit_char small_digits <$> ds), tt).
Proof.
  intros Hn. rewrite format_d, s32_small by done.
  destruct (print_number_field n 10 (-1) (-1) SIGN [] Hn ltac:(lia) ltac:(lia)) as (ds & Hr & ->). exists ds. split; [done|].
  red_bind. cbn [fst Datatypes.app]. rewrite field_plain. unfold sign_text.
  change (is_set SIGN SIGN) with true. change (is_set SIGN PLUS) with false. change (is_set SIGN SPACE) with false.
  done.
Qed.

(** C33: what [rt_sprintf] prints with "%d" into a buffer of twelve bytes or
    more, [skip_atoi] reads back: behind a minus sign, which is there for the
    negative numbers, it finds the magnitude and stops at the end of the
    text.  (The magnitude of -2^31 is no [int].) *)
Theorem rt_sprintf_reads_back a m n :
  -2147483648 < n < 2147483648 -> 0 < a -> a + zlen m < 4294967295 -> 12 <= zlen m ->
  exists m' l, rt_sprintf a m fmt_d [VInt n] = Ok (m', l) /\
    zlen m' = zlen m /\ (n < 0 -> head m' = Some 45) /\
    skip_atoi (if n <? 0 then tail m' else m') 0 = Ok (Z.abs n, drop (Z.to_nat l) m') /\
    head (drop (Z.to_nat l) m') = Some 0.
Proof.
  intros Hn Ha Hw Hm. destruct (text_of_int n) as (ds & Hrep & E); [lia|].
  set (D := rev (digit_char small_digits <$> ds)) in *. set (sg := if n <? 0 then [45] else []) in *.
  assert (Hlen : zlen ds <= 10) by (apply (represents_length 10 ds (Z.abs n)); [lia|done|lia|lia]).
  assert (HD : zlen D = zlen ds) by (unfold zlen, D; by rewrite length_rev, length_fmap).
  assert (Hsg : zlen sg <= 1) by (unfold sg, zlen; destruct (n <? 0); cbn; lia).
  assert (Ht : zlen (sg ++ D) = zlen sg + zlen ds) by (by rewrite zlen_app, HD).
  pose proof (zlen_nonneg (sg ++ D)).
  rewrite (rt_sprintf_writes a m _ _ _ E Ha Hw). rewrite (proj2 (Z.ltb_lt _ _)) by lia.
  rewrite s32_small by lia. eexists _, _. split; [done|].
  destruct Hrep as (Hv & Hf & _). set (rest := 0 :: drop (S (length (sg ++ D))) m).
  assert (Hdrop : drop (Z.to_nat (zlen (sg ++ D))) ((sg ++ D) ++ rest) = rest).
  { unfold zlen. rewrite Nat2Z.id. apply drop_app_length. }
  rewrite Hdrop. split_and!; [| | |done].
  - unfold rest, zlen in *. rewrite (length_app (sg ++ D)). cbn [length]. rewrite length_drop. lia.
  - intros Hneg. unfold sg. by rewrite (proj2 (Z.ltb_lt n 0) Hneg).
  - assert (Hread : skip_atoi (D ++ rest) 0 = Ok (Z.abs n, rest)).
    { unfold D. rewrite rev_fmap. rewrite skip_atoi_digits; [by rewrite high_value_rev, Hv| |done| |done].
      - by apply Forall_rev.
      - rewrite high_value_rev, Hv. lia. }
    unfold sg. destruct (n <? 0); exact Hread.
Qed.

Lemma rt_sprintf_reads_back_witness : exists m' l,
  rt_sprintf 536870912 (replicate 12 7) fmt_d [VInt (-40)] = Ok (m', l) /\
  skip_atoi (tail m') 0 = Ok (40, drop (Z.to_nat l) m').
Proof.
  destruct (rt_sprintf_reads_back 536870912 (replicate 12 7) (-40)) as (m' & l & E & _ & _ & H & _);
    [lia|lia|unfold zlen; cbn; lia|unfold zlen; cbn; lia|]. by exists m', l.
Defined.

End PrintfThms.
