(* ===== verification/Device.v ===== *)
(** * Devices (rt-thread/src/device.c)

    [Dev] is the device layer over any drivers: a driver is a record of
    functions on a state of its own and on the members of [struct rt_device],
    each of which may be missing, as the pointers of the struct may be
    [RT_NULL].  [DevSpec] is the life of
    a device as its driver sees it, [DevThms] the properties. *)
From S2P Require Import Prelude CTypes CString.
From stdpp Require Import base list gmap.
From Stdlib Require Import ZArith Lia.
Open Scope Z_scope.

Module Dev.
Import CMem CStr.

Definition RT_NAME_MAX : Z := 8.

Definition RT_DEVICE_FLAG_STANDALONE : Z := 8.
Definition RT_DEVICE_FLAG_ACTIVATED : Z := 16.
Definition RT_DEVICE_OFLAG_CLOSE : Z := 0.
Definition RT_DEVICE_OFLAG_OPEN : Z := 8.
Definition RT_DEVICE_OFLAG_MASK : Z := 3855. (* 0xf0f *)

Definition has (x bits : Z) : bool := negb (Z.land x bits =? 0).

Section Dev.
(** The state that the drivers work on. *)
Context {W : Type}.

(** The members of [struct rt_device] that its driver reads and writes, as
    rt_serial_open does with [open_flag]. *)
Record members : Type := mk_members { m_flag : Z; m_open_flag : Z; m_ref_count : Z }.

(** The driver functions of [struct rt_device].  A buffer argument is the
    list of its bytes; [read] returns it as it leaves it.  (No driver writes
    to the struct when it reads or writes data.) *)
Record rt_device_ops : Type := mk_ops {
  device_init : option (members -> W -> result (members * W * Z));
  device_open : option (Z -> members -> W -> result (members * W * Z));
  device_close : option (members -> W -> result (members * W * Z));
  device_read : option (members -> Z -> list Z -> Z -> W -> result (W * list Z * Z));
  device_write : option (members -> Z -> list Z -> Z -> W -> result (W * Z));
  device_control : option (Z -> list Z -> members -> W -> result (members * W * Z))
}.

(** [struct rt_device]; [typed] says that the object's type is Device, which
    [rt_object_init] sets and [rt_object_detach] resets; [is_static] is the
    static bit of that type. *)
Record rt_device : Type := mk_device {
  flag : Z;
  open_flag : Z;
  ref_count : Z;
  typed : bool;
  is_static : bool;
  ops : rt_device_ops
}.

Definition with_flag (d : rt_device) (v : Z) : rt_device :=
  mk_device v (open_flag d) (ref_count d) (typed d) (is_static d) (ops d).
Definition with_open_flag (d : rt_device) (v : Z) : rt_device :=
  mk_device (flag d) v (ref_count d) (typed d) (is_static d) (ops d).
Definition with_ref_count (d : rt_device) (v : Z) : rt_device :=
  mk_device (flag d) (open_flag d) v (typed d) (is_static d) (ops d).
Definition with_typed (d : rt_device) (t st : bool) : rt_device :=
  mk_device (flag d) (open_flag d) (ref_count d) t st (ops d).

Definition members_of (d : rt_device) : members := mk_members (flag d) (open_flag d) (ref_count d).
Definition with_members (d : rt_device) (m : members) : rt_device :=
  mk_device (m_flag m) (m_open_flag m) (m_ref_count m) (typed d) (is_static d) (ops d).

(** A call of a driver function, which gets the device. *)
Definition invoke (f : members -> W -> result (members * W * Z)) (d : rt_device) (w : W)
  : result (rt_device * W * Z) :=
  r ← f (members_of d) w;
  let '(m, w, res) := r in Ok (with_members d m, w, res).

(** *** Operations on one device *)

Definition rt_device_init (d : rt_device) (w : W) : result (rt_device * W * Z) :=
  match device_init (ops d) with
  | Some init =>
      if negb (has (flag d) RT_DEVICE_FLAG_ACTIVATED) then
        r ← invoke init d w;
        let '(d, w, res) := r in
        if negb (res =? RT_EOK) then Ok (d, w, res)
        else Ok (with_flag d (Z.lor (flag d) RT_DEVICE_FLAG_ACTIVATED), w, res)
      else Ok (d, w, RT_EOK)
  | None => Ok (d, w, RT_EOK)
  end.

(** The first part of [rt_device_open]: [inr] is its early return. *)
Definition open_activate (d : rt_device) (w : W) : result ((rt_device * W) + (rt_device * W * Z)) :=
  if negb (has (flag d) RT_DEVICE_FLAG_ACTIVATED) then
    r ← match device_init (ops d) with
        | Some init => invoke init d w
        | None => Ok (d, w, RT_EOK)
        end;
    let '(d, w, res) := r in
    Ok (if negb (res =? RT_EOK) then inr (d, w, res)
        else inl (with_flag d (Z.lor (flag d) RT_DEVICE_FLAG_ACTIVATED), w))
  else Ok (inl (d, w)).

(** The last part: one more user, unless the driver refused. *)
Definition open_count (d : rt_device) (w : W) (res : Z) : result (rt_device * W * Z) :=
  if (res =? RT_EOK) || (res =? - RT_ENOSYS) then
    let d := with_open_flag d (Z.lor (open_flag d) RT_DEVICE_OFLAG_OPEN) in
    let d := with_ref_count d (u8 (ref_count d + 1)) in
    _ ← rt_assert (negb (ref_count d =? 0));
    Ok (d, w, res)
  else Ok (d, w, res).

Definition rt_device_open (d : rt_device) (oflag : Z) (w : W) : result (rt_device * W * Z) :=
  _ ← rt_assert (typed d);
  r ← open_activate d w;
  match r with
  | inr (d, w, res) => Ok (d, w, res)
  | inl (d, w) =>
      if has (flag d) RT_DEVICE_FLAG_STANDALONE && has (open_flag d) RT_DEVICE_OFLAG_OPEN
      then Ok (d, w, - RT_EBUSY)
      else
        r ← match device_open (ops d) with
            | Some open => invoke (open oflag) d w
            | None => Ok (with_open_flag d (Z.land oflag RT_DEVICE_OFLAG_MASK), w, RT_EOK)
            end;
        let '(d, w, res) := r in
        open_count d w res
  end.

Definition rt_device_close (d : rt_device) (w : W) : result (rt_device * W * Z) :=
  _ ← rt_assert (typed d);
  if ref_count d =? 0 then Ok (d, w, - RT_ERROR) else
  let d := with_ref_count d (ref_count d - 1) in
  if negb (ref_count d =? 0) then Ok (d, w, RT_EOK) else
  r ← match device_close (ops d) with Some close => invoke close d w | None => Ok (d, w, RT_EOK) end;
  let '(d, w, res) := r in
  if (res =? RT_EOK) || (res =? - RT_ENOSYS)
  then Ok (with_open_flag d RT_DEVICE_OFLAG_CLOSE, w, res)
  else Ok (d, w, res).

(** [rt_set_errno] is the second component of the result when it is called. *)
Definition rt_device_read (d : rt_device) (pos : Z) (buffer : list Z) (size : Z) (w : W)
  : result (W * list Z * Z * option Z) :=
  _ ← rt_assert (typed d);
  if ref_count d =? 0 then Ok (w, buffer, 0, Some (- RT_ERROR)) else
  match device_read (ops d) with
  | Some read => r ← read (members_of d) pos buffer size w; Ok (r, None)
  | None => Ok (w, buffer, 0, Some (- RT_ENOSYS))
  end.

Definition rt_device_write (d : rt_device) (pos : Z) (buffer : list Z) (size : Z) (w : W)
  : result (W * Z * option Z) :=
  _ ← rt_assert (typed d);
  if ref_count d =? 0 then Ok (w, 0, Some (- RT_ERROR)) else
  match device_write (ops d) with
  | Some write => r ← write (members_of d) pos buffer size w; Ok (r, None)
  | None => Ok (w, 0, Some (- RT_ENOSYS))
  end.

Definition rt_device_control (d : rt_device) (cmd : Z) (arg : list Z) (w : W) : result (rt_device * W * Z) :=
  _ ← rt_assert (typed d);
  match device_control (ops d) with
  | Some control => invoke (control cmd arg) d w
  | None => Ok (d, w, - RT_ENOSYS)
  end.

(** *** The registry

    The objects of class Device, newest first as [rt_list_insert_after] puts
    them, each with the [RT_NAME_MAX] bytes of its name and its address. *)
Record registry : Type := mk_registry {
  object_list : list (list Z * Z);
  devices : gmap Z rt_device
}.

Fixpoint find_in (l : list (list Z * Z)) (name : list Z) : result (option Z) :=
  match l with
  | [] => Ok None
  | (n, a) :: l' =>
      r ← rt_strncmp n name (Z.to_nat RT_NAME_MAX);
      if r =? 0 then Ok (Some a) else find_in l' name
  end.

Definition rt_device_find (g : registry) (name : list Z) : result (option Z) :=
  find_in (object_list g) name.

(** The [name] field after [rt_strncpy (object->name, name, RT_NAME_MAX)]. *)
Definition object_name (name : list Z) : result (list Z) :=
  m ← rt_strncpy (replicate (Z.to_nat RT_NAME_MAX) 0 ++ name) 0 RT_NAME_MAX RT_NAME_MAX;
  Ok (take (Z.to_nat RT_NAME_MAX) m).

(** [rt_object_init (&dev->parent, RT_Object_Class_Device, name)]. *)
Definition device_object_init (g : registry) (dev : Z) (name : list Z) : result registry :=
  _ ← rt_assert (forallb (fun x => negb (x.2 =? dev)) (object_list g));
  d ← deref (devices g !! dev);
  n ← object_name name;
  Ok (mk_registry ((n, dev) :: object_list g) (<[dev := with_typed d true true]> (devices g))).

Definition rt_device_register (g : registry) (dev : option Z) (name : list Z) (flags : Z)
  : result (registry * Z) :=
  match dev with
  | None => Ok (g, - RT_ERROR)
  | Some dev =>
      o ← rt_device_find g name;
      match o with
      | Some _ => Ok (g, - RT_ERROR)
      | None =>
          g ← device_object_init g dev name;
          d ← deref (devices g !! dev);
          let d := with_open_flag (with_ref_count (with_flag d (u16 flags)) 0) 0 in
          Ok (mk_registry (object_list g) (<[dev := d]> (devices g)), RT_EOK)
      end
  end.

(** [rt_object_detach]: the type is reset and the object leaves the list. *)
Definition rt_device_unregister (g : registry) (dev : Z) : result (registry * Z) :=
  d ← deref (devices g !! dev);
  _ ← rt_assert (typed d);
  _ ← rt_assert (is_static d);
  Ok (mk_registry (filter (fun x => x.2 <> dev) (object_list g))
        (<[dev := with_typed d false false]> (devices g)), RT_EOK).

(** [rt_device_create], given the address that [rt_malloc] returned: the
    block is zeroed, its driver functions with it. *)
Definition rt_device_create (g : registry) (malloc : option Z) : registry * option Z :=
  match malloc with
  | Some a =>
      (mk_registry (object_list g)
         (<[a := mk_device 0 0 0 false false (mk_ops None None None None None None)]> (devices g)),
       Some a)
  | None => (g, None)
  end.

(** [rt_device_destroy]: detaches the object and frees the block. *)
Definition rt_device_destroy (g : registry) (dev : Z) : result registry :=
  d ← deref (devices g !! dev);
  _ ← rt_assert (typed d);
  _ ← rt_assert (negb (is_static d));
  Ok (mk_registry (filter (fun x => x.2 <> dev) (object_list g)) (delete dev (devices g))).

End Dev.
Arguments rt_device_ops W : clear implicits.
Arguments rt_device W : clear implicits.
Arguments registry W : clear implicits.
End Dev.

(** ** The life of a device as its driver sees it *)
Module DevSpec.
Import Dev.

Section Life.
Context {W : Type}.

(** Whether the driver was initialised, how many users hold the device, and
    what the driver sees in the struct. *)
Record life : Type := mk_life { activated : bool; users : Z; seen : members }.

Inductive dop : Type :=
  | D_open (oflag : Z)
  | D_close.

(** A driver function that may be missing. *)
Definition call (f : option (members -> W -> result (members * W * Z))) (m : members) (w : W) : result (members * W) :=
  match f with Some f => fst <$> f m w | None => Ok (m, w) end.

(** The driver is initialised before the first use, told of every open, and
    told of the last close only; a standalone device has one user.  It finds
    the flag for its initialisation, the number of its users, and the open
    flags as it left them, with the flag for an open device; without an open
    function they are those of the caller. *)
Definition life_step (standalone : bool) (o : rt_device_ops W) (l : life) (w : W) (p : dop)
  : result (life * W * Z) :=
  match p with
  | D_open oflag =>
      r ← (if activated l then Ok (seen l, w) else
           '(m, w) ← call (device_init o) (seen l) w;
           Ok (mk_members (Z.lor (m_flag m) RT_DEVICE_FLAG_ACTIVATED) (m_open_flag m) (m_ref_count m), w));
      let '(m, w) := r in
      if standalone && (0 <? users l) then Ok (mk_life true (users l) m, w, - RT_EBUSY) else
      '(m, w) ← match device_open o with
                | Some f => fst <$> f oflag m w
                | None => Ok (mk_members (m_flag m) (Z.land oflag RT_DEVICE_OFLAG_MASK) (m_ref_count m), w)
                end;
      _ ← rt_assert (users l + 1 <? 256);
      Ok (mk_life true (users l + 1)
            (mk_members (m_flag m) (Z.lor (m_open_flag m) RT_DEVICE_OFLAG_OPEN) (users l + 1)), w, RT_EOK)
  | D_close =>
      if users l =? 0 then Ok (l, w, - RT_ERROR) else
      let n := users l - 1 in
      let m := mk_members (m_flag (seen l)) (m_open_flag (seen l)) n in
      if negb (n =? 0) then Ok (mk_life (activated l) n m, w, RT_EOK) else
      '(m, w) ← call (device_close o) m w;
      Ok (mk_life (activated l) 0 (mk_members (m_flag m) RT_DEVICE_OFLAG_CLOSE 0), w, RT_EOK)
  end.

Definition dev_step (d : rt_device W) (w : W) (p : dop) : result (rt_device W * W * Z) :=
  match p with
  | D_open oflag => rt_device_open d oflag w
  | D_close => rt_device_close d w
  end.

Section Run.
Context {S : Type} (step : S -> W -> dop -> result (S * W * Z)).
Fixpoint run (s : S) (w : W) (ps : list dop) : result (S * W * list Z) :=
  match ps with
  | [] => Ok (s, w, [])
  | p :: ps =>
      r ← step s w p;
      let '(s, w, e) := r in
      r ← run s w ps;
      let '(s, w, es) := r in Ok (s, w, e :: es)
  end.
End Run.

(** A driver function that succeeds on a device with the flags [fl], and
    leaves flags and count alone; it may write the open flags. *)
Definition succeeds (fl : Z) (f : option (members -> W -> result (members * W * Z))) : Prop :=
  forall g m w, f = Some g -> Z.lor (m_flag m) RT_DEVICE_FLAG_ACTIVATED = Z.lor fl RT_DEVICE_FLAG_ACTIVATED ->
  exists v w', g m w = Ok (mk_members (m_flag m) v (m_ref_count m), w', RT_EOK).

(** The initialisation does not make the device an open one. *)
Definition driver_ok (fl : Z) (o : rt_device_ops W) : Prop :=
  succeeds fl (device_init o) /\ (forall v, succeeds fl ((fun f => f v) <$> device_open o)) /\
  succeeds fl (device_close o) /\
  (forall g m w m' w' e, device_init o = Some g -> g m w = Ok (m', w', e) ->
     has (m_open_flag m') RT_DEVICE_OFLAG_OPEN = has (m_open_flag m) RT_DEVICE_OFLAG_OPEN).

(** The device, registered with the flags [fl], is in the given phase of its
    life. *)
Record in_life (o : rt_device_ops W) (fl : Z) (d : rt_device W) (l : life) : Prop := {
  il_typed : typed d = true;
  il_ops : ops d = o;
  il_seen : members_of d = seen l;
  il_flag : Z.lor (flag d) RT_DEVICE_FLAG_ACTIVATED = Z.lor fl RT_DEVICE_FLAG_ACTIVATED;
  il_activated : has (flag d) RT_DEVICE_FLAG_ACTIVATED = activated l;
  il_users : ref_count d = users l;
  il_range : 0 <= users l < 256;
  il_open : has (open_flag d) RT_DEVICE_OFLAG_OPEN = (0 <? users l)
}.

Lemma has_lor x b c : has (Z.lor x b) c = has x c || has b c.
Proof.
  unfold has. rewrite Z.land_lor_distr_l.
  destruct (Z.eqb_spec (Z.land x c) 0) as [->|H1], (Z.eqb_spec (Z.land b c) 0) as [->|H2]; cbn.
  - done.
  - by rewrite (proj2 (Z.eqb_neq _ _)) by done.
  - rewrite Z.lor_0_r. by rewrite (proj2 (Z.eqb_neq _ _)) by done.
  - rewrite (proj2 (Z.eqb_neq _ _)); [done|]. intros [? ?]%Z.lor_eq_0_iff. done.
Qed.

(** The flag of the initialisation is not that of a standalone device. *)
Lemma standalone_flag x fl : Z.lor x RT_DEVICE_FLAG_ACTIVATED = Z.lor fl RT_DEVICE_FLAG_ACTIVATED ->
  has x RT_DEVICE_FLAG_STANDALONE = has fl RT_DEVICE_FLAG_STANDALONE.
Proof.
  intros E. assert (H : forall y, has (Z.lor y RT_DEVICE_FLAG_ACTIVATED) RT_DEVICE_FLAG_STANDALONE =
    has y RT_DEVICE_FLAG_STANDALONE) by (intros y; rewrite has_lor; apply orb_false_r).
  by rewrite <- (H x), <- (H fl), E.
Qed.

Section Phases.
Context (o : rt_device_ops W) (fl : Z) (ok : driver_ok fl o).
Let sa := has fl RT_DEVICE_FLAG_STANDALONE.

(** A call of a driver function in a device's life. *)
Lemma invoke_ok f d w : succeeds fl (Some f) ->
  Z.lor (flag d) RT_DEVICE_FLAG_ACTIVATED = Z.lor fl RT_DEVICE_FLAG_ACTIVATED ->
  exists v w', f (members_of d) w = Ok (mk_members (flag d) v (ref_count d), w', RT_EOK) /\
    invoke f d w = Ok (with_open_flag d v, w', RT_EOK).
Proof.
  intros Hs Hf. destruct (Hs f (members_of d) w eq_refl Hf) as (v & w' & E).
  exists v, w'. split; [exact E|]. unfold invoke. by rewrite E.
Qed.

Lemma open_activate_life d l w : in_life o fl d l ->
  exists d' w', open_activate d w = Ok (inl (d', w')) /\
    (if activated l then Ok (seen l, w) else
       '(m, w) ← call (device_init o) (seen l) w;
       Ok (mk_members (Z.lor (m_flag m) RT_DEVICE_FLAG_ACTIVATED) (m_open_flag m) (m_ref_count m), w)) =
      Ok (members_of d', w') /\
    in_life o fl d' (mk_life true (users l) (members_of d')).
Proof.
  destruct ok as (Hi & _ & _ & Hio). intros []. unfold open_activate. rewrite il_activated0, il_ops0.
  destruct (activated l) eqn:Ea; cbn [negb].
  { exists d, w. rewrite il_seen0. split_and!; [done..|]. by constructor. }
  assert (Hl : forall v, has v RT_DEVICE_OFLAG_OPEN = (0 <? users l) ->
    let d' := with_flag (with_open_flag d v) (Z.lor (flag d) RT_DEVICE_FLAG_ACTIVATED) in
    in_life o fl d' (mk_life true (users l) (members_of d'))).
  { intros v Hv. constructor; cbn; try done; [|by rewrite has_lor, orb_true_r].
    by rewrite <- Z.lor_assoc, Z.lor_diag. }
  unfold call. destruct (device_init o) as [f|] eqn:Ef.
  - destruct (invoke_ok f d w Hi il_flag0) as (v & w' & E & ->). red_bind. rewrite <- il_seen0, E. red_bind.
    eexists _, w'. split; [done|]. split; [done|]. apply (Hl v).
    pose proof (Hio f _ _ _ _ _ eq_refl E) as Ho. cbn [m_open_flag members_of] in Ho. by rewrite Ho.
  - red_bind. rewrite <- il_seen0. eexists _, w. split; [done|]. split; [done|].
    pose proof (Hl (open_flag d) il_open0) as H. by destruct d.
Qed.

(** [d] after its open flags were written, before the user is counted. *)
Lemma open_count_life d u w v : in_life o fl d (mk_life true u (members_of d)) ->
  match (_ ← rt_assert (u + 1 <? 256);
         Ok (mk_life true (u + 1) (mk_members (flag d) (Z.lor v RT_DEVICE_OFLAG_OPEN) (u + 1)), w, RT_EOK)) with
  | Ok (l', w', e) =>
      exists d', open_count (with_open_flag d v) w RT_EOK = Ok (d', w', e) /\ in_life o fl d' l'
  | Err f => open_count (with_open_flag d v) w RT_EOK = Err f
  end.
Proof.
  intros []. unfold open_count. change (RT_EOK =? RT_EOK) with true.
  cbn [orb ref_count with_ref_count with_open_flag users activated] in *. rewrite il_users0.
  destruct (Z.ltb_spec (u + 1) 256).
  - rewrite u8_small by lia. rewrite (proj2 (Z.eqb_neq (u + 1) 0)) by lia. red_bind.
    eexists. split; [done|]. constructor; cbn; try done; [lia|].
    rewrite has_lor, orb_true_r. symmetry. apply Z.ltb_lt. lia.
  - by replace (u + 1) with 256 by lia.
Qed.

Lemma open_life d l w oflag : in_life o fl d l ->
  match life_step sa o l w (D_open oflag) with
  | Ok (l', w', e) => exists d', rt_device_open d oflag w = Ok (d', w', e) /\ in_life o fl d' l'
  | Err f => rt_device_open d oflag w = Err f
  end.
Proof.
  intros Hl. cbn [life_step]. unfold rt_device_open.
  destruct (open_activate_life d l w Hl) as (d1 & w1 & -> & -> & H1).
  rewrite (il_typed _ _ _ _ Hl). red_bind. pose proof H1 as []. cbn [activated users] in *.
  rewrite (standalone_flag _ _ il_flag0), il_open0. fold sa. destruct (sa && (0 <? users l)); [by exists d1|].
  destruct ok as (_ & Hop & _). rewrite il_ops0.
  destruct (device_open o) as [f|]; cbn [fmap option_fmap option_map].
  - destruct (invoke_ok (f oflag) d1 w1 (Hop oflag) il_flag0) as (v & w2 & -> & ->). red_bind.
    by apply open_count_life.
  - red_bind. by apply open_count_life.
Qed.

Lemma close_life d l w : in_life o fl d l ->
  match life_step sa o l w D_close with
  | Ok (l', w', e) => exists d', rt_device_close d w = Ok (d', w', e) /\ in_life o fl d' l'
  | Err f => rt_device_close d w = Err f
  end.
Proof.
  destruct ok as (_ & _ & Hc & _). intros Hl. pose proof Hl as []. cbn [life_step]. unfold rt_device_close.
  rewrite il_typed0, il_users0. red_bind.
  destruct (Z.eqb_spec (users l) 0) as [E0|E0]; [by exists d|].
  cbn [ref_count with_ref_count ops]. rewrite il_ops0, <- il_seen0.
  set (d0 := with_ref_count d (users l - 1)).
  destruct (Z.eqb_spec (users l - 1) 0) as [E1|E1]; cbn [negb].
  - assert (Hm : mk_members (m_flag (members_of d)) (m_open_flag (members_of d)) (users l - 1) = members_of d0) by done.
    rewrite Hm. unfold call. destruct (device_close o) as [f|].
    + destruct (invoke_ok f d0 w Hc il_flag0) as (v & w' & -> & ->). red_bind.
      eexists. split; [done|]. constructor; unfold d0, members_of; cbn; rewrite ?E1; done.
    + red_bind. eexists. split; [done|]. constructor; unfold d0, members_of; cbn; rewrite ?E1; done.
  - eexists. split; [done|]. constructor; cbn; try done; [lia|].
    rewrite il_open0. transitivity true; [|symmetry]; apply Z.ltb_lt; lia.
Qed.

Lemma step_life d l w p : in_life o fl d l ->
  match life_step sa o l w p with
  | Ok (l', w', e) => exists d', dev_step d w p = Ok (d', w', e) /\ in_life o fl d' l'
  | Err f => dev_step d w p = Err f
  end.
Proof. intros Hl. destruct p; [by apply open_life|by apply close_life]. Qed.

Lemma run_life ps : forall d l w, in_life o fl d l ->
  match run (life_step sa o) l w ps with
  | Ok (l', w', es) => exists d', run dev_step d w ps = Ok (d', w', es) /\ in_life o fl d' l'
  | Err f => run dev_step d w ps = Err f
  end.
Proof.
  induction ps as [|p ps IH]; intros d l w Hl; cbn [run]; [by exists d|].
  pose proof (step_life d l w p Hl) as Hs.
  destruct (life_step sa o l w p) as [[[l1 w1] e]|f]; red_bind; [|by rewrite Hs].
  destruct Hs as (d1 & -> & H1). red_bind. specialize (IH d1 l1 w1 H1).
  destruct (run (life_step sa o) l1 w1 ps) as [[[l2 w2] es]|f]; red_bind; [|by rewrite IH].
  destruct IH as (d2 & -> & H2). by exists d2.
Qed.

End Phases.
End Life.
End DevSpec.

(** ** The registry *)
Module RegSpec.
Import Dev CMem CStr CMemSpec CMemThms CStrThms.

(** The [name] field of an object called [s]. *)
Definition pad (s : list Z) : list Z := (fun i => default 0 (s !! i)) <$> seq 0 8.

Lemma pad_lookup s i : (i < 8)%nat -> pad s !! i = Some (default 0 (s !! i)).
Proof. intros Hi. unfold pad. rewrite list_lookup_fmap, lookup_seq_lt by done. done. Qed.

Lemma is_str_at p s pre : is_str p s -> string_at (pre ++ p) (zlen pre) s.
Proof.
  intros [Hz [rest ->]]. split; [done|]. intros i Hi. rewrite zget_nonneg by (unfold zlen; lia).
  replace (Z.to_nat (zlen pre + Z.of_nat i)) with (length pre + i)%nat by (unfold zlen; lia).
  rewrite lookup_app_r by lia. replace (length pre + i - length pre)%nat with i by lia.
  destruct (decide (i < length s)%nat).
  - rewrite lookup_app_l by done. by destruct (lookup_lt_is_Some_2 s i) as [x ->].
  - replace i with (length s) by lia. rewrite list_lookup_middle by done.
    by rewrite lookup_ge_None_2 by lia.
Qed.

Lemma object_name_pad p s : is_str p s -> object_name p = Ok (pad s).
Proof.
  intros Hp. unfold object_name.
  pose proof (is_str_at p s (replicate 8 0) Hp) as Hat. change (zlen (replicate 8 0)) with 8 in Hat.
  destruct (rt_strncpy_writes (replicate 8 0 ++ p) 0 8 8 s Hat) as (m' & E & L & M);
    [lia..|rewrite zlen_app; change (zlen (replicate 8 0)) with 8; pose proof (zlen_nonneg p); lia|lia|].
  change (Z.to_nat RT_NAME_MAX) with 8%nat. change RT_NAME_MAX with 8. rewrite E. red_bind. f_equal.
  apply list_eq. intros i. rewrite lookup_take. case_decide as Hi.
  - specialize (M (Z.of_nat i)). rewrite zget_nonneg, Nat2Z.id in M by lia.
    rewrite (proj2 (Z.leb_le _ _)), (proj2 (Z.ltb_lt _ _)) in M by lia. cbn [andb] in M.
    rewrite Z.sub_0_r, Nat2Z.id in M. rewrite pad_lookup by done.
    destruct (m' !! i); inversion M; by subst.
  - symmetry. apply lookup_ge_None_2. unfold pad. rewrite length_fmap, length_seq. lia.
Qed.

(** The first [n] bytes decide [rt_strncmp]. *)
Lemma rt_strncmp_prefix r n : forall p q, (n <= length p)%nat ->
  rt_strncmp (p ++ r) q n = rt_strncmp p q n.
Proof.
  induction n as [|n IH]; intros p q Hp; [done|]. destruct p as [|a p]; [cbn in Hp; lia|].
  cbn [app rt_strncmp head tail deref]. red_bind. destruct (deref (head q)); [|done]. red_bind.
  case_match; [done|]. apply IH. cbn in Hp. lia.
Qed.

Lemma not_elem_of_take {A} (x : A) n l : x ∉ l -> x ∉ take n l.
Proof. intros H Hx. apply H. rewrite <- (take_drop n l). apply elem_of_app. by left. Qed.

Lemma pad_str s : 0 ∉ s -> is_str (pad s ++ [0]) (take 8 s).
Proof.
  intros Hs. split; [by apply not_elem_of_take|].
  exists (replicate (8 - length s) 0). apply list_eq. intros i.
  destruct (decide (i < 8)%nat) as [Hi|Hi].
  - rewrite lookup_app_l by (unfold pad; rewrite length_fmap, length_seq; lia).
    rewrite pad_lookup by done. destruct (decide (i < length s)%nat).
    + rewrite lookup_app_l, lookup_take, decide_True by (rewrite ?length_take; lia).
      by destruct (lookup_lt_is_Some_2 s i) as [x ->].
    + rewrite (lookup_ge_None_2 s) by lia. rewrite take_ge by lia.
      rewrite lookup_app_r by lia. destruct (i - length s)%nat as [|j] eqn:Ej; [done|].
      cbn. symmetry. apply lookup_replicate. split; [done|lia].
  - rewrite lookup_app_r by (unfold pad; rewrite length_fmap, length_seq; lia).
    unfold pad. rewrite length_fmap, length_seq.
    rewrite (lookup_app_r (take 8 s)) by (rewrite length_take; lia). rewrite length_take.
    destruct (decide (i = 8)%nat) as [->|].
    + destruct (decide (length s < 8)%nat).
      * replace (8 - 8 `min` length s)%nat with (S (8 - length s - 1))%nat by lia. cbn.
        symmetry. apply lookup_replicate. split; [done|lia].
      * by replace (8 - 8 `min` length s)%nat with 0%nat by lia.
    + rewrite lookup_ge_None_2 by (cbn; lia). symmetry. apply lookup_ge_None_2.
      cbn [length]. rewrite length_replicate. lia.
Qed.

Lemma pad_chars s : chars s -> chars (pad s).
Proof.
  intros Hs. unfold chars, pad. rewrite Forall_fmap. apply Forall_forall. intros i _. cbn.
  destruct (s !! i) as [x|] eqn:E; cbn; [|lia]. by apply (Forall_lookup_1 _ _ _ _ Hs E).
Qed.

(** Two names are the same name when their first 8 characters are. *)
Lemma strncmp_pad s q t : 0 ∉ s -> chars s -> chars q -> is_str q t ->
  exists r, rt_strncmp (pad s) q 8 = Ok r /\ (r = 0 <-> take 8 s = take 8 t).
Proof.
  intros Hs Cs Cq Hq.
  rewrite <- (rt_strncmp_prefix [0] 8 (pad s) q) by (unfold pad; rewrite length_fmap, length_seq; lia).
  destruct (rt_strncmp_eq 8 (pad s ++ [0]) q (take 8 s) t) as (r & E & Hr); [|done|by apply pad_str|done|].
  { apply Forall_app. split; [by apply pad_chars|]. repeat constructor; lia. }
  exists r. split; [done|]. by rewrite Hr, take_take.
Qed.

(** *** The registry as a table of names *)

(** The device that the registry holds under the name [t]. *)
Definition named (names : list (list Z * Z)) (t : list Z) : option Z :=
  match filter (fun x => take 8 x.1 = take 8 t) names with [] => None | x :: _ => Some x.2 end.

Definition fields (names : list (list Z * Z)) : list (list Z * Z) :=
  (fun x => (pad x.1, x.2)) <$> names.

Definition good_name (s : list Z) : Prop := (0 ∉ s) /\ chars s.

Lemma find_in_named names q t : Forall (fun x => good_name x.1) names -> chars q -> is_str q t ->
  find_in (fields names) q = Ok (named names t).
Proof.
  intros Hn Cq Hq. unfold named. induction Hn as [|[s a] l [Hs Cs] Hl IH]; [done|].
  cbn [fields fmap list_fmap find_in fst snd]. change (Z.to_nat RT_NAME_MAX) with 8%nat.
  destruct (strncmp_pad s q t Hs Cs Cq Hq) as (r & -> & Hr). red_bind.
  rewrite filter_cons. cbn [fst]. destruct (Z.eqb_spec r 0) as [E|E].
  - by rewrite decide_True by (by apply Hr).
  - rewrite decide_False by (by rewrite <- Hr). apply IH.
Qed.

End RegSpec.

Module DevThms.
Import Dev CStr CStrThms DevSpec RegSpec.

Section Registry.
Context {W : Type}.
Implicit Types g : registry W.

(** The registry holds the devices of [names], and only they are typed. *)
Record reg_ok (g : registry W) (names : list (list Z * Z)) : Prop := {
  ro_list : object_list g = fields names;
  ro_names : Forall (fun x => good_name x.1) names;
  ro_nodup : NoDup ((fun x => take 8 x.1) <$> names);
  ro_addr : NoDup (names.*2);
  ro_devs : forall a d, devices g !! a = Some d ->
    is_static d = typed d /\ (typed d = true <-> a ∈ names.*2);
  ro_have : forall a, a ∈ names.*2 -> is_Some (devices g !! a)
}.

(** What happens to the registry: devices appear (a static one, or one of
    [rt_device_create]), are registered, unregistered, and used. *)
Inductive reachable : registry W -> Prop :=
  | R_empty : reachable (mk_registry [] ∅)
  | R_object g a d : reachable g -> devices g !! a = None -> typed d = false -> is_static d = false ->
      reachable (mk_registry (object_list g) (<[a := d]> (devices g)))
  | R_register g a p s flags g' e : reachable g -> is_str p s -> chars s -> chars p ->
      rt_device_register g a p flags = Ok (g', e) -> reachable g'
  | R_unregister g a g' e : reachable g -> rt_device_unregister g a = Ok (g', e) -> reachable g'
  | R_use g a d d' w w' p e : reachable g -> devices g !! a = Some d ->
      dev_step d w p = Ok (d', w', e) ->
      reachable (mk_registry (object_list g) (<[a := d']> (devices g))).

Lemma invoke_type f (d d' : rt_device W) w w' e : invoke f d w = Ok (d', w', e) ->
  typed d' = typed d /\ is_static d' = is_static d.
Proof. unfold invoke. intros ([[m w1] res] & _ & E)%bind_Ok_inv. by injection E as <- _ _. Qed.

Lemma dev_step_type (d d' : rt_device W) w w' p e : dev_step d w p = Ok (d', w', e) ->
  typed d' = typed d /\ is_static d' = is_static d.
Proof.
  destruct p as [oflag|]; cbn [dev_step]; intros H.
  - unfold rt_device_open, open_activate in H. apply bind_Ok_inv in H as (u & _ & H).
    apply bind_Ok_inv in H as (r & Hr & H).
    assert (Ht : match r with inl (d1, _) | inr (d1, _, _) => typed d1 = typed d /\ is_static d1 = is_static d end).
    { revert Hr. destruct (negb _); [|by intros [= <-]]. intros ([[d0 w0] res] & E0 & Hr)%bind_Ok_inv.
      assert (typed d0 = typed d /\ is_static d0 = is_static d).
      { destruct (device_init (ops d)); [by apply invoke_type in E0|by injection E0 as <- _ _]. }
      by destruct (negb _); injection Hr as <-. }
    destruct r as [[d1 w1]|[[d1 w1] res]]; [|by injection H as <- _ _].
    case_match; [by injection H as <- _ _|]. apply bind_Ok_inv in H as ([[d2 w2] res] & H2 & H).
    assert (Ht2 : typed d2 = typed d1 /\ is_static d2 = is_static d1).
    { destruct (device_open (ops d1)); [by apply invoke_type in H2|by injection H2 as <- _ _]. }
    unfold open_count in H. case_match; [|injection H as <- _ _; intuition congruence].
    apply bind_Ok_inv in H as (? & _ & H). injection H as <- _ _. cbn. intuition congruence.
  - unfold rt_device_close in H. apply bind_Ok_inv in H as (u & _ & H).
    case_match; [by injection H as <- _ _|]. case_match; [by injection H as <- _ _|].
    apply bind_Ok_inv in H as ([[d1 w1] res] & Hc & H).
    assert (typed d1 = typed d /\ is_static d1 = is_static d).
    { destruct (device_close _); [by apply invoke_type in Hc|by injection Hc as <- _ _]. }
    by case_match; injection H as <- _ _.
Qed.

Lemma named_None (names : list (list Z * Z)) t :
  named names t = None <-> take 8 t ∉ (fun x => take 8 x.1) <$> names.
Proof.
  unfold named. rewrite list_elem_of_fmap. split.
  - intros H (x & E & Hx). destruct (filter _ names) eqn:F; [|done].
    apply (not_elem_of_nil x). rewrite <- F. by apply list_elem_of_filter.
  - intros H. destruct (filter _ names) as [|x l] eqn:F; [done|]. destruct H.
    assert (Hx : x ∈ x :: l) by left. rewrite <- F in Hx. apply list_elem_of_filter in Hx as [E Hx].
    by exists x.
Qed.

(** [rt_device_register]: refused without a device or with a name in use,
    asserting for a device that is already registered. *)
Lemma register_result g names a p s flags : reg_ok g names -> is_str p s -> chars s -> chars p ->
  rt_device_register g (Some a) p flags =
    match named names s with
    | Some _ => Ok (g, - RT_ERROR)
    | None =>
        if decide (a ∈ names.*2) then Err F_assert
        else match devices g !! a with
        | None => Err F_wild
        | Some d => Ok (mk_registry (fields ((s, a) :: names))
            (<[a := mk_device (u16 flags) 0 0 true true (ops d)]> (devices g)), RT_EOK)
        end
    end.
Proof.
  intros Hg Hp Cs Cp. unfold rt_device_register, rt_device_find.
  rewrite (ro_list _ _ Hg), (find_in_named names p s) by (done || apply Hg). red_bind.
  destruct (named names s); [done|]. unfold device_object_init. rewrite (ro_list _ _ Hg).
  replace (forallb _ (fields names)) with (negb (bool_decide (a ∈ names.*2))).
  - case_decide as Ha; [by rewrite bool_decide_true|]. rewrite bool_decide_false by done.
    cbn [negb rt_assert]. red_bind. destruct (devices g !! a) as [d|]; [|done]. cbn [deref]. red_bind.
    rewrite (object_name_pad p s Hp). red_bind. cbn [devices]. rewrite lookup_insert_eq.
    cbn [deref]. red_bind. cbn [object_list]. by rewrite insert_insert_eq.
  - clear. induction names as [|[s0 b] l IH]; [done|].
    change (fields ((s0, b) :: l)) with ((pad s0, b) :: fields l). cbn [forallb snd]. rewrite <- IH.
    change (((s0, b) :: l).*2) with (b :: l.*2).
    destruct (Z.eqb_spec b a) as [->|Hn].
    + rewrite bool_decide_true; [done|]. left.
    + cbn. f_equal. apply bool_decide_ext. rewrite elem_of_cons. split; [|by right].
      by intros [->|?].
Qed.

Lemma named_Some_in (names : list (list Z * Z)) t a : named names t = Some a -> a ∈ names.*2.
Proof.
  unfold named. destruct (filter _ names) as [|x l] eqn:F; [done|]. intros [= <-].
  assert (Hx : x ∈ x :: l) by left. rewrite <- F in Hx. apply list_elem_of_filter in Hx as [_ Hx].
  apply list_elem_of_fmap. by exists x.
Qed.

(** A device that is put in the table, typed exactly when it is listed. *)
Lemma devs_insert (m : gmap Z (rt_device W)) (l l' : list Z) a d :
  (forall b x, m !! b = Some x -> is_static x = typed x /\ (typed x = true <-> b ∈ l)) ->
  is_static d = typed d -> (typed d = true <-> a ∈ l') -> (forall b, b <> a -> b ∈ l' <-> b ∈ l) ->
  forall b x, <[a := d]> m !! b = Some x -> is_static x = typed x /\ (typed x = true <-> b ∈ l').
Proof.
  intros Hm Hs Ht Hl b x. destruct (decide (b = a)) as [->|Hn].
  - rewrite lookup_insert_eq. by intros [= <-].
  - rewrite lookup_insert_ne by done. rewrite (Hl b Hn). apply Hm.
Qed.

Lemma have_insert (m : gmap Z (rt_device W)) (l l' : list Z) a d :
  (forall b, b ∈ l -> is_Some (m !! b)) -> (forall b, b <> a -> b ∈ l' -> b ∈ l) ->
  forall b, b ∈ l' -> is_Some (<[a := d]> m !! b).
Proof.
  intros Hm Hl b Hb. destruct (decide (b = a)) as [->|Hn]; [by rewrite lookup_insert_eq|].
  rewrite lookup_insert_ne by done. by apply Hm, Hl.
Qed.

Lemma register_ok g names a p s flags g' e : reg_ok g names -> is_str p s -> chars s -> chars p ->
  rt_device_register g a p flags = Ok (g', e) ->
  (g' = g /\ e = - RT_ERROR) \/
  (exists a', a = Some a' /\ named names s = None /\ e = RT_EOK /\ reg_ok g' ((s, a') :: names)).
Proof.
  intros Hg Hp Cs Cp. destruct a as [a|]; [|intros [= <- <-]; by left].
  rewrite (register_result g names a p s flags) by done.
  destruct (named names s) eqn:En; [intros [= <- <-]; by left|]. case_decide as Ha; [done|].
  destruct (devices g !! a) as [d|] eqn:Ed; [|done]. intros [= <- <-]. right. exists a.
  split_and!; [done..|]. destruct Hg. constructor; cbn [object_list devices fmap list_fmap fst snd].
  - done.
  - constructor; [|done]. split; [apply Hp|done].
  - constructor; [by apply named_None|done].
  - by constructor.
  - apply (devs_insert _ (names.*2)); try done.
    + cbn. split; [intros _; left|done].
    + intros b Hb. rewrite elem_of_cons. tauto.
  - apply (have_insert _ (names.*2)); [done|]. intros b Hb. rewrite elem_of_cons. tauto.
Qed.

Lemma fields_filter names a :
  filter (fun x : list Z * Z => x.2 <> a) (fields names) =
  fields (filter (fun x : list Z * Z => x.2 <> a) names).
Proof.
  induction names as [|[s b] l IH]; [done|].
  change (fields ((s, b) :: l)) with ((pad s, b) :: fields l). rewrite !filter_cons. cbn [snd].
  case_decide; [|done]. by rewrite IH.
Qed.

Lemma unregister_ok g names a g' e : reg_ok g names -> rt_device_unregister g a = Ok (g', e) ->
  e = RT_EOK /\ a ∈ names.*2 /\ reg_ok g' (filter (fun x => x.2 <> a) names).
Proof.
  intros Hg. unfold rt_device_unregister. destruct (devices g !! a) as [d|] eqn:Ed; [|done].
  cbn [deref]. red_bind. intros (u & Ht%rt_assert_inv & H)%bind_Ok_inv.
  apply bind_Ok_inv in H as (u' & _ & H). injection H as <- <-. split; [done|].
  split; [by apply (ro_devs _ _ Hg a d)|].
  assert (Hin : forall b, b ∈ (filter (fun x : list Z * Z => x.2 <> a) names).*2 <-> b ∈ names.*2 /\ b <> a).
  { intros b. rewrite !list_elem_of_fmap. split.
    - intros (x & -> & [Hx Hi]%list_elem_of_filter). split; [by exists x|done].
    - intros [(x & -> & Hi) Hx]. exists x. by rewrite list_elem_of_filter. }
  destruct Hg. constructor; cbn [object_list devices].
  - rewrite ro_list0. apply fields_filter.
  - apply Forall_forall. intros x [_ Hx]%list_elem_of_filter.
    rewrite Forall_forall in ro_names0. by apply ro_names0.
  - eapply sublist_NoDup; [exact ro_nodup0|]. apply fmap_sublist, sublist_filter.
  - eapply sublist_NoDup; [exact ro_addr0|]. apply fmap_sublist, sublist_filter.
  - apply (devs_insert _ (names.*2)); try done.
    + cbn. rewrite Hin. by intuition.
    + intros b Hb. rewrite Hin. tauto.
  - apply (have_insert _ (names.*2)); [done|]. intros b Hb. rewrite Hin. tauto.
Qed.

Lemma reachable_ok g : reachable g -> exists names, reg_ok g names.
Proof.
  induction 1 as [|g a d _ [names Hg] Ha Ht Hs|g a p s flags g' e _ [names Hg] Hp Cs Cp E
                 |g a g' e _ [names Hg] E|g a d d' w w' p e _ [names Hg] Ha E].
  - exists []. constructor; [done|constructor|constructor|constructor| |].
    + intros a d. cbn [devices]. by rewrite lookup_empty.
    + by intros a ?%not_elem_of_nil.
  - exists names. assert (Hn : a ∉ names.*2).
    { intros Hi. apply (ro_have _ _ Hg) in Hi. rewrite Ha in Hi. by destruct Hi. }
    destruct Hg. constructor; try done; cbn [devices].
    + apply (devs_insert _ (names.*2)); try done; [by rewrite Hs, Ht|]. by rewrite Ht.
    + by apply (have_insert _ (names.*2)).
  - destruct (register_ok g names a p s flags g' e Hg Hp Cs Cp E) as [[-> _]|(a' & _ & _ & _ & Hg')];
      [by exists names|by eexists].
  - destruct (unregister_ok g names a g' e Hg E) as (_ & _ & Hg'). by eexists.
  - exists names. apply dev_step_type in E as [Et Es].
    pose proof (ro_devs _ _ Hg a d Ha) as [Hs Ht].
    destruct Hg. constructor; try done; cbn [devices].
    + apply (devs_insert _ (names.*2)); try done; [congruence|by rewrite Et].
    + by apply (have_insert _ (names.*2)).
Qed.

Lemma named_cons s a (names : list (list Z * Z)) t :
  named ((s, a) :: names) t = if decide (take 8 s = take 8 t) then Some a else named names t.
Proof. unfold named. rewrite filter_cons. cbn [fst]. by case_decide. Qed.

(** C34: a device that was registered is found under its name, or any name
    with the same first eight characters, and every other name still finds
    what it found before; the registration succeeds only when no device has
    such a name, and a later one with such a name is refused and changes
    nothing. *)
Theorem rt_device_register_find g g' a p s flags :
  reachable g -> is_str p s -> chars s -> chars p ->
  rt_device_register g (Some a) p flags = Ok (g', RT_EOK) ->
  rt_device_find g p = Ok None /\
  (forall q t, is_str q t -> chars q ->
     rt_device_find g' q = if decide (take 8 s = take 8 t) then Ok (Some a) else rt_device_find g q) /\
  (forall b q t fl, is_str q t -> chars q -> chars t -> take 8 s = take 8 t ->
     rt_device_register g' (Some b) q fl = Ok (g', - RT_ERROR)).
Proof.
  intros [names Hg]%reachable_ok Hp Cs Cp E.
  destruct (register_ok g names _ p s flags g' _ Hg Hp Cs Cp E)
    as [[_ He]|(a' & [= <-] & En & _ & Hg')]; [done|].
  unfold rt_device_find. rewrite (ro_list _ _ Hg), (ro_list _ _ Hg'). split_and!.
  - rewrite (find_in_named names p s) by (done || apply Hg). by rewrite En.
  - intros q t Hq Cq. rewrite !(find_in_named _ q t) by (done || apply Hg || apply Hg').
    rewrite named_cons. by case_decide.
  - intros b q t fl Hq Cq Ct Est.
    rewrite (register_result g' _ b q t fl Hg' Hq Ct Cq), named_cons. by rewrite decide_True.
Qed.

(** [rt_device_destroy] always fails its assertions: a registered device
    has the static bit that [rt_object_init] sets, and a device without it
    has not the type of a device.  The memory of [rt_device_create] is never
    given back. *)
Theorem rt_device_destroy_asserts g a d :
  reachable g -> devices g !! a = Some d -> rt_device_destroy g a = Err F_assert.
Proof.
  intros [names Hg]%reachable_ok Ha. unfold rt_device_destroy. rewrite Ha. cbn [deref]. red_bind.
  destruct (ro_devs _ _ Hg a d Ha) as [-> _]. by destruct (typed d).
Qed.

End Registry.

(** A driver that counts the calls of its functions; its open function writes
    the open flags. *)
Definition counting : rt_device_ops (Z * Z * Z) :=
  mk_ops (Some (fun m w => Ok (m, (w.1.1 + 1, w.1.2, w.2), RT_EOK)))
    (Some (fun oflag m w => Ok (mk_members (m_flag m) (Z.land oflag 255) (m_ref_count m), (w.1.1, w.1.2 + 1, w.2), RT_EOK)))
    (Some (fun m w => Ok (m, (w.1.1, w.1.2, w.2 + 1), RT_EOK))) None None None.

Definition demo_registry : registry (Z * Z * Z) :=
  mk_registry [] {[ 5 := mk_device 0 0 0 false false counting ]}.

Lemma demo_reachable : reachable demo_registry.
Proof. apply (R_object (mk_registry [] ∅) 5 (mk_device 0 0 0 false false counting)); by try constructor. Qed.

(** "LED0", and the same with another tail. *)
Definition led0 : list Z := [76; 69; 68; 48; 0].

Lemma led0_str : is_str led0 [76; 69; 68; 48].
Proof. split; [not_in|]. by exists []. Qed.
Lemma led0_chars : chars led0 /\ chars [76; 69; 68; 48].
Proof. split; repeat constructor; lia. Qed.

Lemma rt_device_register_find_witness : exists g',
  rt_device_register demo_registry (Some 5) led0 3 = Ok (g', RT_EOK) /\
  rt_device_find g' led0 = Ok (Some 5).
Proof.
  eexists. split; [reflexivity|].
  pose proof (rt_device_register_find demo_registry _ 5 led0 [76; 69; 68; 48] 3
    demo_reachable led0_str (proj2 led0_chars) (proj1 led0_chars) eq_refl) as (_ & H & _).
  rewrite (H led0 [76; 69; 68; 48] led0_str (proj1 led0_chars)). reflexivity.
Defined.

Lemma rt_device_destroy_asserts_witness : rt_device_destroy demo_registry 5 = Err F_assert.
Proof. apply (rt_device_destroy_asserts demo_registry 5 _ demo_reachable eq_refl). Defined.

(** C15: from its registration on, and for any sequence of opens and closes,
    a device whose driver functions succeed does what its life demands: the
    driver is initialised once, before the first open; it is told of every
    open, and of the close that ends the last use; a standalone device has
    one user at a time; a close without a user is refused; the 256th user
    fails the assertion on the 8-bit counter.  The functions may write the
    open flags of the struct, and find in it what [life_step] says. *)
Theorem rt_device_life {W} (g g' : registry W) a p flags d w ps :
  rt_device_register g (Some a) p flags = Ok (g', RT_EOK) -> devices g' !! a = Some d ->
  has (u16 flags) RT_DEVICE_FLAG_ACTIVATED = false -> driver_ok (u16 flags) (ops d) ->
  let sa := has (u16 flags) RT_DEVICE_FLAG_STANDALONE in
  match run (life_step sa (ops d)) (mk_life false 0 (mk_members (u16 flags) 0 0)) w ps with
  | Ok (l, w', es) => exists d', run dev_step d w ps = Ok (d', w', es) /\ in_life (ops d) (u16 flags) d' l
  | Err f => run dev_step d w ps = Err f
  end.
Proof.
  intros E Ed Hact Ho sa.
  assert (Hl : in_life (ops d) (u16 flags) d (mk_life false 0 (mk_members (u16 flags) 0 0))).
  { unfold rt_device_register in E. apply bind_Ok_inv in E as ([b|] & _ & E); [done|].
    apply bind_Ok_inv in E as (g1 & E1 & E). apply bind_Ok_inv in E as (d1 & Ed1 & E).
    injection E as <-. cbn [devices] in Ed. rewrite lookup_insert_eq in Ed. injection Ed as <-.
    assert (Ht : typed d1 = true).
    { unfold device_object_init in E1. apply bind_Ok_inv in E1 as (u & _ & E1).
      apply bind_Ok_inv in E1 as (d0 & _ & E1). apply bind_Ok_inv in E1 as (n & _ & E1).
      injection E1 as <-. cbn [devices] in Ed1. rewrite lookup_insert_eq in Ed1. by injection Ed1 as <-. }
    constructor; cbn; done. }
  by apply (run_life (ops d) (u16 flags) Ho).
Qed.

Lemma counting_ok : driver_ok 3 counting.
Proof.
  split_and!; [intros f m w [= <-] _|intros v f m w [= <-] _|intros f m w [= <-] _|];
    try (destruct m; by eexists _, _). intros f m w m' w' e [= <-]. by intros [= <- _ _].
Qed.

Lemma rt_device_life_witness : exists g' d d',
  rt_device_register demo_registry (Some 5) led0 3 = Ok (g', RT_EOK) /\ devices g' !! 5 = Some d /\
  run dev_step d (0, 0, 0) [D_open 3; D_open 3; D_close; D_close; D_close; D_open 3] =
    Ok (d', (1, 3, 1), [0; 0; 0; 0; -1; 0]).
Proof.
  eexists _, _.
  pose proof (rt_device_life demo_registry _ 5 led0 3 _ (0, 0, 0)
    [D_open 3; D_open 3; D_close; D_close; D_close; D_open 3] eq_refl eq_refl eq_refl) as H.
  destruct (H counting_ok) as (d' & E & _). by exists d'.
Defined.

End DevThms.
