(* ===== verification/I2cBit.v ===== *)
(** * The software I2C master (components/drivers/i2c/i2c-bit-ops.c)

    [Wire] is the pair of open-drain lines, with any slave on the other side:
    what the slave does may depend on everything that happened on the lines.
    [I2c] is the C code on it, [Decode] reads the symbols off the history of
    the lines, [I2cThms] holds the properties.  The pin functions are those
    of drivers/drv_soft_i2c.c. *)
From S2P Require Import Prelude CTypes.
From stdpp Require Import base list.
From Stdlib Require Import ZArith Lia.
Open Scope Z_scope.

Module Wire.

(** What the master does to the lines and sees on them. *)
Inductive event : Type :=
  | E_scl (level : bool)
  | E_sda (level : bool)
  | E_delay (us : Z)
  | E_sleep (ticks : Z)
  | E_sample (level : bool).

(** The history, newest event first, and the tick counter. *)
Record wires : Type := mk_wires { hist : list event; now : Z }.

(** The level that the master drives: released lines are high. *)
Fixpoint scl_out (h : list event) : bool :=
  match h with [] => true | E_scl b :: _ => b | _ :: h => scl_out h end.
Fixpoint sda_out (h : list event) : bool :=
  match h with [] => true | E_sda b :: _ => b | _ :: h => sda_out h end.

(** The other side: the levels to which the slave pulls or leaves the lines,
    and the ticks that go by while the master waits, beyond what it asked. *)
Class Slave : Type := {
  slave_scl : list event -> bool;
  slave_sda : list event -> bool;
  late : list event -> Z
}.

Section Lines.
Context `{Slave}.

(** [stm32_set_sda], [stm32_set_scl], [stm32_get_sda], [stm32_get_scl]. *)
Definition set_sda (state : Z) (w : wires) : wires :=
  mk_wires (E_sda (negb (state =? 0)) :: hist w) (now w).
Definition set_scl (state : Z) (w : wires) : wires :=
  mk_wires (E_scl (negb (state =? 0)) :: hist w) (now w).
Definition get_scl (w : wires) : bool := scl_out (hist w) && slave_scl (hist w).
Definition get_sda (w : wires) : wires * bool :=
  let b := sda_out (hist w) && slave_sda (hist w) in
  (mk_wires (E_sample b :: hist w) (now w), b).
Definition udelay (us : Z) (w : wires) : wires :=
  mk_wires (E_delay us :: hist w) (u32 (now w + late (hist w))).
(** [rt_thread_delay] and [rt_tick_get]. *)
Definition thread_delay (tick : Z) (w : wires) : wires :=
  mk_wires (E_sleep tick :: hist w) (u32 (now w + tick + late (hist w))).

End Lines.
End Wire.

Module I2c.
Import Wire.

Definition RT_I2C_WR : Z := 0.
Definition RT_I2C_RD : Z := 1.
Definition RT_I2C_ADDR_10BIT : Z := 4.
Definition RT_I2C_NO_START : Z := 16.
Definition RT_I2C_IGNORE_NACK : Z := 32.
Definition RT_I2C_NO_READ_ACK : Z := 64.

Definition has (x bits : Z) : bool := negb (Z.land x bits =? 0).

(** [struct rt_i2c_bit_ops]: [reads_scl] says that [get_scl] is there. *)
Record rt_i2c_bit_ops : Type := mk_bit_ops {
  delay_us : Z;
  timeout : Z;
  reads_scl : bool
}.

(** [stm32_bit_ops_default]. *)
Definition stm32_bit_ops_default : rt_i2c_bit_ops := mk_bit_ops 1 100 true.

Record rt_i2c_msg : Type := mk_msg {
  addr : Z;
  flags : Z;
  len : Z;
  buf : list Z
}.

Section Master.
Context `{Slave} (ops : rt_i2c_bit_ops) (retries : Z).

Definition i2c_delay (w : wires) : wires := udelay (Z.shiftr (delay_us ops + 1) 1) w.
Definition i2c_delay2 (w : wires) : wires := udelay (delay_us ops) w.
Definition SDA_L (w : wires) : wires := set_sda 0 w.
Definition SDA_H (w : wires) : wires := set_sda 1 w.
Definition SCL_L (w : wires) : wires := set_scl 0 w.

(** [while (!GET_SCL (ops))]; the flag says that the line came up. *)
Definition scl_wait (start : Z) (w : wires) : result (wires + (wires * bool)) :=
  if get_scl w then Ok (inr (w, true)) else
  if timeout ops <? u32 (now w - start) then Ok (inr (w, false)) else
  Ok (inl (thread_delay (Z.shiftr (timeout ops + 1) 1) w)).

Definition SCL_H (w : wires) : result (wires * Z) :=
  let w := set_scl 1 w in
  if negb (reads_scl ops) then Ok (i2c_delay w, RT_EOK) else
  r ← iterate (Z.to_nat (timeout ops + 3)) (scl_wait (now w)) w;
  let '(w, up) := r in
  if (up : bool) then Ok (i2c_delay w, RT_EOK) else Ok (w, - RT_ETIMEOUT).

Definition i2c_start (w : wires) : wires := SCL_L (i2c_delay (SDA_L w)).

Definition i2c_restart (w : wires) : result wires :=
  r ← SCL_H (SDA_H w);
  Ok (SCL_L (i2c_delay (SDA_L (i2c_delay r.1)))).

Definition i2c_stop (w : wires) : result wires :=
  r ← SCL_H (i2c_delay (SDA_L w));
  Ok (i2c_delay2 (SDA_H (i2c_delay r.1))).

Definition i2c_waitack (w : wires) : result (wires * Z) :=
  r ← SCL_H (i2c_delay (SDA_H w));
  let '(w, e) := r in
  if e <? 0 then Ok (w, - RT_ETIMEOUT) else
  let '(w, sda) := get_sda w in
  let ack := if sda : bool then 0 else 1 in
  Ok (SCL_L w, ack).

(** The eight bits; [i] counts the bits that are left. *)
Fixpoint writeb_bits (i : nat) (data : Z) (w : wires) : result (wires * Z) :=
  match i with
  | O => Ok (w, RT_EOK)
  | S k =>
      let w := SCL_L w in
      let bit := Z.land (Z.shiftr data (Z.of_nat k)) 1 in
      r ← SCL_H (i2c_delay (set_sda bit w));
      let '(w, e) := r in
      if e <? 0 then Ok (w, - RT_ETIMEOUT) else writeb_bits k data w
  end.

Definition i2c_writeb (data : Z) (w : wires) : result (wires * Z) :=
  r ← writeb_bits 8 data w;
  let '(w, e) := r in
  if e <? 0 then Ok (w, - RT_ETIMEOUT) else i2c_waitack (i2c_delay (SCL_L w)).

Fixpoint readb_bits (i : nat) (data : Z) (w : wires) : result (wires * Z) :=
  match i with
  | O => Ok (w, data)
  | S k =>
      let data := u8 (Z.shiftl data 1) in
      r ← SCL_H w;
      let '(w, e) := r in
      if e <? 0 then Ok (w, - RT_ETIMEOUT) else
      let '(w, sda) := get_sda w in
      let data := if sda : bool then Z.lor data 1 else data in
      readb_bits k data (i2c_delay2 (SCL_L w))
  end.

Definition i2c_readb (w : wires) : result (wires * Z) := readb_bits 8 0 (i2c_delay (SDA_H w)).

(** [ptr] is the part of the buffer from the pointer on; [rt_size_t] results
    are given as the [rt_int32_t] that the caller assigns them to. *)
Fixpoint send_bytes (count : nat) (ptr : list Z) (ignore_nack : bool) (bytes : Z) (w : wires)
  : result (wires * Z) :=
  match count with
  | O => Ok (w, bytes)
  | S n =>
      d ← deref (head ptr);
      r ← i2c_writeb d w;
      let '(w, ret) := r in
      if (0 <? ret) || (ignore_nack && (ret =? 0)) then send_bytes n (tail ptr) ignore_nack (bytes + 1) w
      else if ret =? 0 then Ok (w, 0) else Ok (w, ret)
  end.

Definition i2c_send_bytes (msg : rt_i2c_msg) (w : wires) : result (wires * Z) :=
  send_bytes (Z.to_nat (len msg)) (buf msg) (has (flags msg) RT_I2C_IGNORE_NACK) 0 w.

Definition i2c_send_ack_or_nack (ack : bool) (w : wires) : result (wires * Z) :=
  let w := if ack then set_sda 0 w else w in
  r ← SCL_H (i2c_delay w);
  let '(w, e) := r in
  if e <? 0 then Ok (w, - RT_ETIMEOUT) else Ok (SCL_L w, RT_EOK).

(** The result has the buffer as it is then. *)
Fixpoint recv_bytes (count : nat) (buffer : list Z) (i : Z) (flags : Z) (w : wires)
  : result (wires * list Z * Z) :=
  match count with
  | O => Ok (w, buffer, i)
  | S n =>
      r ← i2c_readb w;
      let '(w, val) := r in
      if val <? 0 then Ok (w, buffer, i) else
      buffer ← zset buffer i val;
      if negb (has flags RT_I2C_NO_READ_ACK) then
        r ← i2c_send_ack_or_nack (negb (Nat.eqb n 0)) w;
        let '(w, val) := r in
        if val <? 0 then Ok (w, buffer, val) else recv_bytes n buffer (i + 1) flags w
      else recv_bytes n buffer (i + 1) flags w
  end.

Definition i2c_recv_bytes (msg : rt_i2c_msg) (w : wires) : result (wires * list Z * Z) :=
  recv_bytes (Z.to_nat (len msg)) (buf msg) 0 (flags msg) w.

(** [n] retries are left. *)
Fixpoint send_address (n : nat) (a : Z) (w : wires) : result (wires * Z) :=
  r ← i2c_writeb a w;
  let '(w, ret) := r in
  match n with
  | O => Ok (w, ret)
  | S m =>
      if ret =? 1 then Ok (w, ret) else
      w ← i2c_stop w;
      send_address m a (i2c_start (i2c_delay2 w))
  end.

Definition i2c_send_address (a tries : Z) (w : wires) : result (wires * Z) :=
  if tries <? 0 then Ok (w, 0) else send_address (Z.to_nat tries) a w.

Definition i2c_bit_send_address (msg : rt_i2c_msg) (w : wires) : result (wires * Z) :=
  let ignore_nack := has (flags msg) RT_I2C_IGNORE_NACK in
  let tries := if ignore_nack then 0 else retries in
  if has (flags msg) RT_I2C_ADDR_10BIT then
    let addr1 := Z.lor 240 (Z.land (Z.shiftr (addr msg) 7) 6) in
    let addr2 := Z.land (addr msg) 255 in
    r ← i2c_send_address addr1 tries w;
    let '(w, ret) := r in
    if negb (ret =? 1) && negb ignore_nack then Ok (w, - RT_EIO) else
    r ← i2c_writeb addr2 w;
    let '(w, ret) := r in
    if negb (ret =? 1) && negb ignore_nack then Ok (w, - RT_EIO) else
    if has (flags msg) RT_I2C_RD then
      w ← i2c_restart w;
      r ← i2c_send_address (Z.lor addr1 1) tries w;
      let '(w, ret) := r in
      if negb (ret =? 1) && negb ignore_nack then Ok (w, - RT_EIO) else Ok (w, RT_EOK)
    else Ok (w, RT_EOK)
  else
    let addr1 := u8 (Z.shiftl (addr msg) 1) in
    let addr1 := if has (flags msg) RT_I2C_RD then Z.lor addr1 1 else addr1 in
    r ← i2c_send_address addr1 tries w;
    let '(w, ret) := r in
    if negb (ret =? 1) && negb ignore_nack then Ok (w, - RT_EIO) else Ok (w, RT_EOK).

(** One message; [inl] goes on with the next one, [inr] is [goto out]. *)
Definition xfer_address (i : Z) (msg : rt_i2c_msg) (w : wires) : result (wires + (wires * Z)) :=
  if negb (has (flags msg) RT_I2C_NO_START) then
    w ← (if negb (i =? 0) then i2c_restart w else Ok w);
    r ← i2c_bit_send_address msg w;
    let '(w, ret) := r in
    if negb (ret =? RT_EOK) && negb (has (flags msg) RT_I2C_IGNORE_NACK)
    then Ok (inr (w, ret)) else Ok (inl w)
  else Ok (inl w).

Definition xfer_data (msg : rt_i2c_msg) (w : wires)
  : result (wires * rt_i2c_msg * option Z) :=
  if has (flags msg) RT_I2C_RD then
    r ← i2c_recv_bytes msg w;
    let '(w, b, ret) := r in
    let msg' := mk_msg (addr msg) (flags msg) (len msg) b in
    if ret <? len msg then Ok (w, msg', Some (if 0 <=? ret then - RT_EIO else ret))
    else Ok (w, msg', None)
  else
    r ← i2c_send_bytes msg w;
    let '(w, ret) := r in
    if ret <? len msg then Ok (w, msg, Some (if 0 <=? ret then - RT_ERROR else ret))
    else Ok (w, msg, None).

Fixpoint xfer_msgs (msgs : list rt_i2c_msg) (i : Z) (w : wires)
  : result (wires * list rt_i2c_msg * Z) :=
  match msgs with
  | [] => Ok (w, [], i)
  | msg :: rest =>
      r ← xfer_address i msg w;
      match r with
      | inr (w, ret) => Ok (w, msg :: rest, ret)
      | inl w =>
          r ← xfer_data msg w;
          let '(w, msg, out) := r in
          match out with
          | Some ret => Ok (w, msg :: rest, ret)
          | None =>
              r ← xfer_msgs rest (i + 1) w;
              let '(w, rest, ret) := r in Ok (w, msg :: rest, ret)
          end
      end
  end.

Definition i2c_bit_xfer (msgs : list rt_i2c_msg) (w : wires) : result (wires * list rt_i2c_msg * Z) :=
  r ← xfer_msgs msgs 0 (i2c_start w);
  let '(w, msgs, ret) := r in
  w ← i2c_stop w;
  Ok (w, msgs, ret).

End Master.
End I2c.

(** ** What the lines say *)
Module Decode.
Import Wire I2c.

(** The symbols of the I2C bus: a data bit is the level of SDA during a high
    phase of SCL in which SDA does not change; a falling SDA in it is a start,
    a rising one a stop. *)
Inductive sym : Type := Start | Stop | Bit (b : bool).

(** The levels, the bit of the current high phase, the symbols so far. *)
Record dec : Type := mk_dec {
  d_scl : bool;
  d_sda : bool;
  d_pend : option bool;
  d_out : list sym
}.

(** An observer sees the lines go to the levels [scl'] and [sda']. *)
Definition dstep (scl' sda' : bool) (d : dec) : dec :=
  let '(mk_dec scl sda pend out) := d in
  if scl then
    if scl' then
      if sda && negb sda' then mk_dec true false None (out ++ [Start])
      else if negb sda && sda' then mk_dec true true None (out ++ [Stop])
      else mk_dec true sda' pend out
    else mk_dec false sda' None (out ++ match pend with Some b => [Bit b] | None => [] end)
  else if scl' then mk_dec true sda' (Some sda') out
  else mk_dec false sda' None out.

(** Where in a transfer with 7-bit addresses the bus is: bit [p] of the
    address byte or of a data byte, 8 for the acknowledgement; [Off] after a
    stop or a byte that was not acknowledged. *)
Inductive phase : Type :=
  | Off
  | Addr (p : nat) (rd : bool)
  | Data (rd : bool) (p : nat).

Definition pstep (ph : phase) (s : sym) : phase :=
  match s, ph with
  | Start, _ => Addr 0 false
  | Stop, _ | _, Off => Off
  | Bit b, Addr p rd => if (p =? 8)%nat then if b then Off else Data rd 0 else Addr (S p) b
  | Bit b, Data rd p => if (p =? 8)%nat then if b then Off else Data rd 0 else Data rd (S p)
  end.

Definition phase_of (out : list sym) : phase := fold_left pstep out Off.

(** The bit belongs to the slave: it acknowledges the address and the bytes
    written, and sends the bytes read. *)
Definition slave_turn (ph : phase) : bool :=
  match ph with
  | Off => false
  | Addr p _ => (p =? 8)%nat
  | Data rd p => if rd then negb (p =? 8)%nat else (p =? 8)%nat
  end.

(** The bits of a byte, most significant first. *)
Fixpoint bits (n : nat) (v : Z) : list sym :=
  match n with O => [] | S k => Bit (Z.testbit v (Z.of_nat k)) :: bits k v end.

(** A byte that the slave acknowledged, and the bytes of a read, all
    acknowledged by the master but the last. *)
Definition frame (v : Z) : list sym := bits 8 v ++ [Bit false].

Fixpoint read_frames (vs : list Z) : list sym :=
  match vs with
  | [] => []
  | v :: vs => bits 8 v ++ [Bit (match vs with [] => true | _ => false end)] ++ read_frames vs
  end.

Definition address_byte (m : rt_i2c_msg) : Z :=
  let a := u8 (Z.shiftl (addr m) 1) in if has (flags m) RT_I2C_RD then Z.lor a 1 else a.

(** A whole transfer of messages, from its [i]-th message on. *)
Fixpoint transcript (i : Z) (msgs : list rt_i2c_msg) : list sym :=
  match msgs with
  | [] => []
  | m :: ms =>
      (if has (flags m) RT_I2C_NO_START then []
       else (if i =? 0 then [] else [Start]) ++ frame (address_byte m)) ++
      (let data := take (Z.to_nat (len m)) (buf m) in
       if has (flags m) RT_I2C_RD then read_frames data else concat (map frame data)) ++
      transcript (i + 1) ms
  end.

(** A message with a 7-bit address, acknowledged in the usual way, whose
    data lies in its buffer; a read reads something. *)
Definition plain (m : rt_i2c_msg) : Prop :=
  has (flags m) RT_I2C_ADDR_10BIT = false /\ has (flags m) RT_I2C_IGNORE_NACK = false /\
  has (flags m) RT_I2C_NO_READ_ACK = false /\ 0 <= len m <= zlen (buf m) /\
  (has (flags m) RT_I2C_RD = true -> 0 < len m).

(** A message without a start goes on in the direction of the one before. *)
Fixpoint directed (rd : option bool) (msgs : list rt_i2c_msg) : Prop :=
  match msgs with
  | [] => True
  | m :: ms =>
      (has (flags m) RT_I2C_NO_START = true -> rd = Some (has (flags m) RT_I2C_RD)) /\
      directed (Some (has (flags m) RT_I2C_RD)) ms
  end.

(** The message after the transfer: a read has filled its buffer. *)
Definition same_msg (m m' : rt_i2c_msg) : Prop :=
  addr m' = addr m /\ flags m' = flags m /\ len m' = len m /\
  (has (flags m) RT_I2C_RD = false -> buf m' = buf m).

(** *** The lines *)
Section Lines.
Context `{Slave}.

(** The levels of the lines: low if either side pulls. *)
Definition scl_level (h : list event) : bool := scl_out h && slave_scl h.
Definition sda_level (h : list event) : bool := sda_out h && slave_sda h.

Fixpoint decode (h : list event) : dec :=
  match h with
  | [] => mk_dec (scl_level []) (sda_level []) None []
  | e :: h' => dstep (scl_level (e :: h')) (sda_level (e :: h')) (decode h')
  end.

Definition bus (w : wires) : dec := decode (hist w).

(** The slave keeps to the protocol when the master has done [e]: it does not
    pull SCL down while it is high, it does not change SDA while SCL is high,
    it holds SDA low in a high phase only if the bit is its own, and it is not
    holding SCL when the master changes SDA with SCL released, that is for a
    start or a stop (i2c_restart and i2c_stop do not look whether SCL came
    up). *)
Definition polite_step (e : event) (h : list event) : bool :=
  implb (scl_level h && scl_out (e :: h)) (slave_scl (e :: h)) &&
  implb (scl_level h && scl_level (e :: h)) (Bool.eqb (slave_sda (e :: h)) (slave_sda h)) &&
  implb (scl_level (e :: h) && negb (slave_sda (e :: h))) (slave_turn (phase_of (d_out (decode (e :: h))))) &&
  match e with E_sda _ => implb (scl_out h) (slave_scl h) | _ => true end.

(** It did so all the time. *)
Fixpoint polite (h : list event) : bool :=
  match h with [] => true | e :: h' => polite_step e h' && polite h' end.

Lemma decode_levels h : d_scl (decode h) = scl_level h /\ d_sda (decode h) = sda_level h.
Proof.
  destruct h as [|e h]; [done|]. cbn [decode]. destruct (decode h) as [[] [] p o]; cbn [dstep];
    destruct (scl_level _), (sda_level _); by split.
Qed.

Lemma decode_low h : scl_level h = false -> d_pend (decode h) = None.
Proof.
  destruct h as [|e h]; [done|]. cbn [decode]. intros ->. destruct (decode h) as [[] [] p o]; by cbn.
Qed.

Lemma decode_eq h : decode h = mk_dec (scl_level h) (sda_level h) (d_pend (decode h)) (d_out (decode h)).
Proof. destruct (decode_levels h) as [<- <-]. by destruct (decode h). Qed.

Lemma polite_suffix h h' : h `suffix_of` h' -> polite h' = true -> polite h = true.
Proof.
  intros [k ->]. induction k as [|e k IH]; [done|]. cbn [app polite]. intros [_ ?]%andb_true_iff. by apply IH.
Qed.

Section Step.
Context (e : event) (h : list event) (Hp : polite (e :: h) = true).

Lemma polite_facts :
  (scl_level h = true -> scl_out (e :: h) = true -> slave_scl (e :: h) = true) /\
  (scl_level h = true -> scl_level (e :: h) = true -> slave_sda (e :: h) = slave_sda h) /\
  (scl_level (e :: h) = true -> slave_sda (e :: h) = false ->
     slave_turn (phase_of (d_out (decode (e :: h)))) = true).
Proof.
  cbn [polite] in Hp. unfold polite_step in Hp.
  apply andb_true_iff in Hp as [[[[H1 H2]%andb_true_iff H3]%andb_true_iff _]%andb_true_iff _].
  split_and!.
  - intros E1 E2. rewrite E1, E2 in H1. exact H1.
  - intros E1 E2. rewrite E1, E2 in H2. by apply eqb_prop.
  - intros E1 E2. rewrite E1, E2 in H3. exact H3.
Qed.

(** While SCL is high and stays released, the slave changes nothing. *)
Lemma high_stays : scl_level h = true -> scl_out (e :: h) = true ->
  scl_level (e :: h) = true /\ slave_sda (e :: h) = slave_sda h.
Proof.
  intros E1 E2. destruct polite_facts as (H1 & H2 & _).
  assert (E : scl_level (e :: h) = true) by (unfold scl_level; by rewrite E2, H1).
  split; [done|]. by apply H2.
Qed.

End Step.

(** A condition of the master finds SCL high. *)
Lemma polite_sda b h : polite (E_sda b :: h) = true -> scl_out h = true -> scl_level h = true.
Proof.
  cbn [polite]. unfold polite_step. intros [[_ H4]%andb_true_iff _]%andb_true_iff E.
  unfold scl_level. rewrite E in *. exact H4.
Qed.

(** In a high phase that is not its own the slave has released SDA. *)
Lemma polite_sda_free h : polite h = true -> scl_level h = true -> h <> [] ->
  slave_turn (phase_of (d_out (decode h))) = false -> slave_sda h = true.
Proof.
  destruct h as [|e h]; [done|]. intros Hp Hs _ Ht. destruct (polite_facts e h Hp) as (_ & _ & H3).
  destruct (slave_sda (e :: h)); [done|]. by rewrite H3 in Ht.
Qed.

(** The master pulls SCL; it has released it (it may still be low), [s] is
    its SDA; the lines after a start or a stop. *)
Definition low (s : bool) (out : list sym) (h : list event) : Prop :=
  scl_out h = false /\ sda_out h = s /\ d_out (decode h) = out.
Definition up (s : bool) (out : list sym) (h : list event) : Prop :=
  h <> [] /\ scl_out h = true /\ sda_out h = s /\ d_out (decode h) = out /\
  (scl_level h = true -> d_pend (decode h) = Some (sda_level h)).
Definition cond (s : bool) (out : list sym) (h : list event) : Prop :=
  scl_level h = true /\ sda_out h = s /\ slave_sda h = true /\ d_out (decode h) = out /\ d_pend (decode h) = None.

Lemma scl_low h : scl_out h = false -> scl_level h = false.
Proof. unfold scl_level. by intros ->. Qed.
Lemma scl_high h : scl_level h = true -> scl_out h = true.
Proof. unfold scl_level. by intros [? _]%andb_true_iff. Qed.

Lemma low_step e s s' out h : low s out h -> scl_out (e :: h) = false -> sda_out (e :: h) = s' ->
  low s' out (e :: h).
Proof.
  intros (Hc & _ & Ho) Hc' Hd'. split_and!; try done. cbn [decode].
  rewrite (decode_eq h), (scl_low _ Hc), (scl_low _ Hc'). exact Ho.
Qed.

Lemma low_rise s out h : low s out h -> up s out (E_scl true :: h).
Proof.
  intros (Hc & Hd & Ho). split_and!; try done; cbn [decode]; rewrite (decode_eq h), (scl_low _ Hc);
    destruct (scl_level (E_scl true :: h)); try done; by intros _.
Qed.

Lemma up_quiet e s out h : polite (e :: h) = true -> up s out h ->
  scl_out (e :: h) = scl_out h -> sda_out (e :: h) = sda_out h -> up s out (e :: h).
Proof.
  intros Hp (_ & Hc & Hd & Ho & Hpd) Ec Ed. rewrite Hc in Ec. rewrite Hd in Ed. split_and!; try done.
  - cbn [decode]. rewrite (decode_eq h). destruct (scl_level h) eqn:El; cbn [dstep].
    + destruct (high_stays e h Hp El Ec) as [-> Es]. unfold sda_level. rewrite Ed, Hd, Es.
      by destruct s, (slave_sda h).
    + by destruct (scl_level (e :: h)).
  - intros El'. cbn [decode]. rewrite El', (decode_eq h). destruct (scl_level h) eqn:El; cbn [dstep]; [|done].
    destruct (high_stays e h Hp El Ec) as [_ Es]. rewrite (Hpd eq_refl).
    unfold sda_level. rewrite Ed, Hd, Es. by destruct s, (slave_sda h).
Qed.

Lemma up_fall s out h : up s out h -> scl_level h = true ->
  low s (out ++ [Bit (sda_level h)]) (E_scl false :: h).
Proof.
  intros (_ & Hc & Hd & Ho & Hpd) El. split_and!; try done. cbn [decode].
  rewrite (decode_eq h), El, (Hpd El), (scl_low (E_scl false :: h)) by done. cbn. by rewrite Ho.
Qed.

(** A start, from an idle bus and within a transfer, and a stop. *)
Lemma idle_start out h : polite (E_sda false :: h) = true -> scl_level h = true -> sda_level h = true ->
  d_out (decode h) = out -> cond false (out ++ [Start]) (E_sda false :: h).
Proof.
  intros Hp El Es Ho. destruct (high_stays _ _ Hp El (scl_high _ El)) as [El' Es'].
  assert (slave_sda h = true) as Hs by (by apply andb_true_iff in Es as [_ ?]).
  unfold cond. rewrite Es', El'. cbn [decode]. rewrite (decode_eq h), El, El', Es. cbn. by rewrite Ho.
Qed.

Lemma up_start out h : polite (E_sda false :: h) = true -> up true out h ->
  slave_turn (phase_of out) = false -> cond false (out ++ [Start]) (E_sda false :: h).
Proof.
  intros Hp (Hne & Hc & Hd & Ho & Hpd) Ht. pose proof (polite_sda _ _ Hp Hc) as El.
  apply idle_start; try done. unfold sda_level. rewrite Hd. cbn [andb].
  apply polite_sda_free; [|done..|by rewrite Ho]. eapply polite_suffix; [|exact Hp]. by apply suffix_cons_r.
Qed.

Lemma up_stop out h : polite (E_sda true :: h) = true -> up false out h ->
  slave_turn (phase_of out) = false -> cond true (out ++ [Stop]) (E_sda true :: h).
Proof.
  intros Hp (Hne & Hc & Hd & Ho & Hpd) Ht. pose proof (polite_sda _ _ Hp Hc) as El.
  destruct (high_stays _ _ Hp El Hc) as [El' Es'].
  assert (Hs : slave_sda h = true).
  { apply polite_sda_free; [|done..|by rewrite Ho]. eapply polite_suffix; [|exact Hp]. by apply suffix_cons_r. }
  unfold cond. rewrite Es', El', Hs. cbn [decode]. rewrite (decode_eq h), El, El'. unfold sda_level.
  rewrite Hd. cbn [sda_out]. rewrite Es', Hs. cbn. by rewrite Ho.
Qed.

Lemma cond_quiet e s out h : polite (e :: h) = true -> cond s out h ->
  scl_out (e :: h) = scl_out h -> sda_out (e :: h) = sda_out h -> cond s out (e :: h).
Proof.
  intros Hp (El & Hd & Hs & Ho & Hpd) Ec Ed. rewrite (scl_high _ El) in Ec. rewrite Hd in Ed.
  destruct (high_stays e h Hp El Ec) as [El' Es']. unfold cond. rewrite El', Es', Hs, Ed.
  cbn [decode]. rewrite (decode_eq h), El, El'. unfold sda_level. rewrite Ed, Hd, Es', Hs, Hpd, Ho. by destruct s.
Qed.

Lemma cond_fall s out h : cond s out h -> low s out (E_scl false :: h).
Proof.
  intros (El & Hd & Hs & Ho & Hpd). split_and!; try done. cbn [decode].
  rewrite (decode_eq h), El, Hpd, (scl_low (E_scl false :: h)) by done. cbn. by rewrite app_nil_r.
Qed.

End Lines.

(** *** The histories of the master's calls *)

(** The call adds to the history of [w]; [f] finds the lines in its result. *)
Definition grows {A} (f : A -> wires) (w : wires) (m : result A) : Prop :=
  forall a, m = Ok a -> hist w `suffix_of` hist (f a).

Lemma grows_Ok {A} (f : A -> wires) w a : hist w `suffix_of` hist (f a) -> grows f w (Ok a).
Proof. by intros ? ? [= <-]. Qed.

Lemma grows_trans {A} (f : A -> wires) w w1 m :
  hist w `suffix_of` hist w1 -> grows f w1 m -> grows f w m.
Proof. intros Hw Hm a E. etrans; [exact Hw|by apply Hm]. Qed.

Lemma grows_bind {A B} (f : A -> wires) (g : B -> wires) w w1 m k :
  hist w `suffix_of` hist w1 -> grows f w1 m ->
  (forall a, hist w `suffix_of` hist (f a) -> grows g w (k a)) -> grows g w (mbind k m).
Proof.
  intros Hw Hm Hk b (a & E1 & E2)%bind_Ok_inv. apply (Hk a); [|done]. etrans; [exact Hw|by apply Hm].
Qed.

Lemma grows_skip {A B} (g : B -> wires) w (m : result A) k :
  (forall a, grows g w (k a)) -> grows g w (mbind k m).
Proof. intros Hk b (a & _ & E)%bind_Ok_inv. by apply (Hk a). Qed.

Ltac suffix_tac :=
  unfold SCL_L, SDA_L, SDA_H, i2c_start, i2c_delay, i2c_delay2, set_sda, set_scl, udelay, thread_delay in *;
  cbn [hist fst snd] in *; repeat (assumption || reflexivity || apply suffix_cons_r).

(** Go through the calls of a function, with the lemmas of [grow] for them. *)
Create HintDb grow.
Ltac grow :=
  repeat match goal with
  | |- grows _ _ (mbind _ _) => eapply grows_bind; [| solve [eauto with grow] | intros ? ?]
  | |- grows _ _ (mbind _ (deref _)) => apply grows_skip; intros ?
  | |- grows _ _ (mbind _ (zset _ _ _)) => apply grows_skip; intros ?
  | |- grows _ _ (Ok _) => apply grows_Ok
  | |- grows _ _ (let '(_, _) := ?p in _) => destruct p
  | |- grows _ _ (if ?b then _ else _) => destruct b
  | |- grows _ _ (match ?o with Some _ => _ | None => _ end) => destruct o
  | |- grows _ _ _ => eapply grows_trans; [| solve [eauto with grow]]
  | |- suffix _ _ => suffix_tac
  end.

Section Grow.
Context `{Slave} (ops : rt_i2c_bit_ops) (retries : Z).

Lemma scl_wait_grows start fuel : forall w, grows fst w (iterate fuel (scl_wait ops start) w).
Proof.
  induction fuel as [|fuel IH]; intros w [w' b] E; [done|]. rewrite iterate_step in E.
  apply bind_Ok_inv in E as (r & Er & E). unfold scl_wait in Er.
  destruct (get_scl w); [injection Er as <-; by injection E as <- _|].
  destruct (_ <? _); [injection Er as <-; by injection E as <- _|].
  injection Er as <-. apply IH in E. etrans; [|exact E]. suffix_tac.
Qed.
#[local] Hint Resolve scl_wait_grows : grow.

Lemma SCL_H_grows w : grows fst w (SCL_H ops w).
Proof. unfold SCL_H. grow. Qed.
#[local] Hint Resolve SCL_H_grows : grow.
Lemma restart_grows w : grows id w (i2c_restart ops w).
Proof. unfold i2c_restart. grow. Qed.
Lemma stop_grows w : grows id w (i2c_stop ops w).
Proof. unfold i2c_stop. grow. Qed.
Lemma waitack_grows w : grows fst w (i2c_waitack ops w).
Proof. unfold i2c_waitack, get_sda. grow. Qed.
Lemma writeb_bits_grows k data : forall w, grows fst w (writeb_bits ops k data w).
Proof. induction k as [|k IH]; intros w; cbn [writeb_bits]; grow. Qed.
#[local] Hint Resolve restart_grows stop_grows waitack_grows writeb_bits_grows : grow.
Lemma writeb_grows data w : grows fst w (i2c_writeb ops data w).
Proof. unfold i2c_writeb. grow. Qed.
Lemma readb_bits_grows k : forall data w, grows fst w (readb_bits ops k data w).
Proof. induction k as [|k IH]; intros data w; cbn [readb_bits]; unfold get_sda; grow. Qed.
Lemma readb_grows w : grows fst w (i2c_readb ops w).
Proof. eapply grows_trans; [|apply readb_bits_grows]. suffix_tac. Qed.
Lemma ack_grows b w : grows fst w (i2c_send_ack_or_nack ops b w).
Proof. unfold i2c_send_ack_or_nack. destruct b; grow. Qed.
#[local] Hint Resolve writeb_grows readb_grows ack_grows : grow.
Lemma send_bytes_grows count : forall ptr ign n w, grows fst w (send_bytes ops count ptr ign n w).
Proof. induction count as [|count IH]; intros; cbn [send_bytes]; grow. Qed.
Lemma recv_bytes_grows count : forall buffer i fl w,
  grows (fun r => r.1.1) w (recv_bytes ops count buffer i fl w).
Proof. induction count as [|count IH]; intros; cbn [recv_bytes]; grow. Qed.
Lemma send_address_grows n a : forall w, grows fst w (send_address ops n a w).
Proof. induction n as [|n IH]; intros w; cbn [send_address]; grow. Qed.
#[local] Hint Resolve send_bytes_grows recv_bytes_grows send_address_grows : grow.
Lemma i2c_send_address_grows a n w : grows fst w (i2c_send_address ops a n w).
Proof. unfold i2c_send_address. grow. Qed.
#[local] Hint Resolve i2c_send_address_grows : grow.
Lemma bit_send_address_grows m w : grows fst w (i2c_bit_send_address ops retries m w).
Proof. unfold i2c_bit_send_address. grow. Qed.
#[local] Hint Resolve bit_send_address_grows : grow.

Definition address_wires (r : wires + (wires * Z)) : wires := match r with inl w => w | inr (w, _) => w end.

Lemma xfer_address_grows i m w : grows address_wires w (xfer_address ops retries i m w).
Proof. unfold xfer_address. destruct (negb (has _ _)); [destruct (negb (i =? 0)); red_bind|]; grow. Qed.
Lemma xfer_data_grows m w : grows (fun r => r.1.1) w (xfer_data ops m w).
Proof. unfold xfer_data, i2c_recv_bytes, i2c_send_bytes. grow. Qed.
#[local] Hint Resolve xfer_address_grows xfer_data_grows : grow.
Lemma xfer_msgs_grows msgs : forall i w, grows (fun r => r.1.1) w (xfer_msgs ops retries msgs i w).
Proof.
  induction msgs as [|m ms IH]; intros i w; cbn [xfer_msgs]; [grow|].
  eapply grows_bind; [|apply xfer_address_grows|]; [done|]. intros [w1|[w1 e]] Hw; cbn [address_wires] in Hw; grow.
Qed.
End Grow.

(** *** The steps of the master on the lines *)
Section Master.
Context `{Slave} (ops : rt_i2c_bit_ops) (reads : reads_scl ops = true).

(** [polite] of a part of the history. *)
Ltac polite_tac :=
  match goal with
  | P : polite ?h = true |- polite _ = true => apply (polite_suffix _ h); [solve [suffix_tac]|exact P]
  end.

Lemma scl_wait_up start fuel s out : forall w w' b, iterate fuel (scl_wait ops start) w = Ok (w', b) ->
  polite (hist w') = true -> up s out (hist w) ->
  up s out (hist w') /\ (b = true -> scl_level (hist w') = true).
Proof.
  induction fuel as [|fuel IH]; intros w w' b E Hp Hu; [done|]. rewrite iterate_step in E.
  apply bind_Ok_inv in E as (r & Er & E). unfold scl_wait in Er.
  destruct (get_scl w) eqn:Eg; [injection Er as <-; by injection E as <- <-|].
  destruct (_ <? _); [injection Er as <-; by injection E as <- <-|].
  injection Er as <-. apply (IH _ _ _ E Hp). apply up_quiet; [|done..].
  eapply polite_suffix; [exact (scl_wait_grows ops _ _ _ _ E)|done].
Qed.

Lemma SCL_H_up w w' e s out : SCL_H ops w = Ok (w', e) -> polite (hist w') = true ->
  low s out (hist w) ->
  up s out (hist w') /\ (e = 0 \/ e = -2) /\ (e = 0 -> scl_level (hist w') = true).
Proof.
  unfold SCL_H. rewrite reads. cbn [negb]. intros ([w1 b] & E1 & E)%bind_Ok_inv Hp Hl.
  assert (Hp1 : polite (hist w1) = true) by (destruct b; injection E as <- _; polite_tac).
  destruct (scl_wait_up _ _ s out _ _ _ E1 Hp1) as [Hu Hb]; [by apply low_rise|].
  destruct b; injection E as <- <-; [|by split_and!; [|right|]].
  specialize (Hb eq_refl). split_and!; [by apply up_quiet|by left|].
  intros _. destruct (high_stays _ _ Hp Hb (scl_high _ Hb)) as [Hh _]. exact Hh.
Qed.

(** SDA in a high phase that belongs to the master. *)
Lemma up_own s out h : polite h = true -> up s out h -> scl_level h = true ->
  slave_turn (phase_of out) = false -> sda_level h = s.
Proof.
  intros Hp (Hne & _ & Hd & Ho & _) El Ht. unfold sda_level. rewrite Hd.
  rewrite (polite_sda_free h Hp El Hne) by by rewrite Ho. apply andb_true_r.
Qed.

Lemma i2c_start_low w out : polite (hist (i2c_start ops w)) = true ->
  scl_level (hist w) = true -> sda_level (hist w) = true -> d_out (bus w) = out ->
  low false (out ++ [Start]) (hist (i2c_start ops w)).
Proof.
  intros Hp Hc Hd Ho. apply cond_fall, cond_quiet; [polite_tac| |done..]. apply idle_start; [polite_tac|done..].
Qed.

Lemma i2c_restart_low w w' s out : i2c_restart ops w = Ok w' -> polite (hist w') = true ->
  low s out (hist w) -> slave_turn (phase_of out) = false -> low false (out ++ [Start]) (hist w').
Proof.
  unfold i2c_restart. intros ([w1 e] & E1 & [= <-])%bind_Ok_inv Hp Hl Ht. cbn [fst] in *.
  destruct (SCL_H_up _ _ _ true out E1) as (Hu & _ & _);
    [polite_tac|by eapply low_step; [exact Hl|apply Hl|]|].
  apply cond_fall, cond_quiet; [polite_tac| |done..]. apply up_start; [polite_tac| |done].
  apply up_quiet; [polite_tac|done..].
Qed.

Lemma i2c_stop_cond w w' s out : i2c_stop ops w = Ok w' -> polite (hist w') = true ->
  low s out (hist w) -> slave_turn (phase_of out) = false -> cond true (out ++ [Stop]) (hist w').
Proof.
  unfold i2c_stop. intros ([w1 e] & E1 & [= <-])%bind_Ok_inv Hp Hl Ht. cbn [fst] in *.
  assert (Hl1 : low false out (hist (i2c_delay ops (SDA_L w)))).
  { eapply low_step; [eapply low_step; [exact Hl| |]| |]; by try apply Hl. }
  destruct (SCL_H_up _ _ _ false out E1) as (Hu & _ & _); [polite_tac|done|].
  apply cond_quiet; [polite_tac| |done..]. apply up_stop; [polite_tac| |done].
  apply up_quiet; [polite_tac|done..].
Qed.

Lemma bit_at v i : negb (Z.land (Z.shiftr v i) 1 =? 0) = Z.testbit v i.
Proof.
  rewrite Z.testbit_odd. change 1 with (Z.ones 1). rewrite Z.land_ones by lia.
  change (2 ^ 1) with 2. rewrite Zmod_odd. by destruct (Z.odd _).
Qed.

(** [k] bits of the byte are left, all of the master. *)
Definition sends (ph : phase) (k : nat) : Prop :=
  match ph with
  | Off => True
  | Addr p _ => (p + k = 8)%nat
  | Data rd p => rd = false /\ (p + k = 8)%nat
  end.

Lemma phase_of_app out l : phase_of (out ++ l) = fold_left pstep l (phase_of out).
Proof. apply fold_left_app. Qed.

Lemma sends_step ph k b : sends ph (S k) -> slave_turn ph = false /\ sends (pstep ph (Bit b)) k.
Proof.
  destruct ph as [|p rd|rd p]; cbn [sends slave_turn pstep]; [done| |].
  - intros Hk. rewrite (proj2 (Nat.eqb_neq p 8)) by lia. split; [done|]. cbn. lia.
  - intros [-> Hk]. rewrite (proj2 (Nat.eqb_neq p 8)) by lia. split; [done|]. cbn. split; [done|lia].
Qed.

(** A negative result is the time-out of SCL. *)
Lemma writeb_bits_low data k : forall w w' e s out, writeb_bits ops k data w = Ok (w', e) ->
  polite (hist w') = true -> low s out (E_scl false :: hist w) -> sends (phase_of out) k ->
  e < 0 \/ (e = 0 /\ exists s', low s' (out ++ bits k data) (E_scl false :: hist w')).
Proof.
  induction k as [|k IH]; intros w w' e s out E Hp Hl Hs; cbn [writeb_bits bits] in *.
  { injection E as <- <-. right. split; [done|]. exists s. by rewrite app_nil_r. }
  apply bind_Ok_inv in E as ([w1 e1] & E1 & E).
  assert (Hp1 : polite (hist w1) = true).
  { destruct (e1 <? 0); [by injection E as <- _|].
    eapply polite_suffix; [exact (writeb_bits_grows ops _ _ _ _ E)|done]. }
  rewrite <- (bit_at data (Z.of_nat k)). set (b := negb _).
  assert (Hl1 : low b out (hist (i2c_delay ops (set_sda (Z.land (Z.shiftr data (Z.of_nat k)) 1) (SCL_L w))))).
  { eapply low_step; [eapply low_step; [exact Hl| |]| |]; done. }
  destruct (SCL_H_up _ _ _ _ _ E1 Hp1 Hl1) as (Hu & He & Hh).
  destruct (Z.ltb_spec e1 0); [injection E as _ <-; by left|].
  destruct (sends_step _ _ b Hs) as [Ht Hs']. assert (Hh1 : scl_level (hist w1) = true) by (apply Hh; lia).
  pose proof (up_fall _ _ _ Hu Hh1) as Hf. rewrite (up_own b out (hist w1)) in Hf by done.
  destruct (IH _ _ _ _ _ E Hp Hf) as [?|[-> [s' Hl']]]; [by rewrite phase_of_app|by left|].
  right. split; [done|]. exists s'. by rewrite <- app_assoc in Hl'.
Qed.

(** A sample is the bit of the high phase. *)
Lemma sample_fall s out w (w' := SCL_L (get_sda w).1) : polite (hist w') = true -> up s out (hist w) ->
  scl_level (hist w) = true -> low s (out ++ [Bit (get_sda w).2]) (hist w').
Proof.
  intros Hp Hu Hh. assert (Hp1 : polite (hist (get_sda w).1) = true).
  { apply (polite_suffix _ (hist w')); [by apply suffix_cons_r|done]. }
  destruct (high_stays _ _ Hp1 Hh (scl_high _ Hh)) as [Hh1 Hd1].
  pose proof (up_fall s out (hist (get_sda w).1)) as Hf.
  assert (Es : sda_level (hist (get_sda w).1) = (get_sda w).2).
  { cbn [get_sda fst snd hist]. unfold sda_level. by rewrite Hd1. }
  rewrite Es in Hf. apply Hf; [|done]. by apply up_quiet.
Qed.

Lemma i2c_waitack_low w w' e s out : i2c_waitack ops w = Ok (w', e) -> polite (hist w') = true ->
  low s out (hist w) ->
  e < 0 \/ exists ack : bool, e = (if ack then 1 else 0) /\
    low true (out ++ [Bit (negb ack)]) (hist w') /\ (ack = true -> slave_turn (phase_of out) = true).
Proof.
  unfold i2c_waitack. intros ([w1 e1] & E1 & E)%bind_Ok_inv Hp Hl.
  assert (Hl1 : low true out (hist (i2c_delay ops (SDA_H w)))).
  { eapply low_step; [eapply low_step; [exact Hl| |]| |]; by try apply Hl. }
  destruct (Z.ltb_spec e1 0); [injection E as _ <-; by left|].
  destruct (get_sda w1) as [w2 b] eqn:Eg. injection E as <- <-.
  assert (Hp1 : polite (hist w1) = true).
  { unfold get_sda in Eg. injection Eg as <- _. polite_tac. }
  destruct (SCL_H_up _ _ _ _ _ E1 Hp1 Hl1) as (Hu & He & Hh).
  assert (Hh1 : scl_level (hist w1) = true) by (apply Hh; lia).
  pose proof (sample_fall true out w1) as Hf. rewrite Eg in Hf. specialize (Hf Hp Hu Hh1).
  right. exists (negb b). rewrite negb_involutive. split_and!; [by destruct b|exact Hf|].
  intros ->%negb_true_iff. destruct (slave_turn (phase_of out)) eqn:Et; [done|].
  injection Eg as _ Eb. change (sda_level (hist w1) = false) in Eb.
  rewrite (up_own true out (hist w1)) in Eb by done. done.
Qed.

Lemma i2c_writeb_low data w w' e s out : i2c_writeb ops data w = Ok (w', e) -> polite (hist w') = true ->
  low s out (hist w) -> sends (phase_of out) 8 ->
  e < 0 \/ exists ack : bool, e = (if ack then 1 else 0) /\
    low true (out ++ bits 8 data ++ [Bit (negb ack)]) (hist w') /\
    (ack = true -> slave_turn (phase_of (out ++ bits 8 data)) = true).
Proof.
  unfold i2c_writeb. intros ([w1 e1] & E1 & E)%bind_Ok_inv Hp Hl Hs.
  destruct (Z.ltb_spec e1 0); [injection E as _ <-; by left|].
  assert (Hg : hist (i2c_delay ops (SCL_L w1)) `suffix_of` hist w') by exact (waitack_grows ops _ _ E).
  apply (writeb_bits_low data 8 _ _ _ s out) in E1 as [?|[-> [s' Hl']]]; [lia| | |eapply low_step; [exact Hl|done|apply Hl]|done].
  2:{ eapply polite_suffix; [|exact Hp]. etrans; [|exact Hg]. suffix_tac. }
  destruct (i2c_waitack_low _ _ _ s' (out ++ bits 8 data) E Hp) as [?|(ack & -> & Hl2 & Ht)]; [|by left|].
  - eapply low_step; [exact Hl'|done|apply Hl'].
  - right. exists ack. by rewrite <- app_assoc in Hl2.
Qed.

(** The byte that eight sampled levels make. *)
Definition shift_in (data : Z) (b : bool) : Z :=
  let data := u8 (Z.shiftl data 1) in if b then Z.lor data 1 else data.

Lemma readb_bits_low k : forall data w w' v out, readb_bits ops k data w = Ok (w', v) ->
  polite (hist w') = true -> low true out (hist w) ->
  v < 0 \/ exists bs, length bs = k /\ v = fold_left shift_in bs data /\
    low true (out ++ map Bit bs) (hist w').
Proof.
  induction k as [|k IH]; intros data w w' v out E Hp Hl; cbn [readb_bits] in E.
  { injection E as <- <-. right. exists []. by rewrite app_nil_r. }
  apply bind_Ok_inv in E as ([w1 e1] & E1 & E).
  destruct (Z.ltb_spec e1 0); [injection E as _ <-; by left|].
  destruct (get_sda w1) as [w2 b] eqn:Eg.
  assert (Hp2 : polite (hist (i2c_delay2 ops (SCL_L w2))) = true).
  { eapply polite_suffix; [exact (readb_bits_grows ops _ _ _ _ E)|done]. }
  assert (Hp1 : polite (hist w1) = true).
  { unfold get_sda in Eg. injection Eg as <- _. polite_tac. }
  destruct (SCL_H_up _ _ _ _ _ E1 Hp1 Hl) as (Hu & He & Hh).
  assert (Hh1 : scl_level (hist w1) = true) by (apply Hh; lia).
  pose proof (sample_fall true out w1) as Hf. rewrite Eg in Hf. cbn [fst snd] in Hf.
  specialize (Hf ltac:(polite_tac) Hu Hh1).
  apply (IH _ _ _ _ (out ++ [Bit b])) in E as [?|(bs & Hk & -> & Hl')]; [by left| |done|].
  - right. exists (b :: bs). split; [by cbn; f_equal|]. split; [done|]. by rewrite <- app_assoc in Hl'.
  - eapply low_step; [exact Hf|done|apply Hf].
Qed.

Lemma bits_shift_in bs : length bs = 8%nat ->
  bits 8 (fold_left shift_in bs 0) = map Bit bs /\ 0 <= fold_left shift_in bs 0 < 256.
Proof.
  intros H8. do 8 (destruct bs as [|? bs]; [done|]). destruct bs; [|done].
  repeat match goal with b : bool |- _ => destruct b end; by (split; [reflexivity|split]).
Qed.

Lemma i2c_readb_low w w' v s out : i2c_readb ops w = Ok (w', v) -> polite (hist w') = true ->
  low s out (hist w) -> v < 0 \/ (0 <= v < 256 /\ low true (out ++ bits 8 v) (hist w')).
Proof.
  intros E Hp Hl. unfold i2c_readb in E. apply (readb_bits_low 8 _ _ _ _ out) in E; [|done|].
  - destruct E as [?|(bs & Hk & -> & Hl')]; [by left|]. right.
    destruct (bits_shift_in bs Hk) as [-> ?]. done.
  - eapply low_step; [eapply low_step; [exact Hl| |]| |]; by try apply Hl.
Qed.

Lemma ack_low (more : bool) w w' e out : i2c_send_ack_or_nack ops more w = Ok (w', e) ->
  polite (hist w') = true -> low true out (hist w) -> slave_turn (phase_of out) = false ->
  e < 0 \/ (e = 0 /\ low (negb more) (out ++ [Bit (negb more)]) (hist w')).
Proof.
  unfold i2c_send_ack_or_nack. intros ([w1 e1] & E1 & E)%bind_Ok_inv Hp Hl Ht.
  destruct (Z.ltb_spec e1 0); injection E as <- <-; [by left|]. right. split; [done|].
  assert (Hl1 : low (negb more) out (hist (i2c_delay ops (if more then set_sda 0 w else w)))).
  { destruct more; [eapply low_step; [eapply low_step; [exact Hl| |]| |]|eapply low_step; [exact Hl| |]];
      by try apply Hl. }
  destruct (SCL_H_up _ _ _ _ _ E1 ltac:(polite_tac) Hl1) as (Hu & He & Hh).
  assert (Hh1 : scl_level (hist w1) = true) by (apply Hh; lia).
  pose proof (up_fall _ _ _ Hu Hh1) as Hf. rewrite (up_own (negb more) out (hist w1)) in Hf; [done|polite_tac|done..].
Qed.

(** *** The phases of a transfer *)

(** What follows the address byte of a message, or a message, in its
    direction. *)
Definition ready (rd : bool) (ph : phase) : Prop :=
  if rd then ph = Data true 0 \/ ph = Off else ph = Data false 0.

Lemma frame_phase out v : (exists r, phase_of out = Addr 0 r) \/ phase_of out = Data false 0 ->
  phase_of (out ++ frame v) =
    Data (match phase_of out with Addr _ _ => Z.testbit v 0 | _ => false end) 0.
Proof. rewrite phase_of_app. by intros [[r ->] | ->]. Qed.

Lemma frame_sends out : (exists r, phase_of out = Addr 0 r) \/ phase_of out = Data false 0 ->
  sends (phase_of out) 8.
Proof. by intros [[r ->] | ->]; cbn. Qed.

Lemma read_turn out v : ready true (phase_of out) -> slave_turn (phase_of (out ++ bits 8 v)) = false.
Proof. rewrite phase_of_app. by intros [-> | ->]. Qed.

Lemma read_phase out v b : ready true (phase_of out) ->
  phase_of (out ++ bits 8 v ++ [Bit b]) = match phase_of out with Off => Off | _ => if b then Off else Data true 0 end.
Proof. rewrite phase_of_app. by intros [-> | ->]; destruct b. Qed.

Lemma read_frames_phase vs : forall out, vs <> [] -> ready true (phase_of out) ->
  phase_of (out ++ read_frames vs) = Off.
Proof.
  induction vs as [|v vs IH]; intros out Hne Hr; [done|]. cbn [read_frames]. rewrite !app_assoc.
  rewrite <- (app_assoc out). destruct vs as [|v' vs].
  - rewrite app_nil_r, read_phase by done. by destruct Hr as [-> | ->].
  - apply IH; [done|]. rewrite read_phase by done. by destruct Hr as [-> | ->]; [left|right].
Qed.

Lemma write_frames_phase vs : forall out, phase_of out = Data false 0 ->
  phase_of (out ++ concat (map frame vs)) = Data false 0.
Proof.
  induction vs as [|v vs IH]; intros out Ho; cbn [map concat]; [by rewrite app_nil_r|].
  rewrite app_assoc. apply IH. rewrite frame_phase by by right. by rewrite Ho.
Qed.

(** *** The messages *)

Lemma send_bytes_low count : forall ptr n w w' ret s out, send_bytes ops count ptr false n w = Ok (w', ret) ->
  polite (hist w') = true -> low s out (hist w) -> 0 <= n -> phase_of out = Data false 0 ->
  ret < n + Z.of_nat count \/
  (ret = n + Z.of_nat count /\ exists s', low s' (out ++ concat (map frame (take count ptr))) (hist w')).
Proof.
  induction count as [|count IH]; intros ptr n w w' ret s out E Hp Hl Hn Hph; cbn [send_bytes] in E.
  { injection E as <- <-. right. split; [lia|]. exists s. cbn. by rewrite app_nil_r. }
  apply bind_Ok_inv in E as (d & Hd & E). destruct ptr as [|d' ptr]; [done|]. injection Hd as ->.
  apply bind_Ok_inv in E as ([w1 e1] & E1 & E).
  assert (Hp1 : polite (hist w1) = true).
  { eapply polite_suffix; [|exact Hp]. revert E. destruct (_ || _).
    - intros E. exact (send_bytes_grows ops _ _ _ _ _ _ E).
    - destruct (e1 =? 0); by intros [= <- _]. }
  destruct (i2c_writeb_low d w w1 e1 s out E1 Hp1 Hl (frame_sends _ (or_intror Hph))) as [He|(ack & -> & Hl1 & _)].
  { rewrite (proj2 (Z.ltb_ge _ _)) in E by lia. cbn [orb andb] in E.
    rewrite (proj2 (Z.eqb_neq _ _)) in E by lia. injection E as <- <-. left. lia. }
  destruct ack; cbn in E.
  2:{ injection E as <- <-. left. lia. }
  apply (IH _ _ _ _ _ true (out ++ frame d)) in E as [?|[-> [s' Hs]]]; [left; lia| |done|done|lia|].
  - right. split; [lia|]. exists s'. by rewrite <- app_assoc in Hs.
  - rewrite frame_phase by by right. by rewrite Hph.
Qed.

Lemma recv_bytes_low count : forall buffer i fl w w' b' ret s out,
  recv_bytes ops count buffer i fl w = Ok (w', b', ret) ->
  polite (hist w') = true -> low s out (hist w) ->
  has fl RT_I2C_NO_READ_ACK = false -> 0 <= i -> ready true (phase_of out) ->
  ret < i + Z.of_nat count \/
  (ret = i + Z.of_nat count /\ exists vs s', length vs = count /\
   (i + Z.of_nat count <= zlen buffer -> b' = take (Z.to_nat i) buffer ++ vs ++ drop (Z.to_nat i + count) buffer) /\
   low s' (out ++ read_frames vs) (hist w')).
Proof.
  induction count as [|count IH]; intros buffer i fl w w' b' ret s out E Hp Hl Hf Hi Hph; cbn [recv_bytes] in E.
  { injection E as <- <- <-. right. split; [lia|]. exists [], s. split; [done|].
    split; [intros _; cbn; by rewrite Nat.add_0_r, take_drop|]. cbn. by rewrite app_nil_r. }
  apply bind_Ok_inv in E as ([w1 v] & E1 & E).
  destruct (Z.ltb_spec v 0); [injection E as <- <- <-; left; lia|].
  apply bind_Ok_inv in E as (b1 & Hb & E). rewrite Hf in E. cbn [negb] in E.
  apply bind_Ok_inv in E as ([w2 e2] & E2 & E).
  assert (Hp2 : polite (hist w2) = true).
  { destruct (e2 <? 0); [by injection E as <- _ _|].
    eapply polite_suffix; [exact (recv_bytes_grows ops _ _ _ _ _ _ E)|done]. }
  assert (Hp1 : polite (hist w1) = true).
  { eapply polite_suffix; [exact (ack_grows ops _ _ _ E2)|done]. }
  destruct (i2c_readb_low _ _ _ _ _ E1 Hp1 Hl) as [?|[Hv Hl1]]; [lia|].
  destruct (ack_low _ _ _ _ _ E2 Hp2 Hl1 (read_turn _ _ Hph)) as [He|[-> Hl2]].
  { rewrite (proj2 (Z.ltb_lt _ _) He) in E. injection E as <- <- <-. left. lia. }
  cbn [Z.ltb Z.compare] in E. rewrite negb_involutive, <- app_assoc in Hl2.
  destruct count as [|count].
  { cbn [recv_bytes] in E. injection E as <- <- <-. right. split; [lia|].
    exists [v], true. split; [done|]. split; [|exact Hl2].
    intros Hle. rewrite zset_Ok in Hb by lia. injection Hb as <-.
    unfold zlen in Hle. rewrite insert_take_drop by lia. by rewrite Nat.add_1_r. }
  assert (Hph2 : ready true (phase_of (out ++ bits 8 v ++ [Bit (S count =? 0)%nat]))).
  { rewrite read_phase by done. by destruct Hph as [-> | ->]; [left|right]. }
  destruct (IH _ _ _ _ _ _ _ _ _ E Hp Hl2 Hf ltac:(lia) Hph2) as [?|(-> & vs & s' & Hlen & Hb' & Hs)]; [left; lia|].
  right. split; [lia|]. exists (v :: vs), s'. split; [by cbn; f_equal|]. split.
  - intros Hle. rewrite zset_Ok in Hb by lia. injection Hb as <-. rewrite Hb'.
    2:{ unfold zlen in *. rewrite length_insert. lia. }
    unfold zlen in Hle. replace (Z.to_nat (i + 1)) with (S (Z.to_nat i)) by lia.
    rewrite (take_S_r _ _ v) by (apply list_lookup_insert_eq; lia).
    rewrite take_insert_ge, drop_insert_lt by lia. rewrite <- app_assoc. cbn [app].
    by replace (Z.to_nat i + S (S count))%nat with (S (Z.to_nat i) + S count)%nat by lia.
  - cbn [read_frames]. rewrite <- !app_assoc in Hs. destruct vs; [by cbn in Hlen|]. exact Hs.
Qed.

Lemma address_direction m : Z.testbit (address_byte m) 0 = has (flags m) RT_I2C_RD.
Proof.
  assert (E : Z.testbit (u8 (Z.shiftl (addr m) 1)) 0 = false).
  { unfold u8. change 256 with (2 ^ 8). rewrite Z.mod_pow2_bits_low by lia. by rewrite Z.shiftl_spec_low. }
  unfold address_byte. destruct (has _ _); [|done]. rewrite Z.lor_spec, E. done.
Qed.

Lemma bit_send_address_low m w w' e s out : i2c_bit_send_address ops 0 m w = Ok (w', e) ->
  polite (hist w') = true -> low s out (hist w) -> (exists r, phase_of out = Addr 0 r) ->
  has (flags m) RT_I2C_ADDR_10BIT = false -> has (flags m) RT_I2C_IGNORE_NACK = false ->
  e < 0 \/ (e = 0 /\ low true (out ++ frame (address_byte m)) (hist w') /\
    ready (has (flags m) RT_I2C_RD) (phase_of (out ++ frame (address_byte m)))).
Proof.
  intros E Hp Hl Hph H10 Hi. unfold i2c_bit_send_address in E. rewrite H10, Hi in E. unfold i2c_send_address in E.
  cbn [Z.ltb Z.compare Z.to_nat send_address negb andb] in E. fold (address_byte m) in E.
  apply bind_Ok_inv in E as ([w1 e1] & E1 & E). apply bind_Ok_inv in E1 as ([w2 e2] & E2 & E1).
  injection E1 as -> ->. rewrite andb_true_r in E.
  assert (Hp1 : polite (hist w1) = true) by (revert E; destruct (negb (e1 =? 1)); by intros [= <- _]).
  destruct (i2c_writeb_low _ w w1 e1 s out E2 Hp1 Hl (frame_sends _ (or_introl Hph))) as [He|(ack & -> & Hl1 & _)].
  - rewrite (proj2 (Z.eqb_neq _ _)) in E by lia. injection E as <- <-. by left.
  - destruct ack; injection E as <- <-; [|by left]. right. split; [done|]. split; [exact Hl1|].
    rewrite frame_phase by by left. destruct Hph as [r ->]. rewrite address_direction.
    unfold ready. destruct (has (flags m) RT_I2C_RD); auto.
Qed.

(** The bus between two messages; [rd] is the direction of the one before. *)
Definition between (rd : option bool) (ph : phase) : Prop :=
  match rd with None => exists r, ph = Addr 0 r | Some true => ph = Off | Some false => ph = Data false 0 end.

Lemma between_turn rd ph : between rd ph -> slave_turn ph = false.
Proof. destruct rd as [[]|]; [by intros ->..|by intros [r ->]]. Qed.

Lemma xfer_address_low i m w w1 s out rd : xfer_address ops 0 i m w = Ok (inl w1) ->
  polite (hist w1) = true -> low s out (hist w) -> plain m -> between rd (phase_of out) ->
  (i = 0 -> rd = None) -> (has (flags m) RT_I2C_NO_START = true -> rd = Some (has (flags m) RT_I2C_RD)) ->
  let out' := out ++ (if has (flags m) RT_I2C_NO_START then []
                      else (if i =? 0 then [] else [Start]) ++ frame (address_byte m)) in
  (exists s', low s' out' (hist w1)) /\ ready (has (flags m) RT_I2C_RD) (phase_of out').
Proof.
  intros E Hp Hl (H10 & Hi & _) Hb H0 Hd. unfold xfer_address in E.
  destruct (has (flags m) RT_I2C_NO_START); cbn [negb] in E |- *; cbv zeta.
  { injection E as <-. rewrite app_nil_r. split; [by exists s|]. rewrite (Hd eq_refl) in Hb.
    unfold ready. cbn [between] in Hb. destruct (has (flags m) RT_I2C_RD); [by right|done]. }
  apply bind_Ok_inv in E as (w2 & E2 & E). apply bind_Ok_inv in E as ([w3 e3] & E3 & E).
  rewrite Hi, andb_true_r in E. destruct (Z.eqb_spec e3 RT_EOK) as [->|]; cbn [negb] in E; [|done].
  injection E as <-.
  assert (Hp2 : polite (hist w2) = true).
  { eapply polite_suffix; [exact (bit_send_address_grows ops 0 _ _ _ E3)|done]. }
  set (o2 := out ++ if i =? 0 then [] else [Start]).
  assert (exists s2, low s2 o2 (hist w2) /\ exists r, phase_of o2 = Addr 0 r) as (s2 & Hl2 & Hph2).
  { unfold o2. destruct (Z.eqb_spec i 0) as [->|]; cbn [negb] in E2.
    - injection E2 as <-. rewrite app_nil_r. exists s. split; [done|]. by rewrite (H0 eq_refl) in Hb.
    - exists false. split; [|exists false; by rewrite phase_of_app].
      by apply (i2c_restart_low w _ s); [| | |eapply between_turn]. }
  destruct (bit_send_address_low _ _ _ _ _ _ E3 Hp Hl2 Hph2 H10 Hi) as [He|(_ & Hl3 & Hr)]; [done|].
  unfold o2 in Hl3, Hr. rewrite <- app_assoc in Hl3, Hr. split; [by exists true|done].
Qed.

(** The data symbols of a message. *)
Definition data_syms (m : rt_i2c_msg) : list sym :=
  let data := take (Z.to_nat (len m)) (buf m) in
  if has (flags m) RT_I2C_RD then read_frames data else concat (map frame data).

Lemma xfer_data_low m w w' m' s out : xfer_data ops m w = Ok (w', m', None) ->
  polite (hist w') = true -> low s out (hist w) -> plain m -> ready (has (flags m) RT_I2C_RD) (phase_of out) ->
  (exists s', low s' (out ++ data_syms m') (hist w')) /\
  between (Some (has (flags m) RT_I2C_RD)) (phase_of (out ++ data_syms m')).
Proof.
  intros E Hp Hl (_ & Hi & Hr & Hlen & Hrd0) Hph. unfold xfer_data in E. unfold data_syms.
  destruct (has (flags m) RT_I2C_RD) eqn:Hrd.
  - apply bind_Ok_inv in E as ([[w1 b] ret] & E1 & E). unfold i2c_recv_bytes in E1.
    destruct (Z.ltb_spec ret (len m)); [done|]. injection E as <- <-. cbn [flags len buf]. rewrite Hrd.
    destruct (recv_bytes_low _ _ _ _ _ _ _ _ s out E1 Hp Hl Hr ltac:(lia) Hph)
      as [?|(-> & vs & s' & Hl' & Hb & Hs')]; [lia|].
    specialize (Hb ltac:(lia)). change (Z.to_nat 0) with 0%nat in Hb. cbn [take app Nat.add] in Hb.
    rewrite take_0, app_nil_l in Hb. rewrite Hb, <- Hl', take_app_length. split; [by exists s'|].
    apply read_frames_phase; [|done]. intros ->. cbn in Hl'. specialize (Hrd0 eq_refl). lia.
  - apply bind_Ok_inv in E as ([w1 ret] & E1 & E). unfold i2c_send_bytes in E1. rewrite Hi in E1.
    destruct (Z.ltb_spec ret (len m)); [done|]. injection E as <- <-. rewrite Hrd.
    destruct (send_bytes_low _ _ _ _ _ _ s out E1 Hp Hl ltac:(lia) Hph) as [?|[-> [s' Hs']]]; [lia|].
    split; [by exists s'|]. by apply write_frames_phase.
Qed.

(** What a message leaves unchanged, and its result. *)
Lemma xfer_data_same m w w' m' o : xfer_data ops m w = Ok (w', m', o) -> same_msg m m' /\
  match o with Some ret => ret < 0 | None => True end.
Proof.
  unfold xfer_data. destruct (has (flags m) RT_I2C_RD) eqn:Hrd.
  - intros ([[w1 b] ret] & _ & E)%bind_Ok_inv.
    assert (Hs : same_msg m (mk_msg (addr m) (flags m) (len m) b)) by (split_and!; [done..|by rewrite Hrd]).
    destruct (ret <? len m); injection E as _ <- <-; split; try done.
    unfold RT_EIO. destruct (Z.leb_spec 0 ret); lia.
  - intros ([w1 ret] & _ & E)%bind_Ok_inv. assert (Hs : same_msg m m) by done.
    destruct (ret <? len m); injection E as _ <- <-; split; try done.
    unfold RT_ERROR. destruct (Z.leb_spec 0 ret); lia.
Qed.

Lemma xfer_address_fails i m w w' ret : has (flags m) RT_I2C_ADDR_10BIT = false ->
  xfer_address ops 0 i m w = Ok (inr (w', ret)) -> ret < 0.
Proof.
  intros H10. unfold xfer_address, i2c_bit_send_address. rewrite H10. destruct (negb (has _ _)); [|done].
  intros (w1 & _ & E)%bind_Ok_inv. apply bind_Ok_inv in E as ([w2 e2] & E2 & E).
  apply bind_Ok_inv in E2 as ([w3 e3] & _ & E2).
  destruct (negb (e3 =? 1) && _); injection E2 as <- <-; [|done].
  change (negb (- RT_EIO =? RT_EOK)) with true in E. cbn [andb] in E.
  destruct (negb (has (flags m) RT_I2C_IGNORE_NACK)); [by injection E as _ <-|done].
Qed.

Lemma same_msgs_refl ms : Forall2 same_msg ms ms.
Proof. induction ms; by constructor. Qed.

Lemma xfer_msgs_same msgs : forall i w w' msgs' ret, Forall plain msgs ->
  xfer_msgs ops 0 msgs i w = Ok (w', msgs', ret) ->
  Forall2 same_msg msgs msgs' /\ (ret < 0 \/ ret = i + zlen msgs).
Proof.
  induction msgs as [|m ms IH]; intros i w w' msgs' ret Hp E; cbn [xfer_msgs] in E.
  { injection E as <- <- <-. split; [constructor|]. right. unfold zlen. cbn. lia. }
  inversion Hp as [|? ? Hm Hms]; subst. apply bind_Ok_inv in E as (r & E1 & E).
  destruct r as [w1|[w1 e1]].
  2:{ injection E as <- <- <-. split; [apply same_msgs_refl|]. left. by apply xfer_address_fails in E1; [|apply Hm]. }
  apply bind_Ok_inv in E as ([[w2 m2] o] & E2 & E). apply xfer_data_same in E2 as [Hsm Ho].
  destruct o as [e2|].
  { injection E as <- <- <-. split; [constructor; [done|apply same_msgs_refl]|by left]. }
  apply bind_Ok_inv in E as ([[w3 ms3] e3] & E3 & E). injection E as <- <- <-.
  apply (IH _ _ _ _ _ Hms) in E3 as [Hall Hr]. split; [by constructor|]. unfold zlen in *. cbn [length]. lia.
Qed.

Lemma xfer_msgs_low msgs : forall i w w' msgs' ret s out rd,
  xfer_msgs ops 0 msgs i w = Ok (w', msgs', ret) -> 0 <= ret -> polite (hist w') = true ->
  low s out (hist w) -> Forall plain msgs -> directed rd msgs -> between rd (phase_of out) ->
  0 <= i -> (i = 0 -> rd = None) ->
  exists s', low s' (out ++ transcript i msgs') (hist w') /\ slave_turn (phase_of (out ++ transcript i msgs')) = false.
Proof.
  induction msgs as [|m ms IH]; intros i w w' msgs' ret s out rd E Hret Hp Hl Hpl Hdir Hb Hi H0; cbn [xfer_msgs] in E.
  { injection E as <- <- <-. exists s. cbn. rewrite app_nil_r. split; [done|by eapply between_turn]. }
  inversion Hpl as [|? ? Hm Hms]; subst. destruct Hdir as [Hd Hdir].
  apply bind_Ok_inv in E as ([w1|[w1 e1]] & E1 & E).
  2:{ injection E as <- <- <-. apply xfer_address_fails in E1; [lia|apply Hm]. }
  apply bind_Ok_inv in E as ([[w2 m2] o] & E2 & E). pose proof (xfer_data_same _ _ _ _ _ E2) as [Hsm Ho].
  destruct o as [e2|]; [injection E as <- <- <-; lia|].
  apply bind_Ok_inv in E as ([[w3 ms3] e3] & E3 & E). injection E as <- <- <-.
  assert (Hp2 : polite (hist w2) = true).
  { eapply polite_suffix; [exact (xfer_msgs_grows ops 0 _ _ _ _ E3)|done]. }
  assert (Hp1 : polite (hist w1) = true).
  { eapply polite_suffix; [exact (xfer_data_grows ops _ _ _ E2)|done]. }
  destruct (xfer_address_low _ _ _ _ _ _ _ E1 Hp1 Hl Hm Hb H0 Hd) as [[s1 Hl1] Hr1].
  destruct (xfer_data_low _ _ _ _ _ _ E2 Hp2 Hl1 Hm Hr1) as [[s2 Hl2] Hb2].
  destruct (IH _ _ _ _ _ _ _ _ E3 Hret Hp Hl2 Hms Hdir Hb2 ltac:(lia) ltac:(lia)) as (s3 & Hl3 & Ht3).
  exists s3. cbn [transcript]. destruct Hsm as (Ea & Ef & El & _).
  assert (Hab : address_byte m2 = address_byte m) by (unfold address_byte; by rewrite Ea, Ef).
  rewrite Ef, Hab. unfold data_syms in Hl3, Ht3. rewrite Ef in Hl3, Ht3. rewrite <- !app_assoc in Hl3, Ht3.
  split; [exact Hl3|exact Ht3].
Qed.

(** The whole transfer. *)
Lemma i2c_bit_xfer_same msgs w w' msgs' ret : Forall plain msgs ->
  i2c_bit_xfer ops 0 msgs w = Ok (w', msgs', ret) ->
  Forall2 same_msg msgs msgs' /\ (ret < 0 \/ ret = zlen msgs).
Proof.
  unfold i2c_bit_xfer. intros Hpl ([[w1 ms1] e1] & E1 & E)%bind_Ok_inv.
  apply bind_Ok_inv in E as (w2 & _ & [= _ <- <-]). by apply xfer_msgs_same in E1.
Qed.

Lemma i2c_bit_xfer_wire msgs w w' msgs' ret :
  d_scl (bus w) = true -> d_sda (bus w) = true -> Forall plain msgs -> directed None msgs ->
  i2c_bit_xfer ops 0 msgs w = Ok (w', msgs', ret) -> 0 <= ret -> polite (hist w') = true ->
  bus w' = mk_dec true true None (d_out (bus w) ++ [Start] ++ transcript 0 msgs' ++ [Stop]).
Proof.
  intros Hc Hd Hpl Hdir. unfold i2c_bit_xfer. intros ([[w1 ms1] e1] & E1 & E)%bind_Ok_inv Hret Hp.
  apply bind_Ok_inv in E as (w2 & E2 & [= -> -> ->]).
  destruct (decode_levels (hist w)) as [Hc' Hd']. unfold bus in Hc, Hd. rewrite Hc' in Hc. rewrite Hd' in Hd.
  assert (Hp1 : polite (hist w1) = true) by exact (polite_suffix _ _ (stop_grows ops _ _ E2) Hp).
  assert (Hp0 : polite (hist (i2c_start ops w)) = true).
  { eapply polite_suffix; [exact (xfer_msgs_grows ops 0 _ _ _ _ E1)|done]. }
  pose proof (i2c_start_low w _ Hp0 Hc Hd eq_refl) as Hs.
  destruct (xfer_msgs_low _ _ _ _ _ _ _ _ None E1 Hret Hp1 Hs Hpl Hdir) as (s1 & Hl1 & Ht1);
    [exists false; by rewrite phase_of_app|lia|done|].
  destruct (i2c_stop_cond _ _ _ _ E2 Hp Hl1 Ht1) as (El & Ed & Es & Eo & Epd).
  unfold bus at 1. rewrite decode_eq, El, Eo, Epd. unfold sda_level. rewrite Ed, Es. f_equal.
  by rewrite <- !app_assoc.
Qed.

End Master.

(** The stop condition leaves both lines released, whatever came before. *)
Lemma i2c_stop_idle `{Slave} ops w w' : i2c_stop ops w = Ok w' ->
  scl_out (hist w') = true /\ sda_out (hist w') = true.
Proof.
  assert (Hw : forall start fuel w w' b, iterate fuel (scl_wait ops start) w = Ok (w', b) ->
    scl_out (hist w) = true -> scl_out (hist w') = true).
  { intros start fuel. induction fuel as [|fuel IH]; intros v v' b E Hv; [done|]. rewrite iterate_step in E.
    apply bind_Ok_inv in E as (r & Er & E). unfold scl_wait in Er.
    destruct (get_scl v); [injection Er as <-; by injection E as <- _|].
    destruct (_ <? _); [injection Er as <-; by injection E as <- _|].
    injection Er as <-. by apply IH in E. }
  unfold i2c_stop. intros ([w1 e] & E1 & [= <-])%bind_Ok_inv. cbn [fst]. split; [|done].
  change (scl_out (hist w1) = true). unfold SCL_H in E1.
  destruct (negb _); [by injection E1 as <- _|].
  apply bind_Ok_inv in E1 as ([w2 b] & E2 & E1). apply Hw in E2; [|done].
  by destruct b; injection E1 as <- _.
Qed.

(** *** Every call returns *)
Section Total.
Context `{Slave} (ops : rt_i2c_bit_ops) (L : Z).
Hypothesis late_ok : forall h, 0 <= late h <= L.
Hypothesis timeout_ok : 0 < timeout ops.
Hypothesis room : timeout ops + Z.shiftr (timeout ops + 1) 1 + L < 4294967296.

Lemma half_timeout : 1 <= Z.shiftr (timeout ops + 1) 1.
Proof. rewrite Z.shiftr_div_pow2 by lia. change (2 ^ 1) with 2. dlia. Qed.

(** The time-out ends the wait for SCL: each turn sleeps for a tick at least. *)
Lemma scl_wait_ok start fuel : forall w, let e := u32 (now w - start) in
  (if e <=? timeout ops then timeout ops - e + 2 <= Z.of_nat fuel else 1 <= Z.of_nat fuel) ->
  is_Ok (iterate fuel (scl_wait ops start) w).
Proof.
  pose proof half_timeout as Hh. induction fuel as [|fuel IH]; intros w e Hf.
  { destruct (Z.leb_spec e (timeout ops)); lia. }
  rewrite iterate_step. apply is_Ok_bind; unfold scl_wait; fold e.
  { destruct (get_scl w); [eauto with rtt|]. destruct (_ <? _); eauto with rtt. }
  intros r. destruct (get_scl w); [intros [= <-]; eauto with rtt|].
  destruct (Z.ltb_spec (timeout ops) e); intros [= <-]; [eauto with rtt|]. apply IH.
  rewrite (proj2 (Z.leb_le _ _)) in Hf by lia. pose proof (late_ok (hist w)).
  assert (Ee : u32 (now (thread_delay (Z.shiftr (timeout ops + 1) 1) w) - start) =
    e + Z.shiftr (timeout ops + 1) 1 + late (hist w)).
  { unfold thread_delay. cbn [now]. transitivity (u32 (e + Z.shiftr (timeout ops + 1) 1 + late (hist w))).
    - unfold e, u32. rewrite Zminus_mod_idemp_l.
      replace (now w + _ + late (hist w) - start)
        with (now w - start + (Z.shiftr (timeout ops + 1) 1 + late (hist w))) by lia.
      rewrite <- Z.add_assoc. by rewrite Zplus_mod_idemp_l.
    - apply u32_small. pose proof (u32_range (now w - start)). fold e in H2. lia. }
  rewrite Ee. destruct (Z.leb_spec (e + Z.shiftr (timeout ops + 1) 1 + late (hist w)) (timeout ops)); lia.
Qed.

Lemma SCL_H_ok w : is_Ok (SCL_H ops w).
Proof.
  unfold SCL_H. destruct (negb _); [eauto with rtt|]. apply is_Ok_bind.
  - apply scl_wait_ok. rewrite Z.sub_diag. change (u32 0) with 0.
    rewrite (proj2 (Z.leb_le 0 _)) by lia. lia.
  - intros [w' []] _; eauto with rtt.
Qed.

(** Go through the calls of a function, one bind at a time. *)
Ltac run_ok :=
  repeat match goal with
  | |- is_Ok (Ok _) => apply is_Ok_Ok
  | |- is_Ok (SCL_H _ _) => apply SCL_H_ok
  | |- is_Ok (mbind _ _) => apply is_Ok_bind
  | |- forall a, _ = Ok a -> _ => intros ? _
  | |- is_Ok (let '(_, _) := ?p in _) => destruct p
  | |- is_Ok (if ?b then _ else _) => destruct b
  | |- is_Ok (match ?o with Some _ => _ | None => _ end) => destruct o
  | |- is_Ok _ => solve [eauto with rtt]
  end.

Lemma restart_ok w : is_Ok (i2c_restart ops w).
Proof. unfold i2c_restart. run_ok. Qed.
Lemma stop_ok w : is_Ok (i2c_stop ops w).
Proof. unfold i2c_stop. run_ok. Qed.
Lemma waitack_ok w : is_Ok (i2c_waitack ops w).
Proof. unfold i2c_waitack, get_sda. run_ok. Qed.
Lemma writeb_bits_ok k data : forall w, is_Ok (writeb_bits ops k data w).
Proof. induction k as [|k IH]; intros w; cbn [writeb_bits]; run_ok. Qed.
Lemma writeb_ok data w : is_Ok (i2c_writeb ops data w).
Proof. unfold i2c_writeb. run_ok; [apply writeb_bits_ok|apply waitack_ok]. Qed.
Lemma readb_bits_ok k : forall data w, is_Ok (readb_bits ops k data w).
Proof. induction k as [|k IH]; intros data w; cbn [readb_bits]; unfold get_sda; run_ok. Qed.
Lemma readb_ok w : is_Ok (i2c_readb ops w).
Proof. apply readb_bits_ok. Qed.
Lemma ack_ok b w : is_Ok (i2c_send_ack_or_nack ops b w).
Proof. unfold i2c_send_ack_or_nack. run_ok. Qed.
#[local] Hint Resolve restart_ok stop_ok waitack_ok writeb_ok readb_ok ack_ok : rtt.

Lemma send_bytes_ok count : forall ptr ign n w, (count <= length ptr)%nat ->
  is_Ok (send_bytes ops count ptr ign n w).
Proof.
  induction count as [|count IH]; intros ptr ign n w Hl; cbn [send_bytes]; [eauto with rtt|].
  destruct ptr as [|d ptr]; [cbn in Hl; lia|]. cbn [head deref tail]. red_bind. cbn in Hl.
  assert (IH' : forall m w', is_Ok (send_bytes ops count ptr ign m w')) by (intros; apply IH; lia).
  run_ok.
Qed.

Lemma recv_bytes_ok count : forall buffer i fl w, 0 <= i -> i + Z.of_nat count <= zlen buffer ->
  is_Ok (recv_bytes ops count buffer i fl w).
Proof.
  induction count as [|count IH]; intros buffer i fl w Hi Hl; cbn [recv_bytes]; [eauto with rtt|].
  apply is_Ok_bind; [run_ok|]. intros [w1 v] _. destruct (v <? 0); [run_ok|].
  rewrite zset_Ok by lia. red_bind.
  assert (IH' : forall w', is_Ok (recv_bytes ops count (<[Z.to_nat i:=v]> buffer) (i + 1) fl w')).
  { intros. apply IH; [lia|]. unfold zlen in *. rewrite length_insert. lia. }
  run_ok.
Qed.

Lemma send_address_ok n a : forall w, is_Ok (send_address ops n a w).
Proof. induction n as [|n IH]; intros w; cbn [send_address]; run_ok. Qed.
Lemma i2c_send_address_ok a n w : is_Ok (i2c_send_address ops a n w).
Proof. unfold i2c_send_address. run_ok. apply send_address_ok. Qed.
#[local] Hint Resolve i2c_send_address_ok : rtt.

Lemma bit_send_address_ok retries m w : exists w' e,
  i2c_bit_send_address ops retries m w = Ok (w', e) /\ (e = 0 \/ e < 0).
Proof.
  assert (is_Ok (i2c_bit_send_address ops retries m w)) as [[w' e] E].
  { unfold i2c_bit_send_address. run_ok. }
  exists w', e. split; [done|]. unfold i2c_bit_send_address in E.
  repeat (case_match; try (injection E as <- <-; unfold RT_EIO, RT_EOK; lia) ||
    (apply bind_Ok_inv in E as (? & _ & E))).
Qed.

Lemma xfer_address_ok retries i m w : exists r, xfer_address ops retries i m w = Ok r /\
  match r with inr (_, e) => e < 0 | inl _ => True end.
Proof.
  assert (is_Ok (xfer_address ops retries i m w)) as [r E].
  { unfold xfer_address. destruct (negb _); [|run_ok].
    apply is_Ok_bind; [run_ok|]. intros w1 _.
    destruct (bit_send_address_ok retries m w1) as (w2 & e & -> & _). red_bind. run_ok. }
  exists r. split; [done|]. unfold xfer_address in E. destruct (negb _); [|by injection E as <-].
  apply bind_Ok_inv in E as (w1 & _ & E).
  destruct (bit_send_address_ok retries m w1) as (w2 & e & E2 & He). rewrite E2 in E. revert E. red_bind.
  destruct (Z.eqb_spec e RT_EOK); cbn [negb andb]; [by intros [= <-]|].
  destruct (negb _); intros [= <-]; [|done]. unfold RT_EOK in *. lia.
Qed.

Lemma xfer_data_ok m w : 0 <= len m <= zlen (buf m) -> exists w' m' o,
  xfer_data ops m w = Ok (w', m', o) /\ match o with Some e => e < 0 | None => True end.
Proof.
  intros Hl. unfold xfer_data, i2c_recv_bytes, i2c_send_bytes. destruct (has _ RT_I2C_RD).
  - destruct (recv_bytes_ok (Z.to_nat (len m)) (buf m) 0 (flags m) w) as [[[w1 b] e] ->]; [lia..|].
    red_bind. destruct (e <? len m); eexists _, _, _; split; [done| |done|done].
    destruct (Z.leb_spec 0 e); unfold RT_EIO; lia.
  - destruct (send_bytes_ok (Z.to_nat (len m)) (buf m) (has (flags m) RT_I2C_IGNORE_NACK) 0 w)
      as [[w1 e] ->]; [unfold zlen in Hl; lia|].
    red_bind. destruct (e <? len m); eexists _, _, _; split; [done| |done|done].
    destruct (Z.leb_spec 0 e); unfold RT_ERROR; lia.
Qed.

Lemma xfer_msgs_ok retries msgs : forall i w,
  Forall (fun m => 0 <= len m <= zlen (buf m)) msgs -> exists w' msgs' ret,
  xfer_msgs ops retries msgs i w = Ok (w', msgs', ret) /\ (ret = i + zlen msgs \/ ret < 0).
Proof.
  induction msgs as [|m ms IH]; intros i w Hm; cbn [xfer_msgs].
  { eexists _, _, _. split; [done|]. unfold zlen. cbn. lia. }
  inversion Hm as [|? ? Hm1 Hms]; subst.
  destruct (xfer_address_ok retries i m w) as ([w1|[w1 e]] & -> & He); red_bind.
  2:{ eexists _, _, _. split; [done|]. by right. }
  destruct (xfer_data_ok m w1 Hm1) as (w2 & m' & [e|] & -> & Ho); red_bind.
  { eexists _, _, _. split; [done|]. by right. }
  destruct (IH (i + 1) w2 Hms) as (w3 & ms' & ret & -> & Hr). red_bind.
  eexists _, _, _. split; [done|]. unfold zlen in *. cbn [length]. lia.
Qed.

End Total.
End Decode.

Module I2cThms.
Import Wire I2c Decode.


(** C26: every transfer returns, whatever the slave does to the lines, and
    leaves both lines released: waiting for a slave that holds SCL ends with
    the time-out, and every path runs through the stop condition.  The
    result is the number of messages or a negative code. *)
Theorem i2c_bit_xfer_returns `{Slave} ops retries msgs w L :
  (forall h, 0 <= late h <= L) -> 0 < timeout ops ->
  timeout ops + Z.shiftr (timeout ops + 1) 1 + L < 4294967296 ->
  Forall (fun m => 0 <= len m <= zlen (buf m)) msgs ->
  exists w' msgs' ret, i2c_bit_xfer ops retries msgs w = Ok (w', msgs', ret) /\
    (ret = zlen msgs \/ ret < 0) /\
    scl_out (hist w') = true /\ sda_out (hist w') = true.
Proof.
  intros Hl Ht Hr Hm. unfold i2c_bit_xfer.
  destruct (xfer_msgs_ok ops L Hl Ht Hr retries msgs 0 (i2c_start ops w) Hm)
    as (w1 & ms1 & e1 & -> & He). red_bind.
  destruct (stop_ok ops L Hl Ht Hr w1) as [w2 E2]. rewrite E2. red_bind.
  exists w2, ms1, e1. split; [done|]. split; [lia|]. by apply i2c_stop_idle in E2.
Qed.

(** *** Slaves *)

(** What a slave that leaves SCL alone has seen, and its SDA: at each falling
    edge of SCL it acknowledges, or puts out the next bit of [v]. *)
Definition reply (v : Z) (ph : phase) : bool :=
  match ph with
  | Data true p => (p =? 8)%nat || Z.testbit v (7 - Z.of_nat p)
  | _ => negb (slave_turn ph)
  end.

Fixpoint follow (v : Z) (h : list event) : dec * bool :=
  match h with
  | [] => (mk_dec true true None [], true)
  | e :: h' =>
      let '(d, s) := follow v h' in
      let d' := dstep (scl_out h) (sda_out h && s) d in
      (d', if d_scl d && negb (scl_out h) then reply v (phase_of (d_out d')) else s)
  end.

Definition replying (v : Z) : Slave := Build_Slave (fun _ => true) (fun h => (follow v h).2) (fun _ => 0).

(** One that holds SCL for ever. *)
Definition holding : Slave := Build_Slave (fun _ => false) (fun _ => true) (fun _ => 7).

(** One that, after a write of one byte, holds SCL until the master has
    waited four times, which is beyond its time-out. *)
Definition count_sleeps (h : list event) : nat :=
  length (List.filter (fun e => match e with E_sleep _ => true | _ => false end) h).
Definition stretching : Slave := Build_Slave
  (fun h => negb ((length (d_out (follow 90 h).1) =? 19)%nat && (count_sleeps h <? 4)%nat))
  (fun h => (follow 90 h).2) (fun _ => 0).

(** The register number is written, two bytes are read after a repeated
    start. *)
Definition demo_msgs : list rt_i2c_msg := [mk_msg 33 RT_I2C_WR 1 [2]; mk_msg 33 RT_I2C_RD 2 [0; 0]].
Definition demo_read : list rt_i2c_msg := [mk_msg 33 RT_I2C_WR 1 [2]; mk_msg 33 RT_I2C_RD 2 [90; 90]].


Lemma i2c_bit_xfer_returns_witness : exists w' msgs' ret,
  @i2c_bit_xfer holding stm32_bit_ops_default 0 demo_msgs (mk_wires [] 0) = Ok (w', msgs', ret) /\
  (ret = 2 \/ ret < 0) /\ scl_out (hist w') = true /\ sda_out (hist w') = true.
Proof.
  apply (@i2c_bit_xfer_returns holding stm32_bit_ops_default 0 demo_msgs (mk_wires [] 0) 7);
    [intros; cbn; lia|done|done|repeat constructor; vm_compute; congruence].
Defined.

(** The slave that holds SCL makes the transfer fail with -RT_EIO. *)
Lemma holding_fails : (fun r => r.2) <$>
  @i2c_bit_xfer holding stm32_bit_ops_default 0 demo_msgs (mk_wires [] 0) = Ok (- RT_EIO).
Proof. reflexivity. Qed.

(** i2c_restart does not look at the time-out of SCL: the transfer succeeds,
    but there is only one start on the lines. *)
Lemma restart_is_lost : exists w' ms,
  @i2c_bit_xfer stretching stm32_bit_ops_default 0 demo_msgs (mk_wires [] 0) = Ok (w', ms, 2) /\
  length (List.filter (fun s => match s with Start => true | _ => false end) (d_out (@bus stretching w'))) = 1%nat.
Proof. eexists _, _. split; vm_compute; reflexivity. Qed.

End I2cThms.
