(* ===== verification/Nca9555.v ===== *)
(** * The NCA9555 port expander driver (drivers/drv_i2c_nca9555.c)

    [Nca] is the driver over any I2C bus (class [I2cBus], which the software
    master of [I2cBit] implements).  The chip is not part of the source:
    class [Chip] states what its data sheet says of its registers, and
    [NcaThms] proves the driver against it. *)
From S2P Require Import Prelude CTypes CString I2cBit Device.
From stdpp Require Import base list gmap.
From Stdlib Require Import ZArith Lia.
Open Scope Z_scope.

Module Nca.
Import I2c CStr.

(** [rt_i2c_transfer] (i2c_core.c), on the state [B] of the bus and of what
    hangs on it: the messages with their buffers filled, and the result.  The
    lock that it takes orders the transfers of different threads; here they
    are in sequence already. *)
Class I2cBus (B : Type) : Type :=
  rt_i2c_transfer : list rt_i2c_msg -> B -> result (B * list rt_i2c_msg * Z).

(** The bus of drv_soft_i2c.c; [rt_hw_i2c_init] leaves the retries at 0. *)
#[export] Instance soft_i2c `{Wire.Slave} : I2cBus Wire.wires := fun msgs w =>
  i2c_bit_xfer stm32_bit_ops_default 0 msgs w.

Definition OUTPUT : Z := 0.
Definition INPUT : Z := 1.
Definition INVERT : Z := 2.

Definition REGISTER_0_INPUT_PORT : Z := 0.
Definition REGISTER_0_OUTPUT_PORT : Z := 2.
Definition REGISTER_0_POLARITY_INVERSION_PORT : Z := 4.
Definition REGISTER_0_CONFIGURATION_PORT : Z := 6.

Definition RT_I2C_STAT_ADDR : Z := 32.
Definition RT_I2C_LED_ADDR : Z := 33.
Definition RT_I2C_ELEC_ADDR : Z := 34.

Record pin_list : Type := mk_pin { name : list Z; offset : Z }.

(** "IO<j>_<i>". *)
Definition pin_name (j i : Z) : list Z := [73; 79; 48 + j; 95; 48 + i; 0].
Definition IO (j i : Z) : pin_list := mk_pin (pin_name j i) (8 * j + i).

Definition list_ : list pin_list :=
  [ IO 0 0; IO 0 1; IO 0 2; IO 0 3; IO 0 4; IO 0 5; IO 0 6; IO 0 7;
    IO 1 0; IO 1 1; IO 1 2; IO 1 3; IO 1 4; IO 1 5; IO 1 6; IO 1 7 ].

Definition set_pin : list Z := [0; 0; 255; 255].

(** [struct nca9555_device]: [i2c_bus] says that the bus was found. *)
Record nca9555_device : Type := mk_nca { i2c_bus : bool; addr : Z }.

(** [sizeof (list[i].name) + 1]: a pointer and one. *)
Definition NAME_CMP : nat := 5.

Fixpoint get_list_in (l : list pin_list) (pin : list Z) : result (option pin_list) :=
  match l with
  | [] => Ok None
  | p :: l' =>
      r ← rt_strncmp (name p) pin NAME_CMP;
      if r =? 0 then Ok (Some p) else get_list_in l' pin
  end.

Definition get_list (pin : list Z) : result (option pin_list) := get_list_in list_ pin.

Section Driver.
Context {B : Type} `{I2cBus B}.

(** The buffer is returned as the transfer leaves it. *)
Definition nca9555_read_data (dev : nca9555_device) (reg len : Z) (buffer : list Z) (b : B)
  : result (B * list Z * Z) :=
  _ ← deref (if i2c_bus dev then Some tt else None);
  r ← rt_i2c_transfer [ mk_msg (addr dev) RT_I2C_WR 1 [reg];
                        mk_msg (addr dev) RT_I2C_RD len buffer ] b;
  let '(b, msgs, ret) := r in
  m ← deref (msgs !! 1%nat);
  Ok (b, buf m, if ret =? 2 then RT_EOK else - RT_ERROR).

Definition nca9555_write_data (dev : nca9555_device) (reg len : Z) (buffer : list Z) (b : B)
  : result (B * Z) :=
  _ ← deref (if i2c_bus dev then Some tt else None);
  r ← rt_i2c_transfer [ mk_msg (addr dev) RT_I2C_WR 1 [reg];
                        mk_msg (addr dev) (Z.lor RT_I2C_WR RT_I2C_NO_START) len buffer ] b;
  let '(b, msgs, ret) := r in
  Ok (b, if ret =? 2 then RT_EOK else - RT_ERROR).

(** [temp[0] &= ~(0x01 << offset)] and its three fellows, on the pair. *)
Definition clear_bit (temp : list Z) (offset : Z) : list Z :=
  if offset <? 8
  then alter (fun t => u8 (Z.land t (Z.lnot (Z.shiftl 1 offset)))) 0%nat temp
  else alter (fun t => u8 (Z.land t (Z.lnot (Z.shiftl 1 (offset - 8))))) 1%nat temp.

Definition set_bit (temp : list Z) (offset : Z) : list Z :=
  if offset <? 8
  then alter (fun t => u8 (Z.lor t (Z.shiftl 1 offset))) 0%nat temp
  else alter (fun t => u8 (Z.lor t (Z.shiftl 1 (offset - 8)))) 1%nat temp.

(** The results of the reads are not looked at; [buffer] is the pin's name. *)
Definition rt_nca9555_write_pin (dev : nca9555_device) (pos : Z) (buffer : list Z) (size : Z) (b : B)
  : result (B * Z) :=
  o ← get_list buffer;
  index ← deref o;
  r ← nca9555_read_data dev REGISTER_0_OUTPUT_PORT 2 [0; 0] b;
  let '(b, temp, _) := r in
  let temp := if 0 =? pos then clear_bit temp (offset index) else set_bit temp (offset index) in
  r ← nca9555_write_data dev REGISTER_0_OUTPUT_PORT 2 temp b;
  Ok (r.1, size).

Definition rt_nca9555_read_pin (dev : nca9555_device) (pos : Z) (buffer : list Z) (size : Z) (b : B)
  : result (B * list Z * Z) :=
  o ← get_list buffer;
  index ← deref o;
  r ← nca9555_read_data dev REGISTER_0_INPUT_PORT 2 [0; 0] b;
  let '(b, temp, _) := r in
  pin_status ← (if offset index <? 8
    then t ← zget temp 0; Ok (Z.land (Z.shiftr t (offset index)) 1)
    else t ← zget temp 1; Ok (Z.land (Z.shiftr t (offset index - 8)) 1));
  Ok (b, buffer, pin_status).

Definition rt_nca9555_control_pin (dev : nca9555_device) (cmd : Z) (args : list Z) (b : B)
  : result (B * Z) :=
  o ← get_list args;
  index ← deref o;
  r ← nca9555_read_data dev REGISTER_0_CONFIGURATION_PORT 2 [0; 0] b;
  let '(b, temp, _) := r in
  let pos := offset index in
  if cmd =? OUTPUT then
    r ← nca9555_write_data dev REGISTER_0_CONFIGURATION_PORT 2 (clear_bit temp pos) b;
    Ok (r.1, RT_EOK)
  else if cmd =? INPUT then
    r ← nca9555_write_data dev REGISTER_0_CONFIGURATION_PORT 2 (set_bit temp pos) b;
    Ok (r.1, RT_EOK)
  else if cmd =? INVERT then
    r ← nca9555_write_data dev REGISTER_0_POLARITY_INVERSION_PORT 2 (set_bit temp pos) b;
    Ok (r.1, RT_EOK)
  else Ok (b, RT_EOK).

(** [rt_calloc] and [rt_i2c_bus_device_find] succeed or not; a device
    without its bus goes on all the same. *)
Definition nca9555_init (calloc bus_found : bool) (a : Z) (b : B) : result (B * option nca9555_device) :=
  if negb calloc then Ok (b, None) else
  let dev := mk_nca bus_found a in
  r ← nca9555_write_data dev REGISTER_0_CONFIGURATION_PORT 2 (drop 2 set_pin) b;
  r ← nca9555_write_data dev REGISTER_0_OUTPUT_PORT 2 (take 2 set_pin) r.1;
  Ok (r.1, Some dev).

(** The device of [rt_device_nca9555_register] before its registration: its
    functions get the driver's device through [user_data]. *)
Definition nca9555_ops (dev : option nca9555_device) : Dev.rt_device_ops B :=
  Dev.mk_ops None None None
    (Some (fun _ pos buffer size b => d ← deref dev; rt_nca9555_read_pin d pos buffer size b))
    (Some (fun _ pos buffer size b => d ← deref dev; rt_nca9555_write_pin d pos buffer size b))
    (Some (fun cmd args m b => d ← deref dev; r ← rt_nca9555_control_pin d cmd args b; Ok (m, r.1, r.2))).

(** [device] is the block of [rt_calloc]; without it the code writes to a
    null pointer. *)
Definition rt_device_nca9555_register (g : Dev.registry B) (device : option Z)
    (dev : option nca9555_device) (nca_name : list Z) : result (Dev.registry B * Z) :=
  a ← deref device;
  let g := Dev.mk_registry (Dev.object_list g)
    (<[a := Dev.mk_device 0 0 0 false false (nca9555_ops dev)]> (Dev.devices g)) in
  Dev.rt_device_register g (Some a) nca_name 3.

(** [rt_hw_nca9555_port] over the remaining entries of [nca9555_obj], each
    with its address, its name and what the allocator returned for it. *)
Fixpoint nca9555_port (objs : list (Z * list Z * bool * option Z)) (bus_found : bool)
    (g : Dev.registry B) (b : B) : result (Dev.registry B * B * Z) :=
  match objs with
  | [] => Ok (g, b, RT_EOK)
  | (a, n, calloc, device) :: objs =>
      r ← nca9555_init calloc bus_found a b;
      let '(b, dev) := r in
      r ← rt_device_nca9555_register g device dev n;
      let '(g, e) := r in
      if negb (e =? RT_EOK) then Ok (g, b, - RT_ERROR) else nca9555_port objs bus_found g b
  end.

(** "STAT0", "LED0", "ELEC0". *)
Definition STAT0 : list Z := [83; 84; 65; 84; 48; 0].
Definition LED0 : list Z := [76; 69; 68; 48; 0].
Definition ELEC0 : list Z := [69; 76; 69; 67; 48; 0].

Definition rt_hw_nca9555_port (bus_found : bool) (allocs : list (bool * option Z))
    (g : Dev.registry B) (b : B) : result (Dev.registry B * B * Z) :=
  nca9555_port
    (zip_with (fun x y => (x.1, x.2, y.1, y.2))
       [(RT_I2C_STAT_ADDR, STAT0); (RT_I2C_LED_ADDR, LED0); (RT_I2C_ELEC_ADDR, ELEC0)] allocs)
    bus_found g b.

End Driver.
End Nca.

(** ** The chip *)
Module NcaSpec.
Import I2c CStr CStrThms Nca.

(** The registers of the chips on a bus, and what a write transfer does to
    them: it sets a register and the next one.  The input registers (0 and 1)
    change as the pins do. *)
Class Chip (B : Type) `{I2cBus B} : Type := {
  reg : B -> Z -> Z -> Z;
  present : Z -> Prop;
  reg_byte : forall b a r, 0 <= reg b a r < 256;
  chip_write : forall b a r d0 d1, present a -> r ∈ [2; 4; 6] -> 0 <= d0 < 256 -> 0 <= d1 < 256 ->
    exists b' msgs',
    rt_i2c_transfer [mk_msg a RT_I2C_WR 1 [r];
                     mk_msg a (Z.lor RT_I2C_WR RT_I2C_NO_START) 2 [d0; d1]] b = Ok (b', msgs', 2) /\
    forall a' r', 2 <= r' -> reg b' a' r' =
      if (a' =? a) && (r' =? r) then d0 else
      if (a' =? a) && (r' =? r + 1) then d1 else reg b a' r'
}.

(** The chips answer reads: with a register and the next one. *)
Class ChipReads (B : Type) `{Chip B} : Prop :=
  chip_read : forall b a r v, present a -> r ∈ [0; 2; 4; 6] -> length v = 2%nat -> exists b',
    rt_i2c_transfer [mk_msg a RT_I2C_WR 1 [r]; mk_msg a RT_I2C_RD 2 v] b =
      Ok (b', [mk_msg a RT_I2C_WR 1 [r]; mk_msg a RT_I2C_RD 2 [reg b a r; reg b a (r + 1)]], 2) /\
    forall a' r', 2 <= r' -> reg b' a' r' = reg b a' r'.

Section Spec.
Context {B : Type} `{HB : I2cBus B} `{HC : !Chip B}.

(** The sixteen bits of a register and the next one. *)
Definition port (b : B) (a r : Z) : Z := reg b a r + 256 * reg b a (r + 1).

(** Bit [k] of the pair of registers [r] of chip [a] is [v] in [b'], and
    every other bit of every register but the inputs is as in [b]. *)
Definition only_bit (b b' : B) (a r k : Z) (v : bool) : Prop :=
  (forall n, 0 <= n < 16 ->
     Z.testbit (port b' a r) n = if n =? k then v else Z.testbit (port b a r) n) /\
  (forall a' r', 2 <= r' -> ~ (a' = a /\ (r' = r \/ r' = r + 1)) -> reg b' a' r' = reg b a' r').

Lemma pair_testbit t0 t1 n : 0 <= t0 < 256 -> 0 <= n ->
  Z.testbit (t0 + 256 * t1) n = if n <? 8 then Z.testbit t0 n else Z.testbit t1 (n - 8).
Proof.
  intros Ht Hn. destruct (Z.ltb_spec n 8).
  - rewrite <- (Z.mod_pow2_bits_low _ 8 n) by lia. f_equal. change (2 ^ 8) with 256. dlia.
  - replace n with (n - 8 + 8) at 1 by lia. rewrite <- Z.div_pow2_bits by lia. f_equal.
    change (2 ^ 8) with 256. dlia.
Qed.

Lemma u8_testbit x n : 0 <= n < 8 -> Z.testbit (u8 x) n = Z.testbit x n.
Proof. intros. unfold u8. change 256 with (2 ^ 8). apply Z.mod_pow2_bits_low. lia. Qed.

Lemma clear_testbit t k n : 0 <= k -> 0 <= n < 8 ->
  Z.testbit (u8 (Z.land t (Z.lnot (Z.shiftl 1 k)))) n = if n =? k then false else Z.testbit t n.
Proof.
  intros. rewrite u8_testbit, Z.land_spec, Z.lnot_spec by lia.
  rewrite Z.shiftl_1_l, Z.pow2_bits_eqb by lia. rewrite (Z.eqb_sym k n).
  destruct (n =? k); by rewrite ?andb_false_r, ?andb_true_r.
Qed.

Lemma set_testbit t k n : 0 <= k -> 0 <= n < 8 ->
  Z.testbit (u8 (Z.lor t (Z.shiftl 1 k))) n = if n =? k then true else Z.testbit t n.
Proof.
  intros. rewrite u8_testbit, Z.lor_spec by lia.
  rewrite Z.shiftl_1_l, Z.pow2_bits_eqb by lia. rewrite (Z.eqb_sym k n).
  destruct (n =? k); by rewrite ?orb_false_r, ?orb_true_r.
Qed.

(** The pair that the driver computes, with its bit cleared or set. *)
Definition changed (v : bool) (temp : list Z) (k : Z) : list Z :=
  if v then set_bit temp k else clear_bit temp k.

Lemma changed_pair v t0 t1 k : 0 <= t0 < 256 -> 0 <= t1 < 256 -> 0 <= k < 16 ->
  exists d0 d1, changed v [t0; t1] k = [d0; d1] /\ 0 <= d0 < 256 /\ 0 <= d1 < 256 /\
  forall n, 0 <= n < 16 ->
    Z.testbit (d0 + 256 * d1) n = if n =? k then v else Z.testbit (t0 + 256 * t1) n.
Proof.
  intros T0 T1 Hk.
  exists (if k <? 8 then if v then u8 (Z.lor t0 (Z.shiftl 1 k)) else u8 (Z.land t0 (Z.lnot (Z.shiftl 1 k))) else t0),
    (if k <? 8 then t1 else if v then u8 (Z.lor t1 (Z.shiftl 1 (k - 8))) else u8 (Z.land t1 (Z.lnot (Z.shiftl 1 (k - 8))))).
  assert (Hr : forall x, 0 <= u8 x < 256) by apply u8_range.
  split; [unfold changed, set_bit, clear_bit; by destruct v, (k <? 8)|].
  split; [destruct (k <? 8), v; auto|]. split; [destruct (k <? 8), v; auto|].
  intros n Hn. rewrite !pair_testbit by (try lia; destruct (k <? 8), v; auto).
  destruct (Z.ltb_spec n 8), (Z.ltb_spec k 8), v;
    rewrite ?set_testbit, ?clear_testbit by lia; try done;
    try (rewrite (proj2 (Z.eqb_neq n k)) by lia; done);
    (replace (n - 8 =? k - 8) with (n =? k); [done|]);
    destruct (Z.eqb_spec n k), (Z.eqb_spec (n - 8) (k - 8)); (done || lia).
Qed.

(** A write of the changed pair changes that bit only. *)
Lemma write_changed b b1 a r rr v k : present a -> r ∈ [2; 4; 6] -> 0 <= k < 16 ->
  (forall a' r', 2 <= r' -> reg b1 a' r' = reg b a' r') ->
  exists b', nca9555_write_data (mk_nca true a) r 2 (changed v [reg b a rr; reg b a (rr + 1)] k) b1 =
      Ok (b', RT_EOK) /\
    (forall n, 0 <= n < 16 ->
      Z.testbit (port b' a r) n = if n =? k then v else Z.testbit (port b a rr) n) /\
    (forall a' r', 2 <= r' -> ~ (a' = a /\ (r' = r \/ r' = r + 1)) -> reg b' a' r' = reg b a' r').
Proof.
  intros Ha Hr Hk Hb1.
  destruct (changed_pair v (reg b a rr) (reg b a (rr + 1)) k) as (d0 & d1 & -> & R0 & R1 & Hd);
    [apply reg_byte..|done|].
  assert (H2 : 2 <= r).
  { repeat (apply elem_of_cons in Hr as [->|Hr]; [lia|]). by apply not_elem_of_nil in Hr. }
  destruct (chip_write b1 a r d0 d1 Ha Hr R0 R1) as (b' & msgs' & E & Hreg). exists b'.
  split; [unfold nca9555_write_data; cbn [i2c_bus addr deref]; red_bind; by rewrite E|]. split.
  - intros n Hn. unfold port at 1. rewrite !Hreg by lia. rewrite !Z.eqb_refl.
    rewrite (proj2 (Z.eqb_neq (r + 1) r)) by lia. cbn [andb]. by apply Hd.
  - intros a' r' Hr' Hne. rewrite Hreg by done.
    destruct (Z.eqb_spec a' a), (Z.eqb_spec r' r), (Z.eqb_spec r' (r + 1)); cbn [andb];
      try (by apply Hb1); tauto.
Qed.

Lemma read_pair `{!ChipReads B} b a r : present a -> r ∈ [0; 2; 4; 6] -> exists b1,
  nca9555_read_data (mk_nca true a) r 2 [0; 0] b = Ok (b1, [reg b a r; reg b a (r + 1)], RT_EOK) /\
  forall a' r', 2 <= r' -> reg b1 a' r' = reg b a' r'.
Proof.
  intros Ha Hr. destruct (chip_read b a r [0; 0] Ha Hr eq_refl) as (b1 & E & Hb). exists b1.
  split; [|done]. unfold nca9555_read_data. cbn [i2c_bus addr deref]. red_bind. by rewrite E.
Qed.

(** The pins that the driver knows. *)
Lemma get_list_range l p idx : Forall (fun q => 0 <= offset q < 16) l ->
  get_list_in l p = Ok (Some idx) -> 0 <= offset idx < 16.
Proof.
  induction 1 as [|q l Hq _ IH]; [done|]. cbn [get_list_in]. intros (r & _ & E)%bind_Ok_inv.
  destruct (r =? 0); [by injection E as <-|by apply IH].
Qed.

Lemma offset_range p idx : get_list p = Ok (Some idx) -> 0 <= offset idx < 16.
Proof. apply get_list_range. repeat constructor; cbn; lia. Qed.

Lemma get_list_pin j i : j ∈ [0; 1] -> i ∈ [0; 1; 2; 3; 4; 5; 6; 7] ->
  get_list (pin_name j i) = Ok (Some (IO j i)).
Proof.
  intros Hj Hi. repeat (apply elem_of_cons in Hj as [->|Hj]); try (by apply not_elem_of_nil in Hj);
  repeat (apply elem_of_cons in Hi as [->|Hi]); try (by apply not_elem_of_nil in Hi); reflexivity.
Qed.

End Spec.
End NcaSpec.

Module NcaThms.
Import I2c CStr CStrThms Nca NcaSpec.

Section Pins.
Context {B : Type} `{HB : I2cBus B} `{HC : !Chip B}.

(** C23: writing a pin sets that bit of the chip's output port to the level
    and leaves every other pin, register and chip as it was. *)
Theorem rt_nca9555_write_pin_sets `{!ChipReads B} b a pin idx pos size :
  present a -> get_list pin = Ok (Some idx) ->
  exists b', rt_nca9555_write_pin (mk_nca true a) pos pin size b = Ok (b', size) /\
    only_bit b b' a REGISTER_0_OUTPUT_PORT (offset idx) (negb (pos =? 0)).
Proof.
  intros Ha Hp. unfold rt_nca9555_write_pin. rewrite Hp. cbn [deref]. red_bind. cbn [deref]. red_bind.
  destruct (read_pair b a REGISTER_0_OUTPUT_PORT Ha ltac:(right; left)) as (b1 & -> & Hb1). red_bind.
  rewrite (Z.eqb_sym 0 pos).
  assert (Hc : (if pos =? 0 then clear_bit [reg b a REGISTER_0_OUTPUT_PORT; reg b a (REGISTER_0_OUTPUT_PORT + 1)] (offset idx)
    else set_bit [reg b a REGISTER_0_OUTPUT_PORT; reg b a (REGISTER_0_OUTPUT_PORT + 1)] (offset idx)) =
    changed (negb (pos =? 0)) [reg b a REGISTER_0_OUTPUT_PORT; reg b a (REGISTER_0_OUTPUT_PORT + 1)] (offset idx))
    by (by destruct (pos =? 0)).
  rewrite Hc.
  destruct (write_changed b b1 a REGISTER_0_OUTPUT_PORT REGISTER_0_OUTPUT_PORT (negb (pos =? 0)) (offset idx)
    Ha ltac:(left) (offset_range _ _ Hp) Hb1) as (b' & -> & Hbit & Hrest).
  exists b'. split; [done|]. by split.
Qed.

(** the mode of a pin: OUTPUT clears and INPUT sets its bit of the
    configuration port and nothing else; an unknown command changes nothing.
    INVERT sets the polarity port to the configuration port with the pin's
    bit set, so that the polarity of every other pin becomes its mode. *)
Theorem rt_nca9555_control_pin_modes `{!ChipReads B} b a pin idx cmd :
  present a -> get_list pin = Ok (Some idx) ->
  exists b', rt_nca9555_control_pin (mk_nca true a) cmd pin b = Ok (b', RT_EOK) /\
    if (cmd =? OUTPUT) || (cmd =? INPUT)
    then only_bit b b' a REGISTER_0_CONFIGURATION_PORT (offset idx) (cmd =? INPUT)
    else if cmd =? INVERT then
      (forall n, 0 <= n < 16 -> Z.testbit (port b' a REGISTER_0_POLARITY_INVERSION_PORT) n =
         if n =? offset idx then true else Z.testbit (port b a REGISTER_0_CONFIGURATION_PORT) n) /\
      (forall a' r', 2 <= r' -> ~ (a' = a /\ (r' = 4 \/ r' = 5)) -> reg b' a' r' = reg b a' r')
    else forall a' r', 2 <= r' -> reg b' a' r' = reg b a' r'.
Proof.
  intros Ha Hp. unfold rt_nca9555_control_pin. rewrite Hp. cbn [deref]. red_bind. cbn [deref]. red_bind.
  destruct (read_pair b a REGISTER_0_CONFIGURATION_PORT Ha ltac:(do 3 right; left)) as (b1 & -> & Hb1). red_bind.
  pose proof (offset_range _ _ Hp) as Hk.
  assert (W : forall r v, r ∈ [2; 4; 6] -> exists b',
    nca9555_write_data (mk_nca true a) r 2 (changed v [reg b a 6; reg b a (6 + 1)] (offset idx)) b1 = Ok (b', RT_EOK) /\
    (forall n, 0 <= n < 16 -> Z.testbit (port b' a r) n =
       if n =? offset idx then v else Z.testbit (port b a 6) n) /\
    (forall a' r', 2 <= r' -> ~ (a' = a /\ (r' = r \/ r' = r + 1)) -> reg b' a' r' = reg b a' r')).
  { intros r v Hr. by apply write_changed. }
  destruct (Z.eqb_spec cmd OUTPUT) as [->|].
  { destruct (W 6 false ltac:(do 2 right; left)) as (b' & E & Hn & Hr). cbn [changed] in E.
    unfold REGISTER_0_CONFIGURATION_PORT. rewrite E. exists b'. split; [done|]. by split. }
  destruct (Z.eqb_spec cmd INPUT) as [->|].
  { destruct (W 6 true ltac:(do 2 right; left)) as (b' & E & Hn & Hr). cbn [changed] in E.
    unfold REGISTER_0_CONFIGURATION_PORT. rewrite E. exists b'. split; [done|]. by split. }
  cbn [orb]. destruct (Z.eqb_spec cmd INVERT) as [->|].
  { destruct (W 4 true ltac:(right; left)) as (b' & E & Hn & Hr). cbn [changed] in E.
    unfold REGISTER_0_CONFIGURATION_PORT, REGISTER_0_POLARITY_INVERSION_PORT. rewrite E.
    exists b'. split; [done|]. by split. }
  by exists b1.
Qed.

(** reading a pin gives its bit of the input port. *)
Theorem rt_nca9555_read_pin_reads `{!ChipReads B} b a pin idx pos size :
  present a -> get_list pin = Ok (Some idx) ->
  exists b', rt_nca9555_read_pin (mk_nca true a) pos pin size b =
      Ok (b', pin, Z.b2z (Z.testbit (port b a REGISTER_0_INPUT_PORT) (offset idx))) /\
    forall a' r', 2 <= r' -> reg b' a' r' = reg b a' r'.
Proof.
  intros Ha Hp. unfold rt_nca9555_read_pin. rewrite Hp. cbn [deref]. red_bind. cbn [deref]. red_bind.
  destruct (read_pair b a REGISTER_0_INPUT_PORT Ha ltac:(left)) as (b1 & -> & Hb1). red_bind.
  exists b1. split; [|done]. pose proof (offset_range _ _ Hp) as Hk. unfold port.
  rewrite pair_testbit by (try apply reg_byte; lia).
  assert (Hbit : forall t k, Z.land (Z.shiftr t k) 1 = Z.b2z (Z.testbit t k)).
  { intros t k. rewrite Z.testbit_odd. change 1 with (Z.ones 1) at 1. rewrite Z.land_ones by lia.
    change (2 ^ 1) with 2. rewrite Zmod_odd. by destruct (Z.odd _). }
  change (zget [reg b a REGISTER_0_INPUT_PORT; reg b a (REGISTER_0_INPUT_PORT + 1)] 0)
    with (Ok (reg b a REGISTER_0_INPUT_PORT)).
  change (zget [reg b a REGISTER_0_INPUT_PORT; reg b a (REGISTER_0_INPUT_PORT + 1)] 1)
    with (Ok (reg b a (REGISTER_0_INPUT_PORT + 1))).
  destruct (Z.ltb_spec (offset idx) 8); red_bind; by rewrite Hbit.
Qed.

(** the driver does not look at the result of its reads: when the read
    of the output port fails before any data, the write that follows drives
    every other output of the chip low. *)
Theorem write_pin_after_failed_read b b1 a pin idx pos size ret :
  present a -> get_list pin = Ok (Some idx) -> ret <> 2 ->
  let msgs := [mk_msg a RT_I2C_WR 1 [2]; mk_msg a RT_I2C_RD 2 [0; 0]] in
  rt_i2c_transfer msgs b = Ok (b1, msgs, ret) ->
  exists b', rt_nca9555_write_pin (mk_nca true a) pos pin size b = Ok (b', size) /\
    forall n, 0 <= n < 16 -> Z.testbit (port b' a REGISTER_0_OUTPUT_PORT) n =
      ((n =? offset idx) && negb (pos =? 0)).
Proof.
  intros Ha Hp Hret msgs E. unfold rt_nca9555_write_pin. rewrite Hp. cbn [deref]. red_bind. cbn [deref]. red_bind.
  assert (Er : nca9555_read_data (mk_nca true a) REGISTER_0_OUTPUT_PORT 2 [0; 0] b = Ok (b1, [0; 0], - RT_ERROR)).
  { unfold nca9555_read_data. cbn [i2c_bus addr deref]. red_bind.
    unfold REGISTER_0_OUTPUT_PORT. fold msgs. rewrite E. red_bind. cbn [msgs lookup list_lookup deref].
    red_bind. by rewrite (proj2 (Z.eqb_neq ret 2) Hret). }
  rewrite Er. red_bind. rewrite (Z.eqb_sym 0 pos).
  destruct (changed_pair (negb (pos =? 0)) 0 0 (offset idx) ltac:(lia) ltac:(lia) (offset_range _ _ Hp))
    as (d0 & d1 & Ed & R0 & R1 & Hd).
  assert (Hc : (if pos =? 0 then clear_bit [0; 0] (offset idx) else set_bit [0; 0] (offset idx)) = [d0; d1])
    by (rewrite <- Ed; by destruct (pos =? 0)).
  rewrite Hc.
  destruct (chip_write b1 a REGISTER_0_OUTPUT_PORT d0 d1 Ha ltac:(left) R0 R1) as (b' & msgs' & E2 & Hreg).
  unfold nca9555_write_data. cbn [i2c_bus addr deref]. red_bind. rewrite E2. red_bind.
  exists b'. split; [done|]. intros n Hn. unfold port. rewrite !Hreg by (unfold REGISTER_0_OUTPUT_PORT; lia).
  rewrite !Z.eqb_refl. cbn [andb]. rewrite (proj2 (Z.eqb_neq (_ + 1) _)) by lia.
  rewrite Hd by done. change (0 + 256 * 0) with 0. rewrite Z.bits_0. by destruct (n =? offset idx).
Qed.

(** A pin that the driver does not know is a null pointer. *)
Lemma unknown_pin dev pin pos size b : get_list pin = Ok None ->
  rt_nca9555_write_pin dev pos pin size b = Err F_wild.
Proof. intros E. unfold rt_nca9555_write_pin. by rewrite E. Qed.

End Pins.

(** *** Chips on a bus, as a function *)

(** Chips at every address, their registers as a function. *)
Definition chips : Type := Z -> Z -> Z.

Definition set_regs (c : chips) (a r d0 d1 : Z) : chips := fun a' r' =>
  if (a' =? a) && (r' =? r) then d0 else if (a' =? a) && (r' =? r + 1) then d1 else c a' r'.

#[export] Instance chips_bus : I2cBus chips := fun msgs c =>
  match msgs with
  | [mk_msg a f1 l1 [r]; mk_msg a2 f l v] =>
      if I2c.has f RT_I2C_RD
      then Ok (c, [mk_msg a f1 l1 [r]; mk_msg a2 f l [u8 (c a r); u8 (c a (r + 1))]], 2)
      else match v with
           | [d0; d1] => Ok (set_regs c a r d0 d1, msgs, 2)
           | _ => Ok (c, msgs, - RT_EIO)
           end
  | _ => Ok (c, msgs, - RT_EIO)
  end.

(** A bus on which the chips do not answer reads. *)
Definition mute_bus : I2cBus chips := fun msgs c =>
  match msgs with
  | [m1; m2] => if I2c.has (flags m2) RT_I2C_RD then Ok (c, msgs, - RT_EIO) else chips_bus msgs c
  | _ => chips_bus msgs c
  end.

Lemma set_regs_u8 (c : chips) a r d0 d1 a' r' : 0 <= d0 < 256 -> 0 <= d1 < 256 ->
  u8 (set_regs c a r d0 d1 a' r') =
    if (a' =? a) && (r' =? r) then d0 else if (a' =? a) && (r' =? r + 1) then d1 else u8 (c a' r').
Proof.
  intros. unfold set_regs. destruct ((a' =? a) && (r' =? r)); [by rewrite u8_small|].
  destruct ((a' =? a) && (r' =? r + 1)); [by rewrite u8_small|done].
Qed.

#[export] Instance chips_ok : @Chip chips chips_bus.
Proof.
  refine (@Build_Chip chips chips_bus (fun c a r => u8 (c a r)) (fun _ => True) _ _).
  - intros. apply u8_range.
  - intros b a r d0 d1 _ _ R0 R1. eexists _, _. split; [reflexivity|]. intros. by apply set_regs_u8.
Defined.

Definition mute_ok : @Chip chips mute_bus.
Proof.
  refine (@Build_Chip chips mute_bus (fun c a r => u8 (c a r)) (fun _ => True) _ _).
  - intros. apply u8_range.
  - intros b a r d0 d1 _ _ R0 R1. eexists _, _. split; [reflexivity|]. intros. by apply set_regs_u8.
Defined.

#[export] Instance chips_read : @ChipReads chips chips_bus chips_ok.
Proof. intros b a r v _ _ _. by exists b. Qed.

Definition demo_chips : chips := fun a r => if r =? 2 then 15 else if r =? 6 then 240 else 0.

Lemma rt_nca9555_write_pin_sets_witness : exists b',
  rt_nca9555_write_pin (mk_nca true 33) 1 (pin_name 1 2) 0 demo_chips = Ok (b', 0) /\
  only_bit demo_chips b' 33 2 10 true.
Proof. apply (@rt_nca9555_write_pin_sets chips chips_bus chips_ok chips_read demo_chips 33 (pin_name 1 2) (IO 1 2) 1 0 I eq_refl). Defined.

Lemma rt_nca9555_control_pin_modes_witness : exists b',
  rt_nca9555_control_pin (mk_nca true 33) INPUT (pin_name 0 1) demo_chips = Ok (b', RT_EOK) /\
  only_bit demo_chips b' 33 6 1 true.
Proof. apply (@rt_nca9555_control_pin_modes chips chips_bus chips_ok chips_read demo_chips 33 (pin_name 0 1) (IO 0 1) INPUT I eq_refl). Defined.

Lemma rt_nca9555_read_pin_reads_witness : exists b',
  rt_nca9555_read_pin (mk_nca true 33) 0 (pin_name 0 1) 0 demo_chips = Ok (b', pin_name 0 1, 0).
Proof.
  destruct (@rt_nca9555_read_pin_reads chips chips_bus chips_ok chips_read demo_chips 33 (pin_name 0 1) (IO 0 1) 0 0 I eq_refl) as (b' & E & _).
  by exists b'.
Defined.

Lemma write_pin_after_failed_read_witness : exists b',
  @rt_nca9555_write_pin chips mute_bus (mk_nca true 33) 1 (pin_name 1 2) 0 demo_chips = Ok (b', 0) /\
  @port chips mute_bus mute_ok demo_chips 33 2 = 15 /\
  Z.testbit (@port chips mute_bus mute_ok b' 33 2) 0 = false.
Proof.
  destruct (@write_pin_after_failed_read chips mute_bus mute_ok demo_chips demo_chips 33 (pin_name 1 2)
    (IO 1 2) 1 0 (-8) I eq_refl ltac:(lia) eq_refl) as (b' & E & Hn).
  exists b'. split; [done|]. split; [reflexivity|]. apply (Hn 0). lia.
Defined.

(** *** The driver on the software bus *)

(** C37: a register write of the driver returns RT_EOK or -RT_ERROR, and when
    it returns RT_EOK there is exactly this on the lines: a start, the chip's
    address for writing, the register, the two bytes, each of the four bytes
    acknowledged by the chip, and a stop.  The bus is idle before, and the
    chip keeps to the protocol and does not hold SCL through the time-out of
    the stop ([Decode.polite]). *)
Theorem nca9555_write_on_the_wire `{Wire.Slave} a r d0 d1 w w' e :
  Decode.d_scl (Decode.bus w) = true -> Decode.d_sda (Decode.bus w) = true -> 0 <= a < 128 ->
  nca9555_write_data (mk_nca true a) r 2 [d0; d1] w = Ok (w', e) ->
  (e = RT_EOK \/ e = - RT_ERROR) /\
  (e = RT_EOK -> Decode.polite (Wire.hist w') = true ->
   Decode.bus w' = Decode.mk_dec true true None
     (Decode.d_out (Decode.bus w) ++ [Decode.Start] ++
        concat (map Decode.frame [2 * a; r; d0; d1]) ++ [Decode.Stop])).
Proof.
  intros Hc Hd Ha. unfold nca9555_write_data. cbn [i2c_bus addr deref]. red_bind.
  intros ([[w1 msgs'] ret] & E & E1)%bind_Ok_inv. injection E1 as <- <-.
  unfold rt_i2c_transfer, soft_i2c in E.
  set (msgs := [mk_msg a RT_I2C_WR 1 [r]; _]) in E.
  assert (Hp : Forall Decode.plain msgs) by (repeat constructor; vm_compute; congruence).
  destruct (Decode.i2c_bit_xfer_same _ _ _ _ _ _ Hp E) as [Hf Hret].
  split; [destruct (ret =? 2); auto|]. intros He Hpol.
  assert (ret = 2) as -> by (destruct (Z.eqb_spec ret 2); done).
  rewrite (Decode.i2c_bit_xfer_wire stm32_bit_ops_default eq_refl msgs w w1 msgs' 2) by
    (done || lia || (cbn; split_and!; done)).
  do 2 f_equal.
  inversion Hf as [|x1 m1 l1 l1' S1 Hf1]; subst. inversion Hf1 as [|x2 m2 l2 l2' S2 Hf2]; subst.
  inversion Hf2; subst. destruct m1 as [a1 f1 n1 b1], m2 as [a2 f2 n2 b2].
  destruct S1 as (Ea1 & Ef1 & El1 & Eb1), S2 as (Ea2 & Ef2 & El2 & Eb2). cbn in *. subst.
  rewrite (Eb1 eq_refl), (Eb2 eq_refl). unfold Decode.address_byte. cbn [flags I2c.addr].
  change (I2c.has RT_I2C_WR RT_I2C_RD) with false. cbn iota.
  rewrite Z.shiftl_mul_pow2 by lia. change (2 ^ 1) with 2. rewrite u8_small by lia.
  rewrite (Z.mul_comm a 2). done.
Qed.

Lemma nca9555_write_on_the_wire_witness : exists w',
  @nca9555_write_data _ (@soft_i2c (I2cThms.replying 0)) (mk_nca true 33) 2 2 [90; 165] (Wire.mk_wires [] 0) = Ok (w', RT_EOK) /\
  @Decode.bus (I2cThms.replying 0) w' = Decode.mk_dec true true None
    ([] ++ [Decode.Start] ++ concat (map Decode.frame [2 * 33; 2; 90; 165]) ++ [Decode.Stop]).
Proof.
  destruct (@nca9555_write_data _ (@soft_i2c (I2cThms.replying 0)) (mk_nca true 33) 2 2 [90; 165] (Wire.mk_wires [] 0))
    as [[w' e]|] eqn:E; [|vm_compute in E; discriminate].
  assert (e = RT_EOK /\ @Decode.polite (I2cThms.replying 0) (Wire.hist w') = true) as [-> Hp].
  { vm_compute in E. injection E as <- <-. split; [done|vm_compute; reflexivity]. }
  exists w'. split; [done|].
  destruct (@nca9555_write_on_the_wire (I2cThms.replying 0) 33 2 90 165 (Wire.mk_wires [] 0) w' RT_EOK
    eq_refl eq_refl ltac:(lia) E) as [_ Hb].
  exact (Hb eq_refl Hp).
Defined.

End NcaThms.
