(* ===== verification/App.v ===== *)
(** * The key cabinet application (applications/hw_module, app, tool.h)

    [App] is the code of the three hardware modules and of the thread loops
    over the devices of [Device]; [Rfid] holds what it uses of the card
    reader.  [Debounce] and [DebounceThms] prove the filter of the sensors,
    [Pins] and [AppThms] the lamps and the locks, down to the registers of the
    port expanders.

    Only the configuration without the slave board is modelled (BOARD_NUM is
    1, APP_NUM is 6); the board is the record of its devices. *)
From S2P Require Import Prelude CTypes CString Printf Device I2cBit Nca9555.
From stdpp Require Import base list gmap.
From Stdlib Require Import ZArith Lia.
Open Scope Z_scope.

Module App.
Import Dev Nca.

Definition APP_NUM_MAIN : Z := 6.
Definition BOARD_NUM : Z := 1.
Definition APP_NUM : Z := 6.

Definition PIN_LOW : Z := 0.
Definition PIN_HIGH : Z := 1.

(** [key_status_t] and [lock_status_t]. *)
Definition key_out : Z := 1.
Definition key_in : Z := 2.
Definition key_erro : Z := 3.
Definition unlock : Z := 0.
Definition lock : Z := 1.

Record key_code_t : Type := mk_code { ch : list Z; code : list Z }.

Record key_info_t : Type := mk_key {
  cur_rfid_code : list Z;
  last_rfid_code : list Z;
  user_data : key_code_t;
  key_status : Z;
  last_key_status : Z;
  lock_status : Z
}.

Definition with_key_status (k : key_info_t) (v : Z) : key_info_t :=
  mk_key (cur_rfid_code k) (last_rfid_code k) (user_data k) v (last_key_status k) (lock_status k).
Definition with_last_key_status (k : key_info_t) (v : Z) : key_info_t :=
  mk_key (cur_rfid_code k) (last_rfid_code k) (user_data k) (key_status k) v (lock_status k).
Definition with_lock_status (k : key_info_t) (v : Z) : key_info_t :=
  mk_key (cur_rfid_code k) (last_rfid_code k) (user_data k) (key_status k) (last_key_status k) v.
Definition with_last_rfid_code (k : key_info_t) (v : list Z) : key_info_t :=
  mk_key (cur_rfid_code k) v (user_data k) (key_status k) (last_key_status k) (lock_status k).

Section App.
(** The state that the drivers work on, and what becomes of it while a
    thread sleeps. *)
Context {W : Type} (mdelay : Z -> W -> W).

(** [WL164001_t]: the devices of the board; a device that was not found is
    a null pointer. *)
Record WL164001_t : Type := mk_board {
  pos : Z;
  led : option (rt_device W);
  stat : option (rt_device W);
  elec : option (rt_device W)
}.

(** The global variables: [key], the static sample windows of stat.c, the
    codes that were printed (key number and code), and the drivers' state. *)
Record app : Type := mk_app {
  key : list key_info_t;
  check_amr : list (list Z);
  check_elec : list (list Z);
  printed : list (Z * list Z);
  world : W
}.

Definition with_key (a : app) (k : list key_info_t) : app :=
  mk_app k (check_amr a) (check_elec a) (printed a) (world a).
Definition with_world (a : app) (w : W) : app :=
  mk_app (key a) (check_amr a) (check_elec a) (printed a) w.
Definition with_amr (a : app) (c : list (list Z)) : app :=
  mk_app (key a) c (check_elec a) (printed a) (world a).
Definition with_elec (a : app) (c : list (list Z)) : app :=
  mk_app (key a) (check_amr a) c (printed a) (world a).

Definition upd_key (a : app) (i : Z) (f : key_info_t -> key_info_t) : result app :=
  k ← zget (key a) i;
  l ← zset (key a) i (f k);
  Ok (with_key a l).

(** "%s%d%s%d", "IO" and "_". *)
Definition fmt_io : list Z := [37; 115; 37; 100; 37; 115; 37; 100; 0].
Definition text_IO : list Z := [73; 79; 0].
Definition text_line : list Z := [95; 0].

(** [rt_sprintf (str, "%s%d%s%d", "IO", j, "_", off)] into [char str[6]], at
    some address on the stack; the strings are at some address in flash. *)
Definition io_name (j off : Z) : result (list Z) :=
  r ← Printf.rt_sprintf 536870912 (replicate 6 0) fmt_io
    [Printf.VPtr 134217728 text_IO; Printf.VInt j; Printf.VPtr 134217728 text_line; Printf.VInt off];
  Ok r.1.

(** *** stat.c *)

(** A device call through a pointer of the board: a null pointer fails the
    assertion of the device layer. *)
Definition board_read (d : option (rt_device W)) (p : Z) (buffer : list Z) (size : Z) (a : app)
  : result (app * Z) :=
  match d with
  | None => Err F_assert
  | Some d =>
      r ← rt_device_read d p buffer size (world a);
      let '(w, _, v, _) := r in Ok (with_world a w, v)
  end.

Definition board_write (d : option (rt_device W)) (p : Z) (buffer : list Z) (size : Z) (a : app)
  : result app :=
  match d with
  | None => Err F_assert
  | Some d => r ← rt_device_write d p buffer size (world a);
              let '(w, _, _) := r in Ok (with_world a w)
  end.

(** The driver's control function leaves the device as it is ([control_keeps]
    below), so that the board keeps the device it has. *)
Definition board_control (d : option (rt_device W)) (cmd : Z) (arg : list Z) (a : app) : result app :=
  match d with
  | None => Err F_assert
  | Some d => r ← rt_device_control d cmd arg (world a); let '(_, w, _) := r in Ok (with_world a w)
  end.

Definition get_amr (i : Z) (board : WL164001_t) (a : app) : result (app * Z) :=
  if APP_NUM <=? i then Ok (a, u8 (- RT_ERROR)) else
  str ← io_name 1 (i - pos board);
  r ← board_read (stat board) 0 str 0 a;
  Ok (r.1, u8 r.2).

Definition get_lock (i : Z) (board : WL164001_t) (a : app) : result (app * Z) :=
  if APP_NUM <=? i then Ok (a, u8 (- RT_ERROR)) else
  str ← io_name 0 (i - pos board);
  r ← board_read (stat board) 0 str 0 a;
  Ok (r.1, u8 r.2).

(** [for (i = 0; i < 6; i++)] of both checks: shift the window and add up. *)
Fixpoint shift_window (n : nat) (i : Z) (window : list Z) (sum : Z) : result (list Z * Z) :=
  match n with
  | O => Ok (window, sum)
  | S n =>
      v ← zget window (i + 1);
      window ← zset window i v;
      v ← zget window i;
      shift_window n (i + 1) window (sum + v)
  end.

Definition add_sample (window : list Z) (s : Z) : result (list Z * Z) :=
  r ← shift_window 6 0 window s;
  window ← zset r.1 6 s;
  Ok (window, r.2).

(** One turn of the loop of [check_key], and of [check_lock]. *)
Definition check_key_at (board : WL164001_t) (index : Z) (a : app) : result app :=
  r ← get_amr index board a;
  let '(a, amr_status) := r in
  window ← zget (check_amr a) index;
  r ← add_sample window amr_status;
  c ← zset (check_amr a) index r.1;
  upd_key (with_amr a c) index (fun k => with_key_status k (if 4 <? r.2 then key_out else key_in)).

Definition check_lock_at (board : WL164001_t) (index : Z) (a : app) : result app :=
  r ← get_lock index board a;
  let '(a, lock_stat) := r in
  window ← zget (check_elec a) index;
  r ← add_sample window lock_stat;
  c ← zset (check_elec a) index r.1;
  upd_key (with_elec a c) index (fun k => with_lock_status k (if 4 <? r.2 then lock else unlock)).

(** [for (i = from; i < from + n; i++)]. *)
Fixpoint for_keys (n : nat) (i : Z) (body : Z -> app -> result app) (a : app) : result app :=
  match n with
  | O => Ok a
  | S n => a ← body i a; for_keys n (i + 1) body a
  end.

Definition check_key (board : WL164001_t) (a : app) : result app :=
  for_keys (Z.to_nat APP_NUM_MAIN) (pos board) (check_key_at board) a.

Definition check_lock (board : WL164001_t) (a : app) : result app :=
  for_keys (Z.to_nat APP_NUM_MAIN) (pos board) (check_lock_at board) a.

(** *** The initialisation of the modules: the mode of the twelve pins. *)
Definition init_pins (d : option (rt_device W)) (mode : Z) (body : Z -> app -> result app) (a : app)
  : result app :=
  let pins j := for_keys (Z.to_nat APP_NUM_MAIN) 0 (fun i a =>
    str ← io_name j i; a ← board_control d mode str a; body i a) in
  a ← pins 0 a; pins 1 a.

(** [rt_device_open] changes the device, which the board's record shares. *)
Definition board_open (d : rt_device W) (a : app) : result (rt_device W * app) :=
  r ← rt_device_open d 3 (world a);
  let '(d, w, _) := r in Ok (d, with_world a w).

Definition stat_init (stat : option (rt_device W)) (a : app) : result (option (rt_device W) * app * Z) :=
  match stat with
  | None => Ok (None, a, - RT_ERROR)
  | Some d =>
      r ← board_open d a;
      let '(d, a) := r in
      a ← init_pins (Some d) INPUT
        (fun i a => upd_key a i (fun k => with_last_key_status (with_key_status k key_in) key_out)) a;
      Ok (Some d, a, RT_EOK)
  end.

Definition led_init (led : option (rt_device W)) (a : app) : result (option (rt_device W) * app * Z) :=
  match led with
  | None => Ok (None, a, - RT_ERROR)
  | Some d =>
      r ← board_open d a;
      let '(d, a) := r in
      a ← init_pins (Some d) OUTPUT (fun _ a => Ok a) a;
      Ok (Some d, a, RT_EOK)
  end.

Definition elec_init (elec : option (rt_device W)) (a : app) : result (option (rt_device W) * app * Z) :=
  match elec with
  | None => Ok (None, a, - RT_ERROR)
  | Some d => r ← board_open d a; let '(d, a) := r in Ok (Some d, a, RT_EOK)
  end.

(** *** led.c *)

Definition led_pair (red green : Z) (i : Z) (board : WL164001_t) (a : app) : result (app * Z) :=
  if APP_NUM <=? i then Ok (a, - RT_ERROR) else
  r ← io_name 0 (i - pos board);
  g ← io_name 1 (i - pos board);
  a ← board_write (led board) red r 0 a;
  a ← board_write (led board) green g 0 a;
  Ok (a, RT_EOK).

Definition led_only_red : Z -> WL164001_t -> app -> result (app * Z) := led_pair PIN_HIGH PIN_LOW.
Definition led_only_green : Z -> WL164001_t -> app -> result (app * Z) := led_pair PIN_LOW PIN_HIGH.

(** [rfid_printf] (M606_module/M606_tool.c). *)
Definition M606_OK : Z := 0.
Definition M606_SAME : Z := 2.

Definition rfid_printf (i : Z) (a : app) : result (app * Z) :=
  k ← zget (key a) i;
  if bool_decide (last_rfid_code k = cur_rfid_code k) then Ok (a, M606_SAME) else
  a ← upd_key a i (fun k => with_last_rfid_code k (cur_rfid_code k));
  Ok (mk_app (key a) (check_amr a) (check_elec a) (printed a ++ [(i, cur_rfid_code k)]) (world a), M606_OK).

Definition key_led_at (board : WL164001_t) (i : Z) (a : app) : result app :=
  k ← zget (key a) i;
  a ← (if (key_status k =? key_in) && negb (last_key_status k =? key_in) then
         r ← led_only_red i board a;
         a ← upd_key r.1 i (fun k => with_last_key_status k (key_status k));
         r ← rfid_printf i a; Ok r.1
       else Ok a);
  k ← zget (key a) i;
  if (key_status k =? key_out) && negb (last_key_status k =? key_out) then
    r ← led_only_green i board a;
    upd_key r.1 i (fun k => with_last_key_status k (key_status k))
  else Ok a.

Definition key_status_led (board : WL164001_t) (a : app) : result app :=
  for_keys (Z.to_nat APP_NUM_MAIN) (pos board) (key_led_at board) a.

(** *** elec.c *)

(** Without one of the two actions the names are not initialised. *)
Definition elec_points (status i : Z) (board : WL164001_t) : result (list Z * list Z) :=
  if status =? unlock then
    p ← io_name 0 (i - pos board); q ← io_name 1 (i - pos board); Ok (p, q)
  else if status =? lock then
    p ← io_name 1 (i - pos board); q ← io_name 0 (i - pos board); Ok (p, q)
  else Err F_wild.

Definition elec_toggle (board : WL164001_t) (status i : Z) (a : app) : result app :=
  r ← elec_points status i board;
  let '(a_point, b_point) := r in
  a ← board_control (elec board) OUTPUT b_point a;
  a ← board_write (elec board) PIN_LOW b_point 0 a;
  a ← board_control (elec board) OUTPUT a_point a;
  a ← board_write (elec board) PIN_HIGH a_point 0 a;
  let a := with_world a (mdelay 50 (world a)) in
  board_write (elec board) PIN_LOW a_point 0 a.

(** [board[BOARD_NUM-2]] is outside the array. *)
Definition elec_action (board : WL164001_t) (i status : Z) (a : app) : result (app * Z) :=
  if APP_NUM - 1 <? i then Ok (a, - RT_ERROR) else
  if pos board <=? i then a ← elec_toggle board status i a; Ok (a, RT_EOK) else Err F_wild.

(** *** app_work.c *)

(** [operate_lock]: [i] is [atoi (argv[1])]. *)
Definition operate_lock (board : WL164001_t) (argc i : Z) (a : app) : result (app * Z) :=
  if (argc =? 2) && ((0 <=? i) && (i <? APP_NUM)) then
    let a := with_world a (mdelay 500 (world a)) in
    r ← elec_action board i unlock a;
    let a := with_world r.1 (mdelay 1000 (world r.1)) in
    r ← elec_action board i lock a;
    Ok (r.1, RT_EOK)
  else Ok (a, - RT_ERROR).

(** One turn of the loop of [stat_entry] up to its [rt_sem_release], and of
    [led_entry] after its [rt_sem_take]. *)
Definition stat_turn (board : WL164001_t) (a : app) : result app :=
  a ← check_key board a; check_lock board a.
Definition led_turn (board : WL164001_t) (a : app) : result app := key_status_led board a.

End App.
Arguments app W : clear implicits.
Arguments WL164001_t W : clear implicits.
End App.

(** ** The names of the pins *)
Module PinNames.
Import Nca App.

(** The name that is printed is that of the pin. *)
Lemma io_name_ok j off : j ∈ [0; 1] -> 0 <= off < 8 -> io_name j off = Ok (pin_name j off).
Proof.
  intros Hj Ho.
  assert (off = 0 \/ off = 1 \/ off = 2 \/ off = 3 \/ off = 4 \/ off = 5 \/ off = 6 \/ off = 7) as H by lia.
  apply list_elem_of_In in Hj as [<-|[<-|[]]]; repeat (destruct H as [->|H]; [by vm_compute|]); subst; by vm_compute.
Qed.

(** An offset of two characters does not fit. *)
Lemma io_name_overflow : io_name 0 10 = Err F_wild /\ io_name 0 (-1) = Err F_wild.
Proof. by vm_compute. Qed.

End PinNames.

(** ** Debouncing *)
Module Debounce.
Import Dev Nca App PinNames.

Definition total (l : list Z) : Z := foldr Z.add 0 l.

(** A window after one more sample. *)
Definition push (window : list Z) (s : Z) : list Z := tail window ++ [s].

Lemma add_sample_push window s : length window = 7%nat ->
  add_sample window s = Ok (push window s, total (push window s)).
Proof.
  intros H. destruct window as [|z [|z0 [|z1 [|z2 [|z3 [|z4 [|z5 [|? ?]]]]]]]]; try done.
  transitivity (Ok ([z0; z1; z2; z3; z4; z5; s], s + z0 + z1 + z2 + z3 + z4 + z5)); [reflexivity|].
  cbn. do 2 f_equal. lia.
Qed.

Section Poll.
Context {W : Type}.
Implicit Types a : app W.

(** Both checks at once: [check_key] samples the pins IO1_x into [check_amr],
    [check_lock] the pins IO0_x into [check_elec]. *)
Definition check_at (keys : bool) (board : WL164001_t W) : Z -> app W -> result (app W) :=
  if keys then check_key_at board else check_lock_at board.
Definition check (keys : bool) (board : WL164001_t W) : app W -> result (app W) :=
  if keys then check_key board else check_lock board.
Definition pin_row (keys : bool) : Z := if keys then 1 else 0.

Definition mk (keys : bool) (ks : list key_info_t) (mine other : list (list Z)) pr (w : W) : app W :=
  if keys then mk_app ks mine other pr w else mk_app ks other mine pr w.

(** The state that a window stands for. *)
Definition state_of (keys : bool) (window : list Z) : Z :=
  if keys then (if 4 <? total window then key_out else key_in)
  else (if 4 <? total window then lock else unlock).
Definition with_state (keys : bool) (window : list Z) (k : key_info_t) : key_info_t :=
  if keys then with_key_status k (state_of true window) else with_lock_status k (state_of false window).

(** Reading the pins of a row from [k] on gives the samples [ss]. *)
Fixpoint reads (d : rt_device W) (j k : Z) (ss : list Z) (w w' : W) : Prop :=
  match ss with
  | [] => w' = w
  | s :: ss => exists w1 b e, rt_device_read d 0 (pin_name j k) 0 w = Ok (w1, b, s, e) /\
      reads d j (k + 1) ss w1 w'
  end.

Definition byte (s : Z) : Prop := 0 <= s < 256.

Lemma check_at_step keys board d i ks mine other pr w w1 b e s k c :
  pos board = 0 -> stat board = Some d -> 0 <= i < 6 -> byte s ->
  rt_device_read d 0 (pin_name (pin_row keys) i) 0 w = Ok (w1, b, s, e) ->
  ks !! Z.to_nat i = Some k -> mine !! Z.to_nat i = Some c -> length c = 7%nat ->
  check_at keys board i (mk keys ks mine other pr w) =
    Ok (mk keys (<[Z.to_nat i := with_state keys (push c s) k]> ks)
          (<[Z.to_nat i := push c s]> mine) other pr w1).
Proof.
  intros Hp Hd Hi Hs Hr Hk Hc H7.
  assert (Ek : (Z.to_nat i < length ks)%nat) by (by eapply lookup_lt_Some).
  assert (Ec : (Z.to_nat i < length mine)%nat) by (by eapply lookup_lt_Some).
  assert (Rk : zget ks i = Ok k) by (by apply zget_Ok; [lia|]).
  assert (Rc : zget mine i = Ok c) by (by apply zget_Ok; [lia|]).
  assert (Wk : forall x, zset ks i x = Ok (<[Z.to_nat i := x]> ks)) by (intros; apply zset_Ok; unfold zlen; lia).
  assert (Wc : forall x, zset mine i x = Ok (<[Z.to_nat i := x]> mine)) by (intros; apply zset_Ok; unfold zlen; lia).
  assert (Hn : io_name (pin_row keys) i = Ok (pin_name (pin_row keys) i)).
  { apply io_name_ok; [by destruct keys; in_list|lia]. }
  destruct keys; cbn [pin_row] in *; cbn [check_at mk]; unfold check_key_at, check_lock_at, get_amr, get_lock;
    rewrite Hp, Hd, Z.sub_0_r, (proj2 (Z.leb_gt APP_NUM i)) by (unfold APP_NUM; lia);
    rewrite Hn; red_bind; unfold board_read; cbn [world]; rewrite Hr; red_bind; cbn [fst snd];
    rewrite u8_small by done; cbn [check_amr check_elec with_world]; rewrite Rc; red_bind;
    rewrite add_sample_push by done; red_bind; cbn [fst snd]; rewrite Wc; red_bind;
    unfold upd_key; cbn [key with_amr with_elec with_world]; rewrite Rk; red_bind; by rewrite Wk.
Qed.

(** The new windows and the new keys of a poll. *)
Definition pushes (mine : list (list Z)) (ss : list Z) : list (list Z) := zip_with push mine ss.
Definition restate (keys : bool) (mine : list (list Z)) (ks : list key_info_t) : list key_info_t :=
  zip_with (with_state keys) mine ks.

Definition window (c : list Z) : Prop := length c = 7%nat.

Lemma check_loop keys board d ss : pos board = 0 -> stat board = Some d -> Forall byte ss ->
  forall ks mine kpre cpre other pr w w', length ks = length ss -> length mine = length ss ->
  length kpre = length cpre -> Z.of_nat (length kpre + length ss) <= 6 -> Forall window mine ->
  reads d (pin_row keys) (Z.of_nat (length kpre)) ss w w' ->
  for_keys (length ss) (Z.of_nat (length kpre)) (check_at keys board)
    (mk keys (kpre ++ ks) (cpre ++ mine) other pr w) =
  Ok (mk keys (kpre ++ restate keys (pushes mine ss) ks) (cpre ++ pushes mine ss) other pr w').
Proof.
  intros Hp Hd. induction 1 as [|s ss Hs Hss IH]; intros ks mine kpre cpre other pr w w' Lk Lm Lp L6 Hw.
  { destruct ks, mine; try done. by intros ->. }
  destruct ks as [|k ks]; [done|]. destruct mine as [|c mine]; [done|].
  inversion Hw as [|? ? Hc Hw']; subst. intros (w1 & b & e & Hr & Hrs). cbn [length for_keys].
  cbn [length] in L6, Lk, Lm.
  rewrite (check_at_step keys board d _ _ _ _ _ _ w1 b e s k c Hp Hd); [|lia|done|done| | |done];
    rewrite ?Nat2Z.id; [| by rewrite list_lookup_middle | by rewrite list_lookup_middle].
  red_bind. rewrite (insert_app_r_alt kpre), (insert_app_r_alt cpre) by lia.
  rewrite Lp, !Nat.sub_diag. cbn [insert list_insert].
  rewrite (cons_middle _ kpre), (cons_middle _ cpre), !(app_assoc _ [_]).
  specialize (IH ks mine (kpre ++ [with_state keys (push c s) k]) (cpre ++ [push c s]) other pr w1 w').
  rewrite !length_app in IH. cbn [length] in IH.
  replace (Z.of_nat (length cpre) + 1) with (Z.of_nat (length kpre + 1)) by lia.
  rewrite IH; [|lia|lia|lia|lia|done|].
  - by rewrite <- !app_assoc.
  - by replace (Z.of_nat (length kpre + 1)) with (Z.of_nat (length kpre) + 1) by lia.
Qed.

(** One poll of the six keys. *)
Lemma check_poll keys board d ss ks mine other pr w w' :
  pos board = 0 -> stat board = Some d -> Forall byte ss -> length ss = 6%nat ->
  length ks = 6%nat -> length mine = 6%nat -> Forall window mine ->
  reads d (pin_row keys) 0 ss w w' ->
  check keys board (mk keys ks mine other pr w) =
    Ok (mk keys (restate keys (pushes mine ss) ks) (pushes mine ss) other pr w').
Proof.
  intros Hp Hd Hb H6 Lk Lm Hw Hr.
  pose proof (check_loop keys board d ss Hp Hd Hb ks mine [] [] other pr w w') as H.
  rewrite H6 in H. specialize (H Lk Lm eq_refl ltac:(cbn; lia) Hw Hr). cbn [Datatypes.app length] in H.
  change (Z.of_nat 0) with 0 in H.
  destruct keys; cbn [check]; unfold check_key, check_lock; rewrite Hp; exact H.
Qed.

(** Polls one after the other, and what they sample. *)
Fixpoint polls (keys : bool) (board : WL164001_t W) (n : nat) (a : app W) : result (app W) :=
  match n with O => Ok a | S n => a ← check keys board a; polls keys board n a end.

Fixpoint samples (d : rt_device W) (j : Z) (sss : list (list Z)) (w w' : W) : Prop :=
  match sss with
  | [] => w' = w
  | ss :: sss => exists w1, reads d j 0 ss w w1 /\ samples d j sss w1 w'
  end.

(** The samples of key [k], and its window after them. *)
Definition column (k : nat) (sss : list (list Z)) : list Z := (fun ss => default 0 (ss !! k)) <$> sss.
Definition last7 (c : list Z) (k : nat) (sss : list (list Z)) : list Z :=
  drop (length sss) (c ++ column k sss).

Lemma last7_cons c k ss sss : window c -> last7 c k (ss :: sss) = last7 (push c (default 0 (ss !! k))) k sss.
Proof.
  unfold window. destruct c as [|x c]; [done|]. intros _. unfold last7, push. cbn.
  f_equal. by rewrite <- app_assoc.
Qed.

Lemma with_state_twice keys c1 c2 k : with_state keys c1 (with_state keys c2 k) = with_state keys c1 k.
Proof. by destruct keys. Qed.

Lemma push_window c s : window c -> window (push c s).
Proof. unfold window, push. destruct c; [done|]. cbn. rewrite length_app. cbn. lia. Qed.

Lemma pushes_windows mine ss : Forall window mine -> Forall window (pushes mine ss).
Proof.
  intros H. revert ss. induction H as [|c l Hc Hl IH]; intros [|s ss]; cbn; constructor; [|apply IH].
  by apply push_window.
Qed.

Lemma restate_twice keys m1 m2 ks : length m1 = length m2 ->
  restate keys m1 (restate keys m2 ks) = restate keys m1 (take (length m2) ks).
Proof.
  unfold restate. revert m2 ks. induction m1 as [|c m1 IH]; intros [|c2 m2] ks H; try done.
  destruct ks as [|k ks]; [done|]. cbn. rewrite with_state_twice. f_equal. apply IH. by injection H.
Qed.

Lemma length_pushes mine ss : length mine = length ss -> length (pushes mine ss) = length mine.
Proof. intros H. unfold pushes. rewrite length_zip_with. lia. Qed.

Lemma length_restate keys mine ks : length mine = length ks -> length (restate keys mine ks) = length ks.
Proof. intros H. unfold restate. rewrite length_zip_with. lia. Qed.

(** All windows after several polls. *)
Definition pushes_all (mine : list (list Z)) (sss : list (list Z)) : list (list Z) :=
  foldl pushes mine sss.

Lemma pushes_all_length sss : forall mine, length mine = 6%nat ->
  Forall (fun ss => length ss = 6%nat) sss -> length (pushes_all mine sss) = 6%nat.
Proof.
  induction sss as [|ss sss IH]; intros mine Lm Hs; [done|]. inversion Hs; subst.
  apply IH; [rewrite length_pushes; congruence|done].
Qed.

Lemma polls_run keys board d sss : pos board = 0 -> stat board = Some d ->
  Forall (fun ss => length ss = 6%nat /\ Forall byte ss) sss ->
  forall ks mine other pr w w', length ks = 6%nat -> length mine = 6%nat -> Forall window mine ->
  sss <> [] -> samples d (pin_row keys) sss w w' ->
  polls keys board (length sss) (mk keys ks mine other pr w) =
    Ok (mk keys (restate keys (pushes_all mine sss) ks) (pushes_all mine sss) other pr w').
Proof.
  intros Hp Hd. induction 1 as [|ss sss [H6 Hb] Hss IH]; intros ks mine other pr w w' Lk Lm Hw Hn; [done|].
  intros (w1 & Hr & Hrs). cbn [length polls].
  rewrite (check_poll keys board d ss ks mine other pr w w1) by done. red_bind.
  assert (Lp : length (pushes mine ss) = 6%nat) by (rewrite length_pushes; congruence).
  destruct sss as [|ss2 sss]; [cbn in Hrs |- *; by subst|].
  rewrite (IH _ (pushes mine ss) other pr w1 w'); [|by rewrite length_restate; congruence|done
    |by apply pushes_windows|done|done].
  change (pushes_all mine (ss :: ss2 :: sss)) with (pushes_all (pushes mine ss) (ss2 :: sss)).
  rewrite restate_twice; [by rewrite take_ge by lia|].
  rewrite pushes_all_length; [congruence|done|]. eapply Forall_impl; [exact Hss|]. by intros x [? _].
Qed.

Lemma pushes_all_last7 k sss : Forall (fun ss => length ss = 6%nat) sss ->
  forall mine c, length mine = 6%nat -> Forall window mine -> mine !! k = Some c ->
  pushes_all mine sss !! k = Some (last7 c k sss).
Proof.
  induction 1 as [|ss sss H6 Hs IH]; intros mine c Lm Hw Hc.
  { unfold last7. cbn. by rewrite app_nil_r. }
  assert (Hcw : window c) by (eapply Forall_lookup_1; done).
  cbn [pushes_all foldl]. rewrite last7_cons by done. apply IH; [rewrite length_pushes; lia|by apply pushes_windows|].
  unfold pushes. assert (Hk : (k < length ss)%nat) by (apply lookup_lt_Some in Hc; lia).
  destruct (lookup_lt_is_Some_2 ss k Hk) as [x Hx]. rewrite (lookup_zip_with_Some push).
  exists c, x. by rewrite Hx.
Qed.

End Poll.
End Debounce.

Module DebounceThms.
Import Dev Nca App Debounce.

(** C19: debouncing.  After any number of polls of the stat device, the
    window of each key holds its last seven samples, in order (the initial
    window counting as samples), and the key is out, or its lock is closed,
    exactly when the seven add up to more than four: with samples 0 and 1,
    when at least five of them are 1.  The rest of the state, the other
    window among it, stays. *)
Theorem check_debounces {W} keys (board : WL164001_t W) d sss ks mine other pr w w' :
  pos board = 0 -> stat board = Some d ->
  length ks = 6%nat -> length mine = 6%nat -> Forall window mine -> sss <> [] ->
  Forall (fun ss => length ss = 6%nat /\ Forall byte ss) sss ->
  samples d (pin_row keys) sss w w' ->
  exists ks' mine', polls keys board (length sss) (mk keys ks mine other pr w) =
      Ok (mk keys ks' mine' other pr w') /\
    forall i k c, ks !! i = Some k -> mine !! i = Some c ->
      mine' !! i = Some (last7 c i sss) /\
      ks' !! i = Some (with_state keys (last7 c i sss) k).
Proof.
  intros Hp Hd Lk Lm Hw Hn Hs Hr. eexists _, _.
  split; [by apply (polls_run keys board d sss Hp Hd Hs ks mine other pr w w')|].
  intros i k c Hk Hc. assert (Hl : pushes_all mine sss !! i = Some (last7 c i sss)).
  { apply pushes_all_last7; try done. eapply Forall_impl; [exact Hs|]. by intros ss [? _]. }
  split; [done|]. apply lookup_zip_with_Some. by exists (last7 c i sss), k.
Qed.

(** A device whose reads give the bits of its state, the pin's number being
    the fifth character of the name. *)
Definition tape : rt_device (list Z) :=
  mk_device 0 0 1 true true (mk_ops None None None
    (Some (fun _ _ buffer _ w => Ok (tail w, buffer, default 0 (head w)))) None None).

Definition demo_board : WL164001_t (list Z) := mk_board 0 None (Some tape) None.
Definition demo_key : key_info_t := mk_key [] [] (mk_code [] []) key_in key_in unlock.
Definition demo_samples : list (list Z) := replicate 5 [1; 0; 0; 1; 0; 0].
Definition idle_windows : list (list Z) := replicate 6 (replicate 7 0).

(** Five polls with the keys 0 and 3 away. *)
Lemma check_debounces_witness : exists ks' mine',
  polls true demo_board 5
    (mk true (replicate 6 demo_key) idle_windows idle_windows [] (concat demo_samples)) =
    Ok (mk true ks' mine' idle_windows [] []) /\
  key_status <$> ks' !! 0%nat = Some key_out /\ key_status <$> ks' !! 1%nat = Some key_in.
Proof.
  assert (Hs : Forall (fun ss => length ss = 6%nat /\ Forall byte ss) demo_samples).
  { apply Forall_replicate. split; [reflexivity|]. by repeat (constructor; [split; done|]). }
  assert (Hw : Forall window idle_windows) by (by apply Forall_replicate).
  assert (Hr : samples tape (pin_row true) demo_samples (concat demo_samples) []).
  { repeat (eexists; split); repeat eexists; reflexivity. }
  destruct (check_debounces true demo_board tape demo_samples (replicate 6 demo_key) idle_windows idle_windows
    [] (concat demo_samples) [] eq_refl eq_refl eq_refl eq_refl Hw ltac:(discriminate) Hs Hr)
    as (ks' & mine' & E & H).
  exists ks', mine'. split; [exact E|].
  destruct (H 0%nat demo_key (replicate 7 0) eq_refl eq_refl) as [_ ->].
  destruct (H 1%nat demo_key (replicate 7 0) eq_refl eq_refl) as [_ ->]. split; reflexivity.
Defined.

End DebounceThms.

(** ** Lamps and locks, on the port expanders *)
Module Pins.
Import Dev Nca NcaSpec NcaThms App PinNames.

Section Pins.
Context {W : Type} `{HB : I2cBus W} `{HC : !Chip W} `{HR : !ChipReads W}.

(** An open device whose driver is that of the chip at [c]. *)
Record nca_at (d : rt_device W) (c : Z) : Prop := {
  na_typed : typed d = true;
  na_open : ref_count d <> 0;
  na_ops : ops d = nca9555_ops (Some (mk_nca true c));
  na_present : present c
}.

Definition output_bit (w : W) (c k : Z) : bool := Z.testbit (port w c REGISTER_0_OUTPUT_PORT) k.
Definition config_bit (w : W) (c k : Z) : bool := Z.testbit (port w c REGISTER_0_CONFIGURATION_PORT) k.

(** A change of one bit leaves the other registers and chips as they were. *)
Definition others_kept (w w' : W) (c : Z) (rs : list Z) : Prop :=
  forall a' r', 2 <= r' -> ~ (a' = c /\ r' ∈ rs) -> reg w' a' r' = reg w a' r'.

Lemma pin_known j off : j ∈ [0; 1] -> 0 <= off < 8 ->
  io_name j off = Ok (pin_name j off) /\ get_list (pin_name j off) = Ok (Some (IO j off)).
Proof.
  intros Hj Ho. split; [apply io_name_ok; [done|lia]|].
  apply get_list_pin; [done|].
  assert (off = 0 \/ off = 1 \/ off = 2 \/ off = 3 \/ off = 4 \/ off = 5 \/ off = 6 \/ off = 7) as H by lia.
  repeat (destruct H as [->|H]; [in_list|]). subst. in_list.
Qed.

Lemma board_write_pin d c p j off a : nca_at d c -> j ∈ [0; 1] -> 0 <= off < 8 ->
  exists w', board_write (Some d) p (pin_name j off) 0 a = Ok (with_world a w') /\
    only_bit (world a) w' c REGISTER_0_OUTPUT_PORT (8 * j + off) (negb (p =? 0)).
Proof.
  intros [Ht Ho Eo Hp] Hj Hoff. destruct (pin_known j off Hj Hoff) as [_ Hl].
  unfold board_write, rt_device_write. rewrite Ht, Eo. red_bind. rewrite (proj2 (Z.eqb_neq _ _) Ho).
  cbn [device_write nca9555_ops deref]. red_bind.
  destruct (rt_nca9555_write_pin_sets (world a) c (pin_name j off) (IO j off) p 0 Hp Hl) as (w' & -> & Hb).
  red_bind. by exists w'.
Qed.

Lemma control_keeps (d d' : rt_device W) dev cmd arg w w' e : ops d = nca9555_ops dev ->
  rt_device_control d cmd arg w = Ok (d', w', e) -> d' = d.
Proof.
  intros Eo. unfold rt_device_control. rewrite Eo. cbn [device_control nca9555_ops]. unfold invoke.
  intros (u & _ & E)%bind_Ok_inv. apply bind_Ok_inv in E as ([[m w1] res] & E1 & E). injection E as <- _ _.
  apply bind_Ok_inv in E1 as (x & _ & E1). apply bind_Ok_inv in E1 as (y & _ & E1). injection E1 as <- _ _.
  by destruct d.
Qed.

Lemma board_set_mode d c cmd j off a : nca_at d c -> j ∈ [0; 1] -> 0 <= off < 8 -> cmd = OUTPUT \/ cmd = INPUT ->
  exists w', board_control (Some d) cmd (pin_name j off) a = Ok (with_world a w') /\
    only_bit (world a) w' c REGISTER_0_CONFIGURATION_PORT (8 * j + off) (cmd =? INPUT).
Proof.
  intros [Ht Ho Eo Hp] Hj Hoff Hcmd. destruct (pin_known j off Hj Hoff) as [_ Hl].
  unfold board_control, rt_device_control. rewrite Ht, Eo. red_bind.
  cbn [device_control nca9555_ops deref]. unfold invoke. red_bind.
  destruct (rt_nca9555_control_pin_modes (world a) c (pin_name j off) (IO j off) cmd Hp Hl) as (w' & -> & Hb).
  red_bind. exists w'. split; [done|]. destruct Hcmd as [-> | ->]; exact Hb.
Qed.

Lemma only_bit_output w w' c k v n : only_bit w w' c REGISTER_0_OUTPUT_PORT k v -> 0 <= n < 16 ->
  output_bit w' c n = if n =? k then v else output_bit w c n.
Proof. intros [H _] Hn. by apply H. Qed.

Lemma only_bit_others w w' c r k v : only_bit w w' c r k v -> others_kept w w' c [r; r + 1].
Proof.
  intros [_ H] a' r' Hr Hn. apply H; [done|]. intros [-> Hor]. apply Hn. split; [done|].
  destruct Hor as [-> | ->]; in_list.
Qed.

Lemma others_trans w1 w2 w3 c rs : others_kept w1 w2 c rs -> others_kept w2 w3 c rs -> others_kept w1 w3 c rs.
Proof. intros H1 H2 a' r' Hr Hn. rewrite H2, H1; done. Qed.
Lemma others_refl w c rs : others_kept w w c rs.
Proof. by intros ???. Qed.

(** *** The lamps *)

Section Lamps.
Context (board : WL164001_t W) (d : rt_device W) (c : Z).
Hypothesis led_chip : nca_at d c.
Hypothesis led_board : led board = Some d.
Hypothesis board_pos : pos board = 0.

(** Red and green of key [i]. *)
Definition lamps (w : W) (i : nat) (red green : bool) : Prop :=
  output_bit w c (Z.of_nat i) = red /\ output_bit w c (8 + Z.of_nat i) = green.

(** The lamps show the status that was last shown.  [stat_init] sets
    [last_key_status] to [key_out] and [nca9555_init] leaves all lamps dark,
    so that the lamps of such a key may be dark. *)
Definition lamp_ok (w : W) (i : nat) (k : key_info_t) : Prop :=
  (last_key_status k = key_in -> lamps w i true false) /\
  (last_key_status k = key_out -> lamps w i false true \/ lamps w i false false).

(** What a turn makes of the lamps of a key: red when it is in, green when it
    is out, unless that is what was last shown: then they stay as they are. *)
Definition lamp_turn (w w' : W) (i : nat) (k : key_info_t) : Prop :=
  (key_status k = key_in -> lamps w' i true false) /\
  (key_status k = key_out ->
     if decide (last_key_status k = key_out) then forall r g, lamps w i r g -> lamps w' i r g
     else lamps w' i false true).

Lemma led_pair_lamps red green i (a : app W) : (i < 6)%nat ->
  exists w', led_pair red green (Z.of_nat i) board a = Ok (with_world a w', RT_EOK) /\
    lamps w' i (negb (red =? 0)) (negb (green =? 0)) /\
    (forall j, (j < 6)%nat -> j <> i -> forall r g, lamps (world a) j r g -> lamps w' j r g) /\
    others_kept (world a) w' c [2; 3].
Proof.
  intros Hi. unfold led_pair. rewrite led_board, board_pos, Z.sub_0_r.
  rewrite (proj2 (Z.leb_gt _ _)) by (unfold APP_NUM; lia).
  rewrite (proj1 (pin_known 0 (Z.of_nat i) ltac:(in_list) ltac:(lia))). red_bind.
  rewrite (proj1 (pin_known 1 (Z.of_nat i) ltac:(in_list) ltac:(lia))). red_bind.
  destruct (board_write_pin d c red 0 (Z.of_nat i) a led_chip) as (w1 & -> & B1); [in_list|lia|]. red_bind.
  destruct (board_write_pin d c green 1 (Z.of_nat i) (with_world a w1) led_chip) as (w2 & -> & B2); [in_list|lia|].
  red_bind. exists w2. cbn [world with_world] in B2. split; [done|].
  assert (Hbit : forall n, 0 <= n < 16 -> output_bit w2 c n =
    if n =? 8 * 1 + Z.of_nat i then negb (green =? 0) else
    if n =? 8 * 0 + Z.of_nat i then negb (red =? 0) else output_bit (world a) c n).
  { intros n Hn. rewrite (only_bit_output _ _ _ _ _ n B2 Hn), (only_bit_output _ _ _ _ _ n B1 Hn). done. }
  split; [split; rewrite Hbit by lia|split].
  - rewrite (proj2 (Z.eqb_neq _ _)), (proj2 (Z.eqb_eq _ _)) by lia. done.
  - rewrite (proj2 (Z.eqb_eq _ _)) by lia. done.
  - intros j Hj Hne r g [H1 H2]. split; rewrite Hbit by lia; rewrite !(proj2 (Z.eqb_neq _ _)) by lia; done.
  - apply only_bit_others in B1, B2. eapply others_trans; [exact B1|exact B2].
Qed.

(** What a turn makes of a key: its status is shown, if it is in or out. *)
Definition shown (k k' : key_info_t) : Prop :=
  key_status k' = key_status k /\ cur_rfid_code k' = cur_rfid_code k /\ lock_status k' = lock_status k /\
  last_key_status k' =
    if (key_status k =? key_in) || (key_status k =? key_out) then key_status k else last_key_status k.

Lemma upd_key_ok (a : app W) i k f : key a !! i = Some k ->
  upd_key a (Z.of_nat i) f = Ok (with_key a (<[i := f k]> (key a))).
Proof.
  intros Hk. assert (Hi : (i < length (key a))%nat) by (by eapply lookup_lt_Some).
  unfold upd_key. rewrite (zget_Ok _ _ k) by (rewrite ?Nat2Z.id; lia || done). red_bind.
  rewrite zset_Ok by (unfold zlen; lia). by rewrite Nat2Z.id.
Qed.

(** [rfid_printf] changes the printed code of the key, and nothing else but
    the output. *)
Lemma rfid_printf_ok (a : app W) i k : key a !! i = Some k ->
  exists pr l r, rfid_printf (Z.of_nat i) a =
    Ok (mk_app (<[i := with_last_rfid_code k l]> (key a)) (check_amr a) (check_elec a) pr (world a), r).
Proof.
  intros Hk. unfold rfid_printf. rewrite (zget_Ok _ _ k) by (rewrite ?Nat2Z.id; lia || done). red_bind.
  case_bool_decide as E.
  - exists (printed a), (last_rfid_code k), M606_SAME. destruct k, a; cbn in *. do 2 f_equal.
    f_equal. by rewrite list_insert_id.
  - rewrite (upd_key_ok a i k _ Hk). red_bind. cbn [key with_key check_amr check_elec printed world].
    by eexists _, _, _.
Qed.

Lemma key_led_step (a : app W) i k : (i < 6)%nat -> key a !! i = Some k ->
  exists a' k', key_led_at board (Z.of_nat i) a = Ok a' /\ key a' = <[i := k']> (key a) /\ shown k k' /\
    (lamp_ok (world a) i k -> lamp_ok (world a') i k' /\ lamp_turn (world a) (world a') i k) /\
    (forall j, (j < 6)%nat -> j <> i -> forall r g, lamps (world a) j r g -> lamps (world a') j r g) /\
    others_kept (world a) (world a') c [2; 3].
Proof.
  intros Hi Hk. assert (Hl : (i < length (key a))%nat) by (by eapply lookup_lt_Some).
  assert (Hz : forall (l : list key_info_t) x, l !! i = Some x -> zget l (Z.of_nat i) = Ok x)
    by (intros; apply zget_Ok; rewrite ?Nat2Z.id; lia || done).
  unfold key_led_at. rewrite (Hz _ k Hk). red_bind. unfold shown.
  destruct (Z.eqb_spec (key_status k) key_in) as [Ein|Nin]; cbn [andb orb].
  - assert (Nout : (key_status k =? key_out) = false) by (rewrite Ein; done).
    destruct (Z.eqb_spec (last_key_status k) key_in) as [El|Nl]; cbn [negb].
    { red_bind. rewrite (Hz _ k Hk). red_bind. rewrite Nout. exists a, k.
      split_and!; try done; [by rewrite list_insert_id|congruence|].
      intros Hok. split; [done|]. split; [intros _; by apply Hok|]. rewrite Ein. done. }
    unfold led_only_red. destruct (led_pair_lamps PIN_HIGH PIN_LOW i a Hi) as (w' & -> & Hlamp & Hoth & Hkeep).
    red_bind. cbn [fst]. rewrite (upd_key_ok (with_world a w') i k) by done. red_bind.
    set (k1 := with_last_key_status k (key_status k)).
    destruct (rfid_printf_ok (with_key (with_world a w') (<[i := k1]> (key (with_world a w')))) i k1)
      as (pr & l & r & ->); [cbn; by rewrite list_lookup_insert_eq|]. red_bind. cbn [fst].
    cbn [key with_key with_world check_amr check_elec world]. rewrite list_insert_insert_eq.
    rewrite (Hz _ (with_last_rfid_code k1 l)) by (by rewrite list_lookup_insert_eq). red_bind.
    cbn [key_status with_last_rfid_code k1 with_last_key_status]. rewrite Nout. cbn [andb].
    eexists _, (with_last_rfid_code k1 l). split; [done|]. cbn [key world]. split_and!; try done.
    intros _. split; (split; [by intros _|]); cbn; rewrite Ein; done.
  - red_bind. rewrite (Hz _ k Hk). red_bind.
    destruct (Z.eqb_spec (key_status k) key_out) as [Eout|Nout]; cbn [andb].
    2:{ exists a, k. split_and!; try done; by rewrite ?list_insert_id. }
    destruct (Z.eqb_spec (last_key_status k) key_out) as [El|Nl]; cbn [negb].
    { exists a, k. split_and!; try done; [by rewrite list_insert_id|congruence|].
      intros Hok. split; [done|]. split; [done|]. intros _. by rewrite decide_True. }
    unfold led_only_green. destruct (led_pair_lamps PIN_LOW PIN_HIGH i a Hi) as (w' & -> & Hlamp & Hoth & Hkeep).
    red_bind. cbn [fst]. rewrite (upd_key_ok (with_world a w') i k) by done.
    eexists _, _. split; [done|]. cbn [key with_key with_world world]. split; [done|].
    split_and!; try done. intros _. split.
    + split; cbn; [rewrite Eout; done|]. intros _. by left.
    + split; [done|]. intros _. by rewrite decide_False.
Qed.

Definition all_lamps_ok (a : app W) : Prop :=
  forall i k, key a !! i = Some k -> lamp_ok (world a) i k.

Lemma led_loop n : forall i (a : app W), (i + n = 6)%nat -> length (key a) = 6%nat -> all_lamps_ok a ->
  exists a', for_keys n (Z.of_nat i) (key_led_at board) a = Ok a' /\ all_lamps_ok a' /\
    length (key a') = 6%nat /\ others_kept (world a) (world a') c [2; 3] /\
    forall j k, key a !! j = Some k -> exists k', key a' !! j = Some k' /\
      if decide (i <= j)%nat then shown k k' /\ lamp_turn (world a) (world a') j k
      else k' = k /\ forall r g, lamps (world a) j r g -> lamps (world a') j r g.
Proof.
  induction n as [|n IH]; intros i a Hin Hl Hok; cbn [for_keys].
  { exists a. split_and!; try done. intros j k Hk. exists k. split; [done|].
    apply lookup_lt_Some in Hk. by rewrite decide_False by lia. }
  destruct (lookup_lt_is_Some_2 (key a) i) as [k Hk]; [lia|].
  destruct (key_led_step a i k ltac:(lia) Hk) as (a1 & k1 & -> & Ek & Hsh & Hlamp & Hoth & Hkeep). red_bind.
  assert (Hl1 : length (key a1) = 6%nat) by (by rewrite Ek, length_insert).
  assert (Hok1 : all_lamps_ok a1).
  { intros j x. rewrite Ek. destruct (decide (j = i)) as [->|Hne].
    - rewrite list_lookup_insert_eq by lia. intros [= <-]. by apply Hlamp, Hok.
    - rewrite list_lookup_insert_ne by done. intros Hx.
      assert (Hj : (j < 6)%nat) by (apply lookup_lt_Some in Hx; lia).
      destruct (Hok j x Hx) as [H1 H2]. split; intros E; [by apply (Hoth j Hj Hne), H1|].
      destruct (H2 E); [left|right]; by apply (Hoth j Hj Hne). }
  replace (Z.of_nat i + 1) with (Z.of_nat (S i)) by lia.
  destruct (IH (S i) a1 ltac:(lia) Hl1 Hok1) as (a' & -> & Hok' & Hl' & Hkeep' & Hall).
  exists a'. split; [done|]. split; [done|]. split; [done|]. split; [by eapply others_trans|]. intros j x Hx.
  destruct (decide (j = i)) as [->|Hne].
  - destruct (Hall i k1) as (k' & Hk' & E); [rewrite Ek; apply list_lookup_insert_eq; lia|].
    rewrite decide_False in E by lia. destruct E as [-> Hst]. exists k1. rewrite decide_True by lia.
    split; [done|]. assert (x = k) as -> by congruence. split; [done|].
    destruct (Hlamp (Hok i k Hk)) as [_ [Hin' Hout]]. split; [intros E; by apply Hst, Hin'|].
    intros E. specialize (Hout E). case_decide; [intros r g Hrg; by apply Hst, Hout|by apply Hst].
  - destruct (Hall j x) as (k' & Hk' & E); [by rewrite Ek, list_lookup_insert_ne|].
    assert (Hj : (j < 6)%nat) by (apply lookup_lt_Some in Hx; lia).
    exists k'. split; [done|]. destruct (decide (i <= j)%nat).
    + rewrite decide_True in E by lia. destruct E as [Hs [Hin' Hout]]. split; [done|]. split; [done|].
      intros E. specialize (Hout E). case_decide; [|done]. intros r g Hrg. by apply Hout, Hoth.
    + rewrite decide_False in E by lia. destruct E as [-> Hst]. split; [done|].
      intros r g Hrg. by apply Hst, Hoth.
Qed.

(** The invariant at the start: after [nca9555_init] all outputs of the chip
    are low, and [stat_init] has set every [last_key_status] to [key_out]. *)
Lemma lamps_at_start b : exists b', nca9555_init true true c b = Ok (b', Some (mk_nca true c)) /\
  forall ks amr el pr, Forall (fun k => last_key_status k = key_out) ks -> (length ks <= 6)%nat ->
  all_lamps_ok (mk_app ks amr el pr b').
Proof.
  unfold nca9555_init, nca9555_write_data. cbn [i2c_bus addr deref drop take set_pin negb]. red_bind.
  destruct (chip_write b c REGISTER_0_CONFIGURATION_PORT 255 255 (na_present _ _ led_chip)) as (b1 & m1 & E1 & _);
    [in_list|lia..|].
  rewrite E1. red_bind. cbn [fst].
  destruct (chip_write b1 c REGISTER_0_OUTPUT_PORT 0 0 (na_present _ _ led_chip)) as (b2 & m2 & E2 & Hr);
    [in_list|lia..|].
  rewrite E2. red_bind. exists b2. split; [done|]. intros ks amr el pr Hk Hlen i k Hi. cbn [key world] in *.
  rewrite Forall_lookup in Hk. specialize (Hk i k Hi). split; [by rewrite Hk|]. intros _. right.
  apply lookup_lt_Some in Hi.
  assert (Hb : port b2 c REGISTER_0_OUTPUT_PORT = 0).
  { unfold port. rewrite !Hr by (unfold REGISTER_0_OUTPUT_PORT; lia). rewrite !Z.eqb_refl. cbn [andb].
    by rewrite (proj2 (Z.eqb_neq (_ + 1) _)) by lia. }
  split; unfold output_bit; by rewrite Hb, Z.bits_0.
Qed.

End Lamps.

(** *** The locks *)

Section Locks.
Context (mdelay : Z -> W -> W) (board : WL164001_t W) (d : rt_device W) (c : Z).
Hypothesis elec_chip : nca_at d c.
Hypothesis elec_board : elec board = Some d.
Hypothesis board_pos : pos board = 0.
(** What runs while the thread sleeps leaves the chip of the locks alone. *)
Hypothesis mdelay_keeps : forall t w r, 2 <= r -> reg (mdelay t w) c r = reg w c r.

(** The two ends of a coil are not both driven high. *)
Definition coil_safe (i : Z) (w : W) : Prop :=
  ~ (output_bit w c i = true /\ output_bit w c (8 + i) = true).

Lemma mode_step w w' k : only_bit w w' c REGISTER_0_CONFIGURATION_PORT k false ->
  (forall n, 0 <= n < 16 -> config_bit w' c n = if n =? k then false else config_bit w c n) /\
  (forall n, output_bit w' c n = output_bit w c n) /\ others_kept w w' c [6; 7].
Proof.
  intros Hb. pose proof (only_bit_others _ _ _ _ _ _ Hb) as Ho. destruct Hb as [Hn Hr].
  split; [apply Hn|]. split; [|exact Ho]. intros n. unfold output_bit, port.
  rewrite !(Hr c) by (unfold REGISTER_0_OUTPUT_PORT, REGISTER_0_CONFIGURATION_PORT; lia). done.
Qed.

Lemma level_step w w' k v : only_bit w w' c REGISTER_0_OUTPUT_PORT k v ->
  (forall n, 0 <= n < 16 -> output_bit w' c n = if n =? k then v else output_bit w c n) /\
  (forall n, config_bit w' c n = config_bit w c n) /\ others_kept w w' c [2; 3].
Proof.
  intros Hb. pose proof (only_bit_others _ _ _ _ _ _ Hb) as Ho. destruct Hb as [Hn Hr].
  split; [apply Hn|]. split; [|exact Ho]. intros n. unfold config_bit, port.
  rewrite !(Hr c) by (unfold REGISTER_0_OUTPUT_PORT, REGISTER_0_CONFIGURATION_PORT; lia). done.
Qed.

Lemma others_chip w w' rs : others_kept w w' c rs -> forall a' r', 2 <= r' -> a' <> c -> reg w' a' r' = reg w a' r'.
Proof. intros H a' r' Hr Hn. apply H; [done|]. by intros [? _]. Qed.

Lemma delay_bits t w n : output_bit (mdelay t w) c n = output_bit w c n /\ config_bit (mdelay t w) c n = config_bit w c n.
Proof.
  unfold output_bit, config_bit, port, REGISTER_0_OUTPUT_PORT, REGISTER_0_CONFIGURATION_PORT.
  by rewrite !mdelay_keeps by lia.
Qed.

(** The five steps of a pulse from the high end [ja] to the low end [jb],
    and what the lines are after each. *)
Definition pulse (ja jb i : Z) (a : app W) (w1 w2 w3 w4 w5 : W) : Prop :=
  board_control (elec board) OUTPUT (pin_name jb i) a = Ok (with_world a w1) /\
  board_write (elec board) PIN_LOW (pin_name jb i) 0 (with_world a w1) = Ok (with_world a w2) /\
  board_control (elec board) OUTPUT (pin_name ja i) (with_world a w2) = Ok (with_world a w3) /\
  board_write (elec board) PIN_HIGH (pin_name ja i) 0 (with_world a w3) = Ok (with_world a w4) /\
  board_write (elec board) PIN_LOW (pin_name ja i) 0 (with_world a (mdelay 50 w4)) = Ok (with_world a w5).

Lemma pulse_runs ja jb i (a : app W) : (ja = 0 /\ jb = 1) \/ (ja = 1 /\ jb = 0) -> 0 <= i < 6 ->
  exists w1 w2 w3 w4 w5, pulse ja jb i a w1 w2 w3 w4 w5 /\
    (forall n, 0 <= n < 16 -> output_bit w1 c n = output_bit (world a) c n) /\
    (forall n, 0 <= n < 16 -> output_bit w2 c n = if n =? 8 * jb + i then false else output_bit (world a) c n) /\
    (forall n, 0 <= n < 16 -> output_bit w3 c n = output_bit w2 c n) /\
    (forall n, 0 <= n < 16 -> output_bit w4 c n = if n =? 8 * ja + i then true else output_bit w2 c n) /\
    (forall n, 0 <= n < 16 -> output_bit w5 c n = if n =? 8 * ja + i then false else output_bit w2 c n) /\
    (forall n, 0 <= n < 16 -> config_bit w4 c n = if n =? 8 * ja + i then false else
       if n =? 8 * jb + i then false else config_bit (world a) c n) /\
    (forall n, 0 <= n < 16 -> config_bit w5 c n = config_bit w4 c n) /\
    (forall a' r', 2 <= r' -> a' <> c ->
       reg w4 a' r' = reg (world a) a' r' /\ reg w5 a' r' = reg (mdelay 50 w4) a' r').
Proof.
  intros Hj Hi. assert (Ma : ja ∈ [0; 1]) by (destruct Hj as [[-> ->]|[-> ->]]; in_list).
  assert (Mb : jb ∈ [0; 1]) by (destruct Hj as [[-> ->]|[-> ->]]; in_list).
  unfold pulse. rewrite elec_board.
  destruct (board_set_mode d c OUTPUT jb i a elec_chip Mb ltac:(lia) ltac:(by left)) as (w1 & E1 & B1).
  destruct (board_write_pin d c PIN_LOW jb i (with_world a w1) elec_chip Mb ltac:(lia)) as (w2 & E2 & B2).
  destruct (board_set_mode d c OUTPUT ja i (with_world a w2) elec_chip Ma ltac:(lia) ltac:(by left)) as (w3 & E3 & B3).
  destruct (board_write_pin d c PIN_HIGH ja i (with_world a w3) elec_chip Ma ltac:(lia)) as (w4 & E4 & B4).
  destruct (board_write_pin d c PIN_LOW ja i (with_world a (mdelay 50 w4)) elec_chip Ma ltac:(lia)) as (w5 & E5 & B5).
  cbn [world with_world] in B2, B3, B4, B5.
  apply mode_step in B1 as (C1 & O1 & K1), B3 as (C3 & O3 & K3).
  apply level_step in B2 as (O2 & C2 & K2), B4 as (O4 & C4 & K4), B5 as (O5 & C5 & K5).
  exists w1, w2, w3, w4, w5. split; [done|]. change (negb (PIN_LOW =? 0)) with false in *.
  change (negb (PIN_HIGH =? 0)) with true in *. split_and!.
  - intros n Hn. apply O1.
  - intros n Hn. by rewrite O2, O1.
  - intros n Hn. apply O3.
  - intros n Hn. by rewrite O4, O3.
  - intros n Hn. rewrite O5 by done. rewrite (proj1 (delay_bits 50 w4 n)), O4, O3 by done. by destruct (n =? _).
  - intros n Hn. by rewrite C4, C3, C2, C1.
  - intros n Hn. rewrite C5. apply delay_bits.
  - intros a' r' Hr Ha. split; [|by apply (others_chip _ _ _ K5)].
    rewrite (others_chip _ _ _ K4), (others_chip _ _ _ K3), (others_chip _ _ _ K2), (others_chip _ _ _ K1); done.
Qed.

Lemma elec_action_is_pulse i status (a : app W) w1 w2 w3 w4 w5 : 0 <= i < 6 ->
  status = unlock \/ status = lock ->
  pulse (if status =? unlock then 0 else 1) (if status =? unlock then 1 else 0) i a w1 w2 w3 w4 w5 ->
  elec_action mdelay board i status a = Ok (with_world a w5, RT_EOK).
Proof.
  intros Hi Hs (E1 & E2 & E3 & E4 & E5). unfold elec_action.
  rewrite (proj2 (Z.ltb_ge _ _)) by (unfold APP_NUM; lia). rewrite board_pos, (proj2 (Z.leb_le _ _)) by lia.
  unfold elec_toggle.
  assert (Hp : elec_points status i board =
    Ok (pin_name (if status =? unlock then 0 else 1) i, pin_name (if status =? unlock then 1 else 0) i)).
  { unfold elec_points. rewrite board_pos, Z.sub_0_r.
    rewrite (proj1 (pin_known 0 i ltac:(in_list) ltac:(lia))), (proj1 (pin_known 1 i ltac:(in_list) ltac:(lia))).
    by destruct Hs as [-> | ->]. }
  rewrite Hp. red_bind. rewrite E1. red_bind. rewrite E2. red_bind. rewrite E3. red_bind. rewrite E4. red_bind.
  change (with_world (with_world a w4) (mdelay 50 (world (with_world a w4)))) with (with_world a (mdelay 50 w4)).
  rewrite E5. done.
Qed.

End Locks.
End Pins.
End Pins.

Module AppThms.
Import Dev Nca NcaSpec NcaThms App Pins.

(** C21: the lamps show the keys.  As long as the lamps of every key show the
    status that was last shown for it, or are dark with [last_key_status] at
    [key_out] as at the start ([lamps_at_start]), a turn of [key_status_led]
    returns, makes the lamps of every key that is in red, makes those of a key
    that went out green, keeps the invariant, and touches nothing but the
    output port of the lamp chip.  The lamps of a key that is out and was out
    stay as they are: green, or, for a key that was never in since the start,
    dark.  A key that is neither keeps its lamps. *)
Theorem key_status_led_shows `{HB : I2cBus W} `{HC : !Chip W} `{HR : !ChipReads W}
    (board : WL164001_t W) d c (a : app W) :
  nca_at d c -> led board = Some d -> pos board = 0 -> length (key a) = 6%nat -> all_lamps_ok c a ->
  exists a', key_status_led board a = Ok a' /\ all_lamps_ok c a' /\
    others_kept (world a) (world a') c [2; 3] /\
    forall i k, key a !! i = Some k -> exists k', key a' !! i = Some k' /\ shown k k' /\
      lamp_turn c (world a) (world a') i k.
Proof.
  intros Hd Hb Hp Hl Hok. unfold key_status_led. rewrite Hp.
  destruct (led_loop board d c Hd Hb Hp 6 0 a eq_refl Hl Hok) as (a' & E & Hok' & _ & Hkeep & Hall).
  exists a'. split; [exact E|]. split; [done|]. split; [done|]. intros i k Hk.
  destruct (Hall i k Hk) as (k' & Hk' & Hs). rewrite decide_True in Hs by lia. by exists k'.
Qed.

(** C20: a lock is pulsed safely.  [elec_action] runs the five steps of a
    pulse; after none of them are both ends of the coil driven high, if they
    were not before; while it sleeps both ends are outputs and exactly the
    end for the action is high; at the end both are low.  The lines of the
    other locks keep their levels, and the other chips are not touched. *)
Theorem elec_action_pulses `{HB : I2cBus W} `{HC : !Chip W} `{HR : !ChipReads W}
    mdelay (board : WL164001_t W) d c i status (a : app W) :
  nca_at d c -> elec board = Some d -> pos board = 0 -> 0 <= i < 6 ->
  status = unlock \/ status = lock ->
  (forall t w r, 2 <= r -> reg (mdelay t w) c r = reg w c r) ->
  coil_safe c i (world a) ->
  exists w1 w2 w3 w4 w5,
    pulse mdelay board (if status =? unlock then 0 else 1) (if status =? unlock then 1 else 0) i a w1 w2 w3 w4 w5 /\
    elec_action mdelay board i status a = Ok (with_world a w5, RT_EOK) /\
    Forall (coil_safe c i) [w1; w2; w3; w4; w5] /\
    config_bit w4 c i = false /\ config_bit w4 c (8 + i) = false /\
    output_bit w4 c i = (status =? unlock) /\ output_bit w4 c (8 + i) = negb (status =? unlock) /\
    output_bit w5 c i = false /\ output_bit w5 c (8 + i) = false /\
    (forall n, 0 <= n < 16 -> n <> i -> n <> 8 + i ->
       Forall (fun w => output_bit w c n = output_bit (world a) c n) [w1; w2; w3; w4; w5]) /\
    (forall a' r', 2 <= r' -> a' <> c ->
       reg w4 a' r' = reg (world a) a' r' /\ reg w5 a' r' = reg (mdelay 50 w4) a' r').
Proof.
  intros Hd Hb Hp Hi Hs Hdelay Hsafe.
  set (ja := if status =? unlock then 0 else 1). set (jb := if status =? unlock then 1 else 0).
  assert (Hj : (status = unlock /\ ja = 0 /\ jb = 1) \/ (status = lock /\ ja = 1 /\ jb = 0))
    by (unfold ja, jb; destruct Hs as [-> | ->]; [left|right]; done).
  destruct (pulse_runs mdelay board d c Hd Hb Hdelay ja jb i a ltac:(tauto) Hi)
    as (w1 & w2 & w3 & w4 & w5 & Hpulse & O1 & O2 & O3 & O4 & O5 & C4 & _ & Hother).
  exists w1, w2, w3, w4, w5. split; [done|]. split; [by eapply elec_action_is_pulse|].
  unfold coil_safe in *.
  assert (Hbits : forall n, 0 <= n < 16 -> n <> i -> n <> 8 + i ->
    Forall (fun w => output_bit w c n = output_bit (world a) c n) [w1; w2; w3; w4; w5]).
  { intros n Hn N1 N2. repeat constructor; rewrite ?O5, ?O4, ?O3, ?O2, ?O1 by done;
      rewrite ?(proj2 (Z.eqb_neq n _)) by lia; done. }
  destruct Hj as [(-> & -> & ->)|(-> & -> & ->)];
    (split; [repeat constructor; rewrite ?O5, ?O4, ?O3, ?O2, ?O1 by lia|split_and!; try done];
     rewrite ?C4, ?O5, ?O4, ?O2 by lia;
     repeat match goal with |- context [?x =? ?y] => destruct (Z.eqb_spec x y); try lia end; try done; tauto).
Qed.

(** *** A board of three chips *)

Definition demo_led : rt_device chips := mk_device 0 3 1 true true (nca9555_ops (Some (mk_nca true 33))).
Definition demo_elec : rt_device chips := mk_device 0 3 1 true true (nca9555_ops (Some (mk_nca true 34))).
Definition demo_wl : WL164001_t chips := mk_board 0 (Some demo_led) None (Some demo_elec).

Definition a_key (st last : Z) : key_info_t := mk_key [1] [1] (mk_code [] []) st last unlock.

(** Key 0 was taken out, key 1 was put back, key 2 was out when the board
    started. *)
Definition demo_app : app chips :=
  mk_app ([a_key key_out key_in; a_key key_in key_out; a_key key_out key_out] ++ replicate 3 (a_key key_in key_in)) [] [] []
    (fun a r => if (a =? 33) && (r =? 2) then 57 else if (a =? 33) && (r =? 3) then 2 else 0).

Lemma demo_lamps : all_lamps_ok 33 demo_app.
Proof.
  intros i k Hk. do 6 (destruct i as [|i];
    [injection Hk as <-; split; intros E; (discriminate E || by split || (left; by split) || (right; by split))|]).
  discriminate Hk.
Qed.

Lemma key_status_led_shows_witness : exists a', key_status_led demo_wl demo_app = Ok a' /\
  lamps 33 (world a') 0 false true /\ lamps 33 (world a') 1 true false /\ lamps 33 (world a') 2 false false.
Proof.
  destruct (@key_status_led_shows chips chips_bus chips_ok chips_read demo_wl demo_led 33 demo_app
    ltac:(by constructor) eq_refl eq_refl eq_refl demo_lamps) as (a' & E & _ & _ & H).
  exists a'. split; [exact E|].
  destruct (H 0%nat _ eq_refl) as (k0 & _ & _ & _ & H0). destruct (H 1%nat _ eq_refl) as (k1 & _ & _ & H1 & _).
  destruct (H 2%nat _ eq_refl) as (k2 & _ & _ & _ & H2).
  split; [by apply H0|]. split; [by apply H1|]. apply (H2 eq_refl). by split.
Defined.

Lemma elec_action_pulses_witness : exists w4 w5,
  elec_action (fun _ w => w) demo_wl 2 unlock demo_app = Ok (with_world demo_app w5, RT_EOK) /\
  output_bit w4 34 2 = true /\ output_bit w5 34 2 = false /\ output_bit w5 34 10 = false.
Proof.
  destruct (@elec_action_pulses chips chips_bus chips_ok chips_read (fun _ w => w) demo_wl demo_elec 34 2 unlock demo_app)
    as (w1 & w2 & w3 & w4 & w5 & _ & E & _ & _ & _ & H4 & _ & H5 & H6 & _);
    [by constructor|done|done|lia|by left|done|by intros [? _]|].
  exists w4, w5. split; [exact E|]. split; [exact H4|]. split; [exact H5|exact H6].
Defined.

End AppThms.
