(* ===== verification/Rfid.v ===== *)
(** * The card readers (applications/M606_module/M606_tool.c)

    [Rfid] is the reception of a frame, its division into codes and the
    filter that decides when a code is the new code of a key; [RfidThms]
    holds the properties.  [sscanf] is a parameter, of which the theorems
    assume what "%02X" does on two hexadecimal digits.

    [key_info_t] is laid out as the compiler's ABI has it: enumerations are
    one byte wide (-fshort-enums is the default of arm-none-eabi-gcc), so
    that the three status fields follow [user_data.code] immediately. *)
From S2P Require Import Prelude CTypes CString App.
From stdpp Require Import base list.
From Stdlib Require Import ZArith Lia.
Open Scope Z_scope.

Module Rfid.
Import App CMem CStr.

Definition M606_RFID_NUM : Z := 6.
Definition ONE_DATA_MAXLEN : Z := 80.
Definition RX_BUFSZ : Z := 129. (* RT_SERIAL_RB_BUFSZ + 1 *)

(** The static variables: the buffers of [rfid_get] and [scan_rfid], the
    counters [check_id], and the keys. *)
Record rfid : Type := mk_rfid {
  rx_buffer : list Z;
  data : list Z;
  check_id : list Z;
  keys : list key_info_t
}.

Definition with_user_data (k : key_info_t) (u : key_code_t) : key_info_t :=
  mk_key (cur_rfid_code k) (last_rfid_code k) u (key_status k) (last_key_status k) (lock_status k).
Definition with_codes (k : key_info_t) (cur last : list Z) : key_info_t :=
  mk_key cur last (user_data k) (key_status k) (last_key_status k) (lock_status k).

(** *** [str2hex] *)

(** The bytes of a key from [user_data.code] on, and the key with them. *)
Definition code_bytes (k : key_info_t) : list Z :=
  code (user_data k) ++ [key_status k; last_key_status k; lock_status k].

Definition with_code_bytes (k : key_info_t) (m : list Z) : result key_info_t :=
  ks ← zget m 5; ls ← zget m 6; lk ← zget m 7;
  Ok (mk_key (cur_rfid_code k) (last_rfid_code k) (mk_code (ch (user_data k)) (take 5 m)) ks ls lk).

Section Scan.
(** [sscanf (s, "%02X", &u)]: the value that is stored, if there is one. *)
Context (sscanf_X : list Z -> option Z).

(** [out + i] is an address in the bytes of the key; the store is that of an
    [unsigned int]. *)
Fixpoint str2hex_loop (n : nat) (i : Z) (str : list Z) (m : list Z) : result (list Z) :=
  match n with
  | O => Ok m
  | S n =>
      m ← match sscanf_X str with Some v => store32 m i v | None => Ok m end;
      str2hex_loop n (i + 1) (drop 2 str) m
  end.

Definition str2hex (str : list Z) (m : list Z) : result (list Z * Z) :=
  len ← rt_strlen str;
  let ret := len / 2 + len mod 2 in
  m ← str2hex_loop (Z.to_nat ret) 0 str m; Ok (m, ret).

(** *** [code_split] *)

(** The characters of "{,}". *)
Definition is_delim (c : Z) : bool := (c =? 123) || (c =? 44) || (c =? 125).

(** [strtok]: the tokens of a string, one call after the other.  [cur] is
    the token that is being read, newest character first. *)
Fixpoint tokens (s : list Z) (cur : list Z) : list (list Z) :=
  let emit := match cur with [] => [] | _ => [rev cur] end in
  match s with
  | [] => emit
  | c :: s' =>
      if c =? 0 then emit
      else if is_delim c then emit ++ tokens s' []
      else tokens s' (c :: cur)
  end.

(** A code of ten characters for key [k]: [strncpy (ch, ret, 10)] leaves
    [ch[10]], and the conversion runs to the zero there. *)
Definition take_code (k : key_info_t) (tok : list Z) : result key_info_t :=
  c ← zblit (ch (user_data k)) 0 tok;
  let k := with_user_data k (mk_code c (code (user_data k))) in
  r ← str2hex c (code_bytes k);
  with_code_bytes k r.1.

Fixpoint split_loop (toks : list (list Z)) (i pos : Z) (ks : list key_info_t) : result (list key_info_t) :=
  match toks with
  | [] => Ok ks
  | tok :: toks =>
      if i <? M606_RFID_NUM + pos then
        if negb (zlen tok =? 10) then split_loop toks (i + 1) pos ks
        else
          k ← zget ks i;
          k ← take_code k tok;
          ks ← zset ks i k;
          split_loop toks (i + 1) pos ks
      else Ok ks
  end.

Definition code_split (s : list Z) (pos : Z) (ks : list key_info_t) : result (list key_info_t) :=
  split_loop (tokens s []) pos pos ks.

(** *** [scan_rfid] *)

(** [rfid_get]: [rx] is what [rt_device_read] put into the buffer, if
    [rt_mq_recv] succeeded. *)
Definition rfid_get (rx : option (list Z)) (s : rfid) : result rfid :=
  b ← match rx with Some bytes => zblit (rx_buffer s) 0 bytes | None => Ok (rx_buffer s) end;
  Ok (mk_rfid b (data s) (check_id s) (keys s)).

(** [rt_strncpy (data, rx_buffer, ONE_DATA_MAXLEN)]. *)
Definition copy_frame (s : rfid) : result rfid :=
  m ← rt_strncpy (data s ++ rx_buffer s) 0 (zlen (data s)) ONE_DATA_MAXLEN;
  Ok (mk_rfid (rx_buffer s) (take (length (data s)) m) (check_id s) (keys s)).

(** The filter on one key, given its counter: what happens to the counter
    and to the codes. *)
Definition filter_key (k : key_info_t) (id : Z) : key_info_t * Z :=
  if negb (bool_decide (code (user_data k) = cur_rfid_code k)) && (id <? 2)
  then (k, id + 1)
  else (with_codes k (code (user_data k)) (cur_rfid_code k), 0).

Fixpoint filter_keys (n : nat) (i : Z) (s : rfid) : result rfid :=
  match n with
  | O => Ok s
  | S n =>
      k ← zget (keys s) i;
      id ← zget (check_id s) i;
      let '(k, id) := filter_key k id in
      ks ← zset (keys s) i k;
      ids ← zset (check_id s) i (u8 id);
      filter_keys n (i + 1) (mk_rfid (rx_buffer s) (data s) ids ks)
  end.

(** [scan_rfid] up to its [strlen], with the first reception: [memset (data, 0,
    sizeof (sizeof ...))] clears the size of a [size_t], four bytes. *)
Definition scan_frame (rx1 : option (list Z)) (s : rfid) : result rfid :=
  d ← rt_memset (data s) 0 0 4;
  s ← rfid_get rx1 (mk_rfid (rx_buffer s) d (check_id s) (keys s));
  copy_frame s.

(** [scan_rfid] behind the [strlen], whose result asks for a second reception
    or not. *)
Definition scan_rest (pos : Z) (again : bool) (rx2 : option (list Z)) (s : rfid) : result (rfid * Z) :=
  s ← (if again then s ← rfid_get rx2 s; copy_frame s else Ok s);
  d ← zset (data s) (ONE_DATA_MAXLEN - 1) 0;
  ks ← code_split d pos (keys s);
  s ← filter_keys (Z.to_nat M606_RFID_NUM) pos (mk_rfid (rx_buffer s) d (check_id s) ks);
  Ok (s, RT_EOK).

(** [rx1] and [rx2] are the receptions.  The [strlen] of a frame that fills
    [data] reads outside the array, which is a wild access. *)
Definition scan_rfid (pos : Z) (rx1 rx2 : option (list Z)) (s : rfid) : result (rfid * Z) :=
  s ← scan_frame rx1 s;
  len ← rt_strlen (data s);
  scan_rest pos (negb (len =? ONE_DATA_MAXLEN + 1) && negb (len =? ONE_DATA_MAXLEN)) rx2 s.

End Scan.
End Rfid.

Module RfidThms.
Import App CMem CMemSpec CMemThms CStr CStrThms Rfid.

(** *** The conversion of a code *)

Definition hex (c : Z) : option Z :=
  if (48 <=? c) && (c <=? 57) then Some (c - 48)
  else if (65 <=? c) && (c <=? 70) then Some (c - 55)
  else if (97 <=? c) && (c <=? 102) then Some (c - 87) else None.

(** What "%02X" reads from two hexadecimal digits. *)
Definition reads_hex (sscanf_X : list Z -> option Z) : Prop :=
  forall a b x y rest, hex a = Some x -> hex b = Some y ->
    sscanf_X (a :: b :: rest) = Some (16 * x + y).

Lemma hex_range c x : hex c = Some x -> 0 <= x < 16 /\ c <> 0.
Proof.
  unfold hex. intros H. repeat case_match; bool_prop; simplify_eq; lia.
Qed.

Lemma le_bytes_byte v : 0 <= v < 256 -> le_bytes v = [v; 0; 0; 0].
Proof.
  intros. unfold le_bytes. rewrite u8_small by done. rewrite !Z.shiftr_div_pow2 by lia.
  rewrite !Z.div_small by lia. done.
Qed.

(** The five bytes of ten digits. *)
Fixpoint pairs (ds : list Z) : list Z :=
  match ds with x :: y :: ds => 16 * x + y :: pairs ds | _ => [] end.

Lemma hex_pair sscanf_X a b x y rest : reads_hex sscanf_X -> hex a = Some x -> hex b = Some y ->
  sscanf_X (a :: b :: rest) = Some (16 * x + y) /\ le_bytes (16 * x + y) = [16 * x + y; 0; 0; 0].
Proof.
  intros Hr Ha Hb. split; [by apply Hr|]. apply hex_range in Ha as [? _], Hb as [? _].
  apply le_bytes_byte. lia.
Qed.

(** C38: a code of ten hexadecimal digits is stored as its five bytes, in
    order; and the conversion, which stores four bytes for each one, clears
    the three bytes behind the code: the key's status, the status that was
    shown last, and the state of its lock. *)
Theorem take_code_decodes sscanf_X k tok ds :
  reads_hex sscanf_X -> length (ch (user_data k)) = 11%nat -> ch (user_data k) !! 10%nat = Some 0 ->
  length (code (user_data k)) = 5%nat -> length tok = 10%nat -> mapM hex tok = Some ds ->
  take_code sscanf_X k tok =
    Ok (mk_key (cur_rfid_code k) (last_rfid_code k) (mk_code (tok ++ [0]) (pairs ds)) 0 0 0).
Proof.
  intros Hr Hch H0 Hcode Ht Hds. apply mapM_Some_1 in Hds.
  destruct tok as [|t0 [|t1 [|t2 [|t3 [|t4 [|t5 [|t6 [|t7 [|t8 [|t9 [|? ?]]]]]]]]]]]; try done.
  repeat match goal with H : Forall2 _ (_ :: _) _ |- _ => inversion H; subst; clear H end.
  match goal with H : Forall2 _ [] _ |- _ => inversion H; subst; clear H end.
  destruct k as [cur last [c cd] ks ls lk]. cbn [ch code user_data] in *.
  destruct c as [|c0 [|c1 [|c2 [|c3 [|c4 [|c5 [|c6 [|c7 [|c8 [|c9 [|c10 [|? ?]]]]]]]]]]]]; try done.
  injection H0 as ->. destruct cd as [|d0 [|d1 [|d2 [|d3 [|d4 [|? ?]]]]]]; try done.
  set (c := [t0; t1; t2; t3; t4; t5; t6; t7; t8; t9; 0]).
  unfold take_code. cbn [ch code user_data]. change (zblit _ 0 _) with (Ok c). red_bind. cbv zeta.
  assert (Hlen : rt_strlen c = Ok 10).
  { apply (rt_strlen_spec [t0; t1; t2; t3; t4; t5; t6; t7; t8; t9]). split; [|by exists []].
    repeat match goal with H : hex ?t = Some _ |- _ => apply hex_range in H as [_ H] end.
    rewrite !not_elem_of_cons. repeat split; try (by apply not_eq_sym). apply not_elem_of_nil. }
  unfold str2hex. rewrite Hlen. red_bind. change (Z.to_nat (10 / 2 + 10 mod 2)) with 5%nat.
  unfold c. cbn [str2hex_loop drop].
  repeat match goal with
  | Ha : hex ?a = Some ?x, Hb : hex ?b = Some ?y |- context [sscanf_X (?a :: ?b :: ?r)] =>
      destruct (hex_pair sscanf_X a b x y r Hr Ha Hb) as [-> ?]
  end.
  unfold code_bytes, store32. cbn [user_data code with_user_data key_status last_key_status lock_status].
  repeat match goal with H : le_bytes ?v = _ |- _ => rewrite H; clear H end. reflexivity.
Qed.

(** The conversion of a library that reads hexadecimal digits. *)
Definition sscanf_hex (s : list Z) : option Z :=
  match s with
  | a :: b :: _ =>
      match hex a, hex b with Some x, Some y => Some (16 * x + y) | Some x, None => Some x | _, _ => None end
  | [a] => hex a
  | [] => None
  end.

Lemma sscanf_hex_ok : reads_hex sscanf_hex.
Proof. intros a b x y rest Ha Hb. cbn. by rewrite Ha, Hb. Qed.

Definition new_key : key_info_t :=
  mk_key [255; 255; 255; 255; 255] [255; 255; 255; 255; 255]
    (mk_code (replicate 11 0) (replicate 5 0)) key_in key_in lock.

(** "12AB00FF9C". *)
Definition card : list Z := [49; 50; 65; 66; 48; 48; 70; 70; 57; 67].

Lemma take_code_decodes_witness : take_code sscanf_hex new_key card =
  Ok (mk_key [255; 255; 255; 255; 255] [255; 255; 255; 255; 255]
        (mk_code (card ++ [0]) [18; 171; 0; 255; 156]) 0 0 0).
Proof.
  apply (take_code_decodes sscanf_hex new_key card [1; 2; 10; 11; 0; 0; 15; 15; 9; 12] sscanf_hex_ok); reflexivity.
Defined.

(** *** The filter *)

(** A scan that finds the code [u] for a key. *)
Definition scan_key (s : key_info_t * Z) (u : list Z) : key_info_t * Z :=
  filter_key (with_user_data s.1 (mk_code (ch (user_data s.1)) u)) s.2.

Definition scan_all (k : key_info_t) (us : list (list Z)) : key_info_t * Z := foldl scan_key (k, 0) us.

(** What a scan does to the current and the last code and to the counter. *)
Definition scan_codes (s : list Z * list Z * Z) (u : list Z) : list Z * list Z * Z :=
  let '(cur, last, id) := s in
  if decide (u = cur) then (cur, cur, 0)
  else if id <? 2 then (cur, last, id + 1) else (u, cur, 0).

Definition codes_of (s : key_info_t * Z) : list Z * list Z * Z :=
  (cur_rfid_code s.1, last_rfid_code s.1, s.2).

Lemma scan_key_codes s u : codes_of (scan_key s u) = scan_codes (codes_of s) u.
Proof.
  destruct s as [k id]. unfold scan_key, filter_key, codes_of, scan_codes. cbn.
  destruct (decide (u = cur_rfid_code k)) as [->|N].
  - by rewrite bool_decide_true by done.
  - rewrite bool_decide_false by done. cbn. by destruct (id <? 2).
Qed.

Lemma scan_all_codes us k :
  codes_of (scan_all k us) = foldl scan_codes (cur_rfid_code k, last_rfid_code k, 0) us.
Proof.
  unfold scan_all. change (_, _, 0) with (codes_of (k, 0)). generalize (k, 0).
  induction us as [|u us IH]; intros s; [done|]. cbn [foldl]. by rewrite IH, scan_key_codes.
Qed.

Lemma scan_all_cur us k :
  cur_rfid_code (scan_all k us).1 = (foldl scan_codes (cur_rfid_code k, last_rfid_code k, 0) us).1.1.
Proof. by rewrite <- scan_all_codes. Qed.

Lemma scan_all_last us k :
  last_rfid_code (scan_all k us).1 = (foldl scan_codes (cur_rfid_code k, last_rfid_code k, 0) us).1.2.
Proof. by rewrite <- scan_all_codes. Qed.

Lemma scan_codes_same cur last id : scan_codes (cur, last, id) cur = (cur, cur, 0).
Proof. cbn. by rewrite decide_True. Qed.

Lemma scan_codes_other cur last id u :
  u <> cur -> scan_codes (cur, last, id) u = if id <? 2 then (cur, last, id + 1) else (u, cur, 0).
Proof. intros H. cbn. by rewrite decide_False. Qed.

(** Evaluate the tests of the counter. *)
Ltac count :=
  repeat match goal with |- context [?a <? 2] => let b := eval vm_compute in (a <? 2) in change (a <? 2) with b end;
  cbv iota.

(** a key changes its code after three scans in a row that differ from
    it, and not before: of three scans after a reset the third one is taken
    when all three differ from the current code, whether or not they agree
    with each other; otherwise the code stays.  The scan that finds the
    current code sets the last code to it as well, so that from then on
    [rfid_printf] has nothing to print. *)
Theorem scan_takes_third k u1 u2 u3 :
  let cur := cur_rfid_code k in
  cur_rfid_code (scan_all k [u1]).1 = cur /\
  cur_rfid_code (scan_all k [u1; u2]).1 = cur /\
  cur_rfid_code (scan_all k [u1; u2; u3]).1 =
    (if decide (u1 <> cur /\ u2 <> cur /\ u3 <> cur) then u3 else cur) /\
  (u1 <> cur -> u2 <> cur -> u3 <> cur ->
     last_rfid_code (scan_all k [u1; u2; u3]).1 = cur /\
     let k4 := (scan_all k [u1; u2; u3; u3]).1 in
     cur_rfid_code k4 = u3 /\ last_rfid_code k4 = u3).
Proof.
  cbv zeta. rewrite !scan_all_cur, !scan_all_last.
  generalize (cur_rfid_code k) (last_rfid_code k). intros c l. cbn [foldl].
  destruct (decide (u1 = c)) as [->|N1]; [rewrite scan_codes_same|rewrite (scan_codes_other c l 0 u1 N1)];
    count.
  - split; [done|]. destruct (decide (u2 = c)) as [->|N2];
      [rewrite scan_codes_same|rewrite (scan_codes_other _ _ _ _ N2)];
      count; (split; [done|]);
      (split; [|by intros []]); rewrite decide_False by tauto;
      (destruct (decide (u3 = c)) as [->|N3]; [by rewrite scan_codes_same|by rewrite (scan_codes_other _ _ _ _ N3)]).
  - split; [done|]. destruct (decide (u2 = c)) as [->|N2];
      [rewrite scan_codes_same|rewrite (scan_codes_other _ _ _ _ N2)];
      count; (split; [done|]).
    + split; [|by intros _ []]. rewrite decide_False by tauto.
      destruct (decide (u3 = c)) as [->|N3]; [by rewrite scan_codes_same|by rewrite (scan_codes_other _ _ _ _ N3)].
    + count.
      destruct (decide (u3 = c)) as [->|N3].
      * rewrite scan_codes_same. split; [|by intros _ _ []]. by rewrite decide_False by tauto.
      * rewrite (scan_codes_other _ _ _ _ N3). count.
        rewrite decide_True by done. split; [done|]. intros _ _ _. by rewrite scan_codes_same.
Qed.

Lemma scan_takes_third_witness :
  let u := [1; 2; 3; 4; 5] in
  last_rfid_code (scan_all new_key [u; u; u]).1 = cur_rfid_code new_key /\
  last_rfid_code (scan_all new_key [u; u; u; u]).1 = u.
Proof.
  destruct (scan_takes_third new_key [1; 2; 3; 4; 5] [1; 2; 3; 4; 5] [1; 2; 3; 4; 5]) as (_ & _ & _ & H).
  destruct H as (H1 & _ & H2); [discriminate|discriminate|discriminate|]. by split.
Defined.

(** *** The types of the static variables *)

Definition key_ok (k : key_info_t) : Prop :=
  length (ch (user_data k)) = 11%nat /\ ch (user_data k) !! 10%nat = Some 0 /\
  length (code (user_data k)) = 5%nat /\ length (cur_rfid_code k) = 5%nat /\
  length (last_rfid_code k) = 5%nat.

Definition rfid_ok (s : rfid) : Prop :=
  zlen (rx_buffer s) = RX_BUFSZ /\ zlen (data s) = ONE_DATA_MAXLEN /\
  zlen (check_id s) = M606_RFID_NUM /\ Forall (fun id => 0 <= id <= 2) (check_id s) /\
  zlen (keys s) = M606_RFID_NUM /\ Forall key_ok (keys s).

Lemma Forall_zget {A} (P : A -> Prop) l i : Forall P l -> 0 <= i < zlen l -> exists x, zget l i = Ok x /\ P x.
Proof.
  intros H Hi. destruct (zget_range l i Hi) as [x Hx]. exists x. split; [done|].
  rewrite zget_nonneg in Hx by lia. destruct (l !! Z.to_nat i) eqn:E; [|done].
  injection Hx as ->. by eapply Forall_lookup_1.
Qed.

Lemma Forall_zset {A} (P : A -> Prop) l i x : Forall P l -> P x -> 0 <= i < zlen l ->
  exists l', zset l i x = Ok l' /\ zlen l' = zlen l /\ Forall P l'.
Proof.
  intros Hl Hx Hi. exists (<[Z.to_nat i := x]> l). split; [by apply zset_Ok|].
  split; [unfold zlen; by rewrite length_insert|]. by apply Forall_insert.
Qed.

Lemma rt_strlen_zero j : forall s, s !! j = Some 0 -> exists n, rt_strlen s = Ok n /\ 0 <= n <= Z.of_nat j.
Proof.
  induction j as [|j IH]; intros [|c s] H; try done; cbn.
  - injection H as ->. by exists 0.
  - destruct (Z.eqb_spec c 0); [exists 0; split; [done|lia]|].
    destruct (IH s H) as (z & -> & ?). red_bind. exists (z + 1). split; [done|lia].
Qed.

Lemma rt_strlen_none s : 0 ∉ s -> rt_strlen s = Err F_wild.
Proof.
  induction s as [|c s IH]; [done|]. intros [Hc Hs]%not_elem_of_cons. cbn.
  rewrite (proj2 (Z.eqb_neq c 0)) by (by apply not_eq_sym). by rewrite IH.
Qed.

(** A zero among the cells from [a] on. *)
Definition zero_in (m : list Z) (a n : Z) : Prop := exists i, a <= i < a + n /\ zget m i = Ok 0.

Lemma zero_in_ext m m' a n : (forall i, a <= i < a + n -> zget m i = zget m' i) -> zero_in m a n <-> zero_in m' a n.
Proof. intros H. split; intros (i & Hi & E); exists i; (split; [done|]); [by rewrite <- H|by rewrite H]. Qed.

Lemma zero_in_first m a n c : zget m a = Ok c -> c <> 0 -> 0 <= n -> zero_in m a (n + 1) <-> zero_in m (a + 1) n.
Proof.
  intros Ec Hc Hn. split; intros (i & Hi & E); exists i; (split; [|done]); [|lia].
  destruct (decide (i = a)) as [->|]; [rewrite Ec in E; by injection E|lia].
Qed.

(** The copy of a frame has a zero exactly when the frame has one. *)
Lemma strncpy_loop_frame n : forall m d a, 0 <= d -> d + Z.of_nat n <= a -> a + Z.of_nat n <= zlen m ->
  exists m', strncpy_loop m d a n = Ok m' /\ zlen m' = zlen m /\
    (forall i, i < d -> zget m' i = zget m i) /\
    (zero_in m' d (Z.of_nat n) <-> zero_in m a (Z.of_nat n)).
Proof.
  induction n as [|n IH]; intros m d a Hd Hda Hal; cbn [strncpy_loop].
  { exists m. split_and!; try done. split; intros (i & Hi & _); lia. }
  destruct (zget_range m a) as [c Ec]; [lia|]. rewrite Ec. red_bind.
  destruct (zset_writes m d c) as (m1 & -> & [L1 W1]); [lia|]. red_bind.
  destruct (Z.eqb_spec c 0) as [->|Hc].
  - destruct (set_bytes_filled n 0 m1 (d + 1)) as (m2 & -> & [L2 W2]); [lia..|]. exists m2.
    split; [done|]. split; [lia|]. split; [intros i Hi; rewrite W2, W1; ranges|].
    split; intros _; [exists a; split; [lia|done]|exists d; split; [lia|]]. rewrite W2, W1. ranges.
  - destruct (IH m1 (d + 1) (a + 1)) as (m2 & -> & L2 & F2 & Z2); [lia..|]. exists m2.
    split; [done|]. split; [lia|]. split; [intros i Hi; rewrite F2, W1 by lia; ranges|].
    rewrite Nat2Z.inj_succ. unfold Z.succ.
    rewrite (zero_in_first m2 d _ c), Z2, (zero_in_first m a _ c) by (done || lia || (rewrite F2, W1 by lia; ranges)).
    apply zero_in_ext. intros i Hi. rewrite W1. ranges.
Qed.

Lemma zero_in_elem (l : list Z) n : 0 <= n <= zlen l -> zero_in l 0 n <-> 0 ∈ take (Z.to_nat n) l.
Proof.
  intros Hn. rewrite list_elem_of_lookup. split.
  - intros (i & Hi & E). exists (Z.to_nat i). rewrite lookup_take_lt by lia.
    rewrite zget_nonneg in E by lia. destruct (l !! Z.to_nat i); [by injection E as ->|done].
  - intros [i Hi]. apply lookup_take_Some in Hi as [Hi Hlt]. exists (Z.of_nat i). split; [lia|].
    rewrite zget_nonneg by lia. by rewrite Nat2Z.id, Hi.
Qed.

Section Typed.
Context (sscanf_X : list Z -> option Z).

Lemma str2hex_loop_total n : forall i str m, 0 <= i -> i + Z.of_nat n + 3 <= zlen m ->
  exists m', str2hex_loop sscanf_X n i str m = Ok m' /\ zlen m' = zlen m.
Proof.
  induction n as [|n IH]; intros i str m Hi Hl; cbn [str2hex_loop]; [by exists m|].
  assert (Hst : exists m1, match sscanf_X str with Some v => store32 m i v | None => Ok m end = Ok m1 /\ zlen m1 = zlen m).
  { destruct (sscanf_X str) as [v|]; [|by exists m].
    destruct (zblit_writes m i (le_bytes v)) as (m1 & E & [L _]); [lia|change (zlen (le_bytes v)) with 4; lia|].
    by exists m1. }
  destruct Hst as (m1 & -> & L1). red_bind.
  destruct (IH (i + 1) (drop 2 str) m1) as (m2 & -> & L2); [lia..|]. exists m2. split; [done|lia].
Qed.

Lemma take_code_ok k tok : key_ok k -> zlen tok = 10 -> exists k', take_code sscanf_X k tok = Ok k' /\ key_ok k'.
Proof.
  intros (Hch & H0 & Hc & Hcur & Hlast) Ht. unfold take_code.
  assert (Hz : zblit (ch (user_data k)) 0 tok = Ok (tok ++ [0])).
  { rewrite zblit_Ok by (unfold zlen in *; lia). cbn [Z.to_nat take Datatypes.app Nat.add].
    change (Z.to_nat 0) with 0%nat. cbn [take Datatypes.app Nat.add].
    replace (length tok) with 10%nat by (unfold zlen in Ht; lia).
    rewrite (drop_S _ _ _ H0). by rewrite drop_ge by lia. }
  rewrite Hz. red_bind. cbv zeta.
  destruct (rt_strlen_zero 10 (tok ++ [0])) as (n & Hn & Hr).
  { replace 10%nat with (length tok) by (unfold zlen in Ht; lia). by apply list_lookup_middle. }
  unfold str2hex. rewrite Hn. red_bind.
  set (m := code_bytes _).
  assert (Hm : zlen m = 8).
  { unfold m, code_bytes, zlen. rewrite length_app. cbn [user_data with_user_data code length]. lia. }
  destruct (str2hex_loop_total (Z.to_nat (n / 2 + n mod 2)) 0 (tok ++ [0]) m) as (m1 & -> & L1); [done|dlia|].
  red_bind. unfold with_code_bytes. cbn [fst].
  destruct (zget_range m1 5) as [? ->]; [lia|]. destruct (zget_range m1 6) as [? ->]; [lia|].
  destruct (zget_range m1 7) as [? ->]; [lia|]. red_bind. eexists. split; [done|].
  unfold key_ok, zlen in *. cbn [user_data ch code with_user_data cur_rfid_code last_rfid_code]. rewrite length_app, length_take. cbn [length]. split_and!; [lia| |lia|done|done].
  replace 10%nat with (length tok) by lia. by apply list_lookup_middle.
Qed.

Lemma split_loop_ok toks : forall i ks, 0 <= i -> zlen ks = M606_RFID_NUM -> Forall key_ok ks ->
  exists ks', split_loop sscanf_X toks i 0 ks = Ok ks' /\ zlen ks' = M606_RFID_NUM /\ Forall key_ok ks'.
Proof.
  induction toks as [|tok toks IH]; intros i ks Hi Hl Hk; cbn [split_loop]; [by exists ks|].
  destruct (Z.ltb_spec i (M606_RFID_NUM + 0)); [|by exists ks].
  destruct (Z.eqb_spec (zlen tok) 10) as [Ht|]; cbn [negb]; [|by apply IH; [lia|..]].
  destruct (Forall_zget _ ks i Hk) as (k & -> & Hki); [lia|]. red_bind.
  destruct (take_code_ok k tok Hki Ht) as (k' & -> & Hk'). red_bind.
  destruct (Forall_zset _ ks i k' Hk Hk') as (ks' & -> & L & F); [lia|]. red_bind.
  apply IH; [lia|congruence|done].
Qed.

Lemma filter_key_ok k id : key_ok k -> 0 <= id <= 2 ->
  key_ok (filter_key k id).1 /\ 0 <= (filter_key k id).2 <= 2.
Proof.
  intros Hk Hid. unfold filter_key. case_match eqn:E; cbn.
  - apply andb_true_iff in E as [_ ?%Z.ltb_lt]. split; [done|lia].
  - split; [|lia]. by destruct Hk as (? & ? & ? & ? & ?).
Qed.

Lemma filter_keys_ok n : forall i s, 0 <= i -> i + Z.of_nat n <= M606_RFID_NUM -> rfid_ok s ->
  exists s', filter_keys n i s = Ok s' /\ rfid_ok s'.
Proof.
  induction n as [|n IH]; intros i s Hi Hn Hs; cbn [filter_keys]; [by exists s|].
  destruct Hs as (Hrx & Hd & Hc & Fc & Hk & Fk).
  destruct (Forall_zget _ (keys s) i Fk) as (k & -> & Kk); [lia|].
  destruct (Forall_zget _ (check_id s) i Fc) as (id & -> & Kid); [lia|]. red_bind.
  destruct (filter_key k id) as [k' id'] eqn:E. pose proof (filter_key_ok k id Kk Kid) as [Kk' Kid'].
  rewrite E in Kk', Kid'. cbn in Kk', Kid'.
  destruct (Forall_zset _ (keys s) i k' Fk Kk') as (ks & -> & Lk & Gk); [lia|].
  destruct (Forall_zset _ (check_id s) i (u8 id') Fc) as (ids & -> & Lc & Gc); [rewrite u8_small; lia|lia|]. red_bind.
  apply IH; [lia..|]. unfold rfid_ok. cbn. split_and!; try done; congruence.
Qed.

Definition rx_ok (rx : option (list Z)) : Prop := from_option (fun b => zlen b <= RX_BUFSZ) True rx.

Lemma rfid_get_ok rx s : rx_ok rx -> rfid_ok s -> exists s', rfid_get rx s = Ok s' /\ rfid_ok s'.
Proof.
  intros Hrx (Hb & Hd & Hc & Fc & Hk & Fk). unfold rfid_get. destruct rx as [b|]; cbn in Hrx.
  - destruct (zblit_writes (rx_buffer s) 0 b) as (b' & -> & [L _]); [done|lia|]. red_bind.
    eexists. split; [done|]. unfold rfid_ok. cbn. split_and!; try done; congruence.
  - red_bind. eexists. split; [done|]. done.
Qed.

Lemma copy_frame_ok s : rfid_ok s -> exists s', copy_frame s = Ok s' /\ rfid_ok s' /\
  (0 ∈ data s' <-> 0 ∈ take (Z.to_nat ONE_DATA_MAXLEN) (rx_buffer s)).
Proof.
  intros (Hb & Hd & Hc & Fc & Hk & Fk). unfold copy_frame, rt_strncpy. cbn [negb ONE_DATA_MAXLEN Z.eqb].
  unfold RX_BUFSZ, ONE_DATA_MAXLEN in *.
  destruct (strncpy_loop_frame (Z.to_nat 80) (data s ++ rx_buffer s) 0 (zlen (data s))) as (m & -> & L & _ & Z);
    [done|try rewrite zlen_app; lia..|]. red_bind. rewrite zlen_app in L. eexists. split; [done|]. split.
  - unfold rfid_ok. cbn. split_and!; try done. unfold zlen in *. rewrite length_take.
    unfold ONE_DATA_MAXLEN. lia.
  - cbn [data]. change (Z.of_nat (Z.to_nat 80)) with 80 in Z. replace (length (data s)) with (Z.to_nat 80) by (unfold zlen in Hd; lia).
    rewrite <- zero_in_elem, Z, <- zero_in_elem by lia. unfold zero_in. rewrite Hd.
    split; intros (i & Hi & E).
    + exists (i - 80). split; [lia|]. rewrite <- E, !zget_nonneg by lia. rewrite lookup_app_r by (unfold zlen in Hd; lia).
      f_equal. f_equal. unfold zlen in Hd. lia.
    + exists (i + 80). split; [lia|]. rewrite <- E, !zget_nonneg by lia. rewrite lookup_app_r by (unfold zlen in Hd; lia).
      f_equal. f_equal. unfold zlen in Hd. lia.
Qed.

Lemma scan_frame_ok rx s : rfid_ok s -> rx_ok rx -> exists s1 s', rfid_get rx s = Ok s1 /\ scan_frame rx s = Ok s' /\
  rfid_ok s' /\ (0 ∈ data s' <-> 0 ∈ take (Z.to_nat ONE_DATA_MAXLEN) (rx_buffer s1)).
Proof.
  intros Hs Hr. unfold scan_frame. destruct (rfid_get_ok rx s Hr Hs) as (s1 & E1 & _).
  assert (Hd0 : zlen (data s) = ONE_DATA_MAXLEN) by apply Hs. unfold ONE_DATA_MAXLEN in Hd0.
  destruct (rt_memset_fills (data s) 0 0 4) as (d & -> & [Ld _]); [lia..|]. red_bind.
  destruct (rfid_get_ok rx (mk_rfid (rx_buffer s) d (check_id s) (keys s)) Hr) as (s2 & E2 & H2).
  { destruct Hs as (? & ? & ? & ? & ? & ?). unfold rfid_ok. cbn. split_and!; try done; congruence. }
  rewrite E2. red_bind. destruct (copy_frame_ok s2 H2) as (s3 & E3 & H3 & Hz). exists s1, s3.
  split_and!; try done. rewrite Hz. unfold rfid_get in E1, E2. cbn [rx_buffer] in E2.
  apply bind_Ok_inv in E1 as (b & Eb & E1). rewrite Eb in E2. cbn [mbind result_bind] in E2.
  by injection E1 as <-; injection E2 as <-.
Qed.

Lemma scan_rest_ok again rx2 s : rfid_ok s -> rx_ok rx2 ->
  exists s', scan_rest sscanf_X 0 again rx2 s = Ok (s', RT_EOK) /\ rfid_ok s'.
Proof.
  intros Hs Hr2. unfold scan_rest.
  assert (H3 : exists s3, (if again then s ← rfid_get rx2 s; copy_frame s else Ok s) = Ok s3 /\ rfid_ok s3).
  { destruct again; [|by exists s]. destruct (rfid_get_ok rx2 s Hr2 Hs) as (s3 & -> & H3). red_bind.
    destruct (copy_frame_ok s3 H3) as (s4 & -> & H4 & _). by exists s4. }
  destruct H3 as (s3 & -> & H3). red_bind.
  destruct H3 as (? & L3 & ? & ? & ? & ?).
  destruct (zset_writes (data s3) (ONE_DATA_MAXLEN - 1) 0) as (d3 & -> & [Ld3 _]); [unfold ONE_DATA_MAXLEN in *; lia|]. red_bind.
  destruct (split_loop_ok (tokens d3 []) 0 (keys s3)) as (ks & E & Lk & Fk); [done..|].
  unfold code_split. rewrite E. red_bind.
  destruct (filter_keys_ok (Z.to_nat M606_RFID_NUM) 0 (mk_rfid (rx_buffer s3) d3 (check_id s3) ks)) as (s4 & -> & Hs4); [done|done| |].
  { unfold rfid_ok. cbn. split_and!; try done; congruence. }
  red_bind. by exists s4.
Qed.


End Typed.

(** An empty reader, and the frame "{12AB00FF9C}". *)
Definition reset_rfid : rfid :=
  mk_rfid (replicate 129 0) (replicate 80 0) (replicate 6 0) (replicate 6 new_key).

Lemma reset_ok : rfid_ok reset_rfid.
Proof. unfold rfid_ok, reset_rfid. cbn. split_and!; try done; repeat constructor; done. Qed.


End RfidThms.
