(* ===== verification/Serial.v ===== *)
(** * The serial framework and the DMA reception of its driver
      (components/drivers/serial/serial.c, drivers/drv_usart.c)

    [Serial] is the framework over any driver: the driver is a class of
    operations on a state of its own.  [Stm32Uart] is the part of the board's
    driver that turns the position of the receiving DMA channel into an event
    of the framework.  [SerialThms] holds the properties, and the interleaving
    of the parts of a transmission by DMA.

    The log of [_serial_check_buffer_size] and the code for POSIX files and
    terminals (not compiled) are left out.  Memory comes from the caller: the
    arguments of [rt_serial_open] say what [rt_malloc] returns. *)
From S2P Require Import Prelude CTypes RingBuffer CString KService Timer Kernel KernelSpec KernelThms Ipc IpcSpec IpcThms DevIpc.
From stdpp Require Import base list gmap.
From Stdlib Require Import ZArith Lia.
Open Scope Z_scope.

Module Serial.
Import Kern Sched Thread IpcList Completion DataQueue.

Definition RT_DEVICE_FLAG_SUSPENDED : Z := 32.
Definition RT_DEVICE_FLAG_STREAM : Z := 64.
Definition RT_DEVICE_FLAG_INT_RX : Z := 256.
Definition RT_DEVICE_FLAG_DMA_RX : Z := 512.
Definition RT_DEVICE_FLAG_INT_TX : Z := 1024.
Definition RT_DEVICE_FLAG_DMA_TX : Z := 2048.

Definition RT_DEVICE_CTRL_RESUME : Z := 1.
Definition RT_DEVICE_CTRL_SUSPEND : Z := 2.
Definition RT_DEVICE_CTRL_CONFIG : Z := 3.
Definition RT_DEVICE_CTRL_SET_INT : Z := 16.
Definition RT_DEVICE_CTRL_CLR_INT : Z := 17.

Definition RT_SERIAL_EVENT_RX_IND : Z := 1.
Definition RT_SERIAL_EVENT_TX_DONE : Z := 2.
Definition RT_SERIAL_EVENT_RX_DMADONE : Z := 3.
Definition RT_SERIAL_EVENT_TX_DMADONE : Z := 4.

Definition RT_SERIAL_DMA_RX : Z := 1.
Definition RT_SERIAL_DMA_TX : Z := 2.

Definition has (x bits : Z) : bool := negb (Z.land x bits =? 0).

(** [struct serial_configure]. *)
Record serial_configure : Type := mk_configure {
  baud_rate : Z;
  data_bits : Z;
  stop_bits : Z;
  parity : Z;
  bit_order : Z;
  invert : Z;
  bufsz : Z
}.

(** [struct rt_serial_rx_fifo]; [buffer] is the memory behind the struct. *)
Record rt_serial_rx_fifo : Type := mk_fifo {
  buffer : list Z;
  put_index : Z;
  get_index : Z;
  is_full : bool
}.

(** What [serial_rx] and [serial_tx] point to; the second member of each is the
    address of the object that threads wait for. *)
Inductive rx_ptr : Type :=
  | RX_NULL
  | RX_FIFO (f : rt_serial_rx_fifo)
  | RX_DMA (activated : bool).

Inductive tx_ptr : Type :=
  | TX_NULL
  | TX_FIFO (c : rt_completion) (o : Z)
  | TX_DMA (activated : bool) (q : rt_data_queue) (o : Z).

(** [struct rt_uart_ops]. *)
Class rt_uart_ops (W : Type) : Type := {
  configure : serial_configure -> W -> result (W * Z);
  control : Z -> Z -> W -> result (W * Z);
  putc : Z -> W -> result (W * Z);
  getc : W -> result (W * Z);
  dma_transmit : Z -> Z -> Z -> W -> result (W * Z)
}.

(** *** The receive buffer, in memory of [n] bytes *)

Definition fifo_init (n : Z) : rt_serial_rx_fifo := mk_fifo (replicate (Z.to_nat n) 0) 0 0 false.

Definition _serial_fifo_calc_recved_len (n : Z) (f : rt_serial_rx_fifo) : Z :=
  if put_index f =? get_index f then (if negb (is_full f) then 0 else n)
  else if get_index f <? put_index f then put_index f - get_index f
  else n - (get_index f - put_index f).

Definition rt_dma_calc_recved_len (n : Z) (f : rt_serial_rx_fifo) : Z := _serial_fifo_calc_recved_len n f.

Definition rt_dma_recv_update_get_index (n : Z) (f : rt_serial_rx_fifo) (len : Z) : result rt_serial_rx_fifo :=
  _ ← rt_assert (len <=? rt_dma_calc_recved_len n f);
  let full := is_full f && (len =? 0) in
  let g := u16 (get_index f + len) in
  Ok (mk_fifo (buffer f) (put_index f) (if n <=? g then g mod n else g) full).

Definition rt_dma_recv_update_put_index (n : Z) (f : rt_serial_rx_fifo) (len : Z) : rt_serial_rx_fifo :=
  let p := u16 (put_index f + len) in
  let '(p, full) :=
    if get_index f <=? put_index f then
      if n <=? p then
        let p := p mod n in (p, if get_index f <=? p then true else is_full f)
      else (p, is_full f)
    else
      if get_index f <=? p then (if n <=? p then p mod n else p, true)
      else (p, is_full f) in
  mk_fifo (buffer f) p (if full then p else get_index f) full.

(** One byte taken out, in interrupt mode. *)
Definition fifo_take (n : Z) (f : rt_serial_rx_fifo) : result (rt_serial_rx_fifo * Z) :=
  ch ← zget (buffer f) (get_index f);
  let g := u16 (get_index f + 1) in
  Ok (mk_fifo (buffer f) (put_index f) (if n <=? g then 0 else g) false, u8 ch).

(** One byte put in by the interrupt; in a full buffer the oldest one goes. *)
Definition fifo_store (n : Z) (f : rt_serial_rx_fifo) (ch : Z) : result rt_serial_rx_fifo :=
  b ← zset (buffer f) (put_index f) (u8 ch);
  let p := u16 (put_index f + 1) in
  let p := if n <=? p then 0 else p in
  if p =? get_index f then
    let g := u16 (get_index f + 1) in
    Ok (mk_fifo b p (if n <=? g then 0 else g) true)
  else Ok (mk_fifo b p (get_index f) (is_full f)).

Fixpoint int_rx (n : Z) (f : rt_serial_rx_fifo) (length : nat) : result (rt_serial_rx_fifo * list Z) :=
  match length with
  | O => Ok (f, [])
  | S length =>
      if (get_index f =? put_index f) && negb (is_full f) then Ok (f, [])
      else
        '(f, ch) ← fifo_take n f;
        '(f, r) ← int_rx n f length;
        Ok (f, ch :: r)
  end.

(** The copy of [_serial_dma_rx], in one or two pieces. *)
Definition dma_rx_copy (n : Z) (f : rt_serial_rx_fifo) (recv_len : Z) : result (list Z) :=
  if get_index f + recv_len <? n then zslice (buffer f) (get_index f) recv_len
  else
    a ← zslice (buffer f) (get_index f) (n - get_index f);
    b ← zslice (buffer f) 0 (u32 (recv_len + get_index f - n));
    Ok (a ++ b).

Definition dma_rx_fifo (n : Z) (f : rt_serial_rx_fifo) (length : Z) : result (rt_serial_rx_fifo * list Z) :=
  let got := rt_dma_calc_recved_len n f in
  let recv_len := if length <? got then u32 length else got in
  data ← dma_rx_copy n f recv_len;
  f ← rt_dma_recv_update_get_index n f recv_len;
  Ok (f, data).

Section Serial.
Context {W : Type} `{rt_uart_ops W}.

(** [struct rt_serial_device] with the members of [struct rt_device] that the
    framework uses; the callbacks work on the kernel and on the driver. *)
Record rt_serial_device : Type := mk_serial {
  flag : Z;
  open_flag : Z;
  ref_count : Z;
  rx_indicate : option (Z -> kernel -> W -> result (kernel * W));
  tx_complete : option (Z -> kernel -> W -> result (kernel * W));
  config : serial_configure;
  serial_rx : rx_ptr;
  serial_tx : tx_ptr
}.

Definition with_flag (d : rt_serial_device) (v : Z) : rt_serial_device :=
  mk_serial v (open_flag d) (ref_count d) (rx_indicate d) (tx_complete d) (config d) (serial_rx d) (serial_tx d).
Definition with_open_flag (d : rt_serial_device) (v : Z) : rt_serial_device :=
  mk_serial (flag d) v (ref_count d) (rx_indicate d) (tx_complete d) (config d) (serial_rx d) (serial_tx d).
Definition with_config (d : rt_serial_device) (c : serial_configure) : rt_serial_device :=
  mk_serial (flag d) (open_flag d) (ref_count d) (rx_indicate d) (tx_complete d) c (serial_rx d) (serial_tx d).
Definition with_rx (d : rt_serial_device) (r : rx_ptr) : rt_serial_device :=
  mk_serial (flag d) (open_flag d) (ref_count d) (rx_indicate d) (tx_complete d) (config d) r (serial_tx d).
Definition with_tx (d : rt_serial_device) (x : tx_ptr) : rt_serial_device :=
  mk_serial (flag d) (open_flag d) (ref_count d) (rx_indicate d) (tx_complete d) (config d) (serial_rx d) x.

Definition add_open (d : rt_serial_device) (v : Z) : rt_serial_device := with_open_flag d (Z.lor (open_flag d) v).
Definition drop_open (d : rt_serial_device) (v : Z) : rt_serial_device :=
  with_open_flag d (Z.land (open_flag d) (Z.lnot v)).

(** The state: the kernel, the device, and the driver with its hardware. *)
Record serial_state : Type := mk_state { kern : kernel; dev : rt_serial_device; drv : W }.

Definition set_dev (s : serial_state) (d : rt_serial_device) : serial_state := mk_state (kern s) d (drv s).
Definition set_drv (s : serial_state) (w : W) : serial_state := mk_state (kern s) (dev s) w.

(** A call of a driver function whose result the framework ignores. *)
Definition drive (s : serial_state) (f : W -> result (W * Z)) : result serial_state :=
  r ← f (drv s); Ok (set_drv s r.1).

(** A cast of [serial_rx] or [serial_tx], asserted not to be null, and one
    that is not. *)
Definition rx_fifo (d : rt_serial_device) : result rt_serial_rx_fifo :=
  match serial_rx d with RX_FIFO f => Ok f | RX_NULL => Err F_assert | RX_DMA _ => Err F_wild end.
Definition rx_dma (d : rt_serial_device) : result bool :=
  match serial_rx d with RX_DMA a => Ok a | RX_NULL => Err F_assert | RX_FIFO _ => Err F_wild end.
Definition tx_fifo (d : rt_serial_device) : result (rt_completion * Z) :=
  match serial_tx d with TX_FIFO c o => Ok (c, o) | _ => Err F_wild end.
Definition tx_dma (d : rt_serial_device) : result (bool * rt_data_queue * Z) :=
  match serial_tx d with TX_DMA a q o => Ok (a, q, o) | _ => Err F_wild end.

(** *** Polling *)

Fixpoint poll_rx (length : nat) (w : W) : result (W * list Z) :=
  match length with
  | O => Ok (w, [])
  | S length =>
      '(w, ch) ← getc w;
      if ch =? -1 then Ok (w, [])
      else if ch =? 10 then Ok (w, [u8 ch])
      else '(w, r) ← poll_rx length w; Ok (w, u8 ch :: r)
  end.

Fixpoint poll_tx (stream : bool) (data : list Z) (w : W) : result W :=
  match data with
  | [] => Ok w
  | c :: data =>
      w ← (if (c =? 10) && stream then r ← putc 13 w; Ok r.1 else Ok w);
      r ← putc c w;
      poll_tx stream data r.1
  end.

(** *** Transmission by interrupt

    A byte that the driver does not take makes the thread wait for the
    completion, after which it tries again; when the thread blocks the result
    is the data that are left. *)
Fixpoint int_tx (fuel : nat) (s : serial_state) (data : list Z) : result (serial_state * option (list Z)) :=
  match data with
  | [] => Ok (s, None)
  | c :: rest =>
      match fuel with
      | O => Err F_fuel
      | S fuel =>
          '(w, r) ← putc c (drv s);
          let s := set_drv s w in
          if r =? -1 then
            '(c, o) ← tx_fifo (dev s);
            '(k, c, t) ← rt_completion_wait (kern s) o c (-1);
            let s := mk_state k (with_tx (dev s) (TX_FIFO c o)) (drv s) in
            match t with
            | Ret _ => int_tx fuel s data
            | Blocked _ => Ok (s, Some data)
            end
          else int_tx fuel s rest
      end
  end.

Definition _serial_int_tx (fuel : nat) (s : serial_state) (data : list Z) : result (serial_state * option (list Z)) :=
  _ ← rt_assert (match serial_tx (dev s) with TX_NULL => false | _ => true end);
  int_tx fuel s data.

(** The thread executes again after [rt_completion_wait]. *)
Definition int_tx_wake (fuel : nat) (s : serial_state) (data : list Z) : result (serial_state * option (list Z)) :=
  '(c, o) ← tx_fifo (dev s);
  '(c, _) ← rt_completion_wait_wake (kern s) c;
  int_tx fuel (set_dev s (with_tx (dev s) (TX_FIFO c o))) data.

(** *** Transmission by DMA

    The three parts of [_serial_dma_tx] between which interrupts are enabled:
    the push, the look at [activated] and the call of the driver. *)

(** The device after a push, and whether the push waits or what it returned. *)
Definition after_push (s : serial_state) (a : bool) (o : Z) (r : kernel * rt_data_queue * turn unit * option Z)
  : serial_state * turn unit :=
  let '(k, q, t, _) := r in (mk_state k (with_tx (dev s) (TX_DMA a q o)) (drv s), t).

Definition dma_tx_push (s : serial_state) (ptr length : Z) : result (serial_state * turn unit) :=
  '(a, q, o) ← tx_dma (dev s);
  r ← rt_data_queue_push (kern s) o q (mk_item ptr length) (-1);
  Ok (after_push s a o r).

Definition dma_tx_push_wake (s : serial_state) (ptr length : Z) : result (serial_state * turn unit) :=
  '(a, q, o) ← tx_dma (dev s);
  r ← rt_data_queue_push_wake (kern s) o q (mk_item ptr length) (-1);
  Ok (after_push s a o r).

(** With interrupts disabled; the flag says that the caller starts the
    transfer. *)
Definition dma_tx_look (s : serial_state) : result (serial_state * bool) :=
  '(a, q, o) ← tx_dma (dev s);
  if negb a then Ok (set_dev s (with_tx (dev s) (TX_DMA true q o)), true) else Ok (s, false).

Definition dma_tx_start (s : serial_state) (ptr length : Z) : result serial_state :=
  drive s (dma_transmit ptr length RT_SERIAL_DMA_TX).

(** After the push; [Blocked] when the queue is full, the result otherwise,
    with the argument of [rt_set_errno]. *)
Definition dma_tx_rest (s : serial_state) (ptr length : Z) (t : turn unit)
  : result (serial_state * turn unit * option Z) :=
  match t with
  | Blocked _ => Ok (s, Blocked tt, None)
  | Ret e =>
      if e =? RT_EOK then
        '(s, start) ← dma_tx_look s;
        s ← (if (start : bool) then dma_tx_start s ptr length else Ok s);
        Ok (s, Ret length, None)
      else Ok (s, Ret 0, Some e)
  end.

(** The whole function, when nothing comes in between; [SerialThms.tx_do]
    interleaves its parts. *)
Definition _serial_dma_tx (s : serial_state) (ptr length : Z) : result (serial_state * turn unit * option Z) :=
  '(s, t) ← dma_tx_push s ptr length; dma_tx_rest s ptr length t.

Definition _serial_dma_tx_wake (s : serial_state) (ptr length : Z) : result (serial_state * turn unit * option Z) :=
  '(s, t) ← dma_tx_push_wake s ptr length; dma_tx_rest s ptr length t.

(** *** The device interface *)

Definition rt_serial_init (s : serial_state) : result (serial_state * Z) :=
  let s := set_dev s (with_tx (with_rx (dev s) RX_NULL) TX_NULL) in
  r ← configure (config (dev s)) (drv s);
  Ok (set_drv s r.1, r.2).

(** Whether the device can be opened with the flags. *)
Definition open_allowed (flag oflag : Z) : bool :=
  forallb (fun f => negb (has oflag f && negb (has flag f)))
    [RT_DEVICE_FLAG_DMA_RX; RT_DEVICE_FLAG_DMA_TX; RT_DEVICE_FLAG_INT_RX; RT_DEVICE_FLAG_INT_TX].

(** The two halves of [rt_serial_open].  [mem] says whether the heap has memory
    for the receive structure. *)
Definition open_rx (s : serial_state) (oflag : Z) (mem : bool) : result serial_state :=
  match serial_rx (dev s) with
  | RX_NULL =>
      if has oflag RT_DEVICE_FLAG_INT_RX then
        _ ← rt_assert mem;
        let d := with_rx (dev s) (RX_FIFO (fifo_init (bufsz (config (dev s))))) in
        drive (set_dev s (add_open d RT_DEVICE_FLAG_INT_RX)) (control RT_DEVICE_CTRL_SET_INT RT_DEVICE_FLAG_INT_RX)
      else if has oflag RT_DEVICE_FLAG_DMA_RX then
        _ ← rt_assert mem;
        s ← (if bufsz (config (dev s)) =? 0 then Ok (set_dev s (with_rx (dev s) (RX_DMA false)))
             else
               let d := with_rx (dev s) (RX_FIFO (fifo_init (bufsz (config (dev s))))) in
               drive (set_dev s d) (control RT_DEVICE_CTRL_CONFIG RT_DEVICE_FLAG_DMA_RX));
        Ok (set_dev s (add_open (dev s) RT_DEVICE_FLAG_DMA_RX))
      else Ok s
  | _ =>
      Ok (if has oflag RT_DEVICE_FLAG_INT_RX then set_dev s (add_open (dev s) RT_DEVICE_FLAG_INT_RX)
          else if has oflag RT_DEVICE_FLAG_DMA_RX then set_dev s (add_open (dev s) RT_DEVICE_FLAG_DMA_RX)
          else s)
  end.

(** [o] is the address of the transmit structure, 0 without memory; [heap] the
    array of the data queue. *)
Definition open_tx (s : serial_state) (oflag o : Z) (heap : option (list rt_data_item)) : result serial_state :=
  match serial_tx (dev s) with
  | TX_NULL =>
      if has oflag RT_DEVICE_FLAG_INT_TX then
        _ ← rt_assert (negb (o =? 0));
        let '(k, c) := rt_completion_init (kern s) o in
        let d := add_open (with_tx (dev s) (TX_FIFO c o)) RT_DEVICE_FLAG_INT_TX in
        drive (mk_state k d (drv s)) (control RT_DEVICE_CTRL_SET_INT RT_DEVICE_FLAG_INT_TX)
      else if has oflag RT_DEVICE_FLAG_DMA_TX then
        _ ← rt_assert (negb (o =? 0));
        let '(k, q, _) := rt_data_queue_init (kern s) o 8 4 heap in
        let d := add_open (with_tx (dev s) (TX_DMA false q o)) RT_DEVICE_FLAG_DMA_TX in
        drive (mk_state k d (drv s)) (control RT_DEVICE_CTRL_CONFIG RT_DEVICE_FLAG_DMA_TX)
      else Ok s
  | _ =>
      Ok (if has oflag RT_DEVICE_FLAG_INT_TX then set_dev s (add_open (dev s) RT_DEVICE_FLAG_INT_TX)
          else if has oflag RT_DEVICE_FLAG_DMA_TX then set_dev s (add_open (dev s) RT_DEVICE_FLAG_DMA_TX)
          else s)
  end.

Definition rt_serial_open (s : serial_state) (oflag : Z) (mem : bool) (o : Z) (heap : option (list rt_data_item))
  : result (serial_state * Z) :=
  if negb (open_allowed (flag (dev s)) oflag) then Ok (s, - RT_EIO)
  else
    let stream_flag :=
      if has oflag RT_DEVICE_FLAG_STREAM || has (open_flag (dev s)) RT_DEVICE_FLAG_STREAM
      then RT_DEVICE_FLAG_STREAM else 0 in
    s ← open_rx (set_dev s (with_open_flag (dev s) (Z.land oflag 255))) oflag mem;
    s ← open_tx s oflag o heap;
    Ok (set_dev s (add_open (dev s) stream_flag), RT_EOK).

(** The two halves of [rt_serial_close]; the memory goes back to the heap. *)
Definition close_rx (s : serial_state) : result serial_state :=
  let d := dev s in
  if has (open_flag d) RT_DEVICE_FLAG_INT_RX then
    _ ← rx_fifo d;
    drive (set_dev s (drop_open (with_rx d RX_NULL) RT_DEVICE_FLAG_INT_RX))
      (control RT_DEVICE_CTRL_CLR_INT RT_DEVICE_FLAG_INT_RX)
  else if has (open_flag d) RT_DEVICE_FLAG_DMA_RX then
    _ ← (if bufsz (config d) =? 0 then _ ← rx_dma d; Ok tt else _ ← rx_fifo d; Ok tt);
    s ← drive s (control RT_DEVICE_CTRL_CLR_INT RT_DEVICE_FLAG_DMA_RX);
    Ok (set_dev s (drop_open (with_rx (dev s) RX_NULL) RT_DEVICE_FLAG_DMA_RX))
  else Ok s.

Definition close_tx (s : serial_state) : result serial_state :=
  let d := dev s in
  if has (open_flag d) RT_DEVICE_FLAG_INT_TX then
    _ ← tx_fifo d;
    drive (set_dev s (drop_open (with_tx d TX_NULL) RT_DEVICE_FLAG_INT_TX))
      (control RT_DEVICE_CTRL_CLR_INT RT_DEVICE_FLAG_INT_TX)
  else if has (open_flag d) RT_DEVICE_FLAG_DMA_TX then
    _ ← tx_dma d;
    Ok (set_dev s (drop_open (with_tx d TX_NULL) RT_DEVICE_FLAG_DMA_TX))
  else Ok s.

Definition rt_serial_close (s : serial_state) : result (serial_state * Z) :=
  if 1 <? ref_count (dev s) then Ok (s, RT_EOK)
  else s ← close_rx s; s ← close_tx s; Ok (s, RT_EOK).

(** [buffer] is the buffer of the caller, at the address [ptr]; the last
    component is the argument of [rt_set_errno]. *)
Definition _serial_dma_rx (s : serial_state) (ptr : Z) (buffer : list Z) (length : Z)
  : result (serial_state * list Z * Z * option Z) :=
  let d := dev s in
  if bufsz (config d) =? 0 then
    a ← rx_dma d;
    if negb a then
      s ← drive (set_dev s (with_rx d (RX_DMA true))) (dma_transmit ptr length RT_SERIAL_DMA_RX);
      Ok (s, buffer, length, None)
    else Ok (s, buffer, 0, Some (- RT_EBUSY))
  else
    f ← rx_fifo d;
    '(f, data) ← dma_rx_fifo (bufsz (config d)) f length;
    b ← zblit buffer 0 data;
    Ok (set_dev s (with_rx d (RX_FIFO f)), b, zlen data, None).

Definition _serial_int_rx (s : serial_state) (buffer : list Z) (length : Z) : result (serial_state * list Z * Z) :=
  f ← rx_fifo (dev s);
  '(f, data) ← int_rx (bufsz (config (dev s))) f (Z.to_nat length);
  b ← zblit buffer 0 data;
  Ok (set_dev s (with_rx (dev s) (RX_FIFO f)), b, zlen data).

Definition _serial_poll_rx (s : serial_state) (buffer : list Z) (length : Z) : result (serial_state * list Z * Z) :=
  '(w, data) ← poll_rx (Z.to_nat length) (drv s);
  b ← zblit buffer 0 data;
  Ok (set_drv s w, b, zlen data).

Definition rt_serial_read (s : serial_state) (ptr : Z) (buffer : list Z) (size : Z)
  : result (serial_state * list Z * Z * option Z) :=
  if size =? 0 then Ok (s, buffer, 0, None)
  else if has (open_flag (dev s)) RT_DEVICE_FLAG_INT_RX then r ← _serial_int_rx s buffer size; Ok (r, None)
  else if has (open_flag (dev s)) RT_DEVICE_FLAG_DMA_RX then _serial_dma_rx s ptr buffer (s32 size)
  else r ← _serial_poll_rx s buffer size; Ok (r, None).

(** What a blocked writer still has to do. *)
Inductive write_wait : Type :=
  | W_int (rest : list Z)
  | W_dma.

Definition int_tx_result (r : serial_state * option (list Z)) (size : Z)
  : serial_state * turn write_wait * option Z :=
  (r.1, match r.2 with None => Ret size | Some rest => Blocked (W_int rest) end, None).

Definition dma_tx_result (r : serial_state * turn unit * option Z) : serial_state * turn write_wait * option Z :=
  let '(s, t, err) := r in (s, match t with Ret n => Ret n | Blocked _ => Blocked W_dma end, err).

Definition rt_serial_write (fuel : nat) (s : serial_state) (ptr : Z) (data : list Z)
  : result (serial_state * turn write_wait * option Z) :=
  if zlen data =? 0 then Ok (s, Ret 0, None)
  else if has (open_flag (dev s)) RT_DEVICE_FLAG_INT_TX then
    r ← _serial_int_tx fuel s data; Ok (int_tx_result r (zlen data))
  else if has (open_flag (dev s)) RT_DEVICE_FLAG_DMA_TX then
    r ← _serial_dma_tx s ptr (zlen data); Ok (dma_tx_result r)
  else
    w ← poll_tx (has (open_flag (dev s)) RT_DEVICE_FLAG_STREAM) data (drv s);
    Ok (set_drv s w, Ret (zlen data), None).

Definition rt_serial_write_wake (fuel : nat) (s : serial_state) (ptr : Z) (data : list Z) (x : write_wait)
  : result (serial_state * turn write_wait * option Z) :=
  match x with
  | W_int rest => r ← int_tx_wake fuel s rest; Ok (int_tx_result r (zlen data))
  | W_dma => r ← _serial_dma_tx_wake s ptr (zlen data); Ok (dma_tx_result r)
  end.

(** [args] is the configuration, if the pointer is not null; other commands
    get it as the number [arg]. *)
Definition rt_serial_control (s : serial_state) (cmd arg : Z) (args : option serial_configure)
  : result (serial_state * Z) :=
  let d := dev s in
  if cmd =? RT_DEVICE_CTRL_SUSPEND then Ok (set_dev s (with_flag d (Z.lor (flag d) RT_DEVICE_FLAG_SUSPENDED)), RT_EOK)
  else if cmd =? RT_DEVICE_CTRL_RESUME then
    Ok (set_dev s (with_flag d (Z.land (flag d) (Z.lnot RT_DEVICE_FLAG_SUSPENDED))), RT_EOK)
  else if cmd =? RT_DEVICE_CTRL_CONFIG then
    match args with
    | Some cfg =>
        if negb (bufsz cfg =? bufsz (config d)) && negb (ref_count d =? 0) then Ok (s, RT_EBUSY)
        else
          let s := set_dev s (with_config d cfg) in
          if negb (ref_count d =? 0) then s ← drive s (configure cfg); Ok (s, RT_EOK) else Ok (s, RT_EOK)
    | None => Ok (s, RT_EOK)
    end
  else r ← control cmd arg (drv s); Ok (set_drv s r.1, r.2).

(** The members that [rt_hw_serial_register] sets, itself and through
    [rt_device_register] (module [Dev]). *)
Definition rt_hw_serial_register (d : rt_serial_device) (flags : Z) : rt_serial_device :=
  mk_serial (u16 flags) 0 0 None None (config d) (serial_rx d) (serial_tx d).

(** *** The interrupt *)

(** [while (1)] of the reception by interrupt: as long as the driver has
    bytes. *)
Definition rx_ind_turn (n : Z) (s : rt_serial_rx_fifo * W)
  : result ((rt_serial_rx_fifo * W) + (rt_serial_rx_fifo * W)) :=
  '(w, ch) ← getc s.2;
  if ch =? -1 then Ok (inr (s.1, w))
  else f ← fifo_store n s.1 ch; Ok (inl (f, w)).

Definition indicate (s : serial_state) (cb : option (Z -> kernel -> W -> result (kernel * W))) (arg : Z)
  : result serial_state :=
  match cb with
  | Some g => r ← g arg (kern s) (drv s); Ok (mk_state r.1 (dev s) r.2)
  | None => Ok s
  end.

Definition isr_rx_ind (fuel : nat) (s : serial_state) : result serial_state :=
  let n := bufsz (config (dev s)) in
  f ← rx_fifo (dev s);
  '(f, w) ← iterate fuel (rx_ind_turn n) (f, drv s);
  let s := mk_state (kern s) (with_rx (dev s) (RX_FIFO f)) w in
  let rx_length := if get_index f <=? put_index f then put_index f - get_index f
                   else n - (get_index f - put_index f) in
  if negb (rx_length =? 0) then indicate s (rx_indicate (dev s)) rx_length else Ok s.

Definition isr_tx_dmadone (s : serial_state) : result serial_state :=
  '(_, q, o) ← tx_dma (dev s);
  '(k, q, _, last, _) ← rt_data_queue_pop (kern s) o q 0;
  '(next, e) ← rt_data_queue_peak q;
  s ← match next with
      | Some x =>
          drive (mk_state k (with_tx (dev s) (TX_DMA true q o)) (drv s))
            (dma_transmit (data_ptr x) (data_size x) RT_SERIAL_DMA_TX)
      | None => Ok (mk_state k (with_tx (dev s) (TX_DMA false q o)) (drv s))
      end;
  match tx_complete (dev s) with
  | Some _ => x ← deref last; indicate s (tx_complete (dev s)) (data_ptr x)
  | None => Ok s
  end.

Definition isr_rx_dmadone (s : serial_state) (length : Z) : result serial_state :=
  let n := bufsz (config (dev s)) in
  if n =? 0 then
    _ ← rx_dma (dev s);
    _ ← rt_assert (match rx_indicate (dev s) with Some _ => true | None => false end);
    s ← indicate s (rx_indicate (dev s)) length;
    Ok (set_dev s (with_rx (dev s) (RX_DMA false)))
  else
    f ← rx_fifo (dev s);
    let f := rt_dma_recv_update_put_index n f (u32 length) in
    let s := set_dev s (with_rx (dev s) (RX_FIFO f)) in
    indicate s (rx_indicate (dev s)) (rt_dma_calc_recved_len n f).

Definition rt_hw_serial_isr (fuel : nat) (s : serial_state) (event : Z) : result serial_state :=
  let e := Z.land event 255 in
  if e =? RT_SERIAL_EVENT_RX_IND then isr_rx_ind fuel s
  else if e =? RT_SERIAL_EVENT_TX_DONE then
    '(c, o) ← tx_fifo (dev s);
    '(k, c) ← rt_completion_done (kern s) o c;
    Ok (mk_state k (with_tx (dev s) (TX_FIFO c o)) (drv s))
  else if e =? RT_SERIAL_EVENT_TX_DMADONE then isr_tx_dmadone s
  else if e =? RT_SERIAL_EVENT_RX_DMADONE then
    isr_rx_dmadone s (Z.shiftr (Z.land event (Z.lnot 255)) 8)
  else Ok s.

End Serial.
Arguments rt_serial_device W : clear implicits.
Arguments serial_state W : clear implicits.
End Serial.

(** ** The DMA reception of the board's driver

    The registers of the hardware are arguments: the flags of the interrupt and
    the counter of the DMA channel ([__HAL_DMA_GET_COUNTER]). *)
Module Stm32Uart.
Import Kern Serial.

Section Uart.
Context {W : Type} `{rt_uart_ops W}.

(** The received part that the driver has reported: [uart->dma_rx.last_index],
    beside the serial device. *)
Record stm32_uart : Type := mk_uart { serial : serial_state W; last_index : Z }.

(** [RT_SERIAL_EVENT_RX_DMADONE | (recv_len << 8)], passed as an [int]. *)
Definition dmadone_event (recv_len : Z) : Z :=
  s32 (Z.lor RT_SERIAL_EVENT_RX_DMADONE (u32 (Z.shiftl recv_len 8))).

Definition report (fuel : nat) (u : stm32_uart) (recv_total_index recv_len : Z) : result stm32_uart :=
  s ← (if negb (recv_len =? 0) then rt_hw_serial_isr fuel (serial u) (dmadone_event recv_len)
       else Ok (serial u));
  Ok (mk_uart s recv_total_index).

Definition recv_total_index (u : stm32_uart) (counter : Z) : Z :=
  u32 (bufsz (config (dev (serial u))) - counter).

(** The two branches of [uart_isr] that receive: [rxne] and [idle] say which
    flag is set with its interrupt enabled. *)
Definition uart_isr (fuel : nat) (u : stm32_uart) (rxne uart_dma_flag idle : bool) (counter : Z) : result stm32_uart :=
  if rxne then s ← rt_hw_serial_isr fuel (serial u) RT_SERIAL_EVENT_RX_IND; Ok (mk_uart s (last_index u))
  else if uart_dma_flag && idle then
    let total := recv_total_index u counter in
    report fuel u total (u32 (total - last_index u))
  else Ok u.

(** [dma_isr], which the callbacks of the channel no longer call. *)
Definition dma_isr (fuel : nat) (u : stm32_uart) (enabled : bool) (counter : Z) : result stm32_uart :=
  if enabled then
    let total := recv_total_index u counter in
    report fuel u total
      (if total =? 0 then u32 (bufsz (config (dev (serial u))) - last_index u) else u32 (total - last_index u))
  else Ok u.

End Uart.
Arguments stm32_uart W : clear implicits.
End Stm32Uart.

(** ** Properties *)
Module SerialThms.
Import Kern IpcList Completion DataQueue Serial Stm32Uart.

(** *** The length in an event *)

Lemma low_bits_apart y : Z.land 3 (256 * y) = 0.
Proof.
  rewrite Z.land_comm. change 3 with (Z.ones 2). rewrite Z.land_ones by lia. change (2 ^ 2) with 4. dlia.
Qed.

(** The length survives, also a negative one. *)
Lemma dmadone_event_ok x : -32768 <= x < 8388608 ->
  let e := dmadone_event (u32 x) in
  Z.land e 255 = RT_SERIAL_EVENT_RX_DMADONE /\ Z.shiftr (Z.land e (Z.lnot 255)) 8 = x.
Proof.
  intros Hx e. set (y := x mod 16777216).
  assert (Hy : u32 (Z.shiftl (u32 x) 8) = 256 * y).
  { rewrite Z.shiftl_mul_pow2 by lia. unfold u32, y. change (2 ^ 8) with 256. dlia. }
  assert (He : e = 256 * x + 3).
  { unfold e, dmadone_event. rewrite Hy.
    pose proof (Z.add_lor_land RT_SERIAL_EVENT_RX_DMADONE (256 * y)) as Hl.
    unfold RT_SERIAL_EVENT_RX_DMADONE in *. rewrite low_bits_apart in Hl.
    replace (Z.lor 3 (256 * y)) with (256 * y + 3) by lia. unfold s32, u32, y. case_bool; dlia. }
  clearbody e. subst e. split.
  - change 255 with (Z.ones 8). rewrite Z.land_ones by lia. change (2 ^ 8) with 256.
    unfold RT_SERIAL_EVENT_RX_DMADONE. dlia.
  - change 255 with (2 ^ 8 - 1). rewrite land_lnot_low by lia. rewrite Z.shiftr_div_pow2 by lia.
    change (2 ^ 8) with 256. dlia.
Qed.

(** *** The stream of received bytes *)

Section Stream.
Context {W : Type} `{rt_uart_ops W}.

(** The DMA channel stores a byte that the device received; [dma_pos] is what
    its counter has left of the buffer. *)
Record history : Type := mk_history {
  uart : stm32_uart W;
  dma_pos : Z;
  stream : list Z;
  announced : nat;
  got : list Z
}.

Definition dma_byte (s : serial_state W) (pos b : Z) : result (serial_state W * Z) :=
  let n := bufsz (config (dev s)) in
  f ← rx_fifo (dev s);
  m ← zset (buffer f) pos b;
  Ok (set_dev s (with_rx (dev s) (RX_FIFO (mk_fifo m (put_index f) (get_index f) (is_full f)))),
      if n <=? pos + 1 then 0 else pos + 1).

(** A byte arrives, the line falls idle, a thread reads into its buffer. *)
Inductive uop : Type :=
  | U_byte (b : Z)
  | U_idle
  | U_read (buffer : list Z) (size : Z).

Definition u_do (h : history) (op : uop) : result history :=
  let s := serial (uart h) in
  match op with
  | U_byte b =>
      r ← dma_byte s (dma_pos h) b;
      Ok (mk_history (mk_uart r.1 (last_index (uart h))) r.2 (stream h ++ [b]) (announced h) (got h))
  | U_idle =>
      u ← uart_isr 0 (uart h) false true true (bufsz (config (dev s)) - dma_pos h);
      Ok (mk_history u (dma_pos h) (stream h) (length (stream h)) (got h))
  | U_read b size =>
      r ← rt_serial_read s 0 b size;
      let '(s, b, n, _) := r in
      Ok (mk_history (mk_uart s (last_index (uart h))) (dma_pos h) (stream h) (announced h)
            (got h ++ take (Z.to_nat n) b))
  end.

(** The number of bytes that nobody has read. *)
Definition unread (h : history) : Z := zlen (stream h) - zlen (got h).

(** The readers keep up, with buffers as large as they say. *)
Definition u_enabled (h : history) (op : uop) : Prop :=
  match op with
  | U_byte _ => unread h + 1 < bufsz (config (dev (serial (uart h))))
  | U_idle => True
  | U_read b size => 0 < size <= zlen b /\ size < 2147483648
  end.

Inductive u_reaches (h0 : history) : history -> Prop :=
  | u_start : u_reaches h0 h0
  | u_step h op h' : u_reaches h0 h -> u_enabled h op -> u_do h op = Ok h' -> u_reaches h0 h'
  | u_other h k w : u_reaches h0 h ->
      u_reaches h0 (mk_history (mk_uart (mk_state k (dev (serial (uart h))) w) (last_index (uart h)))
                      (dma_pos h) (stream h) (announced h) (got h)).

(** The buffer [m] of [n] bytes holds the bytes of [s] from [r] on. *)
Definition holds (n : Z) (m s : list Z) (r : Z) : Prop :=
  forall i, r <= i < zlen s -> m !! Z.to_nat (i mod n) = s !! Z.to_nat i.

Record stream_ok (n : Z) (h : history) : Prop := {
  so_size : 0 < n <= 32768;
  so_config : bufsz (config (dev (serial (uart h)))) = n;
  so_flag : has (open_flag (dev (serial (uart h)))) RT_DEVICE_FLAG_INT_RX = false /\
            has (open_flag (dev (serial (uart h)))) RT_DEVICE_FLAG_DMA_RX = true;
  so_indicate : forall g arg k w, rx_indicate (dev (serial (uart h))) = Some g -> is_Ok (g arg k w);
  so_pos : dma_pos h = zlen (stream h) mod n;
  so_last : last_index (uart h) = Z.of_nat (announced h) mod n;
  so_order : zlen (got h) <= Z.of_nat (announced h) <= zlen (stream h) /\ unread h < n;
  so_got : got h = take (length (got h)) (stream h);
  so_fifo : exists m, serial_rx (dev (serial (uart h))) =
      RX_FIFO (mk_fifo m (Z.of_nat (announced h) mod n) (zlen (got h) mod n) false) /\
    zlen m = n /\ holds n m (stream h) (zlen (got h))
}.

Lemma holds_snoc n m s r b : 0 < n -> zlen m = n -> holds n m s r -> 0 <= r -> zlen s - r < n ->
  holds n (<[Z.to_nat (zlen s mod n) := b]> m) (s ++ [b]) r.
Proof.
  intros Hn Hm Hh Hr Hs i Hi. rewrite zlen_app in Hi. change (zlen [b]) with 1 in Hi.
  pose proof (Z.mod_pos_bound (zlen s) n Hn) as Hb. unfold zlen in *.
  destruct (decide (i = Z.of_nat (length s))) as [->|].
  - rewrite list_lookup_insert_eq by lia. by rewrite Nat2Z.id, lookup_app_r, Nat.sub_diag by lia.
  - rewrite list_lookup_insert_ne.
    + rewrite lookup_app_l by lia. apply Hh. unfold zlen. lia.
    + intros E. apply (DevIpcThms.mod_apart i (Z.of_nat (length s)) n); [lia|lia|].
      apply Z2Nat.inj in E; [done|apply Z.mod_pos_bound; lia|apply Z.mod_pos_bound; lia].
Qed.

Lemma mod_shift r d n : 0 < n -> 0 <= d < n ->
  (r + d) mod n = if r mod n + d <? n then r mod n + d else r mod n + d - n.
Proof.
  intros Hn Hd. pose proof (Z.mod_pos_bound r n Hn). rewrite <- Zplus_mod_idemp_l.
  case_bool; [by apply Z.mod_small; lia|]. symmetry. apply Z.mod_unique_pos with 1; lia.
Qed.

Lemma recved_len n m r a : 0 < n -> 0 <= a - r < n ->
  rt_dma_calc_recved_len n (mk_fifo m (a mod n) (r mod n) false) = a - r.
Proof.
  intros Hn Hd. unfold rt_dma_calc_recved_len, _serial_fifo_calc_recved_len. cbn [put_index get_index is_full negb].
  pose proof (mod_shift r (a - r) n ltac:(lia) ltac:(lia)) as Ea. replace (r + (a - r)) with a in Ea by lia.
  pose proof (Z.mod_pos_bound r n Hn). rewrite Ea. destruct (Z.ltb_spec (r mod n + (a - r)) n); repeat case_bool; lia.
Qed.

Lemma dma_rx_copy_ok n m s r l p full : 0 < n <= 32768 -> zlen m = n -> holds n m s r -> 0 <= r -> 0 <= l < n ->
  r + l <= zlen s ->
  dma_rx_copy n (mk_fifo m p (r mod n) full) l = Ok (take (Z.to_nat l) (drop (Z.to_nat r) s)).
Proof.
  intros Hn Hm Hh Hr Hl Hs. unfold dma_rx_copy. cbn [get_index buffer].
  pose proof (Z.mod_pos_bound r n ltac:(lia)) as Hb. set (g := r mod n) in *.
  assert (Hat : forall i, (i < Z.to_nat l)%nat ->
    take (Z.to_nat l) (drop (Z.to_nat r) s) !! i = m !! Z.to_nat (if g + Z.of_nat i <? n then g + Z.of_nat i else g + Z.of_nat i - n)).
  { intros i Hi. rewrite lookup_take_lt, lookup_drop by done. unfold g. rewrite <- mod_shift by lia.
    rewrite (Hh (r + Z.of_nat i)) by lia. f_equal. lia. }
  assert (Hlen : length (take (Z.to_nat l) (drop (Z.to_nat r) s)) = Z.to_nat l).
  { unfold zlen in Hs. rewrite length_take, length_drop. lia. }
  unfold zlen in Hm. destruct (Z.ltb_spec (g + l) n).
  - rewrite zslice_Ok by (unfold zlen; lia). f_equal. apply list_eq_same_length with (Z.to_nat l); [done| |].
    { rewrite length_take, length_drop. lia. }
    intros i x y Hi. rewrite Hat by done. rewrite lookup_take_lt, lookup_drop by done.
    rewrite (proj2 (Z.ltb_lt _ _)) by lia. replace (Z.to_nat (g + Z.of_nat i)) with (Z.to_nat g + i)%nat by lia.
    intros Hx Hy. congruence.
  - rewrite !zslice_Ok by (unfold zlen; rewrite ?u32_small by lia; lia). rewrite u32_small by lia. red_bind. f_equal.
    apply list_eq_same_length with (Z.to_nat l); [done| |].
    { rewrite length_app, !length_take, !length_drop. lia. }
    intros i x y Hi. rewrite Hat by done. change (Z.to_nat 0) with 0%nat. rewrite drop_0.
    assert (Hl1 : length (take (Z.to_nat (n - g)) (drop (Z.to_nat g) m)) = Z.to_nat (n - g)).
    { rewrite length_take, length_drop. lia. }
    destruct (Z.ltb_spec (g + Z.of_nat i) n).
    + rewrite lookup_app_l by lia. rewrite lookup_take_lt, lookup_drop by lia.
      replace (Z.to_nat (g + Z.of_nat i)) with (Z.to_nat g + i)%nat by lia. intros Hx Hy. congruence.
    + rewrite lookup_app_r by lia. rewrite Hl1, lookup_take_lt by lia.
      replace (Z.to_nat (g + Z.of_nat i - n)) with (i - Z.to_nat (n - g))%nat by lia. intros Hx Hy. congruence.
Qed.

(** A read takes the oldest bytes that were announced. *)
Lemma dma_rx_fifo_ok n m s r a len : 0 < n <= 32768 -> zlen m = n -> holds n m s r -> 0 <= r -> 0 <= a - r < n ->
  a <= zlen s -> 0 < len < 2147483648 ->
  let l := Z.min len (a - r) in
  dma_rx_fifo n (mk_fifo m (a mod n) (r mod n) false) len =
    Ok (mk_fifo m (a mod n) ((r + l) mod n) false, take (Z.to_nat l) (drop (Z.to_nat r) s)).
Proof.
  intros Hn Hm Hh Hr Ha Hs Hlen l. unfold dma_rx_fifo. rewrite recved_len by lia. cbv zeta.
  replace (if len <? a - r then u32 len else a - r) with l
    by (unfold l; case_bool; rewrite ?u32_small by lia; lia).
  rewrite (dma_rx_copy_ok n m s r) by (unfold l; lia || done). red_bind.
  unfold rt_dma_recv_update_get_index. rewrite recved_len by lia.
  rewrite (proj2 (Z.leb_le l (a - r))) by lia. red_bind. cbn [is_full get_index buffer put_index andb rt_assert].
  red_bind. pose proof (Z.mod_pos_bound r n ltac:(lia)) as Hb. rewrite u16_small by lia. do 3 f_equal.
  rewrite <- (Zplus_mod_idemp_l r l). case_bool; [done|]. symmetry. apply Z.mod_small. lia.
Qed.

(** The idle interrupt announces every byte that has arrived. *)
Lemma update_put_ok n m r a t : 0 < n <= 32768 -> 0 <= a - r -> a <= t -> 0 <= r -> t - r < n ->
  rt_dma_recv_update_put_index n (mk_fifo m (a mod n) (r mod n) false) (u32 (t mod n - a mod n)) =
    mk_fifo m (t mod n) (r mod n) false.
Proof.
  intros Hn Ha Ht Hr Hd. unfold rt_dma_recv_update_put_index. cbn [put_index get_index is_full buffer].
  pose proof (Z.mod_pos_bound r n ltac:(lia)). pose proof (Z.mod_pos_bound a n ltac:(lia)).
  pose proof (Z.mod_pos_bound t n ltac:(lia)).
  replace (u16 (a mod n + u32 (t mod n - a mod n))) with (t mod n).
  2:{ unfold u16, u32. dlia. }
  pose proof (mod_shift r (a - r) n ltac:(lia) ltac:(lia)) as Ea. replace (r + (a - r)) with a in Ea by lia.
  pose proof (mod_shift r (t - r) n ltac:(lia) ltac:(lia)) as Et. replace (r + (t - r)) with t in Et by lia.
  destruct (Z.leb_spec (r mod n) (a mod n)).
  - rewrite (proj2 (Z.leb_gt n (t mod n))) by lia. done.
  - rewrite (proj2 (Z.leb_gt (r mod n) (t mod n))); [done|].
    destruct (Z.ltb_spec (r mod n + (a - r)) n); [lia|]. destruct (Z.ltb_spec (r mod n + (t - r)) n); lia.
Qed.

(** What a call does to the history. *)
Definition u_effect (h : history) (op : uop) (h' : history) : Prop :=
  match op with
  | U_byte b => stream h' = stream h ++ [b] /\ announced h' = announced h /\ got h' = got h
  | U_idle => stream h' = stream h /\ announced h' = length (stream h) /\ got h' = got h
  | U_read _ size => stream h' = stream h /\ announced h' = announced h /\
      zlen (got h') = zlen (got h) + Z.min size (Z.of_nat (announced h) - zlen (got h))
  end.

Lemma byte_ok n h b : stream_ok n h -> u_enabled h (U_byte b) ->
  exists h', u_do h (U_byte b) = Ok h' /\ stream_ok n h' /\ u_effect h (U_byte b) h'.
Proof.
  intros [Hn Hc Hf Hi Hp Hl [Ho Hu] Hg (m & Em & Hm & Hh)] He. cbn [u_enabled u_do] in *. rewrite Hc in He.
  unfold unread in *. unfold dma_byte, rx_fifo. rewrite Em. red_bind. cbn [buffer put_index get_index is_full].
  pose proof (Z.mod_pos_bound (zlen (stream h)) n ltac:(lia)) as Hb.
  rewrite Hp, zset_Ok by lia. red_bind. eexists. split; [done|]. split; [|done].
  constructor; cbn [fst snd uart serial dma_pos stream announced got last_index set_dev with_rx dev config serial_rx open_flag rx_indicate]; try done.
  - rewrite Hc, zlen_app. change (zlen [b]) with 1. rewrite <- (Zplus_mod_idemp_l (zlen (stream h)) 1).
    destruct (Z.leb_spec n (zlen (stream h) mod n + 1)).
    + replace (zlen (stream h) mod n + 1) with n by lia. by rewrite Z.mod_same by lia.
    + by rewrite (Z.mod_small (_ + 1)) by lia.
  - unfold unread. cbn [stream got]. rewrite zlen_app. change (zlen [b]) with 1. lia.
  - rewrite Hg at 1. rewrite take_app_le by (unfold zlen in *; lia). done.
  - exists (<[Z.to_nat (zlen (stream h) mod n) := b]> m). split; [done|].
    split; [unfold zlen in *; by rewrite length_insert|].
    apply holds_snoc; try done; (apply zlen_nonneg || lia).
Qed.

Lemma with_rx_same (d : rt_serial_device W) r : serial_rx d = r -> with_rx d r = d.
Proof. intros <-. by destruct d. Qed.

Lemma idle_ok n h : stream_ok n h ->
  exists h', u_do h U_idle = Ok h' /\ stream_ok n h' /\ u_effect h U_idle h'.
Proof.
  intros [Hn Hc Hf Hi Hp Hl [Ho Hu] Hg (m & Em & Hm & Hh)]. cbn [u_do]. unfold uart_isr, recv_total_index.
  rewrite Hc, Hp, Hl. cbn [andb]. unfold unread in Hu.
  pose proof (Z.mod_pos_bound (zlen (stream h)) n ltac:(lia)) as Hb.
  pose proof (Z.mod_pos_bound (Z.of_nat (announced h)) n ltac:(lia)) as Ha. pose proof (zlen_nonneg (got h)) as Hg0.
  replace (u32 (n - (n - zlen (stream h) mod n))) with (zlen (stream h) mod n) by (rewrite u32_small; lia).
  set (x := zlen (stream h) mod n - Z.of_nat (announced h) mod n). unfold report.
  assert (Hok : forall s', dev s' = with_rx (dev (serial (uart h)))
      (RX_FIFO (mk_fifo m (zlen (stream h) mod n) (zlen (got h) mod n) false)) ->
    stream_ok n (mk_history (mk_uart s' (zlen (stream h) mod n)) (zlen (stream h) mod n) (stream h) (length (stream h)) (got h))).
  { intros s' Es. constructor; cbn [uart serial dma_pos stream announced got last_index]; rewrite ?Es;
      cbn [with_rx config open_flag rx_indicate serial_rx]; try done.
    - split; [unfold zlen in *; lia|exact Hu].
    - exists m. by split. }
  destruct (Z.eqb_spec (u32 x) 0) as [E|E]; cbn [negb].
  - red_bind. eexists. split; [done|]. split; [|done]. apply Hok.
    assert (x = 0) by (unfold x, u32 in *; dlia). replace (zlen (stream h) mod n) with (Z.of_nat (announced h) mod n) by lia.
    symmetry. by apply with_rx_same.
  - destruct (dmadone_event_ok x ltac:(lia)) as [E1 E2]. unfold rt_hw_serial_isr. rewrite E1, E2. cbv zeta.
    change (RT_SERIAL_EVENT_RX_DMADONE =? RT_SERIAL_EVENT_RX_IND) with false.
    change (RT_SERIAL_EVENT_RX_DMADONE =? RT_SERIAL_EVENT_TX_DONE) with false.
    change (RT_SERIAL_EVENT_RX_DMADONE =? RT_SERIAL_EVENT_TX_DMADONE) with false.
    change (RT_SERIAL_EVENT_RX_DMADONE =? RT_SERIAL_EVENT_RX_DMADONE) with true. cbv iota.
    unfold isr_rx_dmadone. rewrite Hc, (proj2 (Z.eqb_neq n 0)) by lia. unfold rx_fifo. rewrite Em. red_bind.
    unfold x. rewrite update_put_ok by lia. unfold indicate. cbn [set_dev dev with_rx rx_indicate kern drv].
    destruct (rx_indicate (dev (serial (uart h)))) as [g|] eqn:Eg.
    + destruct (Hi g (rt_dma_calc_recved_len n (mk_fifo m (zlen (stream h) mod n) (zlen (got h) mod n) false))
        (kern (serial (uart h))) (drv (serial (uart h))) eq_refl) as [[k w] ->]. red_bind.
      eexists. split; [done|]. split; [by apply Hok|done].
    + red_bind. eexists. split; [done|]. split; [by apply Hok|done].
Qed.

Lemma read_ok n h b size : stream_ok n h -> u_enabled h (U_read b size) ->
  exists h', u_do h (U_read b size) = Ok h' /\ stream_ok n h' /\ u_effect h (U_read b size) h'.
Proof.
  intros [Hn Hc [Hf1 Hf2] Hi Hp Hl [Ho Hu] Hg (m & Em & Hm & Hh)] [Hb Hsz]. cbn [u_do]. unfold unread in Hu.
  unfold rt_serial_read. rewrite (proj2 (Z.eqb_neq size 0)) by lia. rewrite Hf1, Hf2. unfold _serial_dma_rx.
  rewrite Hc, (proj2 (Z.eqb_neq n 0)) by lia. unfold rx_fifo. rewrite Em. red_bind.
  assert (Es : s32 size = size) by (unfold s32; rewrite u32_small by lia; by rewrite (proj2 (Z.ltb_lt _ _)) by lia).
  pose proof (zlen_nonneg (got h)) as Hg0. rewrite Es.
  rewrite (dma_rx_fifo_ok n m (stream h) (zlen (got h)) (Z.of_nat (announced h)) size) by (done || lia).
  red_bind. remember (Z.min size (Z.of_nat (announced h) - zlen (got h))) as l eqn:El.
  assert (Hl0 : 0 <= l <= size /\ l <= Z.of_nat (announced h) - zlen (got h)) by lia.
  set (data := take (Z.to_nat l) (drop (Z.to_nat (zlen (got h))) (stream h))).
  assert (Hd : length data = Z.to_nat l).
  { unfold data. rewrite length_take, length_drop. unfold zlen in *. lia. }
  rewrite zblit_Ok by (unfold zlen in *; lia). red_bind. change (Z.to_nat 0) with 0%nat. rewrite take_0. cbn [Datatypes.app].
  assert (Ht : take (Z.to_nat (zlen data)) (data ++ drop (0 + length data) b) = data).
  { unfold zlen. by rewrite Nat2Z.id, take_app_length. }
  assert (Hlen : zlen (got h ++ data) = zlen (got h) + l) by (rewrite zlen_app; unfold zlen in *; lia).
  eexists. split; [rewrite Ht; done|]. split; [|cbn; by rewrite Hlen, El].
  constructor; cbn [uart serial dma_pos stream announced got last_index set_dev dev with_rx config open_flag rx_indicate serial_rx]; try done.
  - unfold unread. cbn [stream got]. rewrite Hlen. lia.
  - rewrite length_app, Hd, <- take_take_drop, <- Hg. unfold data, zlen. by rewrite Nat2Z.id.
  - exists m. rewrite Hlen. split_and!; try done. intros i Hr. apply Hh. lia.
Qed.

Lemma u_do_ok n h op : stream_ok n h -> u_enabled h op ->
  exists h', u_do h op = Ok h' /\ stream_ok n h' /\ u_effect h op h'.
Proof. intros I He. destruct op; [by apply byte_ok|by apply idle_ok|by apply read_ok]. Qed.

Lemma u_reaches_ok n h0 h : stream_ok n h0 -> u_reaches h0 h -> stream_ok n h.
Proof.
  intros I0 R. induction R as [|h op h' R IH He E|h k w R [? ? ? ? ? ? ? ? ?]]; [done| |by constructor].
  destruct (u_do_ok n h op IH He) as (h2 & E2 & I' & _). rewrite E in E2. by injection E2 as <-.
Qed.

(** The device after an open: the channel starts at the beginning of the new
    buffer, but [last] is what [uart->dma_rx.last_index] was before, 0 at the
    first open of the device (the array [uart_obj] is static); no open and no
    close sets it. *)
Definition opened (s : serial_state W) (last : Z) : history := mk_history (mk_uart s last) 0 [] 0 [].

Lemma fresh_stream_ok n s : 0 < n <= 32768 -> bufsz (config (dev s)) = n ->
  has (open_flag (dev s)) RT_DEVICE_FLAG_INT_RX = false -> has (open_flag (dev s)) RT_DEVICE_FLAG_DMA_RX = true ->
  (forall g arg k w, rx_indicate (dev s) = Some g -> is_Ok (g arg k w)) ->
  serial_rx (dev s) = RX_FIFO (fifo_init n) -> stream_ok n (opened s 0).
Proof.
  intros Hn Hc H1 H2 Hi Hr. constructor; cbn; try done; [split; [done|unfold unread; cbn; lia]|].
  exists (replicate (Z.to_nat n) 0).
  split; [by rewrite Z.mod_0_l by lia|]. split; [unfold zlen; rewrite length_replicate; lia|].
  intros i Hlt. unfold zlen in Hlt. cbn in Hlt. lia.
Qed.

(** Without a flag for transmission the second half of the open does nothing. *)
Lemma open_tx_none (s : serial_state W) oflag o heap : has oflag RT_DEVICE_FLAG_INT_TX = false ->
  has oflag RT_DEVICE_FLAG_DMA_TX = false -> open_tx s oflag o heap = Ok s.
Proof. intros H1 H2. unfold open_tx. rewrite H1, H2. by destruct (serial_tx (dev s)). Qed.

Lemma open_dma_ok s n :
  serial_rx (dev s) = RX_NULL -> bufsz (config (dev s)) = n -> 0 < n <= 32768 ->
  has (flag (dev s)) RT_DEVICE_FLAG_DMA_RX = true ->
  (forall w, is_Ok (control RT_DEVICE_CTRL_CONFIG RT_DEVICE_FLAG_DMA_RX w)) ->
  (forall g arg k w, rx_indicate (dev s) = Some g -> is_Ok (g arg k w)) ->
  exists s1, rt_serial_open s RT_DEVICE_FLAG_DMA_RX true 0 None = Ok (s1, RT_EOK) /\ stream_ok n (opened s1 0).
Proof.
  intros Hr Hc Hn Hf Hctl Hi. unfold rt_serial_open.
  assert (Ha : open_allowed (flag (dev s)) RT_DEVICE_FLAG_DMA_RX = true).
  { unfold open_allowed. cbn [forallb]. by rewrite Hf. }
  rewrite Ha. cbn [negb]. cbv zeta. set (stream_flag := if _ || _ then _ else 0).
  unfold open_rx at 1. cbn [set_dev dev with_open_flag serial_rx config]. rewrite Hr, Hc.
  change (has RT_DEVICE_FLAG_DMA_RX RT_DEVICE_FLAG_INT_RX) with false.
  change (has RT_DEVICE_FLAG_DMA_RX RT_DEVICE_FLAG_DMA_RX) with true. cbv iota. cbn [rt_assert]. red_bind.
  rewrite (proj2 (Z.eqb_neq n 0)) by lia. unfold drive. cbn [drv set_dev].
  destruct (Hctl (drv s)) as [[w e] ->]. red_bind. rewrite open_tx_none by done. red_bind.
  eexists. split; [done|]. apply fresh_stream_ok; cbn; try done; unfold stream_flag; by destruct (_ || _).
Qed.

(** C6: reception by DMA loses and reorders nothing while the readers keep
    up.  A device opened for reception by DMA for the first time is ready
    (after a close, [reopened_device_garbage] below shows what becomes of it);
    from then on, in any
    interleaving of arriving bytes, idle interrupts and reads, with fewer than
    the buffer's size of bytes unread at any time, no call fails; what the
    readers got is a prefix of what arrived; the idle interrupt announces all
    that has arrived, also when the channel went round the buffer since the
    last one; and a read returns as many of the announced bytes as were asked
    for. *)
Theorem uart_dma_stream s n :
  serial_rx (dev s) = RX_NULL -> bufsz (config (dev s)) = n -> 0 < n <= 32768 ->
  has (flag (dev s)) RT_DEVICE_FLAG_DMA_RX = true ->
  (forall w, is_Ok (control RT_DEVICE_CTRL_CONFIG RT_DEVICE_FLAG_DMA_RX w)) ->
  (forall g arg k w, rx_indicate (dev s) = Some g -> is_Ok (g arg k w)) ->
  exists s1, rt_serial_open s RT_DEVICE_FLAG_DMA_RX true 0 None = Ok (s1, RT_EOK) /\
    forall h, u_reaches (opened s1 0) h ->
      got h `prefix_of` stream h /\
      forall op, u_enabled h op -> exists h', u_do h op = Ok h' /\ u_effect h op h'.
Proof.
  intros Hr Hc Hn Hf Hctl Hi. destruct (open_dma_ok s n Hr Hc Hn Hf Hctl Hi) as (s1 & E & I0).
  exists s1. split; [done|]. intros h R. pose proof (u_reaches_ok n _ h I0 R) as I. split.
  - rewrite (so_got _ _ I). apply prefix_take.
  - intros op He. destruct (u_do_ok n h op I He) as (h' & E' & _ & Hx). by exists h'.
Qed.

End Stream.

(** A driver for examples: the bytes that wait on the line, those that were
    sent, the transfers that were started, and how many bytes the transmitter
    takes before it is full. *)
Record demo_drv : Type := mk_demo {
  line : list Z;
  sent : list Z;
  transfers : list (Z * Z);
  room : nat
}.

#[global] Instance demo_uart : rt_uart_ops demo_drv := {
  configure := fun _ w => Ok (w, RT_EOK);
  control := fun _ _ w => Ok (w, RT_EOK);
  putc := fun c w => match room w with
    | O => Ok (w, -1)
    | S r => Ok (mk_demo (line w) (sent w ++ [c]) (transfers w) r, 1)
    end;
  getc := fun w => match line w with
    | [] => Ok (w, -1)
    | c :: l => Ok (mk_demo l (sent w) (transfers w) (room w), c)
    end;
  dma_transmit := fun p n dir w => Ok (mk_demo (line w) (sent w) (transfers w ++ [(p, n)]) (room w), n)
}.

Definition no_kernel : kernel := mk_kernel ∅ ∅ ∅ 0 0 0 0 0 (TimerOps.mk_tstate ∅ [] [] 0 0).

Definition demo_config (n : Z) : serial_configure := mk_configure 38400 8 1 0 0 0 n.

(** The serial device of a card reader before it is opened. *)
Definition demo_serial (n : Z) : serial_state demo_drv :=
  mk_state no_kernel
    (mk_serial (Z.lor RT_DEVICE_FLAG_DMA_RX RT_DEVICE_FLAG_INT_RX) 0 0 None None (demo_config n) RX_NULL TX_NULL)
    (mk_demo [] [] [] 100).

Fixpoint u_run (h : history) (ops : list uop) : result history :=
  match ops with [] => Ok h | op :: ops => h ← u_do h op; u_run h ops end.

(** A run whose steps are all enabled. *)
Fixpoint u_all_enabled (h : history) (ops : list uop) : Prop :=
  match ops with
  | [] => True
  | op :: ops => u_enabled h op /\ match u_do h op with Ok h => u_all_enabled h ops | Err _ => True end
  end.

Lemma u_run_reaches ops (h0 h h' : @history demo_drv) : u_reaches h0 h -> u_all_enabled h ops -> u_run h ops = Ok h' ->
  u_reaches h0 h'.
Proof.
  revert h. induction ops as [|op ops IH]; intros h R He E; cbn in *; [by injection E as <-|].
  destruct He as [He Hs]. destruct (u_do h op) as [h1|] eqn:Eo; [|done]. apply (IH h1); [|done..].
  by apply (u_step _ h op).
Qed.

Definition demo_run : list uop :=
  [U_byte 10; U_byte 20; U_byte 30; U_idle; U_read (replicate 8 0) 8; U_byte 40; U_byte 50; U_idle].

Lemma uart_dma_stream_witness : exists s1 h, rt_serial_open (demo_serial 4) RT_DEVICE_FLAG_DMA_RX true 0 None = Ok (s1, RT_EOK) /\
  u_run (opened s1 0) demo_run = Ok h /\ dma_pos h = 1 /\ got h `prefix_of` stream h /\
  exists h', u_do h (U_read [0] 1) = Ok h' /\ got h' = [10; 20; 30; 40].
Proof.
  destruct (uart_dma_stream (demo_serial 4) 4 eq_refl eq_refl ltac:(lia) eq_refl) as (s1 & E & Hs);
    [by eexists|intros g arg k w Hg; discriminate Hg|].
  eexists s1, _. split; [exact E|]. vm_compute in E. injection E as <-.
  split; [vm_compute; reflexivity|]. split; [reflexivity|].
  edestruct Hs as [Hp Hx].
  { eapply (u_run_reaches demo_run); [apply u_start| |vm_compute; reflexivity].
    vm_compute. repeat split; discriminate. }
  split; [exact Hp|]. destruct (Hx (U_read [0] 1)) as (h' & E' & _); [vm_compute; repeat split; discriminate|].
  exists h'. split; [exact E'|]. vm_compute in E'. by injection E' as <-.
Defined.

(** *** What reception by DMA does when the readers fall behind *)

(** When the channel is where it was at the last report nothing is announced:
    no byte has arrived, or as many as the buffer holds, which are lost. *)
Definition full_burst : result (list Z * list Z) :=
  r ← rt_serial_open (demo_serial 4) RT_DEVICE_FLAG_DMA_RX true 0 None;
  h ← u_run (opened r.1 0) ((U_byte <$> [7; 7; 7; 7]) ++ [U_idle; U_read (replicate 8 0) 8]);
  Ok (stream h, got h).

Lemma full_burst_is_lost : full_burst = Ok ([7; 7; 7; 7], []).
Proof. vm_compute. reflexivity. Qed.

(** Three frames of 80 bytes arrive before the first of them is read: the
    second read asks for the 160 bytes of its message, and the 129 bytes of
    the reader's buffer are too few. *)
Definition frame : list uop := (U_byte <$> replicate 80 48) ++ [U_idle].

Definition late_reader : result (result history) :=
  r ← rt_serial_open (demo_serial 512) RT_DEVICE_FLAG_DMA_RX true 0 None;
  h ← u_run (opened r.1 0) (frame ++ frame ++ frame ++ [U_read (replicate 129 0) 80]);
  Ok (u_do h (U_read (replicate 129 0) 160)).

Lemma late_reader_overflows : late_reader = Ok (Err F_wild).
Proof. vm_compute. reflexivity. Qed.

(** [last_index] keeps its value when the device is closed: after a second
    open the first frame of 80 bytes announces a full buffer. *)
Definition reopened : result (nat * nat) :=
  r ← rt_serial_open (demo_serial 512) RT_DEVICE_FLAG_DMA_RX true 0 None;
  h ← u_run (opened r.1 0) (frame ++ frame ++ [U_read (replicate 512 0) 512]);
  r ← rt_serial_close (serial (uart h));
  r ← rt_serial_open r.1 RT_DEVICE_FLAG_DMA_RX true 0 None;
  h ← u_run (opened r.1 (last_index (uart h))) (frame ++ [U_read (replicate 512 0) 512]);
  Ok (length (stream h), length (got h)).

Lemma reopened_device_garbage : reopened = Ok (80%nat, 512%nat).
Proof. vm_compute. reflexivity. Qed.

(** *** Reception by interrupt *)

(** The buffer of [n] bytes holds the bytes [l], oldest first; one place stays
    free. *)
Record int_ok (n : Z) (f : rt_serial_rx_fifo) (l : list Z) : Prop := {
  io_size : 1 < n < 65536;
  io_buffer : zlen (buffer f) = n;
  io_get : 0 <= get_index f < n;
  io_held : zlen l < n;
  io_put : put_index f = (get_index f + zlen l) mod n;
  io_data : forall i, 0 <= i < zlen l -> buffer f !! Z.to_nat ((get_index f + i) mod n) = l !! Z.to_nat i;
  io_full : is_full f = true -> l <> []
}.

Lemma next_index p n : 0 <= p < n -> n < 65536 ->
  (if n <=? u16 (p + 1) then 0 else u16 (p + 1)) = (p + 1) mod n.
Proof.
  intros Hp Hn. rewrite u16_small by lia. case_bool; [|by rewrite Z.mod_small by lia].
  replace (p + 1) with n by lia. by rewrite Z.mod_same by lia.
Qed.

Lemma mod_back g i n : 0 < n -> ((g + 1) mod n + i) mod n = (g + (i + 1)) mod n.
Proof. intros Hn. rewrite Zplus_mod_idemp_l. f_equal. lia. Qed.

(** A byte that is stored pushes out the oldest one when the buffer is full. *)
Lemma fifo_store_ok n f l ch : int_ok n f l ->
  exists f', fifo_store n f ch = Ok f' /\ int_ok n f' (Fifo.put_force (Z.to_nat (n - 1)) l [u8 ch]).
Proof.
  intros [Hn Hb Hg Hl Hp Hd Hf]. unfold fifo_store.
  pose proof (Z.mod_pos_bound (get_index f + zlen l) n ltac:(lia)) as Hm.
  rewrite Hp, zset_Ok by lia. red_bind. rewrite !next_index by lia.
  assert (Hnew : forall i, 0 <= i <= zlen l ->
    <[Z.to_nat ((get_index f + zlen l) mod n) := u8 ch]> (buffer f) !! Z.to_nat ((get_index f + i) mod n) =
      (l ++ [u8 ch]) !! Z.to_nat i).
  { intros i Hi. unfold zlen in *. destruct (decide (i = Z.of_nat (length l))) as [->|].
    - rewrite list_lookup_insert_eq by lia. by rewrite Nat2Z.id, lookup_app_r, Nat.sub_diag by lia.
    - rewrite list_lookup_insert_ne.
      + rewrite lookup_app_l by lia. apply Hd. lia.
      + intros E. apply (DevIpcThms.mod_apart (get_index f + i) (get_index f + Z.of_nat (length l)) n); [lia|lia|].
        apply Z2Nat.inj in E; [done|apply Z.mod_pos_bound; lia|apply Z.mod_pos_bound; lia]. }
  rewrite Zplus_mod_idemp_l. unfold Fifo.put_force. rewrite length_app. cbn [length].
  pose proof (zlen_nonneg l) as Hl0. destruct (Z.eq_dec (zlen l) (n - 1)) as [El|El].
  - replace ((get_index f + zlen l + 1) mod n) with (get_index f).
    2:{ rewrite El. replace (get_index f + (n - 1) + 1) with (get_index f + 1 * n) by lia.
        rewrite Z.mod_add by lia. by rewrite Z.mod_small by lia. }
    rewrite Z.eqb_refl. eexists. split; [done|].
    replace (length l + 1 - Z.to_nat (n - 1))%nat with 1%nat by (unfold zlen in *; lia).
    assert (Hlen : zlen (drop 1 (l ++ [u8 ch])) = zlen l).
    { unfold zlen. rewrite length_drop, length_app. cbn [length]. lia. }
    constructor; cbn [buffer put_index get_index is_full]; rewrite ?Hlen; try done.
    + unfold zlen in *. by rewrite length_insert.
    + apply Z.mod_pos_bound. lia.
    + rewrite mod_back by lia. rewrite El. replace (get_index f + (n - 1 + 1)) with (get_index f + 1 * n) by lia.
      rewrite Z.mod_add by lia. by rewrite Z.mod_small by lia.
    + intros i Hi. rewrite mod_back by lia. rewrite Hnew by lia. rewrite lookup_drop. f_equal. lia.
    + intros _ E. rewrite E in Hlen. unfold zlen in Hlen at 1. cbn in Hlen. lia.
  - rewrite (proj2 (Z.eqb_neq _ _)).
    2:{ intros E. apply (DevIpcThms.mod_apart (get_index f) (get_index f + zlen l + 1) n); [lia|lia|].
        rewrite E. by apply Z.mod_small. }
    eexists. split; [done|].
    replace (length l + 1 - Z.to_nat (n - 1))%nat with 0%nat by (unfold zlen in *; lia). rewrite drop_0.
    assert (Hlen : zlen (l ++ [u8 ch]) = zlen l + 1) by by rewrite zlen_app.
    constructor; cbn [buffer put_index get_index is_full]; rewrite ?Hlen; try done; try lia.
    + unfold zlen in *. by rewrite length_insert.
    + f_equal. lia.
    + intros i Hi. apply Hnew. lia.
    + intros _ E. rewrite E in Hlen. unfold zlen in Hlen at 1. cbn in Hlen. lia.
Qed.

Lemma fifo_take_ok n f c l : int_ok n f (c :: l) -> exists f', fifo_take n f = Ok (f', u8 c) /\ int_ok n f' l.
Proof.
  intros [Hn Hb Hg Hl Hp Hd Hf]. unfold fifo_take.
  assert (Hz : zlen (c :: l) = zlen l + 1) by (unfold zlen; cbn [length]; lia). pose proof (zlen_nonneg l) as Hl0.
  assert (Hc : buffer f !! Z.to_nat (get_index f) = Some c).
  { pose proof (Hd 0 ltac:(lia)) as H0. rewrite Z.add_0_r, Z.mod_small in H0 by lia. exact H0. }
  rewrite (zget_Ok _ _ c) by (done || lia). red_bind. rewrite next_index by lia. eexists. split; [done|].
  constructor; cbn [buffer put_index get_index is_full]; try done; try lia.
  - apply Z.mod_pos_bound. lia.
  - rewrite mod_back by lia. rewrite Hp, Hz. done.
  - intros i Hi. rewrite mod_back by lia. rewrite Hd by lia. by replace (Z.to_nat (i + 1)) with (S (Z.to_nat i)) by lia.
Qed.

Lemma fifo_empty n f l : int_ok n f l ->
  (get_index f =? put_index f) && negb (is_full f) = bool_decide (l = []).
Proof.
  intros [Hn Hb Hg Hl Hp Hd Hf]. destruct l as [|c l].
  - rewrite Hp. change (zlen []) with 0. rewrite Z.add_0_r, Z.mod_small, Z.eqb_refl by lia.
    destruct (is_full f); [by destruct (Hf eq_refl)|done].
  - rewrite bool_decide_false by done. rewrite (proj2 (Z.eqb_neq _ _)); [done|]. rewrite Hp.
    intros E. assert (Hz : zlen (c :: l) = zlen l + 1) by (unfold zlen; cbn [length]; lia). pose proof (zlen_nonneg l).
    apply (DevIpcThms.mod_apart (get_index f) (get_index f + zlen (c :: l)) n); [lia|lia|].
    rewrite <- E. by apply Z.mod_small.
Qed.

Lemma int_rx_ok n len : forall f l, int_ok n f l ->
  exists f', int_rx n f len = Ok (f', map u8 (take len l)) /\ int_ok n f' (drop len l).
Proof.
  induction len as [|len IH]; intros f l I; cbn [int_rx].
  { exists f. by rewrite take_0, drop_0. }
  rewrite (fifo_empty n f l I). destruct l as [|c l].
  - rewrite bool_decide_true by done. exists f. by rewrite take_nil, drop_nil.
  - rewrite bool_decide_false by done. destruct (fifo_take_ok n f c l I) as (f1 & -> & I1). red_bind.
    destruct (IH f1 l I1) as (f2 & -> & I2). red_bind. by exists f2.
Qed.

Lemma put_force_app cap (q a b : list Z) :
  Fifo.put_force cap (Fifo.put_force cap q a) b = Fifo.put_force cap q (a ++ b).
Proof.
  unfold Fifo.put_force. rewrite app_assoc. set (s := q ++ a). rewrite (length_app (drop _ s) b), length_drop.
  destruct (Nat.le_gt_cases (length s) cap) as [Hle|Hgt].
  - replace (length s - cap)%nat with 0%nat by lia. rewrite drop_0, length_app. f_equal. lia.
  - rewrite <- (drop_app_le s b) by lia. rewrite drop_drop, length_app. f_equal. lia.
Qed.

Section Interrupt.
Context {W : Type} `{rt_uart_ops W}.

(** The driver has the bytes [l] and then no more. *)
Inductive delivers : W -> list Z -> W -> Prop :=
  | delivers_end w w' : getc w = Ok (w', -1) -> delivers w [] w'
  | delivers_byte w w1 w' c l : getc w = Ok (w1, c) -> c <> -1 -> delivers w1 l w' -> delivers w (c :: l) w'.

Lemma rx_ind_ok n w bs w' : delivers w bs w' -> forall fuel f l, int_ok n f l -> (length bs < fuel)%nat ->
  exists f', iterate fuel (rx_ind_turn n) (f, w) = Ok (f', w') /\
    int_ok n f' (Fifo.put_force (Z.to_nat (n - 1)) l (map u8 bs)).
Proof.
  induction 1 as [w w' Hw|w w1 w' c bs Hw Hc _ IH]; intros [|fuel] f l I Hfuel; try (cbn in Hfuel; lia);
    cbn [iterate]; unfold rx_ind_turn; cbn [fst snd]; rewrite Hw; red_bind.
  - exists f. split; [done|]. unfold Fifo.put_force. cbn [map]. rewrite app_nil_r.
    replace (length l - _)%nat with 0%nat; [by rewrite drop_0|]. pose proof (io_held _ _ _ I). unfold zlen in *. lia.
  - rewrite (proj2 (Z.eqb_neq _ _)) by done. destruct (fifo_store_ok n f l c I) as (f1 & -> & I1). red_bind.
    destruct (IH fuel f1 _ I1) as (f2 & E & I2); [cbn in Hfuel; lia|]. exists f2. split; [exact E|].
    by rewrite put_force_app in I2.
Qed.

Lemma rx_length_ok n f l : int_ok n f l ->
  (if get_index f <=? put_index f then put_index f - get_index f else n - (get_index f - put_index f)) = zlen l.
Proof.
  intros [Hn Hb Hg Hl Hp _ _]. pose proof (zlen_nonneg l). pose proof (mod_shift (get_index f) (zlen l) n ltac:(lia) ltac:(lia)) as E.
  rewrite (Z.mod_small (get_index f)) in E by lia. rewrite Hp, E. repeat case_bool; lia.
Qed.

(** C16: reception by interrupt keeps the newest bytes.  The interrupt takes
    every byte that the driver has; the buffer of n bytes then holds the
    newest n - 1 of the bytes it held and of the new ones, and the callback
    gets their number; a read takes the oldest of them, in order. *)
Theorem serial_int_rx fuel s f n l bs w' :
  serial_rx (dev s) = RX_FIFO f -> bufsz (config (dev s)) = n -> int_ok n f l -> delivers (drv s) bs w' ->
  (length bs < fuel)%nat -> has (open_flag (dev s)) RT_DEVICE_FLAG_INT_RX = true ->
  (forall g arg k w, rx_indicate (dev s) = Some g -> is_Ok (g arg k w)) ->
  let held := Fifo.put_force (Z.to_nat (n - 1)) l (map u8 bs) in
  exists s1 f1, rt_hw_serial_isr fuel s RT_SERIAL_EVENT_RX_IND = Ok s1 /\
    serial_rx (dev s1) = RX_FIFO f1 /\ int_ok n f1 held /\
    match rx_indicate (dev s) with
    | Some g => held <> [] -> g (zlen held) (kern s) w' = Ok (kern s1, drv s1)
    | None => kern s1 = kern s /\ drv s1 = w'
    end /\
    forall b size, 0 < size <= zlen b -> exists s2 f2,
      let data := map u8 (take (Z.to_nat size) held) in
      rt_serial_read s1 0 b size = Ok (s2, data ++ drop (length data) b, zlen data, None) /\
      serial_rx (dev s2) = RX_FIFO f2 /\ int_ok n f2 (drop (Z.to_nat size) held).
Proof.
  intros Er Hc I Hd Hfuel Hf Hi held.
  destruct (rx_ind_ok n _ bs w' Hd fuel f l I Hfuel) as (f1 & E & I1). fold held in I1.
  set (s0 := mk_state (kern s) (with_rx (dev s) (RX_FIFO f1)) w').
  assert (Hisr : rt_hw_serial_isr fuel s RT_SERIAL_EVENT_RX_IND =
    if negb (zlen held =? 0) then indicate s0 (rx_indicate (dev s)) (zlen held) else Ok s0).
  { unfold rt_hw_serial_isr. change (Z.land RT_SERIAL_EVENT_RX_IND 255 =? RT_SERIAL_EVENT_RX_IND) with true. cbv iota.
    unfold isr_rx_ind, rx_fifo. rewrite Er, Hc. red_bind. rewrite E. red_bind. by rewrite (rx_length_ok n f1 held I1). }
  assert (Hs1 : exists s1, rt_hw_serial_isr fuel s RT_SERIAL_EVENT_RX_IND = Ok s1 /\ dev s1 = with_rx (dev s) (RX_FIFO f1) /\
    match rx_indicate (dev s) with
    | Some g => held <> [] -> g (zlen held) (kern s) w' = Ok (kern s1, drv s1)
    | None => kern s1 = kern s /\ drv s1 = w'
    end).
  { rewrite Hisr. unfold indicate. destruct (Z.eqb_spec (zlen held) 0) as [E0|E0]; cbn [negb].
    - exists s0. split; [done|]. split; [done|]. destruct (rx_indicate (dev s)); [|done].
      intros Hne. destruct held; [done|]. unfold zlen in E0. cbn [length] in E0. lia.
    - destruct (rx_indicate (dev s)) as [g|] eqn:Eg; [|by exists s0].
      destruct (Hi g (zlen held) (kern s) w' eq_refl) as [[k w] Ek]. cbn [kern drv s0]. rewrite Ek. red_bind.
      by exists (mk_state k (with_rx (dev s) (RX_FIFO f1)) w). }
  destruct Hs1 as (s1 & -> & Ed & Hcb). exists s1, f1. split; [done|]. split; [by rewrite Ed|]. split; [done|]. split; [done|].
  intros b size Hsz. destruct (int_rx_ok n (Z.to_nat size) f1 held I1) as (f2 & Erx & I2).
  unfold rt_serial_read. rewrite (proj2 (Z.eqb_neq size 0)) by lia. rewrite Ed. cbn [with_rx open_flag]. rewrite Hf.
  unfold _serial_int_rx, rx_fifo. rewrite Ed. cbn [with_rx serial_rx config]. red_bind. rewrite Hc, Erx. red_bind.
  rewrite zblit_Ok by (try done; unfold zlen in *; rewrite length_map, length_take; lia). red_bind.
  eexists _, f2. split; [done|]. done.
Qed.

End Interrupt.

Lemma serial_int_rx_witness : exists s1 f1, rt_hw_serial_isr 10
    (mk_state no_kernel (mk_serial 256 256 1 None None (demo_config 4) (RX_FIFO (mk_fifo [9; 0; 0; 0] 1 0 false)) TX_NULL)
       (mk_demo [1; 2; 3; 4] [] [] 0)) RT_SERIAL_EVENT_RX_IND = Ok s1 /\
  serial_rx (dev s1) = RX_FIFO f1 /\ int_ok 4 f1 [2; 3; 4].
Proof.
  destruct (serial_int_rx 10
    (mk_state no_kernel (mk_serial 256 256 1 None None (demo_config 4) (RX_FIFO (mk_fifo [9; 0; 0; 0] 1 0 false)) TX_NULL)
       (mk_demo [1; 2; 3; 4] [] [] 0)) (mk_fifo [9; 0; 0; 0] 1 0 false) 4 [9] [1; 2; 3; 4] (mk_demo [] [] [] 0))
    as (s1 & f1 & E & E1 & I & _); [reflexivity|reflexivity| | |cbn; lia|reflexivity|intros g arg k w Hg; discriminate Hg|].
  - constructor; cbn; try done; try lia. intros i Hi. unfold zlen in Hi. cbn in Hi. by replace i with 0 by lia.
  - do 4 (eapply delivers_byte; [reflexivity|done|]). by apply delivers_end.
  - exists s1, f1. split; [exact E|]. split; [exact E1|exact I].
Defined.

(** *** Transmission *)

Section Transmit.
Context {W : Type} `{rt_uart_ops W}.

(** The driver takes the bytes [l], one after the other. *)
Inductive takes : W -> list Z -> W -> Prop :=
  | takes_none w : takes w [] w
  | takes_byte w w1 w' c r l : putc c w = Ok (w1, r) -> takes w1 l w' -> takes w (c :: l) w'.

(** Carriage returns in front of the line feeds. *)
Definition crlf (stream : bool) (data : list Z) : list Z :=
  concat (map (fun c => if (c =? 10) && stream then [13; c] else [c]) data).

(** Polled transmission sends the data, in stream mode with the carriage
    returns, and counts them without. *)
Lemma serial_poll_tx fuel s ptr data w' :
  has (open_flag (dev s)) RT_DEVICE_FLAG_INT_TX = false -> has (open_flag (dev s)) RT_DEVICE_FLAG_DMA_TX = false ->
  takes (drv s) (crlf (has (open_flag (dev s)) RT_DEVICE_FLAG_STREAM) data) w' ->
  rt_serial_write fuel s ptr data = Ok (set_drv s w', Ret (zlen data), None).
Proof.
  intros H1 H2. unfold rt_serial_write. rewrite H1, H2. set (stream := has _ RT_DEVICE_FLAG_STREAM).
  assert (Hp : forall data w, takes w (crlf stream data) w' -> poll_tx stream data w = Ok w').
  { clear. induction data as [|c data IH]; intros w Ht; cbn [poll_tx].
    - inversion Ht; by subst.
    - unfold crlf in Ht. cbn [map concat] in Ht. destruct ((c =? 10) && stream).
      + inversion Ht as [|? w1 ? ? r1 ? E1 Ht1]; subst. inversion Ht1 as [|? w2 ? ? r2 ? E2 Ht2]; subst.
        rewrite E1. red_bind. cbn [fst]. rewrite E2. red_bind. by apply IH.
      + inversion Ht as [|? w1 ? ? r1 ? E1 Ht1]; subst. red_bind. rewrite E1. red_bind. by apply IH. }
  intros Ht. destruct (Z.eqb_spec (zlen data) 0) as [E0|E0].
  - destruct data; [|unfold zlen in E0; cbn [length] in E0; lia]. inversion Ht. by destruct s.
  - rewrite (Hp data (drv s) Ht). by red_bind.
Qed.

(** *** Transmission by DMA *)

(** The driver starts the transfers [l], one after the other. *)
Inductive transmits : W -> list rt_data_item -> W -> Prop :=
  | transmits_none w : transmits w [] w
  | transmits_item w l w1 x w2 r : transmits w l w1 ->
      dma_transmit (data_ptr x) (data_size x) RT_SERIAL_DMA_TX w1 = Ok (w2, r) -> transmits w (l ++ [x]) w2.

(** Where the writer is in [_serial_dma_tx]: it has pushed its buffer, or it
    has set [activated] and is about to call the driver. *)
Inductive writer : Type :=
  | W_none
  | W_pushed (x : rt_data_item)
  | W_starts (x : rt_data_item).

(** The device, the buffers that were queued so far, the number of transfers
    that ended, whether a transfer goes on, and the writer. *)
Record tx_history : Type := mk_tx {
  t_state : serial_state W;
  t_queued : list rt_data_item;
  t_done : nat;
  t_going : bool;
  t_writer : writer
}.

Inductive txop : Type :=
  | T_push (ptr length : Z)
  | T_wake (ptr length : Z)
  | T_look
  | T_start
  | T_dmadone.

Definition pushed (h : tx_history) (ptr length : Z) (r : serial_state W * turn unit) : tx_history :=
  let x := mk_item ptr length in
  match r with
  | (s, Ret e) =>
      if e =? RT_EOK then mk_tx s (t_queued h ++ [x]) (t_done h) (t_going h) (W_pushed x)
      else mk_tx s (t_queued h) (t_done h) (t_going h) W_none
  | (s, Blocked _) => mk_tx s (t_queued h) (t_done h) (t_going h) W_none
  end.

(** [rt_hw_serial_isr] has started the next transfer where it leaves
    [activated] set. *)
Definition activated (s : serial_state W) : bool :=
  match serial_tx (dev s) with TX_DMA a _ _ => a | _ => false end.

Definition tx_do (h : tx_history) (op : txop) : result tx_history :=
  match op with
  | T_push ptr length => r ← dma_tx_push (t_state h) ptr length; Ok (pushed h ptr length r)
  | T_wake ptr length => r ← dma_tx_push_wake (t_state h) ptr length; Ok (pushed h ptr length r)
  | T_look =>
      '(s, start) ← dma_tx_look (t_state h);
      Ok (mk_tx s (t_queued h) (t_done h) (t_going h)
        (match t_writer h with W_pushed x => if (start : bool) then W_starts x else W_none | x => x end))
  | T_start =>
      match t_writer h with
      | W_starts x =>
          s ← dma_tx_start (t_state h) (data_ptr x) (data_size x);
          Ok (mk_tx s (t_queued h) (t_done h) true W_none)
      | _ => Ok h
      end
  | T_dmadone =>
      s ← rt_hw_serial_isr 0 (t_state h) RT_SERIAL_EVENT_TX_DMADONE;
      Ok (mk_tx s (t_queued h) (S (t_done h)) (activated s) (t_writer h))
  end.

(** One writer at a time, and a transfer ends when one goes on; but the
    writer's own transfer, which the interrupt may start, does not end before
    the writer has looked at [activated].  Without these conditions buffers
    are sent twice or not at all ([write_race_sends_twice],
    [two_writers_lose] below). *)
Definition tx_enabled (h : tx_history) (op : txop) : Prop :=
  match op with
  | T_push _ _ | T_wake _ _ =>
      (exists c, IpcThms.may_block (kern (t_state h)) c) /\ zlen (t_queued h) < 65535 /\ t_writer h = W_none
  | T_look => exists x, t_writer h = W_pushed x
  | T_start => exists x, t_writer h = W_starts x
  | T_dmadone => t_going h = true /\
      match t_writer h with W_pushed _ => (S (t_done h) < length (t_queued h))%nat | _ => True end
  end.

(** The kernel changes as other threads and interrupts make it. *)
Inductive tx_reaches (h0 : tx_history) : tx_history -> Prop :=
  | tx_first : tx_reaches h0 h0
  | tx_step h op h' : tx_reaches h0 h -> tx_enabled h op -> tx_do h op = Ok h' -> tx_reaches h0 h'
  | tx_other h k : tx_reaches h0 h -> KernOk.kernel_ok k ->
      tx_reaches h0 (mk_tx (mk_state k (dev (t_state h)) (drv (t_state h))) (t_queued h) (t_done h) (t_going h) (t_writer h)).

(** The transfers that were started: those that ended, and the one that goes
    on. *)
Definition started (h : tx_history) : list rt_data_item :=
  take (t_done h + if t_going h then 1 else 0) (t_queued h).

(** [activated], for each place of the writer. *)
Definition writer_ok (h : tx_history) (a : bool) : Prop :=
  match t_writer h with
  | W_none => a = t_going h /\ t_going h = bool_decide (t_done h < length (t_queued h))%nat
  | W_pushed x => a = t_going h /\ last (t_queued h) = Some x /\ (t_done h < length (t_queued h))%nat /\
      (t_going h = false -> S (t_done h) = length (t_queued h))
  | W_starts x => a = true /\ t_going h = false /\ last (t_queued h) = Some x /\ S (t_done h) = length (t_queued h)
  end.

Record tx_ok (w0 : W) (h : tx_history) : Prop := {
  to_kernel : KernOk.kernel_ok (kern (t_state h));
  to_silent : tx_complete (dev (t_state h)) = None;
  to_queue : exists a q o, serial_tx (dev (t_state h)) = TX_DMA a q o /\
    DevIpcThms.dq_ok q (t_queued h) (t_done h) /\ writer_ok h a;
  to_started : transmits w0 (started h) (drv (t_state h))
}.

Context (transmit_ok : forall p n w, is_Ok (dma_transmit p n RT_SERIAL_DMA_TX w)).

Lemma dq_done q P n : DevIpcThms.dq_ok q P n -> (n <= length P)%nat.
Proof. intros [_ _ _ _ _ Hh _]. unfold zlen in Hh. lia. Qed.

Lemma last_at {A} (l : list A) x n : last l = Some x -> S n = length l -> l !! n = Some x.
Proof. rewrite last_lookup. intros E Hn. by rewrite <- Hn in E. Qed.

(** A push, of a writer that came or that was woken. *)
Lemma pushed_ok w0 h a q o ptr length c :
  tx_ok w0 h -> IpcThms.may_block (kern (t_state h)) c -> zlen (t_queued h) < 65535 -> t_writer h = W_none ->
  serial_tx (dev (t_state h)) = TX_DMA a q o -> DevIpcThms.dq_ok q (t_queued h) (t_done h) -> writer_ok h a ->
  exists r, rt_data_queue_push (kern (t_state h)) o q (mk_item ptr length) (-1) = Ok r /\
    tx_ok w0 (pushed h ptr length (after_push (t_state h) a o r)).
Proof.
  intros [K Hs _ Hst] Hb Hl Hw Et D Ha. unfold writer_ok in Ha. rewrite Hw in Ha. destruct Ha as [-> Hg].
  pose proof (dq_done _ _ _ D) as Hle.
  destruct (Z.eq_dec (index_difference q) (dq_size q)) as [E|E].
  { destruct (DevIpcThms.push_full _ o _ (mk_item ptr length) (-1) c Hb E) as (k' & -> & K'); [done|reflexivity|].
    eexists. split; [done|]. constructor; try done. exists (t_going h), q, o. by split_and!. }
  destruct (DevIpcThms.push_room _ o _ (mk_item ptr length) (-1) _ _ K D Hl E) as (k' & q' & e & -> & K' & _ & D').
  eexists. split; [done|]. constructor; try done.
  - exists (t_going h), q', o. split_and!; [done..|]. unfold writer_ok.
    cbn [after_push pushed Z.eqb RT_EOK t_writer t_going t_queued t_done].
    rewrite last_snoc, length_app. cbn [Datatypes.length]. split_and!; [done..|lia|].
    intros E0. rewrite E0 in Hg. symmetry in Hg. apply bool_decide_eq_false in Hg. lia.
  - unfold started in *. cbn [after_push pushed Z.eqb RT_EOK t_going t_queued t_done t_state drv].
    rewrite take_app_le; [done|]. rewrite Hg. case_bool_decide; lia.
Qed.

Lemma push_ok w0 h ptr length : tx_ok w0 h -> tx_enabled h (T_push ptr length) ->
  exists h', tx_do h (T_push ptr length) = Ok h' /\ tx_ok w0 h'.
Proof.
  intros I ((c & Hb) & Hl & Hw). destruct (to_queue _ _ I) as (a & q & o & Et & D & Ha).
  destruct (pushed_ok w0 h a q o ptr length c I Hb Hl Hw Et D Ha) as (r & E & I').
  cbn [tx_do]. unfold dma_tx_push, tx_dma. rewrite Et. red_bind. rewrite E. red_bind. by eexists.
Qed.

Lemma wake_ok w0 h ptr length : tx_ok w0 h -> tx_enabled h (T_wake ptr length) ->
  exists h', tx_do h (T_wake ptr length) = Ok h' /\ tx_ok w0 h'.
Proof.
  intros I ((c & Hb) & Hl & Hw). destruct (to_queue _ _ I) as (a & q & o & Et & D & Ha).
  cbn [tx_do]. unfold dma_tx_push_wake, tx_dma. rewrite Et. red_bind.
  unfold rt_data_queue_push_wake, Thread.rt_thread_self.
  rewrite (KernInv.thread_at_Ok _ _ c) by apply Hb. red_bind.
  destruct (Z.eqb_spec (error c) RT_EOK) as [Ec|Ec]; cbn [negb].
  - destruct (pushed_ok w0 h a q o ptr length c I Hb Hl Hw Et D Ha) as (r & E & I').
    rewrite E. red_bind. by eexists.
  - red_bind. eexists. split; [done|]. cbn [after_push pushed]. rewrite (proj2 (Z.eqb_neq _ _)) by done.
    destruct I as [K Hs _ Hst]. constructor; try done. exists a, q, o. split_and!; [done..|].
    unfold writer_ok in *. by rewrite Hw in Ha.
Qed.

Lemma look_ok w0 h : tx_ok w0 h -> tx_enabled h T_look -> exists h', tx_do h T_look = Ok h' /\ tx_ok w0 h'.
Proof.
  intros [K Hs (a & q & o & Et & D & Ha) Hst] [x Hw]. unfold writer_ok in Ha. rewrite Hw in Ha.
  destruct Ha as (-> & Hlast & Hlt & Hg). cbn [tx_do]. unfold dma_tx_look, tx_dma. rewrite Et, Hw. red_bind.
  destruct (t_going h) eqn:Eg; cbn [negb]; red_bind; (eexists; split; [done|]); constructor; try done;
    try (unfold started in *; by rewrite ?Eg in * ).
  - exists true, q, o. split_and!; [done..|]. split; [done|]. cbn. symmetry. by apply bool_decide_eq_true.
  - exists true, q, o. split_and!; [done..|]. unfold writer_ok. cbn. by split_and!; [..|apply Hg].
Qed.

Lemma start_ok w0 h : tx_ok w0 h -> tx_enabled h T_start -> exists h', tx_do h T_start = Ok h' /\ tx_ok w0 h'.
Proof.
  intros [K Hs (a & q & o & Et & D & Ha) Hst] [x Hw]. unfold writer_ok in Ha. rewrite Hw in Ha.
  destruct Ha as (-> & Hg & Hlast & Hd). cbn [tx_do]. rewrite Hw. unfold dma_tx_start, drive.
  destruct (transmit_ok (data_ptr x) (data_size x) (drv (t_state h))) as [[w r] Ew]. rewrite Ew. red_bind.
  eexists. split; [done|]. constructor; try done.
  - exists true, q, o. split_and!; [done..|]. split; [done|]. cbn. symmetry. apply bool_decide_eq_true. lia.
  - unfold started in *. cbn [t_going t_done t_queued t_state drv set_drv fst]. rewrite Hg, Nat.add_0_r in Hst.
    rewrite Nat.add_1_r, (take_S_r _ _ x) by by apply last_at.
    by apply (transmits_item _ _ (drv (t_state h)) x w r).
Qed.

Lemma dmadone_ok w0 h : tx_ok w0 h -> tx_enabled h T_dmadone -> exists h', tx_do h T_dmadone = Ok h' /\ tx_ok w0 h'.
Proof.
  intros [K Hs (a & q & o & Et & D & Ha) Hst] [Hg Hwr].
  assert (Hlt : (t_done h < length (t_queued h))%nat).
  { unfold writer_ok in Ha. destruct (t_writer h); [|apply Ha|destruct Ha as (_ & Hg' & _); congruence].
    destruct Ha as [_ Ha]. rewrite Hg in Ha. symmetry in Ha. by apply bool_decide_eq_true in Ha. }
  assert (Hst' : transmits w0 (take (S (t_done h)) (t_queued h)) (drv (t_state h))).
  { unfold started in Hst. rewrite Hg, Nat.add_1_r in Hst. exact Hst. }
  cbn [tx_do]. change (rt_hw_serial_isr 0 (t_state h) RT_SERIAL_EVENT_TX_DMADONE) with (isr_tx_dmadone (t_state h)).
  unfold isr_tx_dmadone, tx_dma. rewrite Et. red_bind.
  assert (Hne : DataQueue.get_index q <> DataQueue.put_index q).
  { destruct D as [_ _ -> -> _ _ _]. unfold zlen. lia. }
  destruct (DevIpcThms.pop_item _ o _ 0 _ _ K D Hne) as (k' & q' & x & e & -> & K' & Ex & _ & D'). red_bind.
  destruct (DevIpcThms.peak_ok _ _ _ D') as [e' ->]. red_bind.
  destruct (t_queued h !! S (t_done h)) as [y|] eqn:Ey.
  - unfold drive. cbn [drv]. destruct (transmit_ok (data_ptr y) (data_size y) (drv (t_state h))) as [[w r] Ew].
    rewrite Ew. red_bind. cbn [set_drv dev with_tx tx_complete kern drv fst]. rewrite Hs. red_bind.
    apply lookup_lt_Some in Ey as Hy. eexists. split; [done|]. constructor; try done.
    + exists true, q', o. split_and!; [done..|]. unfold writer_ok in *.
      cbn [t_writer t_going t_queued t_done activated dev with_tx serial_tx].
      destruct (t_writer h) as [|x'|x']; [|by destruct Ha as (_ & ? & _)|by destruct Ha as (_ & Hg' & _); congruence].
      split; [done|]. symmetry. by apply bool_decide_eq_true.
    + unfold started. cbn [t_queued t_done t_state drv t_going activated dev with_tx serial_tx].
      rewrite Nat.add_1_r, (take_S_r _ _ y) by done. by apply (transmits_item _ _ (drv (t_state h)) y w r).
  - red_bind. cbn [dev with_tx tx_complete]. rewrite Hs. apply lookup_ge_None in Ey.
    eexists. split; [done|]. constructor; try done.
    + exists false, q', o. split_and!; [done..|]. unfold writer_ok in *.
      cbn [t_writer t_going t_queued t_done activated dev with_tx serial_tx].
      destruct (t_writer h) as [|x'|x']; [|lia|by destruct Ha as (_ & Hg' & _); congruence].
      split; [done|]. symmetry. apply bool_decide_eq_false. lia.
    + unfold started. cbn [t_queued t_done t_state drv t_going activated dev with_tx serial_tx].
      by rewrite Nat.add_0_r.
Qed.

Lemma tx_do_ok w0 h op : tx_ok w0 h -> tx_enabled h op -> exists h', tx_do h op = Ok h' /\ tx_ok w0 h'.
Proof. intros I He. destruct op; [by apply push_ok|by apply wake_ok|by apply look_ok|by apply start_ok|by apply dmadone_ok]. Qed.


End Transmit.

Definition demo_tx : serial_state demo_drv :=
  mk_state IpcThms.sem_demo
    (mk_serial RT_DEVICE_FLAG_DMA_TX RT_DEVICE_FLAG_DMA_TX 1 None None (demo_config 4) RX_NULL
       (TX_DMA false (rt_data_queue_init IpcThms.sem_demo 300 8 4 (Some (replicate 8 (mk_item 0 0)))).1.2 300))
    (mk_demo [] [] [] 0).

Fixpoint tx_run (h : @tx_history demo_drv) (ops : list txop) : result tx_history :=
  match ops with [] => Ok h | op :: ops => h ← tx_do h op; tx_run h ops end.

Definition demo_tx0 : tx_history := mk_tx demo_tx [] 0 false W_none.


(** *** What the two conditions keep away *)

(** The transfer of the writer's own buffer ends before it looks: it starts it
    again. *)
Definition write_race : result (list (Z * Z)) :=
  h ← tx_run demo_tx0 [T_push 5000 16; T_look; T_start; T_push 6000 8; T_dmadone; T_dmadone; T_look; T_start];
  Ok (transfers (drv (t_state h))).

Lemma write_race_sends_twice : write_race = Ok [(5000, 16); (6000, 8); (6000, 8)].
Proof. vm_compute. reflexivity. Qed.

(** A second writer comes between the push of the first one and its look: the
    buffer of the first one is never sent, that of the second one twice. *)
Definition two_writers : result (list (Z * Z) * bool) :=
  r ← dma_tx_push demo_tx 5000 16;
  r ← _serial_dma_tx r.1 6000 8;
  r ← dma_tx_look r.1.1;
  s ← rt_hw_serial_isr 0 r.1 RT_SERIAL_EVENT_TX_DMADONE;
  s ← rt_hw_serial_isr 0 s RT_SERIAL_EVENT_TX_DMADONE;
  Ok (transfers (drv s), activated s).

Lemma two_writers_lose : two_writers = Ok ([(6000, 8); (6000, 8)], false).
Proof. vm_compute. reflexivity. Qed.

(** *** Transmission by interrupt *)

Section TransmitInt.
Context {W : Type} `{rt_uart_ops W}.

(** The driver takes the bytes [l]; in between it may refuse some. *)
Inductive sends : W -> list Z -> W -> Prop :=
  | sends_none w : sends w [] w
  | sends_byte w w1 w' c r l : putc c w = Ok (w1, r) -> r <> -1 -> sends w1 l w' -> sends w (c :: l) w'
  | sends_refused w w1 w' c l : putc c w = Ok (w1, -1) -> sends w1 l w' -> sends w l w'.

Context (putc_ok : forall c w, is_Ok (putc c w)).

(** C17: transmission by interrupt sends all data in order: the writer returns
    when the driver has taken every byte, or it waits for the completion with
    the bytes that are left; a bounded number of calls of the driver is
    enough for either. *)
Theorem serial_int_tx_sends fuel data : forall s c o x,
  serial_tx (dev s) = TX_FIFO c o -> IpcThms.may_block (kern s) x -> lst (kern s) (L_wait o) = [] ->
  (2 * length data + (if (c_flag c =? RT_COMPLETED)%Z then 1 else 0) < fuel)%nat ->
  exists s' r, int_tx fuel s data = Ok (s', r) /\
    match r with
    | None => sends (drv s) data (drv s') /\ kern s' = kern s
    | Some rest => exists l, data = l ++ rest /\ rest <> [] /\ sends (drv s) l (drv s') /\
        lst (kern s') (L_wait o) = [current (kern s)] /\ current (kern s') <> current (kern s)
    end.
Proof.
  induction fuel as [|fuel IH] in data |- *; intros s c o x Et Hb El Hf; [lia|].
  destruct data as [|b data]; cbn [int_tx].
  { exists s, None. split; [done|]. split; [constructor|done]. }
  destruct (putc_ok b (drv s)) as [[w r] Ew]. rewrite Ew. red_bind. cbn [length] in Hf.
  destruct (Z.eqb_spec r (-1)) as [->|Hr].
  - unfold tx_fifo. cbn [set_drv dev kern]. rewrite Et. red_bind.
    destruct (Z.eqb_spec (c_flag c) RT_COMPLETED) as [Ec|Ec].
    + unfold rt_completion_wait. rewrite (proj2 (Z.eqb_eq _ _) Ec). cbn [negb]. red_bind. cbn [drv set_drv].
      destruct (IH (b :: data) (mk_state (kern s) (with_tx (dev s) (TX_FIFO (mk_completion RT_UNCOMPLETED) o)) w)
        (mk_completion RT_UNCOMPLETED) o x eq_refl Hb El) as (s' & r & -> & Hx); [cbn in *; lia|].
      exists s', r. split; [done|]. destruct r as [rest|].
      * destruct Hx as (l & E & Hne & Hs & Hl). exists l. split; [done|]. split; [done|]. split; [|done].
        by apply (sends_refused _ w _ b).
      * destruct Hx as [Hs Hk]. split; [|done]. by apply (sends_refused _ w _ b).
    + destruct (DevIpcThms.completion_blocks (kern s) o c x (-1) Hb El ltac:(done) ltac:(reflexivity) Ec)
        as (k' & -> & (_ & Hcur & El' & _)). red_bind. eexists _, _. split; [done|].
      exists []. split; [done|]. split; [done|]. cbn [drv set_drv kern]. split; [|done].
      apply (sends_refused _ w _ b); [done|constructor].
  - destruct (IH data (set_drv s w) c o x Et Hb El) as (s' & r' & -> & Hx); [lia|]. exists s', r'. split; [done|].
    destruct r' as [rest|].
    + destruct Hx as (l & -> & Hne & Hs & Hl). exists (b :: l). split; [done|]. split; [done|]. split; [|done].
      by apply (sends_byte _ w _ b r).
    + destruct Hx as [Hs Hk]. split; [|done]. by apply (sends_byte _ w _ b r).
Qed.

End TransmitInt.

Definition demo_int_tx : serial_state demo_drv :=
  mk_state IpcThms.sem_demo (mk_serial 0 RT_DEVICE_FLAG_INT_TX 1 None None (demo_config 4) RX_NULL
    (TX_FIFO (mk_completion RT_UNCOMPLETED) 300)) (mk_demo [] [] [] 2).

Lemma demo_putc_ok (c : Z) (w : demo_drv) : is_Ok (putc c w).
Proof. cbn. destruct (room w); by eexists. Qed.

Lemma serial_int_tx_sends_witness : exists s' rest, int_tx 10 demo_int_tx [1; 2; 3; 4] = Ok (s', Some rest) /\
  rest = [3; 4] /\ sent (drv s') = [1; 2] /\ lst (kern s') (L_wait 300) = [3].
Proof.
  destruct (serial_int_tx_sends (W := demo_drv)
    demo_putc_ok 10 [1; 2; 3; 4] demo_int_tx
    (mk_completion RT_UNCOMPLETED) 300 _ eq_refl IpcThms.sem_demo_may eq_refl ltac:(cbn; lia)) as (s' & r & E & Hr).
  assert (Er : (r ← int_tx 10 demo_int_tx [1; 2; 3; 4]; Ok (r.2, sent (drv r.1))) = Ok (Some [3; 4], [1; 2]))
    by (vm_compute; reflexivity).
  rewrite E in Er. injection Er as -> Hsent. destruct Hr as (l & _ & _ & _ & Hw & _).
  exists s', [3; 4]. split; [exact E|]. split; [done|]. split; [exact Hsent|exact Hw].
Defined.

(** *** The open flags *)

Section Flags.
Context {W : Type} `{rt_uart_ops W}.

(** An open without a flag that the device supports fails and changes
    nothing; a second open keeps the buffers, and replaces the open flags by
    its own: a device that was open for reception and is opened for
    transmission only is polled from then on. *)
Lemma open_refused s oflag mem o heap : open_allowed (flag (dev s)) oflag = false ->
  rt_serial_open s oflag mem o heap = Ok (s, - RT_EIO).
Proof. intros E. unfold rt_serial_open. by rewrite E. Qed.

Lemma second_open_drops_reception s f oflag mem o heap s' :
  serial_rx (dev s) = RX_FIFO f -> has oflag RT_DEVICE_FLAG_INT_RX = false -> has oflag RT_DEVICE_FLAG_DMA_RX = false ->
  has oflag RT_DEVICE_FLAG_INT_TX = false -> has oflag RT_DEVICE_FLAG_DMA_TX = false ->
  rt_serial_open s oflag mem o heap = Ok (s', RT_EOK) ->
  serial_rx (dev s') = RX_FIFO f /\ has (open_flag (dev s')) RT_DEVICE_FLAG_INT_RX = false /\
  has (open_flag (dev s')) RT_DEVICE_FLAG_DMA_RX = false.
Proof.
  intros Er H1 H2 H3 H4 E. unfold rt_serial_open in E. destruct (open_allowed _ _); [|done].
  cbn [negb] in E. unfold open_rx in E. cbn [set_dev dev with_open_flag serial_rx] in E. rewrite Er, H1, H2 in E.
  cbn [mbind result_bind] in E. rewrite open_tx_none in E by done. cbn [mbind result_bind] in E. injection E as <-.
  cbn [set_dev dev add_open with_open_flag open_flag serial_rx]. split; [done|].
  assert (Hl : forall (b : bool) m, Z.land 255 m = 0 -> Z.land RT_DEVICE_FLAG_STREAM m = 0 ->
    has (Z.lor (Z.land oflag 255) (if b then RT_DEVICE_FLAG_STREAM else 0)) m = false).
  { intros b m Hm Hs. unfold has. rewrite Z.land_lor_distr_l, <- Z.land_assoc, Hm, Z.land_0_r.
    destruct b; [by rewrite Hs|done]. }
  by split; apply Hl.
Qed.

(** What the first open made the last close takes back; a close of a device
    with more users does nothing. *)
Lemma close_shared s : 1 < ref_count (dev s) -> rt_serial_close s = Ok (s, RT_EOK).
Proof. intros E. unfold rt_serial_close. by rewrite (proj2 (Z.ltb_lt _ _) E). Qed.

End Flags.
End SerialThms.
